(* ===== verification/_CoqProject ===== *)
-Q . S2P
Prelude.v
Text.v
Crc16.v
RingBuffer.v
FrameParser.v
FrameScan.v
Float64.v
SensorData.v
DeviceData.v
Modbus.v
Posix.v
Logger.v
SerialPort.v
DeviceInterface.v
UartDevice.v
ModbusDevice.v
Can.v
CanDevice.v
DeviceManager.v
Stopping.v
RuntimeMetrics.v
TcpClient.v
MessageCache.v
FileCache.v
Sql.v
SqliteCache.v
ReliablePublisher.v
MqttClient.v
ConfigData.v
Config.v
RuntimeStatus.v
HttpServer.v
Json.v
Publisher.v
Shutdown.v
Gateway.v
MainThread.v
System.v
Gauge.v
Restart.v
Endpoints.v
Pipeline.v
Accounting.v
DevicePipeline.v
Progress.v
Locks.v
