(* ===== verification/Prelude.v ===== *)
(** * Linux IoT edge gateway: a verification library

    The program of [src/src] reads sensors over three kinds of input (a framed serial
    line, Modbus RTU, CAN), turns what it reads into readings, and publishes each
    reading on MQTT, with a cache for the times when the broker does not answer, and
    on TCP. An HTTP server reports its health and its metrics. This library models
    the C++ code of the program and proves what each part promises, and what the parts
    promise together.

    ** The parts and where they are modelled

    - Foundations. [Prelude] (this file): integers of fixed width, the result type
      [exec] of code that can throw or not end, tactics. [Text]: lines, fields,
      numerals. [Float64]: the [double] arithmetic of the readings. [Posix]: what
      system calls answer, the descriptor table [os] with its double-close flag,
      complete sends.
    - Serial frames. [Crc16] ([protocol/crc16.cpp]), [RingBuffer]
      ([protocol/byte_ring_buffer.h]), [FrameParser] ([protocol/frame_parser.cpp]).
      [FrameScan] has the reference decoder of a byte stream and the theorems that
      compare the parser with it.
    - Readings. [SensorData] ([app/sensor_data.cpp]), [DeviceData]
      ([device/device_data.cpp], the types of [device/device_interface.h]).
    - Protocols and lines. [Modbus] ([modbus/modbus_rtu.cpp]), [SerialPort]
      ([device/serial_port.cpp]), [Can] ([can/]).
    - Devices. [DeviceInterface] has the class [DeviceInterface] of the operations and
      the class [DeviceLaws] of what an adapter promises. [UartDevice], [ModbusDevice]
      and [CanDevice] model [device/uart_device.cpp], [modbus_device.cpp] and
      [can_device.cpp] and give the instances. [DeviceManager]
      ([device/device_manager.cpp]) is proved against the interface alone. [Stopping] is
      the race of [DeviceManager::stop] with a worker for the descriptor of a device, one
      memory access or system call at a time.
    - Metrics. [RuntimeMetrics] ([app/runtime_metrics.cpp]); [update] is one atomic
      update of a counter.
    - The cache. [MessageCache] has the classes [MessageCache] (operations) and
      [CacheLaws] (a queue whose failed operations change nothing). [FileCache] and
      [SqliteCache] model [cache/file_cache.cpp] and [cache/sqlite_cache.cpp] and give
      the instances. [Sql] has the part of SQL that the cache uses: tokens, a parser, and
      the relational meaning of the statements.
    - Publishing. [TcpClient] ([tcp/tcp_client.cpp]), [MqttClient]
      ([mqtt/mqtt_client.cpp]), [ReliablePublisher] ([mqtt/reliable_publisher.cpp],
      over any client and any cache), [Publisher] ([publisher/]).
    - Configuration. [ConfigData] ([config/gateway_config.h]) and [Config]
      ([config/gateway_config.cpp], over an abstract YAML library).
    - Reporting. [RuntimeStatus] ([app/runtime_status.cpp]), [HttpServer]
      ([http/http_server.cpp]), [Logger] ([log/logger.cpp], with a reader of log files).
      [Json] has a reference reader of JSON and the schemas of the texts the program
      writes.
    - The process. [Shutdown] ([app/shutdown_signal.cpp]); [Gateway], the handlers of
      [main.cpp] that join devices, publishers, metrics and log; [MainThread], the
      wiring and the course of [run_gateway] and [main]; [System], the workers and the
      main thread interleaved between the locks of the publishers; [Gauge], the gauge of
      the cache depth over these interleavings; [Endpoints], the status that the main
      thread stores while the HTTP server loads it; [Restart], the process that dies at
      any point and is started again on the file of the cache.
    - End to end. [Pipeline] (a serial line), [DevicePipeline] (a CAN bus and a Modbus
      slave) put the parts together, from what sensors send to what the broker has been
      given; [Accounting] has the metrics and the TCP channel over the interleavings of
      [System], and [Progress] the answers that the workers need to go on.
    - The mutexes. [Locks] has the threads mutex by mutex, with the wait on the condition
      variable, and shows that its runs are those of [System], whose steps are calls.

    A C++ object is a record of its members, a method a function from the object (and
    what the environment answers) to its result and the new object; an out-parameter
    is a component of the result. [exec A] is [Ret a], [Throw] for an exception, or
    [OutOfFuel] when a loop has not ended within its fuel or its script of answers.

    ** The environment

    Nothing is assumed of the operating system and of the libraries beyond what their
    documentation says: what a call answers is an input of the function that makes it.
    A loop of calls (poll, read, send, accept) takes a script, the list of the answers,
    and is [OutOfFuel] when the script ends first; the theorems about a loop either say
    which scripts make it end, or hold of every run that ends, next to a theorem that
    such runs exist. Clocks are inputs. The laws of SQLite, the YAML library
    and the terminal calls are class fields with concrete instances used by the
    witnesses. The law of SQLite is that a statement it carries out does what the text of
    the statement means, with the text parsed in [Sql]; the instance is an interpreter of
    parsed statements. The order of the cache follows from the texts in the source.

    Loops over data have fuel that is enough: the draining loop of the frame parser
    has one turn per buffered byte and one more ([FrameScan] shows that it never runs
    out), the register loop of a Modbus answer more than one turn per register, and
    the reader of HTTP heads, a reference definition, one per character.

    ** What the theorems show

    - Serial frames: the parser, fed with any bytes cut in any way, computes the
      reference decoder and never overflows ([FrameScan.feed_refines_scan],
      [chunking_irrelevant], and the lemma [reachable_never_overflows]); every
      well-formed frame in noise is delivered, nothing else is, and a frame with two
      adjacent bytes altered is rejected ([noisy_frames_delivered],
      [delivered_frames_occur], [FrameParser.parse_complete_frame_iff],
      [corrupted_frame_rejected]); the ring buffer is a bounded queue.
    - Readings and protocols: the decoding of payloads and of Modbus answers with every
      refusal, a whole Modbus exchange and the time-out of a silent slave; the JSON
      texts are read back, by the reference reader, as documents of their schemas
      ([Json.json_documents]).
    - End to end: what sensors send in frames on a serial line, on a CAN bus or in the
      answers of a Modbus slave becomes, if it passes validation, one message each, in
      order, on every enabled channel, whose JSON reads back as the numbers that were
      sent, and which the broker has acknowledged, the cache holds, or the cache has
      refused ([Pipeline.sensors_to_broker], [DevicePipeline.can_bus_to_broker],
      [modbus_to_broker]).
    - Devices: each adapter satisfies [DeviceLaws]; from them, that a worker hands on
      every reading once and in order and counts what it reports
      ([DeviceManager.worker_reports]). [Stopping.manager_stop] is about the stop request
      during a read: at most one descriptor of the device is open, the worker ends within a
      bounded number of steps, and then the device is closed and offline; a descriptor is
      closed twice only if the two threads are inside the closing sequence at the same
      time, at most once, and such a run, which can close another part's descriptor, is
      exhibited: the member has no lock.
    - The cache and the publisher: both caches are queues, with their behaviour under
      faults and crashes; no message is lost between publications, deferrals and
      replays ([ReliablePublisher.no_message_lost], [flush_cache_spec]), nor over any
      number of lives of the process, each ended by a crash
      ([Restart.crashes_lose_nothing]); the depth that GET /metrics shows is the number
      of cached messages ([Gauge.depth_gauge]).
    - The clients: lines on a TCP connection are whole and in order, and no descriptor is
      left open but the connection's; an MQTT
      publication succeeds exactly when its own acknowledgment arrives; the set-up of
      the client never lowers the security that was configured.
    - The process: loading succeeds exactly on usable settings
      ([Config.load_gateway_config_spec]); what the handlers do with each call
      ([Gateway.worker_metrics]); exit codes, readiness and the
      order of starts and stops, and that after the shutdown request [main] returns if and
      only if the threads it joins do ([MainThread.gateway_lifecycle]; a worker whose read
      or send blocks, as in [ModbusDevice.modbus_silent_slave], keeps it); no valid reading is
      lost in any interleaving of workers and flushes ([System.no_reading_lost]), and the
      counters of the metrics add up, and the bytes on the TCP connection are the payloads
      published there ([Accounting.system_metrics]); under every schedule of the mutexes
      the threads end their calls, without deadlock, if the broker and the TCP server
      answer ([Locks.workers_finish]); the HTTP exchange and the life
      of the server, with the lines it logs; what readiness and health answer over the
      stores of a run of [main] ([Endpoints.endpoints_over_life]); a log file reads back
      as what was logged ([Logger.log_reads_back]).

    ** What is not modelled

    - The time zone: [localtime_r] is a parameter.
    - What the hardware makes of the unsynchronised accesses in [Stopping] beyond taking
      them one after the other, and what a device reads through a descriptor that the main
      thread has closed meanwhile. The devices elsewhere ([DeviceManager], the end-to-end
      theorems) are used by their worker only, which is so until the stop request.
    - The mutexes inside the libraries: [Locks] takes a call of a library as one that
      returns.
    - The lines that the clients, the caches and the publisher print on the standard
      streams: they go to no other part of the program.
    - Texts longer than [INT_MAX] bytes in the SQLite cache.
    - The moment of a crash inside an SQLite statement: that a statement is carried out
      or not is the library's to keep. [Restart] is of the file cache, whose steps are
      the program's own; what the crash of the machine (rather than of the process) does
      to data not yet on the disk depends on the file system, and the code does not
      force it out.
    - An append torn in its write followed by another life: the next line would continue
      it. [Restart] has the torn line in the last life only, and the lemma
      [file_cache_faults] of [FileCache] shows what becomes of it.
    - In [HttpServer], the read of the listening descriptor by the accept loop while
      [stop] closes it: the member is not atomic, and the model serialises the two.
    - Inside a publication, the lock of the MQTT client is released while it waits for
      the acknowledgment; [MqttClient] models the callbacks that run meanwhile, and
      [System] takes the publication as one step, as the lock of the publisher makes
      it ([Locks] has the lock).
    - Scripts, tests, build files, the version header that the build fills in (the
      version is an argument of [main]) and containers: not part of the process. *)

From stdpp Require Export base tactics list numbers option strings pretty relations.
From Stdlib Require Export ZArith Lia.

(** ** Scope and notations of the development *)

Declare Scope gateway_scope.
Delimit Scope gateway_scope with gw.

(** ** Fixed-width integers

    A [w]-bit unsigned value of the program is a [Z]; the conversions the
    C++ code performs (explicit [static_cast]s and the implicit conversion
    of an assignment) are the functions below. *)

Definition wrap (w z : Z) : Z := (z mod 2 ^ w)%Z.

Definition u8 (z : Z) : Z := wrap 8 z.
Definition u16 (z : Z) : Z := wrap 16 z.
Definition u32 (z : Z) : Z := wrap 32 z.
Definition u64 (z : Z) : Z := wrap 64 z.

(** [static_cast<std::int16_t>] of a 16-bit value: two's complement. *)
Definition i16 (z : Z) : Z := ((z + 2 ^ 15) mod 2 ^ 16 - 2 ^ 15)%Z.

Definition is_u8 (z : Z) : Prop := (0 <= z < 256)%Z.
Definition is_u16 (z : Z) : Prop := (0 <= z < 65536)%Z.

(** A buffer of [std::uint8_t]. *)
Definition bytes (l : list Z) : Prop := Forall is_u8 l.

#[export] Instance is_u8_dec z : Decision (is_u8 z).
Proof. unfold is_u8. apply _. Defined.
#[export] Instance is_u16_dec z : Decision (is_u16 z).
Proof. unfold is_u16. apply _. Defined.
#[export] Instance bytes_dec l : Decision (bytes l).
Proof. unfold bytes. apply _. Defined.

Create HintDb width.
Create Rewrite HintDb width_simpl.

Lemma u8_range z : is_u8 (u8 z).
Proof. apply (Z.mod_pos_bound z (2 ^ 8)). lia. Qed.

Lemma u16_range z : is_u16 (u16 z).
Proof. apply (Z.mod_pos_bound z (2 ^ 16)). lia. Qed.

Lemma u8_small z : is_u8 z → u8 z = z.
Proof. intros H. apply Z.mod_small. exact H. Qed.

Lemma u16_small z : is_u16 z → u16 z = z.
Proof. intros H. apply Z.mod_small. exact H. Qed.

Lemma is_u8_u16 z : is_u8 z → is_u16 z.
Proof. unfold is_u8, is_u16. lia. Qed.

#[export] Hint Resolve u8_range u16_range is_u8_u16 : width.
#[export] Hint Rewrite u8_small u16_small using (eauto with width; fail) : width_simpl.

(** [exec A]: the outcome of running code that may throw a C++ exception,
    or whose loop was given too little fuel. *)
Inductive exec (A : Type) : Type :=
  | Ret (a : A)
  | Throw (what : string)
  | OutOfFuel.
Arguments Ret {A} a.
Arguments Throw {A} what.
Arguments OutOfFuel {A}.

#[export] Instance exec_ret : MRet exec := @Ret.
#[export] Instance exec_bind : MBind exec := λ A B f m,
  match m with
  | Ret a => f a
  | Throw e => Throw e
  | OutOfFuel => OutOfFuel
  end.

Lemma exec_bind_ret {A B} (a : A) (f : A → exec B) : Ret a ≫= f = f a.
Proof. reflexivity. Qed.

#[export] Hint Rewrite @exec_bind_ret : width_simpl.

(** ** Loops

    A [while]/[for(;;)] loop is its body run until it says [Break]; the fuel
    bounds the number of times the body runs. *)

Inductive ctl (A : Type) : Type :=
  | Continue (a : A)
  | Break (a : A).
Arguments Continue {A} a.
Arguments Break {A} a.

Fixpoint run_loop {A} (fuel : nat) (body : A → exec (ctl A)) (a : A) : exec A :=
  match fuel with
  | O => OutOfFuel
  | S n => c ← body a;
           match c with
           | Continue a' => run_loop n body a'
           | Break a' => Ret a'
           end
  end.

(** ** Iteration *)

Lemma iter_S {A} n (f : A → A) x : Nat.iter (S n) f x = f (Nat.iter n f x).
Proof. reflexivity. Qed.

(** ** Exhaustive checks over a byte *)

Definition all_u8 (P : Z → bool) : bool := forallb P (Z.of_nat <$> seq 0 256).

Lemma all_u8_spec P : all_u8 P = true → ∀ z, is_u8 z → P z = true.
Proof.
  unfold all_u8, is_u8. rewrite forallb_forall. intros H z Hz. apply H.
  apply list_elem_of_In, list_elem_of_fmap. exists (Z.to_nat z).
  split; [lia |]. apply elem_of_seq. lia.
Qed.

(** ** Bitwise identities *)

(** Proves an equation between bitwise expressions by looking at one bit. *)
Ltac bitwise :=
  apply Z.bits_inj'; intros ? ?;
  rewrite ?Z.lxor_spec, ?Z.land_spec, ?Z.ldiff_spec, ?Z.lor_spec, ?Z.bits_0;
  rewrite ?Z.lxor_spec, ?Z.land_spec, ?Z.ldiff_spec, ?Z.lor_spec, ?Z.bits_0;
  repeat match goal with |- context [Z.testbit ?z ?n] => destruct (Z.testbit z n) end;
  reflexivity.

Lemma lxor_cancel_l c x y : Z.lxor c x = Z.lxor c y → x = y.
Proof.
  intros He%(f_equal (Z.lxor c)).
  by rewrite <-!Z.lxor_assoc, !Z.lxor_nilpotent, !Z.lxor_0_l in He.
Qed.

Lemma lxor_swap a b x y : Z.lxor a x = Z.lxor b y → Z.lxor a b = Z.lxor x y.
Proof.
  intros He. apply (lxor_cancel_l x).
  replace (Z.lxor x (Z.lxor a b)) with (Z.lxor (Z.lxor a x) b) by bitwise.
  rewrite He. bitwise.
Qed.

(** ** Bytes of a 16-bit value *)

Definition lo8 (z : Z) : Z := u8 (Z.land z 0xFF).
Definition hi8 (z : Z) : Z := u8 (Z.shiftr z 8).

Lemma lo8_mod z : lo8 z = (z mod 256)%Z.
Proof.
  unfold lo8, u8, wrap. change 0xFF%Z with (Z.ones 8). rewrite Z.land_ones by lia.
  apply Z.mod_mod. lia.
Qed.

Lemma hi8_div z : is_u16 z → hi8 z = (z / 256)%Z.
Proof.
  unfold hi8, is_u16. intros Hz. rewrite Z.shiftr_div_pow2 by lia.
  apply u8_small. change (2 ^ 8)%Z with 256%Z. unfold is_u8.
  split; [apply Z.div_pos; lia | apply Z.div_lt_upper_bound; lia].
Qed.

Lemma lo8_range z : is_u8 (lo8 z).
Proof. apply u8_range. Qed.
Lemma hi8_range z : is_u8 (hi8 z).
Proof. apply u8_range. Qed.
#[export] Hint Resolve lo8_range hi8_range : width.

Lemma land_shiftl8 lo hi : is_u8 lo → Z.land lo (Z.shiftl hi 8) = 0%Z.
Proof.
  unfold is_u8. intros Hlo. apply Z.bits_inj'. intros n Hn.
  rewrite Z.land_spec, Z.bits_0. destruct (Z.lt_ge_cases n 8) as [Hlt | Hge].
  - by rewrite Z.shiftl_spec_low, andb_false_r.
  - rewrite (Z.bits_above_log2 lo n); [done | lia |].
    pose proof (Z.log2_le_mono lo 255 ltac:(lia)). change (Z.log2 255) with 7%Z in *. lia.
Qed.

(** Joining two bytes: [lo | hi << 8]. *)
Lemma lor_shiftl8 lo hi : is_u8 lo → Z.lor lo (Z.shiftl hi 8) = (lo + 256 * hi)%Z.
Proof.
  intros Hlo. pose proof (land_shiftl8 lo hi Hlo) as Hz.
  rewrite <-Z.lxor_lor, <-Z.add_nocarry_lxor, Z.shiftl_mul_pow2 by (done || lia). lia.
Qed.

Lemma u16_join lo hi :
  is_u8 lo → is_u8 hi → u16 (Z.lor lo (Z.shiftl hi 8)) = (lo + 256 * hi)%Z.
Proof.
  intros Hlo Hhi. rewrite lor_shiftl8 by done. apply u16_small.
  unfold is_u8, is_u16 in *. lia.
Qed.

Lemma u16_join_cast lo hi :
  is_u8 lo → is_u8 hi →
  u16 (Z.lor (u16 lo) (Z.shiftl (u16 hi) 8)) = (lo + 256 * hi)%Z.
Proof.
  intros Hlo Hhi. rewrite (u16_small lo), (u16_small hi) by auto with width.
  by apply u16_join.
Qed.

Lemma join_lo_hi z : is_u16 z → (lo8 z + 256 * hi8 z)%Z = z.
Proof. intros Hz. rewrite lo8_mod, hi8_div by done. pose proof (Z.div_mod z 256). lia. Qed.

Lemma lo8_join lo hi : is_u8 lo → is_u8 hi → lo8 (lo + 256 * hi) = lo.
Proof.
  unfold is_u8. intros. rewrite lo8_mod, Z.mul_comm, Z.mod_add by lia.
  apply Z.mod_small. lia.
Qed.

Lemma hi8_join lo hi : is_u8 lo → is_u8 hi → hi8 (lo + 256 * hi) = hi.
Proof.
  unfold is_u8. intros. rewrite hi8_div by (unfold is_u16; lia).
  rewrite Z.add_comm, Z.mul_comm, Z.div_add_l, Z.div_small by lia. lia.
Qed.

(** ** Circular indices *)

Lemma mod_add_inj h i j n :
  i < n → j < n → (h + i) `mod` n = (h + j) `mod` n → i = j.
Proof.
  intros Hi Hj He.
  pose proof (Nat.div_mod_eq (h + i) n). pose proof (Nat.div_mod_eq (h + j) n).
  set (q := (h + i) `div` n) in *. set (q' := (h + j) `div` n) in *.
  destruct (Nat.lt_trichotomy q q') as [? | [? | ?]]; nia.
Qed.

(** ** Big-endian 16-bit fields *)

(** [(static_cast<uint16_t>(hi) << 8) | static_cast<uint16_t>(lo)]. *)
Definition be16 (hi lo : Z) : Z := Z.lor (Z.shiftl (u16 hi) 8) (u16 lo).

Lemma be16_join hi lo : is_u8 hi → is_u8 lo → be16 hi lo = (lo + 256 * hi)%Z.
Proof.
  intros Hh Hl. unfold be16. rewrite (u16_small hi), (u16_small lo) by auto with width.
  rewrite Z.lor_comm. by apply lor_shiftl8.
Qed.

Lemma be16_split z : is_u16 z → be16 (hi8 z) (lo8 z) = z.
Proof. intros Hz. rewrite be16_join by auto with width. by apply join_lo_hi. Qed.

Lemma be16_range hi lo : is_u8 hi → is_u8 lo → is_u16 (be16 hi lo).
Proof. intros Hh Hl. rewrite be16_join by done. unfold is_u8, is_u16 in *. lia. Qed.

Definition is_i16 (z : Z) : Prop := (-32768 <= z < 32768)%Z.

Lemma i16_u16 z : is_i16 z → i16 (u16 z) = z.
Proof.
  unfold is_i16, i16, u16, wrap. intros Hz.
  rewrite Zplus_mod_idemp_l, Z.mod_small; lia.
Qed.

Lemma i16_range z : is_i16 (i16 z).
Proof. unfold is_i16, i16. pose proof (Z.mod_pos_bound (z + 2 ^ 15) (2 ^ 16)). lia. Qed.
#[export] Hint Resolve be16_range i16_range : width.

Lemma u16_i16 z : is_u16 z → u16 (i16 z) = z.
Proof.
  unfold u16, i16, wrap, is_u16. intros Hz. rewrite Zminus_mod_idemp_l.
  replace (z + 2 ^ 15 - 2 ^ 15)%Z with z by lia. by apply Z.mod_small.
Qed.

(** ** Text *)

(** The double quote character. *)
Definition dq : string := String (Ascii.ascii_of_nat 34) EmptyString.
Definition quoted (s : string) : string := dq +:+ s +:+ dq.
(** A JSON member name followed by its colon. *)
Definition jkey (s : string) : string := quoted s +:+ ":".
(** [std::boolalpha]. *)
Definition bool_text (b : bool) : string := if b then "true" else "false".
(** [std::to_string] and stream insertion of an integer. *)
Definition dec (z : Z) : string := pretty z.

Lemma string_app_nil_r s : s +:+ "" = s.
Proof. induction s as [|c s IH]; [done |]. exact (f_equal (String c) IH). Qed.

Lemma string_app_assoc (a b c : string) : (a +:+ b) +:+ c = a +:+ (b +:+ c).
Proof. induction a as [|x a IH]; [done |]. exact (f_equal (String x) IH). Qed.
