(* ===== verification/Text.v ===== *)
(** * Text: lines, fields and numerals

    The string operations the components share: [std::getline],
    [std::string::find] of a character with the two [substr] around it, and the
    facts about decimal numerals that reading a text back relies on. *)

From Stdlib Require Export Ascii.
From stdpp Require Import pretty.
From S2P Require Import Prelude.

Definition nl_char : ascii := Ascii.ascii_of_nat 10.
Definition tab_char : ascii := Ascii.ascii_of_nat 9.
Definition cr_char : ascii := Ascii.ascii_of_nat 13.
(** The new-line character as a text. *)
Definition nl : string := String nl_char EmptyString.
Definition tab : string := String tab_char EmptyString.
Definition cr : string := String cr_char EmptyString.

Fixpoint all_chars (P : ascii → bool) (s : string) : bool :=
  match s with
  | EmptyString => true
  | String c r => P c && all_chars P r
  end.

(** [s.find(c) == npos]. *)
Definition lacks (c : ascii) (s : string) : bool := all_chars (λ x, negb (Ascii.eqb x c)) s.

(** The lines [std::getline] reads one after the other: a last line without a
    new-line character counts, an empty rest does not. *)
Fixpoint lines (s : string) : list string :=
  match s with
  | EmptyString => []
  | String c r =>
      if Ascii.eqb c nl_char then EmptyString :: lines r
      else match lines r with
           | [] => [String c EmptyString]
           | l :: rest => String c l :: rest
           end
  end.

(** The text before and after the first [c], if there is one. *)
Fixpoint cut (c : ascii) (s : string) : option (string * string) :=
  match s with
  | EmptyString => None
  | String x r =>
      if Ascii.eqb x c then Some (EmptyString, r)
      else p ← cut c r; Some (String x (fst p), snd p)
  end.

Lemma app_String c s t : String c s +:+ t = String c (s +:+ t).
Proof. done. Qed.

Lemma app_Empty t : "" +:+ t = t.
Proof. done. Qed.

Lemma all_chars_app P s t : all_chars P (s +:+ t) = all_chars P s && all_chars P t.
Proof.
  induction s as [| c s IH]; [done |].
  change (String c s +:+ t) with (String c (s +:+ t)). cbn [all_chars].
  by rewrite IH, andb_assoc.
Qed.

Lemma all_chars_impl (P Q : ascii → bool) s :
  (∀ c, P c = true → Q c = true) → all_chars P s = true → all_chars Q s = true.
Proof.
  intros HPQ. induction s as [| c s IH]; [done |]. cbn [all_chars].
  rewrite !andb_true_iff. intros [? ?]. eauto.
Qed.

Lemma lacks_app c s t : lacks c (s +:+ t) = lacks c s && lacks c t.
Proof. apply all_chars_app. Qed.

Lemma lines_line s rest : lacks nl_char s = true → lines (s +:+ nl +:+ rest) = s :: lines rest.
Proof.
  unfold lacks. induction s as [| c s IH]; intros Hs; [done |].
  cbn [all_chars] in Hs. apply andb_true_iff in Hs as [Hc Hs].
  change (String c s +:+ nl +:+ rest) with (String c (s +:+ nl +:+ rest)). cbn [lines].
  destruct (Ascii.eqb c nl_char); [discriminate |]. by rewrite IH.
Qed.

Lemma cut_app c s rest : lacks c s = true → cut c (s +:+ String c rest) = Some (s, rest).
Proof.
  unfold lacks. induction s as [| x s IH]; intros Hs.
  - change ("" +:+ String c rest) with (String c rest). cbn [cut]. by rewrite Ascii.eqb_refl.
  - cbn [all_chars] in Hs. apply andb_true_iff in Hs as [Hx Hs].
    change (String x s +:+ String c rest) with (String x (s +:+ String c rest)). cbn [cut].
    destruct (Ascii.eqb x c); [discriminate |]. by rewrite IH.
Qed.

Lemma cut_lacks c s : lacks c s = true ↔ cut c s = None.
Proof.
  unfold lacks. induction s as [| x s IH]; [done |]. cbn [all_chars cut].
  destruct (Ascii.eqb x c); [done |]. cbn [negb andb]. rewrite IH.
  destruct (cut c s); by split.
Qed.

Lemma cut_some c s a b : cut c s = Some (a, b) → s = a +:+ String c b ∧ lacks c a = true.
Proof.
  unfold lacks. revert a. induction s as [| x s IH]; intros a; [done |]. cbn [cut].
  destruct (Ascii.eqb_spec x c) as [-> | Hx]; [by intros [= <- <-] |].
  destruct (cut c s) as [[a' b'] |]; [| done]. cbn. intros [= <- <-].
  destruct (IH a' eq_refl) as [-> Ha]. split; [done |]. cbn [all_chars].
  rewrite Ha, andb_true_r. by rewrite (proj2 (Ascii.eqb_neq x c) Hx).
Qed.

(** ** Numerals *)

Definition is_numeral_char (c : ascii) : bool :=
  (Ascii.eqb c "-"%char) ||
  ((48 <=? Ascii.nat_of_ascii c) && (Ascii.nat_of_ascii c <=? 57))%nat.

Lemma pretty_N_char_digit n : is_numeral_char (pretty_N_char n) = true.
Proof. unfold pretty_N_char. by repeat case_match. Qed.

Lemma pretty_N_go_chars n s :
  all_chars is_numeral_char s = true → all_chars is_numeral_char (pretty_N_go n s) = true.
Proof.
  revert s. induction (N.lt_wf_0 n) as [n _ IH]. intros s Hs.
  destruct (decide (n = 0)%N) as [-> | Hn]; [done |].
  rewrite pretty_N_go_step by lia. apply IH; [apply N.div_lt; lia |].
  cbn [all_chars]. by rewrite pretty_N_char_digit, Hs.
Qed.

Lemma dec_chars z : all_chars is_numeral_char (dec z) = true.
Proof.
  assert (∀ n : N, all_chars is_numeral_char (pretty n) = true) as Hn.
  { intros n. unfold pretty, pretty_N. case_decide; [done |]. by apply pretty_N_go_chars. }
  unfold dec, pretty, pretty_Z. destruct z; [done | apply Hn |].
  rewrite all_chars_app. apply (Hn (Npos p)).
Qed.

(** A character that is neither a digit nor a sign does not occur in a numeral. *)
Lemma lacks_dec c z : is_numeral_char c = false → lacks c (dec z) = true.
Proof.
  intros Hc. apply (all_chars_impl is_numeral_char); [| apply dec_chars].
  intros x Hx. destruct (Ascii.eqb_spec x c) as [-> |]; [congruence | done].
Qed.

Lemma dec_inj x y : dec x = dec y → x = y.
Proof. apply (inj pretty). Qed.

(** ** Bytes *)

(** The bytes of a [std::string]. *)
Fixpoint bytes_of (s : string) : list Z :=
  match s with
  | EmptyString => []
  | String c r => Z.of_nat (Ascii.nat_of_ascii c) :: bytes_of r
  end.

Lemma bytes_of_app s t : bytes_of (s +:+ t) = bytes_of s ++ bytes_of t.
Proof. induction s as [| c s IH]; [done |]. cbn. by rewrite <-IH. Qed.

Lemma length_bytes_of s : length (bytes_of s) = String.length s.
Proof. induction s as [| c s IH]; [done |]. cbn. by rewrite IH. Qed.
