(* ===== verification/Crc16.v ===== *)
(** * CRC16-Modbus ([src/protocol/crc16.cpp])

    The checksum of both the UART frame format and the Modbus RTU frames,
    as the bit loop the code runs, with the facts the frame formats rely on:
    range, linearity, the zero residue of a message followed by its own
    checksum, and detection of every corruption confined to two adjacent
    bytes. *)

From S2P Require Import Prelude.

Local Open Scope Z_scope.

(** ** The code *)

(** The body of the inner [for (int bit ...)] loop. *)
Definition crc_bit (crc : Z) : Z :=
  if Z.land crc 1 =? 0
  then u16 (Z.shiftr crc 1)
  else u16 (Z.lxor (Z.shiftr crc 1) 0xA001).

(** One iteration of the outer loop: [crc ^= data[i]], then eight bits. *)
Definition crc_byte (crc b : Z) : Z :=
  Nat.iter 8 crc_bit (u16 (Z.lxor crc b)).

Definition crc16_modbus (data : list Z) : Z :=
  foldl crc_byte 0xFFFF data.

(** Conversion problems unfold the register's step last: its argument occurs
    twice in it, so eight nested steps on a variable are a large term. *)
#[global] Strategy 100 [crc_bit crc_byte crc16_modbus].

(** ** One bit of the shift register *)

Lemma u16_lxor a b : is_u16 a → is_u16 b → is_u16 (Z.lxor a b).
Proof.
  unfold is_u16. intros Ha Hb. split; [apply Z.lxor_nonneg; lia |].
  destruct (Z.eq_dec (Z.lxor a b) 0) as [-> | Hne]; [lia |].
  change 65536 with (2 ^ 16). apply Z.log2_lt_pow2.
  { pose proof (proj2 (Z.lxor_nonneg a b)). lia. }
  pose proof (Z.log2_lxor a b ltac:(lia) ltac:(lia)).
  pose proof (Z.log2_le_mono a 65535 ltac:(lia)).
  pose proof (Z.log2_le_mono b 65535 ltac:(lia)).
  change (Z.log2 65535) with 15 in *. lia.
Qed.
#[export] Hint Resolve u16_lxor : width.

Lemma u16_shiftr1 a : is_u16 a → 0 <= Z.shiftr a 1 < 32768.
Proof.
  unfold is_u16. intros Ha. rewrite Z.shiftr_div_pow2 by lia. change (2 ^ 1) with 2.
  split; [apply Z.div_pos; lia | apply Z.div_lt_upper_bound; lia].
Qed.

(** The register's step without the casts, which never truncate. *)
Lemma crc_bit_odd x :
  is_u16 x →
  crc_bit x = Z.lxor (Z.shiftr x 1) (if Z.odd x then 0xA001 else 0).
Proof.
  intros Hx. unfold crc_bit.
  pose proof (u16_shiftr1 x Hx) as Hs.
  change 1 with (Z.ones 1) at 1. rewrite Z.land_ones by lia.
  change (2 ^ 1) with 2. rewrite Zmod_odd.
  destruct (Z.odd x); cbn [Z.eqb].
  - apply u16_small, u16_lxor; unfold is_u16; lia.
  - rewrite Z.lxor_0_r. apply u16_small. unfold is_u16; lia.
Qed.

Lemma crc_bit_range x : is_u16 (crc_bit x).
Proof. unfold crc_bit. case_match; auto with width. Qed.
#[export] Hint Resolve crc_bit_range : width.

Lemma crc_bits_range n x : is_u16 x → is_u16 (Nat.iter n crc_bit x).
Proof. destruct n; rewrite ?iter_S; auto with width. Qed.
#[export] Hint Resolve crc_bits_range : width.

Lemma crc_byte_range crc b : is_u16 (crc_byte crc b).
Proof. unfold crc_byte. auto with width. Qed.
#[export] Hint Resolve crc_byte_range : width.

Lemma crc_fold_range data crc : is_u16 crc → is_u16 (foldl crc_byte crc data).
Proof. revert crc. induction data; simpl; auto with width. Qed.

Lemma crc16_range data : is_u16 (crc16_modbus data).
Proof. apply crc_fold_range. unfold is_u16. lia. Qed.
#[export] Hint Resolve crc16_range : width.

(** ** Linearity and injectivity *)

Lemma odd_lxor a b : Z.odd (Z.lxor a b) = xorb (Z.odd a) (Z.odd b).
Proof. rewrite <-!Z.bit0_odd. apply Z.lxor_spec. Qed.

Lemma crc_bit_lxor x y :
  is_u16 x → is_u16 y →
  crc_bit (Z.lxor x y) = Z.lxor (crc_bit x) (crc_bit y).
Proof.
  intros Hx Hy. rewrite !crc_bit_odd, odd_lxor, Z.shiftr_lxor by auto with width.
  apply Z.bits_inj'. intros n _. rewrite !Z.lxor_spec.
  destruct (Z.odd x), (Z.odd y); cbn [xorb];
    rewrite ?Z.bits_0; destruct (Z.testbit (Z.shiftr x 1) n), (Z.testbit (Z.shiftr y 1) n),
      (Z.testbit 0xA001 n); reflexivity.
Qed.

Lemma crc_bits_lxor n x y :
  is_u16 x → is_u16 y →
  Nat.iter n crc_bit (Z.lxor x y)
  = Z.lxor (Nat.iter n crc_bit x) (Nat.iter n crc_bit y).
Proof.
  intros Hx Hy. induction n as [|n IH]; [reflexivity |].
  rewrite !iter_S, IH. apply crc_bit_lxor; auto with width.
Qed.

(** Bit 15 of the new register tells which bit was shifted out. *)
Lemma crc_bit_inj0 x : is_u16 x → crc_bit x = 0 → x = 0.
Proof.
  intros Hx. rewrite crc_bit_odd by done.
  pose proof (u16_shiftr1 x Hx) as Hs. destruct (Z.odd x) eqn:Ho.
  - intros He%Z.lxor_eq. lia.
  - rewrite Z.lxor_0_r, Z.shiftr_div_pow2 by lia. change (2 ^ 1) with 2.
    pose proof (Zmod_odd x) as Hm. rewrite Ho in Hm. intros He.
    pose proof (Z.div_mod x 2). lia.
Qed.

Lemma crc_bits_inj n x y :
  is_u16 x → is_u16 y →
  Nat.iter n crc_bit x = Nat.iter n crc_bit y → x = y.
Proof.
  intros Hx Hy. induction n as [|n IH]; [done |].
  rewrite !iter_S. intros He. apply IH, Z.lxor_eq.
  apply crc_bit_inj0; [auto with width |].
  rewrite crc_bit_lxor, He by auto with width. apply Z.lxor_nilpotent.
Qed.

Lemma crc_byte_inj c c' b :
  is_u16 c → is_u16 c' → is_u8 b → crc_byte c b = crc_byte c' b → c = c'.
Proof.
  intros Hc Hc' Hb. unfold crc_byte.
  rewrite !u16_small by auto with width. intros He%crc_bits_inj; auto with width.
  by apply (f_equal (λ z, Z.lxor z b)) in He;
    rewrite !Z.lxor_assoc, !Z.lxor_nilpotent, !Z.lxor_0_r in He.
Qed.

Lemma crc_fold_inj data c c' :
  bytes data → is_u16 c → is_u16 c' →
  foldl crc_byte c data = foldl crc_byte c' data → c = c'.
Proof.
  intros Hd. revert c c'.
  induction Hd as [|b data Hb Hd IH]; simpl; [done |]. intros c c' Hc Hc' He.
  apply (crc_byte_inj c c' b); auto. apply IH; auto with width.
Qed.

(** ** Zero residue *)

Lemma crc_bit_double k : 0 <= k < 32768 → crc_bit (2 * k) = k.
Proof.
  intros Hk. rewrite crc_bit_odd by (unfold is_u16; lia).
  rewrite Z.odd_mul. cbn [Z.odd andb]. rewrite Z.lxor_0_r.
  rewrite Z.shiftr_div_pow2 by lia. change (2 ^ 1) with 2. rewrite Z.mul_comm.
  apply Z.div_mul. lia.
Qed.

(** Eight steps over a register whose low byte is zero only shift. *)
Lemma crc_bits_high k : 0 <= k < 256 → Nat.iter 8 crc_bit (256 * k) = k.
Proof.
  intros Hk. rewrite !iter_S. cbn [Nat.iter nat_rect].
  replace (256 * k) with (2 * (128 * k)) by lia. rewrite crc_bit_double by lia.
  replace (128 * k) with (2 * (64 * k)) by lia. rewrite crc_bit_double by lia.
  replace (64 * k) with (2 * (32 * k)) by lia. rewrite crc_bit_double by lia.
  replace (32 * k) with (2 * (16 * k)) by lia. rewrite crc_bit_double by lia.
  replace (16 * k) with (2 * (8 * k)) by lia. rewrite crc_bit_double by lia.
  replace (8 * k) with (2 * (4 * k)) by lia. rewrite crc_bit_double by lia.
  replace (4 * k) with (2 * (2 * k)) by lia. rewrite crc_bit_double by lia.
  apply crc_bit_double. lia.
Qed.

(** The two bytes both protocols append after the covered bytes: low byte
    first. *)
Definition crc_trailer (data : list Z) : list Z :=
  [lo8 (crc16_modbus data); hi8 (crc16_modbus data)].

Lemma crc16_modbus_app a b :
  crc16_modbus (a ++ b) = foldl crc_byte (crc16_modbus a) b.
Proof. apply foldl_app. Qed.

Lemma crc_trailer_absorb c : is_u16 c → foldl crc_byte c [lo8 c; hi8 c] = 0.
Proof.
  intros Hc. pose proof (hi8_range c) as Hh. unfold is_u8 in Hh.
  assert (Z.lxor c (lo8 c) = 256 * hi8 c) as Hl.
  { rewrite lo8_mod, hi8_div by done.
    replace (256 * (c / 256)) with (Z.ldiff c (Z.ones 8)).
    2:{ rewrite Z.ldiff_ones_r, Z.shiftl_mul_pow2, Z.shiftr_div_pow2 by lia.
        apply Z.mul_comm. }
    change 256 with (2 ^ 8). rewrite <-Z.land_ones by lia.
    bitwise. }
  simpl. unfold crc_byte at 2. rewrite u16_small, Hl by auto with width.
  rewrite crc_bits_high by lia. unfold crc_byte. by rewrite Z.lxor_nilpotent.
Qed.

(** Below the top byte, the eight-step register map is a permutation that
    never stays in the low byte. *)
Lemma crc_bits_leave_low u : is_u8 u → is_u8 (Nat.iter 8 crc_bit u) → u = 0.
Proof.
  intros Hu Ht.
  pose proof (all_u8_spec
    (λ u, (u =? 0) || (256 <=? Nat.iter 8 crc_bit u)) eq_refl u Hu) as Hc.
  unfold is_u8 in Ht. apply orb_true_iff in Hc as [?%Z.eqb_eq | ?%Z.leb_le]; lia.
Qed.

Lemma u8_lxor a b : is_u8 a → is_u8 b → is_u8 (Z.lxor a b).
Proof.
  intros Ha Hb. assert (∀ z, is_u8 z → z = Z.land z (Z.ones 8)) as Hm.
  { intros z Hz. rewrite Z.land_ones by lia. symmetry. by apply u8_small. }
  rewrite (Hm a Ha), (Hm b Hb).
  replace (Z.lxor _ _) with (Z.land (Z.lxor a b) (Z.ones 8)).
  - rewrite Z.land_ones by lia. apply u8_range.
  - bitwise.
Qed.
#[export] Hint Resolve u8_lxor : width.

(** Two adjacent bytes: the register after them determines them. *)
Lemma crc_two_bytes_inj c a b a' b' :
  is_u16 c → is_u8 a → is_u8 b → is_u8 a' → is_u8 b' →
  crc_byte (crc_byte c a) b = crc_byte (crc_byte c a') b' → a = a' ∧ b = b'.
Proof.
  intros Hc Ha Hb Ha' Hb'. unfold crc_byte at 1 3.
  rewrite !u16_small by auto with width. intros He%crc_bits_inj; auto with width.
  apply lxor_swap in He. unfold crc_byte in He.
  rewrite !u16_small, <-crc_bits_lxor in He by auto with width.
  replace (Z.lxor (Z.lxor c a) (Z.lxor c a')) with (Z.lxor a a') in He by bitwise.
  assert (Z.lxor a a' = 0) as Hz.
  { apply crc_bits_leave_low; [| rewrite He]; auto with width. }
  rewrite Hz in He. split; [by apply Z.lxor_eq |]. apply Z.lxor_eq. by rewrite <-He.
Qed.

Lemma crc_app_trailer data : crc16_modbus (data ++ crc_trailer data) = 0.
Proof. rewrite crc16_modbus_app. apply crc_trailer_absorb, crc16_range. Qed.

Lemma crc_burst_inj pre a b a' b' post :
  bytes post → is_u8 a → is_u8 b → is_u8 a' → is_u8 b' →
  crc16_modbus (pre ++ [a; b] ++ post) = crc16_modbus (pre ++ [a'; b'] ++ post) →
  a = a' ∧ b = b'.
Proof.
  intros Hpost Ha Hb Ha' Hb' He.
  rewrite !crc16_modbus_app, !foldl_app in He.
  apply crc_fold_inj in He; [| done | cbn [foldl]; auto with width ..].
  cbn [foldl] in He.
  apply (crc_two_bytes_inj (crc16_modbus pre)) in He; auto with width.
Qed.

(** The receiver's two ways of testing a message agree: comparing the last two
    bytes with the checksum of the rest, and a zero residue. *)
Lemma crc_residue_iff data lo hi :
  is_u8 lo → is_u8 hi →
  crc16_modbus (data ++ [lo; hi]) = 0 ↔ crc16_modbus data = lo + 256 * hi.
Proof.
  intros Hlo Hhi. rewrite crc16_modbus_app. set (c := crc16_modbus data).
  assert (is_u16 c) as Hc by apply crc16_range. split.
  - rewrite <-(crc_trailer_absorb c Hc). cbn [foldl]. intros He.
    apply crc_two_bytes_inj in He as [-> ->]; auto with width. symmetry. by apply join_lo_hi.
  - intros He. rewrite <-(crc_trailer_absorb c Hc), He, lo8_join, hi8_join; auto with width.
Qed.

(** ** Properties *)

(** Appending the low and then the high byte of a message's checksum
    gives a message whose checksum is zero (the residue a receiver can test). *)
Lemma crc_residue data : crc16_modbus (data ++ crc_trailer data) = 0.
Proof. apply crc_app_trailer. Qed.

(** A corruption confined to two adjacent bytes always changes the
    checksum: two byte strings that agree outside such a window and differ in
    it have different CRCs. *)
Lemma crc_detects_burst pre a b a' b' post :
  bytes post → is_u8 a → is_u8 b → is_u8 a' → is_u8 b' →
  (a, b) ≠ (a', b') →
  crc16_modbus (pre ++ [a; b] ++ post) ≠ crc16_modbus (pre ++ [a'; b'] ++ post).
Proof.
  intros Hpost Ha Hb Ha' Hb' Hne He. apply Hne.
  by destruct (crc_burst_inj pre a b a' b' post) as [-> ->].
Qed.

