(* ===== verification/RingBuffer.v ===== *)
(** * The fixed-capacity ring buffer ([src/protocol/byte_ring_buffer.h])

    [ByteRingBuffer<Capacity>]: an array, the index of the oldest byte and the
    number of bytes held. [contents] is the abstraction function to the queue
    of bytes, oldest first; each operation is shown to be the corresponding
    list operation, whatever the wrap-around of the indices. *)

From S2P Require Import Prelude.

Record ByteRingBuffer : Type := mk_ring {
  storage_ : list Z;
  head_ : nat;
  size_ : nat;
}.

#[export] Instance ring_eq_dec : EqDecision ByteRingBuffer.
Proof. solve_decision. Defined.

Section ring.
(** The template parameter. Indices are [std::size_t]; they stay below
    twice the array's length, so they are natural numbers here. *)
Context (Capacity : nat).

Implicit Types (r : ByteRingBuffer) (b : Z) (data : list Z).

Definition empty_ring : ByteRingBuffer := mk_ring (replicate Capacity 0%Z) 0 0.

(** ** The code *)

Definition push r b : bool * ByteRingBuffer :=
  if size_ r =? Capacity then (false, r)
  else
    let tail := (head_ r + size_ r) `mod` Capacity in
    (true, mk_ring (<[tail := b]> (storage_ r)) (head_ r) (S (size_ r))).

(** [push(data, length)]: stops at the first byte that does not fit and
    returns the number accepted. *)
Fixpoint push_range r data : nat * ByteRingBuffer :=
  match data with
  | [] => (0, r)
  | b :: rest =>
      let '(ok, r1) := push r b in
      if ok then
        let '(accepted, r2) := push_range r1 rest in (S accepted, r2)
      else (0, r1)
  end.

Definition consume r (count : nat) : ByteRingBuffer :=
  let consumed := if count <? size_ r then count else size_ r in
  mk_ring (storage_ r) ((head_ r + consumed) `mod` Capacity) (size_ r - consumed).

Definition at_ r (index : nat) : exec Z :=
  if size_ r <=? index then Throw "ring buffer index out of range"
  else Ret (default 0%Z (storage_ r !! ((head_ r + index) `mod` Capacity))).

(** The [for] loop of [copy]: [length] bytes from [index] on are appended to
    [result]. *)
Fixpoint copy_loop r (index length : nat) (result : list Z) : exec (list Z) :=
  match length with
  | 0 => Ret result
  | S n => b ← at_ r index; copy_loop r (S index) n (result ++ [b])
  end.

Definition copy r (offset length : nat) : exec (list Z) :=
  if (size_ r <? offset) || (size_ r - offset <? length)
  then Throw "ring buffer copy out of range"
  else copy_loop r offset length [].

Definition clear r : ByteRingBuffer := mk_ring (storage_ r) 0 0.

Definition size r : nat := size_ r.
Definition capacity r : nat := Capacity.
Definition empty r : bool := size_ r =? 0.
Definition full r : bool := size_ r =? Capacity.

(** ** Invariant and abstraction *)

Record wf r : Prop := mk_wf {
  wf_storage : length (storage_ r) = Capacity;
  wf_head : head_ r < Capacity;
  wf_size : size_ r <= Capacity;
}.

Definition cell r (i : nat) : Z := default 0%Z (storage_ r !! ((head_ r + i) `mod` Capacity)).

Definition contents r : list Z := cell r <$> seq 0 (size_ r).

Lemma length_contents r : length (contents r) = size_ r.
Proof. unfold contents. by rewrite length_fmap, length_seq. Qed.

Lemma contents_lookup r i :
  contents r !! i = if decide (i < size_ r) then Some (cell r i) else None.
Proof.
  unfold contents. rewrite list_lookup_fmap. case_decide as Hi.
  - by rewrite lookup_seq_lt.
  - rewrite lookup_seq_ge by lia. done.
Qed.

Lemma empty_ring_wf : 0 < Capacity → wf empty_ring.
Proof. split; simpl; [apply length_replicate | lia | lia]. Qed.

Lemma empty_ring_contents : contents empty_ring = [].
Proof. done. Qed.

(** ** Each operation is a queue operation *)

Lemma push_full r b : size_ r = Capacity → push r b = (false, r).
Proof. unfold push. intros ->. by rewrite Nat.eqb_refl. Qed.

Lemma push_ok r b :
  wf r → size_ r < Capacity →
  ∃ r', push r b = (true, r') ∧ wf r' ∧ contents r' = contents r ++ [b].
Proof.
  intros [Hst Hh Hs] Hlt. unfold push.
  destruct (Nat.eqb_spec (size_ r) Capacity); [lia |].
  eexists. split; [done |]. split.
  { split; simpl; [by rewrite length_insert | lia | lia]. }
  unfold contents. simpl size_. rewrite seq_S, fmap_app. simpl. f_equal.
  - apply list_fmap_ext. intros i j [-> Hj]%lookup_seq. unfold cell. simpl.
    rewrite list_lookup_insert_ne; [done |]. intros He%mod_add_inj; lia.
  - unfold cell. simpl. rewrite list_lookup_insert_eq; [done |].
    rewrite Hst. apply Nat.mod_upper_bound. lia.
Qed.

Lemma consume_ok r n :
  wf r → wf (consume r n) ∧ contents (consume r n) = drop n (contents r).
Proof.
  intros [Hst Hh Hs]. set (c := if n <? size_ r then n else size_ r).
  assert (c = n `min` size_ r) as Hc.
  { unfold c. destruct (Nat.ltb_spec n (size_ r)); lia. }
  split.
  { split; simpl; fold c; [done | apply Nat.mod_upper_bound; lia | lia]. }
  apply list_eq. intros i. rewrite lookup_drop, !contents_lookup.
  simpl. fold c. repeat case_decide; try lia; [| done].
  unfold cell. simpl. fold c. rewrite Hc, Nat.min_l by lia.
  rewrite Nat.Div0.add_mod_idemp_l. do 4 f_equal. lia.
Qed.

Lemma at_ok r i :
  at_ r i = match contents r !! i with
            | Some b => Ret b
            | None => Throw "ring buffer index out of range"
            end.
Proof.
  unfold at_. rewrite contents_lookup.
  destruct (Nat.leb_spec (size_ r) i); case_decide; lia || done.
Qed.

Lemma copy_loop_ok r index n result :
  index + n <= size_ r →
  copy_loop r index n result = Ret (result ++ take n (drop index (contents r))).
Proof.
  revert index result. induction n as [|n IH]; intros index result Hle; simpl.
  { by rewrite take_0, app_nil_r. }
  assert (∃ b, contents r !! index = Some b) as [b Hb].
  { apply lookup_lt_is_Some. rewrite length_contents. lia. }
  rewrite at_ok, Hb. simpl. rewrite IH by lia.
  by rewrite (drop_S _ _ _ Hb), <-app_assoc.
Qed.

Lemma copy_ok r offset n :
  copy r offset n =
    if decide (offset + n <= size_ r)
    then Ret (take n (drop offset (contents r)))
    else Throw "ring buffer copy out of range".
Proof.
  unfold copy.
  destruct (Nat.ltb_spec (size_ r) offset), (Nat.ltb_spec (size_ r - offset) n);
    simpl; case_decide; try lia; try done.
  by apply copy_loop_ok.
Qed.

Lemma clear_ok r : wf r → wf (clear r) ∧ contents (clear r) = [].
Proof. intros [??]. split; [split; simpl; [done | lia | lia] | done]. Qed.

Lemma push_range_ok r data :
  wf r →
  ∃ r', push_range r data = (length data `min` (Capacity - size_ r), r') ∧ wf r' ∧
        contents r' = contents r ++ take (Capacity - size_ r) data.
Proof.
  revert r. induction data as [|b data IH]; intros r Hwf;
    cbn [push_range length].
  { exists r. by rewrite take_nil, app_nil_r. }
  destruct (decide (size_ r = Capacity)) as [He | Hne].
  - rewrite push_full by done. exists r. rewrite He, Nat.sub_diag, Nat.min_0_r, take_0.
    by rewrite app_nil_r.
  - pose proof (wf_size r Hwf) as Hs.
    destruct (push_ok r b Hwf ltac:(lia)) as (r1 & -> & Hwf1 & Hc1).
    destruct (IH r1 Hwf1) as (r2 & -> & Hwf2 & Hc2).
    assert (size_ r1 = S (size_ r)) as Hs1.
    { rewrite <-!length_contents, Hc1, length_app. simpl. lia. }
    exists r2. split; [f_equal; lia |]. split; [done |].
    rewrite Hc2, Hc1, <-app_assoc, Hs1.
    replace (Capacity - size_ r) with (S (Capacity - S (size_ r))) by lia. done.
Qed.
End ring.

(** ** Properties *)

(** The abstract queue the buffer promises: a list of at most [cap] bytes. *)
Definition bounded_push (cap : nat) (q : list Z) (b : Z) : bool * list Z :=
  if length q =? cap then (false, q) else (true, q ++ [b]).

(** C18: The single-byte [push], [consume], [at], [copy] and [clear] of a
    well-formed buffer are the operations of a bounded queue on its
    contents - acceptance, order, and both out-of-range exceptions - and they
    keep the buffer well formed. *)
Theorem ring_refines_queue cap r b n i len :
  wf cap r →
  (let '(ok, r') := push cap r b in
     wf cap r' ∧ (ok, contents cap r') = bounded_push cap (contents cap r) b) ∧
  (wf cap (consume cap r n) ∧ contents cap (consume cap r n) = drop n (contents cap r)) ∧
  at_ cap r i = match contents cap r !! i with
                | Some x => Ret x
                | None => Throw "ring buffer index out of range"
                end ∧
  copy cap r i len = (if decide (i + len <= length (contents cap r))
                      then Ret (take len (drop i (contents cap r)))
                      else Throw "ring buffer copy out of range") ∧
  (wf cap (clear r) ∧ contents cap (clear r) = []).
Proof.
  intros Hwf. rewrite length_contents. split; [| split_and!].
  - unfold bounded_push. rewrite length_contents.
    destruct (Nat.eqb_spec (size_ r) cap) as [He | Hne].
    + by rewrite push_full.
    + pose proof (wf_size _ _ Hwf).
      destruct (push_ok cap r b Hwf ltac:(lia)) as (r' & -> & ? & ->). done.
  - by apply consume_ok.
  - by apply consume_ok.
  - apply at_ok.
  - apply copy_ok.
  - by apply clear_ok.
  - by apply (clear_ok cap).
Qed.

(** A three-byte buffer whose contents wrap around the end of the array. *)
Definition wrapped_ring : ByteRingBuffer := mk_ring [30; 10; 20]%Z 1 3.

Lemma ring_refines_queue_witness :
  wf 3 wrapped_ring ∧ contents 3 wrapped_ring = [10; 20; 30]%Z ∧
  copy 3 wrapped_ring 1 2 = Ret [20; 30]%Z.
Proof.
  assert (wf 3 wrapped_ring) as Hwf by (split; simpl; lia).
  split; [done |]. split; [reflexivity |].
  exact (proj1 (proj2 (proj2 (proj2 (ring_refines_queue 3 wrapped_ring 0%Z 0 1 2 Hwf))))).
Defined.
