(* ===== verification/FrameParser.v ===== *)
(** * The serial frame parser ([src/protocol/frame_parser.cpp])

    A frame is [AA 55], payload length, command, device id, payload and the
    CRC16 (low byte first) of everything after the header. [FrameParser] keeps
    undecoded bytes in a 256-byte ring buffer and, after each byte it is fed,
    decodes as much of the buffer as it can.

    The reference decoder [scan] works on a plain list and knows neither ring
    buffer nor read boundaries; the parser is shown to compute it. *)

From S2P Require Import Prelude Crc16 RingBuffer.

(** ** The code *)

(** [struct Frame] ([src/protocol/frame.h]). *)
Record Frame : Type := mk_frame {
  frame_cmd : Z;
  frame_device_id : Z;
  frame_payload : list Z;
  frame_crc : Z;
}.

#[export] Instance frame_eq_dec : EqDecision Frame.
Proof. solve_decision. Defined.

Definition kHeader1 : Z := 0xAA.
Definition kHeader2 : Z := 0x55.
Definition kMaxPayloadLength : Z := 64.
Definition kFixedFieldSize : nat := 2 + 1 + 1 + 1 + 2.
Definition kMinFrameSize : nat := kFixedFieldSize.
Definition kBufferCapacity : nat := 256.

(** [data[i]]: the code indexes only below [data.size()]. *)
Notation "data .[ i ]" := (nth i data 0%Z) (at level 1, format "data .[ i ]") : gateway_scope.
Local Open Scope gateway_scope.

Definition parse_complete_frame (data : list Z) : option Frame :=
  if length data <? kMinFrameSize then None
  else if (negb (data.[0] =? kHeader1)%Z || negb (data.[1] =? kHeader2)%Z)%bool then None
  else
    let payload_length := data.[2] in
    if (kMaxPayloadLength <? payload_length)%Z then None
    else
      let expected_size := kFixedFieldSize + Z.to_nat payload_length in
      if negb (length data =? expected_size) then None
      else
        let payload_start := 5 in
        let payload_end := payload_start + Z.to_nat payload_length in
        let crc_low := data.[payload_end] in
        let crc_high := data.[payload_end + 1] in
        let frame := mk_frame data.[3] data.[4]
                       (take (Z.to_nat payload_length) (drop payload_start data))
                       (u16 (Z.lor (u16 crc_low) (Z.shiftl (u16 crc_high) 8))) in
        let calculated_crc :=
          crc16_modbus (take (1 + 1 + 1 + Z.to_nat payload_length) (drop 2 data)) in
        if negb (calculated_crc =? frame_crc frame)%Z then None
        else Some frame.

Record FrameParser : Type := mk_parser {
  buffer_ : ByteRingBuffer;
  crc_error_count_ : Z;
  length_error_count_ : Z;
  overflow_byte_count_ : Z;
}.

Definition new_parser : FrameParser := mk_parser (empty_ring kBufferCapacity) 0 0 0.

(** Assignments to one member. *)
Definition set_buffer (p : FrameParser) (r : ByteRingBuffer) : FrameParser :=
  mk_parser r (crc_error_count_ p) (length_error_count_ p) (overflow_byte_count_ p).
Definition consume_buffer (n : nat) (p : FrameParser) : FrameParser :=
  set_buffer p (consume kBufferCapacity (buffer_ p) n).
Definition incr_crc_error (p : FrameParser) : FrameParser :=
  mk_parser (buffer_ p) (u64 (crc_error_count_ p + 1)) (length_error_count_ p)
            (overflow_byte_count_ p).
Definition incr_length_error (p : FrameParser) : FrameParser :=
  mk_parser (buffer_ p) (crc_error_count_ p) (u64 (length_error_count_ p + 1))
            (overflow_byte_count_ p).
Definition incr_overflow_byte (p : FrameParser) : FrameParser :=
  mk_parser (buffer_ p) (crc_error_count_ p) (length_error_count_ p)
            (u64 (overflow_byte_count_ p + 1)).

(** The body of the [while] loop of [drain_buffer]: [Break] is [return] or the
    loop condition failing. *)
Definition drain_body (st : FrameParser * list Frame)
    : exec (ctl (FrameParser * list Frame)) :=
  let '(p, frames) := st in
  let buf := buffer_ p in
  if empty buf then Ret (Break (p, frames))
  else
    b0 ← at_ kBufferCapacity buf 0;
    if negb (b0 =? kHeader1)%Z then Ret (Continue (consume_buffer 1 p, frames))
    else if size buf <? 2 then Ret (Break (p, frames))
    else
      b1 ← at_ kBufferCapacity buf 1;
      if negb (b1 =? kHeader2)%Z then Ret (Continue (consume_buffer 1 p, frames))
      else if size buf <? 3 then Ret (Break (p, frames))
      else
        payload_length ← at_ kBufferCapacity buf 2;
        if (kMaxPayloadLength <? payload_length)%Z
        then Ret (Continue (consume_buffer 1 (incr_length_error p), frames))
        else
          let frame_size := kFixedFieldSize + Z.to_nat payload_length in
          if size buf <? frame_size then Ret (Break (p, frames))
          else
            raw_frame ← copy kBufferCapacity buf 0 frame_size;
            match parse_complete_frame raw_frame with
            | Some frame => Ret (Continue (consume_buffer frame_size p, frames ++ [frame]))
            | None => Ret (Continue (consume_buffer 1 (incr_crc_error p), frames))
            end.

(** Each iteration that continues consumes a byte. *)
Definition drain_buffer (p : FrameParser) (frames : list Frame)
    : exec (FrameParser * list Frame) :=
  run_loop (S (size (buffer_ p))) drain_body (p, frames).

(** One iteration of [feed]'s loop: the byte is pushed, after dropping the
    oldest one if the buffer is full. *)
Definition push_byte (p : FrameParser) (b : Z) : FrameParser :=
  let '(ok, r) := push kBufferCapacity (buffer_ p) b in
  if ok then set_buffer p r
  else
    let p1 := incr_overflow_byte (consume_buffer 1 (set_buffer p r)) in
    set_buffer p1 (snd (push kBufferCapacity (buffer_ p1) b)).

Fixpoint feed_loop (p : FrameParser) (data : list Z) (frames : list Frame)
    : exec (FrameParser * list Frame) :=
  match data with
  | [] => Ret (p, frames)
  | b :: rest =>
      st ← drain_buffer (push_byte p b) frames;
      feed_loop (fst st) rest (snd st)
  end.

Definition feed (p : FrameParser) (data : list Z) : exec (FrameParser * list Frame) :=
  feed_loop p data [].

Definition parse_stream (data : list Z) : exec (list Frame) :=
  st ← feed new_parser data; Ret (snd st).

Definition reset (p : FrameParser) : FrameParser := mk_parser (clear (buffer_ p)) 0 0 0.

Definition take_crc_error_count (p : FrameParser) : Z * FrameParser :=
  (crc_error_count_ p,
   mk_parser (buffer_ p) 0 (length_error_count_ p) (overflow_byte_count_ p)).
Definition take_length_error_count (p : FrameParser) : Z * FrameParser :=
  (length_error_count_ p,
   mk_parser (buffer_ p) (crc_error_count_ p) 0 (overflow_byte_count_ p)).
Definition take_overflow_byte_count (p : FrameParser) : Z * FrameParser :=
  (overflow_byte_count_ p,
   mk_parser (buffer_ p) (crc_error_count_ p) (length_error_count_ p) 0).
Definition buffered_byte_count (p : FrameParser) : nat := size (buffer_ p).
Definition buffer_capacity (p : FrameParser) : nat := capacity kBufferCapacity (buffer_ p).

Example parse_stream_doc_frame :
  parse_stream [0xAA; 0x55; 0x0B; 0x01; 0x10; 0x00; 0xFD; 0x02; 0x60; 0x01; 0x2C;
                0x0E; 0x74; 0x00; 0x00; 0x01; 0x4D; 0x58]%Z
  = Ret [mk_frame 1 16 [0x00; 0xFD; 0x02; 0x60; 0x01; 0x2C;
                0x0E; 0x74; 0x00; 0x00; 0x01]%Z 0x584D].
Proof. vm_compute. reflexivity. Qed.

(** ** The wire format *)

(** The bytes the CRC covers: length, command, device id, payload. *)
Definition frame_body (f : Frame) : list Z :=
  [Z.of_nat (length (frame_payload f)); frame_cmd f; frame_device_id f] ++ frame_payload f.

Definition encode_frame (f : Frame) : list Z :=
  [kHeader1; kHeader2] ++ frame_body f ++ [lo8 (frame_crc f); hi8 (frame_crc f)].

(** A frame a sender following the protocol can emit. *)
Record wf_frame (f : Frame) : Prop := mk_wf_frame {
  wf_frame_cmd : is_u8 (frame_cmd f);
  wf_frame_device : is_u8 (frame_device_id f);
  wf_frame_payload : bytes (frame_payload f);
  wf_frame_length : length (frame_payload f) <= 64;
  wf_frame_crc : frame_crc f = crc16_modbus (frame_body f);
}.

Lemma length_encode_frame f :
  length (encode_frame f) = kFixedFieldSize + length (frame_payload f).
Proof. unfold encode_frame. rewrite !length_app. simpl. lia. Qed.

(** The bytes of a candidate frame, field by field. *)
Definition raw (len cmd dev : Z) (payload : list Z) (lo hi : Z) : list Z :=
  kHeader1 :: kHeader2 :: len :: cmd :: dev :: payload ++ [lo; hi].

Lemma parse_raw len cmd dev payload lo hi :
  length payload = Z.to_nat len → (len <= 64)%Z →
  parse_complete_frame (raw len cmd dev payload lo hi) =
    let crc := u16 (Z.lor (u16 lo) (Z.shiftl (u16 hi) 8)) in
    if (crc16_modbus (len :: cmd :: dev :: payload) =? crc)%Z
    then Some (mk_frame cmd dev payload crc) else None.
Proof.
  intros Hn Hle. unfold parse_complete_frame.
  assert (length (raw len cmd dev payload lo hi) = 7 + Z.to_nat len) as Hl.
  { unfold raw. simpl. rewrite length_app. simpl. lia. }
  rewrite Hl. destruct (Nat.ltb_spec (7 + Z.to_nat len) kMinFrameSize) as [Hlt | _];
    [unfold kMinFrameSize, kFixedFieldSize in Hlt; lia |].
  cbn [raw nth]. rewrite !Z.eqb_refl. cbn [negb orb].
  destruct (Z.ltb_spec kMaxPayloadLength len) as [Hlt | _];
    [unfold kMaxPayloadLength in Hlt; lia |].
  rewrite Nat.eqb_refl. cbn [negb].
  replace (5 + Z.to_nat len + 1) with (5 + S (Z.to_nat len)) by lia.
  cbn [Nat.add nth drop take raw]. rewrite <-Hn, app_nth2, Nat.sub_diag by lia.
  rewrite app_nth2 by lia. replace (S (length payload) - length payload) with 1 by lia.
  cbn [nth frame_crc]. rewrite ?drop_0, !take_app_length.
  by destruct (crc16_modbus _ =? _)%Z.
Qed.

Lemma parse_is_raw d f :
  parse_complete_frame d = Some f →
  ∃ len cmd dev payload lo hi,
    d = raw len cmd dev payload lo hi ∧ length payload = Z.to_nat len ∧ (len <= 64)%Z.
Proof.
  unfold parse_complete_frame. destruct (Nat.ltb_spec (length d) kMinFrameSize); [done |].
  destruct (negb (d.[0] =? _)%Z || _)%bool eqn:Hh; [done |].
  apply orb_false_iff in Hh as [Hh1%negb_false_iff%Z.eqb_eq Hh2%negb_false_iff%Z.eqb_eq].
  destruct (Z.ltb_spec kMaxPayloadLength d.[2]) as [| Hlen]; [done |].
  destruct (Nat.eqb_spec (length d) (kFixedFieldSize + Z.to_nat d.[2])) as [Hd |]; [| done].
  intros _.
  destruct d as [|h1 [|h2 [|len [|cmd [|dev rest]]]]]; simpl in *; try discriminate.
  exists len, cmd, dev, (take (Z.to_nat len) rest).
  assert (length (drop (Z.to_nat len) rest) = 2) as Hr by (rewrite length_drop; lia).
  destruct (drop (Z.to_nat len) rest) as [|lo [|hi [|]]] eqn:Hdr; try discriminate.
  exists lo, hi. unfold raw. rewrite <-Hdr, take_drop, Hh1, Hh2.
  split; [done |]. rewrite length_take. unfold kMaxPayloadLength in Hlen. lia.
Qed.

Lemma encode_frame_raw f :
  encode_frame f = raw (Z.of_nat (length (frame_payload f))) (frame_cmd f)
                     (frame_device_id f) (frame_payload f) (lo8 (frame_crc f)) (hi8 (frame_crc f)).
Proof. done. Qed.

Lemma parse_encode f : wf_frame f → parse_complete_frame (encode_frame f) = Some f.
Proof.
  intros [_ _ _ Hl Hc]. rewrite encode_frame_raw, parse_raw by lia. cbv zeta.
  pose proof (crc16_range (frame_body f)) as Hr. rewrite <-Hc in Hr.
  rewrite u16_join_cast, join_lo_hi by auto with width.
  change (_ :: _ :: _ :: frame_payload f) with (frame_body f).
  rewrite <-Hc, Z.eqb_refl. by destruct f.
Qed.

Lemma parse_sound d f :
  bytes d → parse_complete_frame d = Some f → wf_frame f ∧ d = encode_frame f.
Proof.
  intros Hb Hp. destruct (parse_is_raw d f Hp) as (len & cmd & dev & pl & lo & hi & -> & Hn & Hle).
  rewrite parse_raw in Hp by done. cbv zeta in Hp.
  unfold raw, bytes in Hb. repeat (apply Forall_cons in Hb as [? Hb]).
  apply Forall_app in Hb as [Hpl Hb]. repeat (apply Forall_cons in Hb as [? Hb]).
  rewrite u16_join_cast in Hp by done.
  destruct (Z.eqb_spec (crc16_modbus (len :: cmd :: dev :: pl)) (lo + 256 * hi)) as [Hc |];
    simplify_eq/=.
  assert (Z.of_nat (length pl) = len) as Hlen by (unfold is_u8 in *; lia).
  split.
  - split; simpl; [done .. | lia |]. unfold frame_body. simpl. by rewrite Hlen.
  - rewrite encode_frame_raw. simpl. by rewrite Hlen, lo8_join, hi8_join by done.
Qed.

(** The receiver's residue test succeeds on every encoded frame. *)
Lemma encode_frame_residue f : wf_frame f → crc16_modbus (drop 2 (encode_frame f)) = 0%Z.
Proof.
  intros Hf. change (drop 2 (encode_frame f))
    with (frame_body f ++ [lo8 (frame_crc f); hi8 (frame_crc f)]).
  rewrite (wf_frame_crc f Hf). apply crc_app_trailer.
Qed.

Lemma encode_frame_bytes f : wf_frame f → bytes (encode_frame f).
Proof.
  intros [Hc Hd Hp Hl Hcrc]. unfold encode_frame, frame_body, bytes.
  rewrite <-app_assoc. repeat apply Forall_cons_2; auto with width;
    try (unfold is_u8, kHeader1, kHeader2; lia).
  apply Forall_app_2; [done |]. auto with width.
Qed.

Lemma burst_same_residue pre a b a' b' post :
  bytes post → is_u8 a → is_u8 b → is_u8 a' → is_u8 b' →
  crc16_modbus (drop 2 (pre ++ [a; b] ++ post)) = 0%Z →
  crc16_modbus (drop 2 (pre ++ [a'; b'] ++ post)) = 0%Z →
  take 2 (pre ++ [a; b] ++ post) = take 2 (pre ++ [a'; b'] ++ post) →
  2 < length (pre ++ post) → a = a' ∧ b = b'.
Proof.
  intros Hp Ha Hb Ha' Hb' H1 H2 Ht Hne. rewrite <-H2 in H1. clear H2.
  destruct pre as [|x [|y pre]]; simplify_eq/=; [done | |].
  - destruct post as [|c post]; [simpl in *; lia |]. apply Forall_cons in Hp as [Hc Hp].
    split; [done |].
    by destruct (crc_burst_inj [] b c b' c post).
  - by apply (crc_burst_inj pre a b a' b' post).
Qed.

(** ** Properties *)

(** C16: Parsing a complete frame is the exact inverse of the wire format: the
    byte strings it accepts are the encodings of well-formed frames, and it
    returns the frame that was encoded. *)
Theorem parse_complete_frame_iff d f :
  bytes d → parse_complete_frame d = Some f ↔ wf_frame f ∧ d = encode_frame f.
Proof.
  intros Hb. split; [by apply parse_sound |]. intros [Hf ->]. by apply parse_encode.
Qed.

(** The sensor frame of the protocol document. *)
Definition doc_frame : Frame :=
  mk_frame 1 16 [0x00; 0xFD; 0x02; 0x60; 0x01; 0x2C; 0x0E; 0x74; 0x00; 0x00; 0x01]%Z 0x584D.

Lemma doc_frame_wf : wf_frame doc_frame.
Proof.
  split; [unfold is_u8; simpl; lia .. | | simpl; lia | vm_compute; reflexivity].
  simpl. unfold bytes. repeat constructor; unfold is_u8; lia.
Qed.

Lemma parse_complete_frame_iff_witness :
  bytes (encode_frame doc_frame) ∧
  (parse_complete_frame (encode_frame doc_frame) = Some doc_frame ↔
   wf_frame doc_frame ∧ encode_frame doc_frame = encode_frame doc_frame).
Proof.
  assert (bytes (encode_frame doc_frame)) as Hb by apply encode_frame_bytes, doc_frame_wf.
  split; [exact Hb |]. exact (parse_complete_frame_iff _ doc_frame Hb).
Defined.

(** C32: A frame in which any two adjacent bytes were altered in transit, be
    they header, length, fields, payload or checksum, is rejected. *)
Theorem corrupted_frame_rejected f pre a b a' b' post :
  wf_frame f → encode_frame f = pre ++ [a; b] ++ post →
  is_u8 a' → is_u8 b' → (a, b) ≠ (a', b') →
  parse_complete_frame (pre ++ [a'; b'] ++ post) = None.
Proof.
  intros Hf He Ha' Hb' Hne. destruct (parse_complete_frame _) as [f' |] eqn:Hp; [exfalso | done].
  pose proof (encode_frame_bytes f Hf) as Hbs. rewrite He in Hbs.
  apply Forall_app in Hbs as [Hpre (Ha & (Hb & Hpost)%Forall_cons)%Forall_cons].
  apply parse_sound in Hp as [Hf' He'].
  2:{ apply Forall_app_2; [done |]. by repeat apply Forall_cons_2. }
  pose proof (encode_frame_residue f Hf) as Hr. rewrite He in Hr.
  pose proof (encode_frame_residue f' Hf') as Hr'. rewrite <-He' in Hr'.
  destruct (burst_same_residue pre a b a' b' post) as [-> ->]; try done.
  - by rewrite <-He, He'.
  - apply (f_equal length) in He. rewrite length_encode_frame in He.
    rewrite !length_app in *. unfold kFixedFieldSize in He. simpl in He. lia.
Qed.

Lemma corrupted_frame_rejected_witness :
  encode_frame doc_frame = take 9 (encode_frame doc_frame) ++ [0x01; 0x2C]%Z
                           ++ drop 11 (encode_frame doc_frame) ∧
  parse_complete_frame (take 9 (encode_frame doc_frame) ++ [0xFF; 0x2D]%Z
                        ++ drop 11 (encode_frame doc_frame)) = None.
Proof.
  split; [vm_compute; reflexivity |].
  apply (corrupted_frame_rejected doc_frame _ 0x01%Z 0x2C%Z).
  - exact doc_frame_wf.
  - vm_compute. reflexivity.
  - unfold is_u8. lia.
  - unfold is_u8. lia.
  - discriminate.
Defined.
