(* ===== verification/FrameScan.v ===== *)
(** * What the frame parser computes on a byte stream

    [scan] is the reference decoder: a function of the bytes received so far,
    with no ring buffer and no notion of how the bytes were cut into reads.
    [FrameParser.feed] is shown to compute it; the stream properties of the
    protocol (resynchronisation, sticky and split frames, no loss, no
    overflow) are then statements about [scan]. *)

From S2P Require Import Prelude Crc16 RingBuffer FrameParser.

(** ** The reference decoder *)

Inductive event : Type :=
  | Accept (f : Frame)
  | BadCrc
  | BadLength.

(** What the head of the buffer calls for: nothing until more bytes arrive
    ([None]), or dropping [n] bytes, possibly reporting an event. *)
Definition scan_step (buf : list Z) : option (option event * nat) :=
  match buf with
  | [] => None
  | b0 :: t0 =>
      if negb (b0 =? kHeader1)%Z then Some (None, 1)
      else match t0 with
      | [] => None
      | b1 :: t1 =>
          if negb (b1 =? kHeader2)%Z then Some (None, 1)
          else match t1 with
          | [] => None
          | len :: _ =>
              if (kMaxPayloadLength <? len)%Z then Some (Some BadLength, 1)
              else
                let n := kFixedFieldSize + Z.to_nat len in
                if length buf <? n then None
                else match parse_complete_frame (take n buf) with
                     | Some f => Some (Some (Accept f), n)
                     | None => Some (Some BadCrc, 1)
                     end
          end
      end
  end.

Fixpoint scan_fuel (fuel : nat) (buf : list Z) : list event * list Z :=
  match fuel with
  | O => ([], buf)
  | S fuel' =>
      match scan_step buf with
      | None => ([], buf)
      | Some (ev, n) =>
          let '(evs, rest) := scan_fuel fuel' (drop n buf) in
          (option_list ev ++ evs, rest)
      end
  end.

(** Each step drops at least one byte, so the length is fuel enough
    ([scan_fuel_enough]). *)
Definition scan (buf : list Z) : list event * list Z := scan_fuel (length buf) buf.

Definition accepted (evs : list event) : list Frame :=
  omap (λ e, match e with Accept f => Some f | _ => None end) evs.
Definition is_bad_crc (e : event) : bool := match e with BadCrc => true | _ => false end.
Definition is_bad_length (e : event) : bool := match e with BadLength => true | _ => false end.
Definition crc_errors (evs : list event) : nat := length (filter is_bad_crc evs).
Definition length_errors (evs : list event) : nat := length (filter is_bad_length evs).

(** ** Algebra of [scan] *)

Lemma scan_step_bound buf ev n : scan_step buf = Some (ev, n) → 1 <= n <= length buf.
Proof.
  unfold scan_step. intros H. repeat case_match; simplify_eq/=; try lia.
  all: match goal with E : (_ <? _) = false |- _ => apply Nat.ltb_ge in E end.
  all: unfold kFixedFieldSize in *; simpl in *; lia.
Qed.

(** A decision made on a buffer is not revised when more bytes arrive. *)
Lemma scan_step_mono buf x r : scan_step buf = Some r → scan_step (buf ++ x) = Some r.
Proof.
  unfold scan_step.
  destruct buf as [|b0 [|b1 [|len buf]]]; cbn [app]; try done;
    destruct (negb (b0 =? kHeader1)%Z); try done.
  all: destruct (negb (b1 =? kHeader2)%Z); try done.
  destruct (kMaxPayloadLength <? len)%Z; try done.
  cbv zeta. change (?a :: ?b :: ?c :: buf ++ x) with ((a :: b :: c :: buf) ++ x).
  set (l := b0 :: b1 :: len :: buf). set (n := kFixedFieldSize + Z.to_nat len).
  rewrite length_app. destruct (Nat.ltb_spec (length l) n) as [|Hle]; [done |].
  destruct (Nat.ltb_spec (length l + length x) n); [lia |].
  by rewrite take_app_le.
Qed.

(** A buffer waiting for more bytes is shorter than the largest frame. *)
Lemma scan_step_wait buf : scan_step buf = None → length buf <= 70.
Proof.
  unfold scan_step, kMaxPayloadLength, kFixedFieldSize.
  destruct buf as [|b0 [|b1 [|len buf]]]; cbn [length]; try lia.
  destruct (negb (b0 =? kHeader1)%Z); [done |].
  destruct (negb (b1 =? kHeader2)%Z); [done |].
  destruct (Z.ltb_spec 64 len); [done |].
  destruct (Nat.ltb_spec (S (S (S (length buf)))) (2 + 1 + 1 + 1 + 2 + Z.to_nat len));
    [lia |]. by case_match.
Qed.

Lemma scan_fuel_enough fuel buf :
  length buf <= fuel → scan_fuel fuel buf = scan buf.
Proof.
  unfold scan. intros Hle. remember (length buf) as k eqn:Hk.
  assert (length buf <= k) as Hk' by lia. clear Hk.
  revert fuel k buf Hle Hk'.
  induction fuel as [|fuel IH]; intros k buf Hle Hk.
  { destruct k; [done | lia]. }
  destruct k as [|k].
  { destruct buf; [done | simpl in *; lia]. }
  simpl. destruct (scan_step buf) as [[ev n] |] eqn:Hs; [| done].
  apply scan_step_bound in Hs. rewrite (IH k); [done | lia | rewrite length_drop; lia].
Qed.

Lemma scan_unfold buf :
  scan buf = match scan_step buf with
             | None => ([], buf)
             | Some (ev, n) =>
                 let '(evs, rest) := scan (drop n buf) in (option_list ev ++ evs, rest)
             end.
Proof.
  destruct buf as [|b buf]; [done |].
  rewrite <-(scan_fuel_enough (S (length buf))) by done. cbn [scan_fuel].
  destruct (scan_step (b :: buf)) as [[ev n] |] eqn:Hs; [| done].
  apply scan_step_bound in Hs. rewrite scan_fuel_enough; [done |].
  rewrite length_drop. simpl in *. lia.
Qed.

(** Induction along the steps of the decoder. *)
Lemma scan_ind (P : list Z → Prop) :
  (∀ buf, scan_step buf = None → P buf) →
  (∀ buf ev n, scan_step buf = Some (ev, n) → P (drop n buf) → P buf) →
  ∀ buf, P buf.
Proof.
  intros Hw Hs buf. remember (length buf) as k eqn:Hk.
  revert buf Hk. induction (lt_wf k) as [k _ IH]. intros buf ->.
  destruct (scan_step buf) as [[ev n] |] eqn:Hb; [| auto].
  apply (Hs _ _ _ Hb). pose proof (scan_step_bound _ _ _ Hb).
  eapply IH; [| done]. rewrite length_drop. lia.
Qed.

Lemma scan_waits buf : scan_step (snd (scan buf)) = None.
Proof.
  induction buf as [buf H | buf ev n H IH] using scan_ind; rewrite scan_unfold, H; [done |].
  by destruct (scan (drop n buf)).
Qed.

Lemma scan_wait buf : scan_step buf = None → scan buf = ([], buf).
Proof. intros H. by rewrite scan_unfold, H. Qed.

(** Scanning in two instalments. *)
Lemma scan_app buf x :
  scan (buf ++ x) =
    let '(e1, r1) := scan buf in
    let '(e2, r2) := scan (r1 ++ x) in (e1 ++ e2, r2).
Proof.
  induction buf as [buf H | buf ev n H IH] using scan_ind.
  - rewrite (scan_wait buf H). by destruct (scan (buf ++ x)).
  - pose proof (scan_step_bound _ _ _ H).
    rewrite scan_unfold, (scan_step_mono _ _ _ H), drop_app_le, IH by lia.
    rewrite (scan_unfold buf), H. destruct (scan (drop n buf)) as [e1 r1].
    destruct (scan (r1 ++ x)) as [e2 r2]. by rewrite app_assoc.
Qed.

(** ** The parser computes [scan] *)

Abbreviation pending p := (contents kBufferCapacity (buffer_ p)) (only parsing).

(** [n] executions of [++counter] on a 64-bit [std::size_t]. *)
Definition bump (n : nat) (c : Z) : Z := Nat.iter n (λ c, u64 (c + 1)) c.

Lemma bump_add m n c : bump (m + n) c = bump n (bump m c).
Proof.
  unfold bump. induction n as [|n IH]; [by rewrite Nat.add_0_r |].
  by rewrite Nat.add_succ_r, !iter_S, IH.
Qed.

Lemma bump_u64 n c : (0 <= c < 2 ^ 64)%Z → bump n c = u64 (c + Z.of_nat n).
Proof.
  intros Hc. unfold bump, u64, wrap. induction n as [|n IH].
  { simpl. rewrite Z.add_0_r. symmetry. by apply Z.mod_small. }
  rewrite iter_S, IH, Nat2Z.inj_succ, Z.add_mod_idemp_l by lia. f_equal. lia.
Qed.

(** [p'] is [p] after decoding [evs] with [rest] left in the buffer. *)
Record decoded (p : FrameParser) (evs : list event) (rest : list Z) (p' : FrameParser)
    : Prop := mk_decoded {
  decoded_wf : wf kBufferCapacity (buffer_ p');
  decoded_rest : pending p' = rest;
  decoded_crc : crc_error_count_ p' = bump (crc_errors evs) (crc_error_count_ p);
  decoded_length : length_error_count_ p' = bump (length_errors evs) (length_error_count_ p);
  decoded_overflow : overflow_byte_count_ p' = overflow_byte_count_ p;
}.

Lemma crc_errors_app e1 e2 : crc_errors (e1 ++ e2) = crc_errors e1 + crc_errors e2.
Proof. unfold crc_errors. by rewrite filter_app, length_app. Qed.
Lemma length_errors_app e1 e2 :
  length_errors (e1 ++ e2) = length_errors e1 + length_errors e2.
Proof. unfold length_errors. by rewrite filter_app, length_app. Qed.
Lemma accepted_app e1 e2 : accepted (e1 ++ e2) = accepted e1 ++ accepted e2.
Proof. apply omap_app. Qed.

Lemma decoded_trans p e1 r1 p1 e2 r2 p2 :
  decoded p e1 r1 p1 → decoded p1 e2 r2 p2 → decoded p (e1 ++ e2) r2 p2.
Proof.
  intros [? ? Hc Hl Ho] [? ? Hc' Hl' Ho'].
  split; [done | done | | | by rewrite Ho'].
  - by rewrite Hc', Hc, crc_errors_app, bump_add.
  - by rewrite Hl', Hl, length_errors_app, bump_add.
Qed.

Lemma decoded_refl p : wf kBufferCapacity (buffer_ p) → decoded p [] (pending p) p.
Proof. by split. Qed.

(** The counter updated when an event is reported. *)
Definition note_event (ev : option event) (p : FrameParser) : FrameParser :=
  match ev with
  | Some BadCrc => incr_crc_error p
  | Some BadLength => incr_length_error p
  | _ => p
  end.

Lemma decoded_step p ev n :
  wf kBufferCapacity (buffer_ p) →
  decoded p (option_list ev) (drop n (pending p)) (consume_buffer n (note_event ev p)).
Proof.
  intros Hwf. destruct (consume_ok kBufferCapacity (buffer_ p) n Hwf).
  by destruct ev as [[] |].
Qed.

Lemma size_pending p : size (buffer_ p) = length (pending p).
Proof. symmetry. apply length_contents. Qed.

Lemma drain_body_ok p frames :
  wf kBufferCapacity (buffer_ p) →
  drain_body (p, frames) =
    match scan_step (pending p) with
    | None => Ret (Break (p, frames))
    | Some (ev, n) =>
        Ret (Continue (consume_buffer n (note_event ev p),
                       frames ++ accepted (option_list ev)))
    end.
Proof.
  intros Hwf. unfold drain_body, empty. change (size_ (buffer_ p)) with (size (buffer_ p)).
  rewrite size_pending, !at_ok. unfold scan_step.
  destruct (pending p) as [|b0 t0] eqn:Hc; [done |]. cbn [length Nat.eqb].
  cbn [lookup list_lookup mbind exec_bind].
  destruct (negb (b0 =? kHeader1)%Z); [by rewrite app_nil_r |].
  destruct t0 as [|b1 t1]; [done |].
  change (S (length (b1 :: t1)) <? 2) with false. cbn [lookup list_lookup mbind exec_bind].
  destruct (negb (b1 =? kHeader2)%Z); [by rewrite app_nil_r |].
  destruct t1 as [|len buf]; [done |].
  change (S (length (b1 :: len :: buf)) <? 3) with false.
  cbn [lookup list_lookup mbind exec_bind].
  destruct (kMaxPayloadLength <? len)%Z; [by rewrite app_nil_r |].
  rewrite copy_ok, Hc. cbv zeta. set (n := kFixedFieldSize + Z.to_nat len).
  change (S (length (b1 :: len :: buf))) with (length (b0 :: b1 :: len :: buf)).
  rewrite <-(length_contents kBufferCapacity), Hc.
  destruct (Nat.ltb_spec (length (b0 :: b1 :: len :: buf)) n) as [|Hle]; [done |].
  case_decide; [| lia]. rewrite drop_0. cbn [mbind exec_bind].
  destruct (parse_complete_frame _); [done | by rewrite app_nil_r].
Qed.

Lemma drain_loop_ok fuel p frames :
  wf kBufferCapacity (buffer_ p) → length (pending p) < fuel →
  ∃ p', run_loop fuel drain_body (p, frames)
        = Ret (p', frames ++ accepted (fst (scan (pending p)))) ∧
        decoded p (fst (scan (pending p))) (snd (scan (pending p))) p'.
Proof.
  revert p frames. induction fuel as [|fuel IH]; intros p frames Hwf Hlt; [lia |].
  cbn [run_loop]. rewrite drain_body_ok, scan_unfold by done.
  destruct (scan_step (pending p)) as [[ev n] |] eqn:Hs.
  - cbn [mbind exec_bind]. pose proof (decoded_step p ev n Hwf) as Hd.
    pose proof (scan_step_bound _ _ _ Hs).
    destruct (IH (consume_buffer n (note_event ev p)) (frames ++ accepted (option_list ev)))
      as (p' & Hr & Hd').
    + apply Hd.
    + rewrite (decoded_rest _ _ _ _ Hd), length_drop. lia.
    + rewrite (decoded_rest _ _ _ _ Hd) in Hr, Hd'.
      destruct (scan (drop n (pending p))) as [evs rest]. simpl in *.
      exists p'. rewrite Hr, accepted_app, app_assoc.
      split; [done |]. by eapply decoded_trans.
  - exists p. simpl. rewrite app_nil_r. split; [done |]. by apply decoded_refl.
Qed.

(** Between calls the buffer is well formed and waits for more bytes. *)
Record parser_inv (p : FrameParser) : Prop := mk_parser_inv {
  inv_wf : wf kBufferCapacity (buffer_ p);
  inv_waits : scan_step (pending p) = None;
}.

Lemma parser_inv_new : parser_inv new_parser.
Proof. split; [apply empty_ring_wf; unfold kBufferCapacity; lia | done]. Qed.

Lemma parser_inv_room p : parser_inv p → size_ (buffer_ p) <= 70.
Proof.
  intros [Hwf Hw]. rewrite <-(length_contents kBufferCapacity). by apply scan_step_wait.
Qed.

Lemma push_byte_ok p b :
  parser_inv p → decoded p [] (pending p ++ [b]) (push_byte p b).
Proof.
  intros Hinv. pose proof (parser_inv_room p Hinv) as Hr. unfold push_byte.
  destruct (push_ok kBufferCapacity (buffer_ p) b) as (r & -> & Hwf & Hc);
    [apply Hinv | unfold kBufferCapacity; lia |].
  by split.
Qed.

Lemma feed_loop_ok p data frames :
  parser_inv p →
  ∃ p', feed_loop p data frames
        = Ret (p', frames ++ accepted (fst (scan (pending p ++ data)))) ∧
        decoded p (fst (scan (pending p ++ data))) (snd (scan (pending p ++ data))) p'.
Proof.
  revert p frames. induction data as [|b data IH]; intros p frames Hinv.
  { exists p. rewrite app_nil_r, (scan_wait _ (inv_waits p Hinv)). simpl.
    rewrite app_nil_r. split; [done |]. by apply decoded_refl, Hinv. }
  pose proof (push_byte_ok p b Hinv) as Hp.
  pose proof (decoded_rest _ _ _ _ Hp) as Hrest.
  destruct (drain_loop_ok (S (size (buffer_ (push_byte p b)))) (push_byte p b) frames)
    as (p1 & Hr1 & Hd1); [apply Hp | rewrite size_pending; lia |].
  rewrite Hrest in Hr1, Hd1.
  cbn [feed_loop]. unfold drain_buffer. rewrite Hr1. cbn [mbind exec_bind fst snd].
  destruct (IH p1 (frames ++ accepted (fst (scan (pending p ++ [b]))))) as (p2 & Hr2 & Hd2).
  { split; [apply Hd1 |]. rewrite (decoded_rest _ _ _ _ Hd1). apply scan_waits. }
  rewrite (decoded_rest _ _ _ _ Hd1) in Hr2, Hd2.
  replace (pending p ++ b :: data) with ((pending p ++ [b]) ++ data) by by rewrite <-app_assoc.
  rewrite (scan_app (pending p ++ [b])). destruct (scan (pending p ++ [b])) as [e1 r1].
  cbn [fst snd] in *. destruct (scan (r1 ++ data)) as [e2 r2]. cbn [fst snd] in *.
  exists p2. rewrite Hr2, accepted_app, app_assoc. split; [done |].
  eapply (decoded_trans _ ([] ++ e1)); [| done]. by eapply decoded_trans.
Qed.

Lemma feed_ok p data :
  parser_inv p →
  ∃ p', feed p data = Ret (p', accepted (fst (scan (pending p ++ data)))) ∧
        decoded p (fst (scan (pending p ++ data))) (snd (scan (pending p ++ data))) p' ∧
        parser_inv p'.
Proof.
  intros Hinv. destruct (feed_loop_ok p data [] Hinv) as (p' & Hr & Hd).
  exists p'. split; [done |]. split; [done |].
  split; [apply Hd |]. rewrite (decoded_rest _ _ _ _ Hd). apply scan_waits.
Qed.

(** ** Frames in the stream *)

Lemma scan_noise noise x :
  Forall (λ b, b ≠ kHeader1) noise → scan (noise ++ x) = scan x.
Proof.
  induction 1 as [|b noise Hb _ IH]; [done |]. cbn [app]. rewrite scan_unfold.
  cbn [scan_step]. destruct (Z.eqb_spec b kHeader1); [done |]. cbn [negb].
  cbn [drop]. rewrite drop_0, IH. by destruct (scan x).
Qed.

Lemma scan_step_encode f :
  wf_frame f → scan_step (encode_frame f) = Some (Some (Accept f), length (encode_frame f)).
Proof.
  intros Hf. pose proof (length_encode_frame f) as Hl.
  pose proof (wf_frame_length f Hf) as Hle.
  set (buf := encode_frame f) in *.
  assert (scan_step buf = (let n := kFixedFieldSize + length (frame_payload f) in
            if length buf <? n then None
            else match parse_complete_frame (take n buf) with
                 | Some f => Some (Some (Accept f), n)
                 | None => Some (Some BadCrc, 1)
                 end)) as ->.
  { unfold buf, encode_frame, frame_body. cbn [app scan_step].
    rewrite !Z.eqb_refl. cbn [negb].
    destruct (Z.ltb_spec kMaxPayloadLength (Z.of_nat (length (frame_payload f)))) as [Hk |];
      [unfold kMaxPayloadLength in Hk; lia |]. by rewrite Nat2Z.id. }
  cbv zeta. rewrite <-Hl, Nat.ltb_irrefl, firstn_all. unfold buf. by rewrite parse_encode.
Qed.

Lemma scan_encode f x :
  wf_frame f →
  scan (encode_frame f ++ x) = (Accept f :: fst (scan x), snd (scan x)).
Proof.
  intros Hf. rewrite scan_unfold, (scan_step_mono _ _ _ (scan_step_encode f Hf)).
  rewrite drop_app_length. by destruct (scan x).
Qed.

(** A stream in which every frame may be preceded by bytes that are not the
    start of a header. *)
Definition noisy_stream (l : list (list Z * Frame)) : list Z :=
  concat ((λ '(noise, f), noise ++ encode_frame f) <$> l).

Definition noisy_ok (l : list (list Z * Frame)) : Prop :=
  Forall (λ '(noise, f), Forall (λ b, b ≠ kHeader1) noise ∧ wf_frame f) l.

Lemma scan_noisy l x :
  noisy_ok l →
  accepted (fst (scan (noisy_stream l ++ x))) = l.*2 ++ accepted (fst (scan x)) ∧
  snd (scan (noisy_stream l ++ x)) = snd (scan x).
Proof.
  induction 1 as [|[noise f] l [Hn Hf] _ [IHa IHr]]; [done |].
  unfold noisy_stream. cbn [fmap list_fmap concat]. fold (noisy_stream l).
  rewrite <-!app_assoc, scan_noise, scan_encode by done. simpl. by rewrite IHa, IHr.
Qed.

(** The frames occur in the data in this order, without overlap. *)
Inductive occurs : list Frame → list Z → Prop :=
  | occurs_nil d : occurs [] d
  | occurs_skip b fs d : occurs fs d → occurs fs (b :: d)
  | occurs_frame f fs d : wf_frame f → occurs fs d → occurs (f :: fs) (encode_frame f ++ d).

Lemma occurs_drop fs n d : occurs fs (drop n d) → occurs fs d.
Proof.
  revert n. induction d as [|b d IH]; intros [|n] Ho; simpl in *; try done.
  apply occurs_skip. by apply (IH n).
Qed.

Lemma scan_step_accept buf f n :
  bytes buf → scan_step buf = Some (Some (Accept f), n) →
  wf_frame f ∧ take n buf = encode_frame f.
Proof.
  intros Hb. unfold scan_step.
  repeat case_match; intros ?; simplify_eq.
  apply parse_sound; [by apply Forall_take | done].
Qed.

Lemma scan_occurs buf : bytes buf → occurs (accepted (fst (scan buf))) buf.
Proof.
  induction buf as [buf H | buf ev n H IH] using scan_ind; intros Hb; rewrite scan_unfold, H.
  { apply occurs_nil. }
  specialize (IH (Forall_drop _ _ _ Hb)).
  destruct (scan (drop n buf)) as [evs rest]. cbn [fst] in *. rewrite accepted_app.
  destruct ev as [[f | |] |]; simpl; try by eapply occurs_drop.
  destruct (scan_step_accept buf f n Hb H) as [Hf Ht].
  rewrite <-(take_drop n buf), Ht. by constructor.
Qed.

Lemma parse_stream_ok data : parse_stream data = Ret (accepted (fst (scan data))).
Proof.
  unfold parse_stream. destruct (feed_ok new_parser data parser_inv_new) as (p' & -> & _).
  done.
Qed.

(** Successive reads from the device. *)
Fixpoint feed_all (p : FrameParser) (chunks : list (list Z)) : exec (FrameParser * list Frame) :=
  match chunks with
  | [] => Ret (p, [])
  | c :: rest =>
      '(p1, fs) ← feed p c;
      '(p2, gs) ← feed_all p1 rest;
      Ret (p2, fs ++ gs)
  end.

Lemma feed_all_ok p chunks :
  parser_inv p →
  ∃ p', feed_all p chunks = Ret (p', accepted (fst (scan (pending p ++ concat chunks)))) ∧
        decoded p (fst (scan (pending p ++ concat chunks)))
                  (snd (scan (pending p ++ concat chunks))) p'.
Proof.
  revert p. induction chunks as [|c chunks IH]; intros p Hinv; cbn [feed_all concat].
  { exists p. rewrite app_nil_r, (scan_wait _ (inv_waits p Hinv)).
    split; [done |]. by apply decoded_refl, Hinv. }
  destruct (feed_ok p c Hinv) as (p1 & -> & Hd1 & Hinv1).
  destruct (IH p1 Hinv1) as (p2 & Hr2 & Hd2).
  rewrite (decoded_rest _ _ _ _ Hd1) in Hr2, Hd2.
  rewrite app_assoc, (scan_app (pending p ++ c)).
  destruct (scan (pending p ++ c)) as [e1 r1]. cbn [fst snd mbind exec_bind] in *.
  destruct (scan (r1 ++ concat chunks)) as [e2 r2]. cbn [fst snd] in *.
  exists p2. rewrite Hr2. cbn [mbind exec_bind]. rewrite accepted_app. split; [done |].
  by eapply decoded_trans.
Qed.

(** ** Reachable parsers *)

(** One call of a member function of [FrameParser]. *)
Inductive parser_call : FrameParser → FrameParser → Prop :=
  | call_feed p data p' fs : feed p data = Ret (p', fs) → parser_call p p'
  | call_reset p : parser_call p (reset p)
  | call_take_crc p : parser_call p (snd (take_crc_error_count p))
  | call_take_length p : parser_call p (snd (take_length_error_count p))
  | call_take_overflow p : parser_call p (snd (take_overflow_byte_count p)).

Lemma parser_call_inv p p' :
  parser_call p p' → parser_inv p → overflow_byte_count_ p = 0%Z →
  parser_inv p' ∧ overflow_byte_count_ p' = 0%Z.
Proof.
  intros [p0 data p1 fs Hf | p0 | p0 | p0 | p0] Hinv Ho;
    [| | by split; [split; apply Hinv |] ..].
  - destruct (feed_ok p0 data Hinv) as (p2 & Hf2 & Hd & Hinv2). rewrite Hf in Hf2. simplify_eq.
    split; [done |]. by rewrite (decoded_overflow _ _ _ _ Hd).
  - split; [| done]. destruct (clear_ok _ _ (inv_wf _ Hinv)) as [Hw Hc].
    split; cbn [reset buffer_]; [done |]. by rewrite Hc.
Qed.

Lemma parser_calls_inv p p' :
  rtc parser_call p p' → parser_inv p → overflow_byte_count_ p = 0%Z →
  parser_inv p' ∧ overflow_byte_count_ p' = 0%Z.
Proof.
  induction 1 as [| p p1 p2 Hc _ IH]; [done |]. intros Hinv Ho.
  destruct (parser_call_inv p p1 Hc Hinv Ho). by apply IH.
Qed.

(** ** Properties *)

(** C2: Feeding bytes to a parser never throws and always terminates; the
    frames returned are those the reference decoder accepts in the buffered
    bytes followed by the new ones, the bytes it leaves are what stays buffered,
    the two error counters grow by the number of rejected candidates, and no
    byte is dropped for lack of room. *)
Theorem feed_refines_scan p data :
  parser_inv p →
  let '(evs, rest) := scan (pending p ++ data) in
  ∃ p', feed p data = Ret (p', accepted evs) ∧ parser_inv p' ∧
        pending p' = rest ∧
        crc_error_count_ p' = bump (crc_errors evs) (crc_error_count_ p) ∧
        length_error_count_ p' = bump (length_errors evs) (length_error_count_ p) ∧
        overflow_byte_count_ p' = overflow_byte_count_ p.
Proof.
  intros Hinv. destruct (feed_ok p data Hinv) as (p' & Hf & [? ? ? ? ?] & Hinv').
  destruct (scan (pending p ++ data)) as [evs rest]. by exists p'.
Qed.

Lemma feed_refines_scan_witness :
  parser_inv new_parser ∧
  let '(evs, rest) := scan (pending new_parser ++ [0xAA; 0x55; 0x41; 0xAA; 0x55; 0; 1]%Z) in
  ∃ p', feed new_parser [0xAA; 0x55; 0x41; 0xAA; 0x55; 0; 1]%Z = Ret (p', accepted evs) ∧
        parser_inv p' ∧ pending p' = rest ∧
        crc_error_count_ p' = bump (crc_errors evs) (crc_error_count_ new_parser) ∧
        length_error_count_ p' = bump (length_errors evs) (length_error_count_ new_parser) ∧
        overflow_byte_count_ p' = overflow_byte_count_ new_parser.
Proof.
  split; [exact parser_inv_new |].
  exact (feed_refines_scan new_parser [0xAA; 0x55; 0x41; 0xAA; 0x55; 0; 1]%Z parser_inv_new).
Defined.

(** C24: However the byte stream is cut into reads, a new parser delivers the
    same frames and ends with the same buffered bytes and counters as when it
    is given the whole stream at once (half packets and sticky packets). *)
Theorem chunking_irrelevant chunks chunks' :
  concat chunks = concat chunks' →
  ∃ p p' fs,
    feed_all new_parser chunks = Ret (p, fs) ∧ feed_all new_parser chunks' = Ret (p', fs) ∧
    parse_stream (concat chunks) = Ret fs ∧
    pending p = pending p' ∧
    crc_error_count_ p = crc_error_count_ p' ∧ length_error_count_ p = length_error_count_ p'.
Proof.
  intros Hc.
  destruct (feed_all_ok new_parser chunks parser_inv_new) as (p & Hp & [? Hr Hcr Hle ?]).
  destruct (feed_all_ok new_parser chunks' parser_inv_new) as (p' & Hp' & [? Hr' Hcr' Hle' ?]).
  rewrite <-Hc in Hp', Hr', Hcr', Hle'.
  exists p, p', (accepted (fst (scan (concat chunks)))).
  split; [done |]. split; [done |]. split; [apply parse_stream_ok |].
  by rewrite Hr, Hr', Hcr, Hcr', Hle, Hle'.
Qed.

Lemma chunking_irrelevant_witness :
  ∃ p p' fs,
    feed_all new_parser [[0xAA]; [0x55; 2; 1; 5; 7]; [8; 0x0E; 0x6A]]%Z = Ret (p, fs) ∧
    feed_all new_parser [[0xAA; 0x55; 2; 1; 5; 7; 8; 0x0E; 0x6A]]%Z = Ret (p', fs) ∧
    parse_stream (concat [[0xAA]; [0x55; 2; 1; 5; 7]; [8; 0x0E; 0x6A]]%Z) = Ret fs ∧
    pending p = pending p' ∧
    crc_error_count_ p = crc_error_count_ p' ∧ length_error_count_ p = length_error_count_ p'.
Proof.
  apply (chunking_irrelevant [[0xAA]; [0x55; 2; 1; 5; 7]; [8; 0x0E; 0x6A]]%Z
                             [[0xAA; 0x55; 2; 1; 5; 7; 8; 0x0E; 0x6A]]%Z).
  reflexivity.
Defined.

(** C7: Every well-formed frame of a stream is delivered, in order, even when
    bytes that do not start a header precede it and an unfinished tail
    follows. *)
Theorem noisy_frames_delivered l tail :
  noisy_ok l → scan_step tail = None →
  parse_stream (noisy_stream l ++ tail) = Ret l.*2.
Proof.
  intros Hl Ht. rewrite parse_stream_ok. destruct (scan_noisy l tail Hl) as [-> _].
  by rewrite (scan_wait tail Ht), app_nil_r.
Qed.

Lemma noisy_frames_delivered_witness :
  parse_stream (noisy_stream [([1; 2; 0x55], doc_frame); ([], doc_frame)] ++ [0xAA; 0x55; 3])%Z
  = Ret [doc_frame; doc_frame].
Proof.
  apply (noisy_frames_delivered [([1; 2; 0x55]%Z, doc_frame); ([], doc_frame)]).
  - repeat constructor; try (unfold kHeader1; lia); apply doc_frame_wf.
  - reflexivity.
Defined.

(** C25: The parser invents nothing: the frames it delivers for a byte stream
    are well formed and their encodings occur in the stream, in this order and
    without overlapping. *)
Theorem delivered_frames_occur data :
  bytes data → ∃ fs, parse_stream data = Ret fs ∧ occurs fs data.
Proof.
  intros Hb. exists (accepted (fst (scan data))).
  split; [apply parse_stream_ok | by apply scan_occurs].
Qed.

Lemma delivered_frames_occur_witness :
  bytes [0xAA; 0x55; 2; 1; 5; 7; 8; 0x0E; 0x6A]%Z ∧
  ∃ fs, parse_stream [0xAA; 0x55; 2; 1; 5; 7; 8; 0x0E; 0x6A]%Z = Ret fs ∧
        occurs fs [0xAA; 0x55; 2; 1; 5; 7; 8; 0x0E; 0x6A]%Z.
Proof.
  assert (bytes [0xAA; 0x55; 2; 1; 5; 7; 8; 0x0E; 0x6A]%Z) as Hb.
  { repeat constructor; unfold is_u8; lia. }
  split; [exact Hb |]. exact (delivered_frames_occur _ Hb).
Defined.

(** Whatever sequence of member calls is made on a parser, at most 70
    bytes of the 256-byte buffer are in use between calls and the overflow
    counter is still zero: the overflow branch of [feed] is dead code. *)
Lemma reachable_never_overflows p :
  rtc parser_call new_parser p →
  buffered_byte_count p <= 70 ∧ overflow_byte_count_ p = 0%Z.
Proof.
  intros Hr. destruct (parser_calls_inv _ _ Hr parser_inv_new eq_refl) as [Hinv Ho].
  split; [by apply parser_inv_room | done].
Qed.

