(* ===== verification/Float64.v ===== *)
(** * The [double] arithmetic of the sensor pipeline

    The program divides 16-bit tenths by [10.0], compares the quotient with
    constants and prints it with one decimal. [double] is the IEEE-754 binary64
    of the Standard Library's [SpecFloat] (rounding to nearest, ties to even),
    so the quotient is the one the hardware computes. The lemmas below show
    that the rounding error never crosses a threshold or a printed digit. *)

From S2P Require Import Prelude.
From Stdlib Require Import Floats.SpecFloat.

Local Open Scope Z_scope.

(** ** The operations *)

Definition double : Type := spec_float.

(** Conversion of an [int] (exact below 2^53). *)
Definition double_of_Z (z : Z) : double := binary_normalize 53 1024 z 0 false.

Definition double_div (x y : double) : double := SFdiv 53 1024 x y.
Definition double_ltb (x y : double) : bool := SFltb x y.

(** [x / 10.0] for an integer [x] promoted to [double]. *)
Definition tenth (z : Z) : double := double_div (double_of_Z z) (double_of_Z 10).

(** The integer nearest to [n / d], ties to even. *)
Definition div_round_even (n d : Z) : Z :=
  let q := n / d in
  let r := n mod d in
  if 2 * r <? d then q
  else if d <? 2 * r then q + 1
  else if Z.even q then q else q + 1.

Definition sign_text (s : bool) : string := if s then "-" else "".

(** [std::ostream << std::fixed << std::setprecision(1) << x]: the exact binary
    value, rounded to one decimal. *)
Definition fixed1 (x : double) : string :=
  match x with
  | S754_zero s => sign_text s +:+ "0.0"
  | S754_infinity s => sign_text s +:+ "inf"
  | S754_nan => "nan"
  | S754_finite s m e =>
      let tenths :=
        if 0 <=? e then 10 * Zpos m * 2 ^ e else div_round_even (10 * Zpos m) (2 ^ (- e)) in
      sign_text s +:+ pretty (tenths / 10) +:+ "." +:+ pretty (tenths mod 10)
  end.

Example fixed1_253 : fixed1 (tenth 253) = "25.3".
Proof. vm_compute. reflexivity. Qed.
Example fixed1_m4 : fixed1 (tenth (-4)) = "-0.4".
Proof. vm_compute. reflexivity. Qed.

(** ** Digits and rounding *)

Lemma digits2_bounds p : 2 ^ (Zpos (digits2_pos p) - 1) <= Zpos p < 2 ^ Zpos (digits2_pos p).
Proof.
  induction p as [p IH | p IH |]; [| | cbv; split; congruence]; simpl digits2_pos;
    rewrite Pos2Z.inj_succ; replace (Z.succ (Zpos (digits2_pos p)) - 1)
      with (Z.succ (Zpos (digits2_pos p) - 1)) by lia;
    rewrite !Z.pow_succ_r by lia; lia.
Qed.

Lemma digits2_unique p k : 1 <= k → 2 ^ (k - 1) <= Zpos p < 2 ^ k → Zdigits2 (Zpos p) = k.
Proof.
  intros Hk Hp. pose proof (digits2_bounds p) as Hd. simpl.
  set (n := Zpos (digits2_pos p)) in *. assert (1 <= n) by lia.
  destruct (Z.lt_trichotomy n k) as [Hlt | [| Hlt]]; [| done |].
  - pose proof (Z.pow_le_mono_r 2 n (k - 1)). lia.
  - pose proof (Z.pow_le_mono_r 2 k (n - 1)). lia.
Qed.

Definition canonical (m : positive) : Prop := 2 ^ 52 <= Zpos m < 2 ^ 53.

Lemma shr_fexp_53 m e l :
  canonical m → -1074 <= e →
  shr_fexp 53 1024 (Zpos m) e l = (shr_record_of_loc (Zpos m) l, e).
Proof.
  intros Hm He. unfold shr_fexp. rewrite (digits2_unique m 53) by (done || lia).
  unfold fexp, emin. replace (Z.max _ _ - e) with 0 by lia. done.
Qed.

(** One bit too many: the low bit and the location decide the rounding. *)
Lemma shr_fexp_54 m e l :
  2 ^ 53 <= Zpos m < 2 ^ 54 → -1074 <= e →
  shr_fexp 53 1024 (Zpos m) e l = (shr_1 (shr_record_of_loc (Zpos m) l), e + 1).
Proof.
  intros Hm He. unfold shr_fexp. rewrite (digits2_unique m 54) by (done || lia).
  unfold fexp, emin. replace (Z.max _ _ - e) with 1 by lia. done.
Qed.

Lemma round_exact sx m e :
  canonical m → -1074 <= e <= 971 →
  binary_round_aux 53 1024 sx (Zpos m) e loc_Exact = S754_finite sx m e.
Proof.
  intros Hm He. unfold binary_round_aux. rewrite shr_fexp_53 by (done || lia).
  cbn [shr_record_of_loc loc_of_shr_record round_nearest_even shr_m].
  rewrite shr_fexp_53 by (done || lia). cbn [shr_record_of_loc shr_m].
  destruct (Z.leb_spec e (1024 - 53)); [done | lia].
Qed.

Lemma round_nearest_even_cases m l : m <= round_nearest_even m l <= m + 1.
Proof. destruct l as [| []]; simpl; try case_match; lia. Qed.

Lemma shr_record_m m l : shr_m (shr_record_of_loc m l) = m.
Proof. by destruct l as [| []]. Qed.

Lemma shr_1_m p l : shr_m (shr_1 (shr_record_of_loc (Zpos p) l)) = Zpos p / 2.
Proof.
  rewrite <-Z.div2_div. by destruct l as [| []], p as [p | p |].
Qed.

(** Rounding a quotient of 53 or 54 bits: the result is a canonical number
    within one and a half units of the quotient. *)
Lemma round_quotient sx q e l :
  2 ^ 52 <= q < 2 ^ 54 - 2 → -1000 <= e <= 900 →
  ∃ m k, binary_round_aux 53 1024 sx q e l = S754_finite sx m (e + k) ∧
         canonical m ∧ (k = 0 ∨ k = 1) ∧ q - 1 <= Zpos m * 2 ^ k <= q + 2.
Proof.
  intros Hq He. destruct q as [| p |]; [lia | | lia].
  unfold binary_round_aux. destruct (Z.lt_ge_cases (Zpos p) (2 ^ 53)) as [Hlt | Hge].
  - rewrite shr_fexp_53 by (unfold canonical; lia). rewrite shr_record_m.
    set (lx := loc_of_shr_record _). pose proof (round_nearest_even_cases (Zpos p) lx) as Hr.
    destruct (round_nearest_even (Zpos p) lx) as [| p1 |]; [lia | | lia].
    destruct (Z.eq_dec (Zpos p1) (2 ^ 53)) as [Heq | Hne].
    + assert (p1 = 9007199254740992%positive) as -> by lia.
      exists 4503599627370496%positive, 1. rewrite shr_fexp_54 by lia.
      cbn [shr_record_of_loc shr_1 shr_m].
      destruct (Z.leb_spec (e + 1) (1024 - 53)); [| lia].
      unfold canonical. split_and!; try lia. done.
    + exists p1, 0. rewrite shr_fexp_53, shr_record_m by (unfold canonical; lia).
      destruct (Z.leb_spec e (1024 - 53)); [| lia].
      rewrite Z.add_0_r. unfold canonical. split_and!; try lia. done.
  - rewrite shr_fexp_54 by lia. rewrite shr_1_m.
    set (lx := loc_of_shr_record _).
    pose proof (round_nearest_even_cases (Zpos p / 2) lx) as Hr.
    pose proof (Z.div_mod (Zpos p) 2). pose proof (Z.mod_pos_bound (Zpos p) 2).
    destruct (round_nearest_even (Zpos p / 2) lx) as [| p1 |]; [lia | | lia].
    exists p1, 1. rewrite shr_fexp_53, shr_record_m by (unfold canonical; lia).
    destruct (Z.leb_spec (e + 1) (1024 - 53)); [| lia].
    unfold canonical. split_and!; try lia. done.
Qed.

(** ** Conversion and division by ten *)

Lemma iter_xO p n : Zpos (Pos.iter xO p n) = Zpos p * 2 ^ Zpos n.
Proof.
  induction n as [| n IH] using Pos.peano_ind; [simpl; lia |].
  rewrite Pos.iter_succ, Pos2Z.inj_succ, Z.pow_succ_r by lia.
  rewrite (Pos2Z.inj_xO (Pos.iter xO p n)), IH. lia.
Qed.

(** A positive integer of at most 20 bits, as a canonical number. *)
Lemma binary_round_int sx p :
  Zpos p < 2 ^ 20 →
  ∃ mx d, binary_round 53 1024 sx p 0 = S754_finite sx mx (d - 53) ∧ canonical mx ∧
          1 <= d <= 20 ∧ 2 ^ (d - 1) <= Zpos p < 2 ^ d ∧ Zpos mx = Zpos p * 2 ^ (53 - d).
Proof.
  intros Hp. pose proof (digits2_bounds p) as Hd. set (d := Zpos (digits2_pos p)) in *.
  assert (1 <= d <= 20) as Hd20.
  { split; [lia |]. destruct (Z.le_gt_cases d 20); [done |].
    pose proof (Z.pow_le_mono_r 2 20 (d - 1)). lia. }
  unfold binary_round. fold d. rewrite Z.add_0_r.
  replace (fexp 53 1024 d) with (d - 53) by (unfold fexp, emin; lia).
  unfold shl_align. rewrite Z.sub_0_r.
  destruct (d - 53) as [| | k] eqn:Hk; [lia | lia |]. rewrite <-Hk.
  pose proof (iter_xO p k) as Hm. set (mx := Pos.iter xO p k) in *.
  replace (Zpos k) with (53 - d) in Hm by lia.
  assert (2 ^ (d - 1) * 2 ^ (53 - d) = 2 ^ 52 ∧ 2 ^ d * 2 ^ (53 - d) = 2 ^ 53) as [H1 H2].
  { rewrite <-!Z.pow_add_r by lia. split; f_equal; lia. }
  assert (0 < 2 ^ (53 - d)) by (apply Z.pow_pos_nonneg; lia).
  assert (canonical mx) as Hc by (unfold canonical; nia).
  exists mx, d. rewrite round_exact by (done || lia). done.
Qed.

Lemma double_of_10 : double_of_Z 10 = S754_finite false 5629499534213120 (-49).
Proof. vm_compute. reflexivity. Qed.

(** [canon_near s p x]: [x] is a canonical number of sign [s] and magnitude
    within [2 / 2^n] of [p / 10], for some exponent [-n]. *)
Definition canon_near (s : bool) (p : positive) (x : double) : Prop :=
  ∃ m n, x = S754_finite s m (- n) ∧ canonical m ∧ 36 <= n <= 56 ∧
         Z.abs (10 * Zpos m - Zpos p * 2 ^ n) <= 20.

Lemma tenth_near_aux sx p :
  Zpos p < 2 ^ 20 →
  canon_near sx p (double_div (binary_round 53 1024 sx p 0) (double_of_Z 10)).
Proof.
  intros Hp. destruct (binary_round_int sx p Hp) as (mx & d & -> & Hmx & Hd & Hpd & Hv).
  rewrite double_of_10. unfold double_div, SFdiv, SFdiv_core_binary.
  rewrite (digits2_unique mx 53) by (done || lia).
  rewrite (digits2_unique 5629499534213120 53) by lia.
  replace (Z.min _ _) with (d - 57) by (unfold fexp, emin; lia).
  replace (d - 53 - -49 - (d - 57)) with 53 by lia.
  rewrite Z.shiftl_mul_pow2 by lia.
  destruct (Z.div_eucl (Zpos mx * 2 ^ 53) 5629499534213120) as [q r] eqn:Hqr.
  pose proof (Z_div_mod (Zpos mx * 2 ^ 53) 5629499534213120 ltac:(lia)) as Hdm.
  rewrite Hqr in Hdm. destruct Hdm as [Heq Hr]. rewrite xorb_false_r.
  set (X := Zpos p * 2 ^ (57 - d)).
  assert (Zpos mx * 2 ^ 53 = X * 2 ^ 49) as HX.
  { unfold X. rewrite Hv, <-!Z.mul_assoc, <-!Z.pow_add_r by lia. do 2 f_equal. lia. }
  assert (10 * q <= X < 10 * q + 10) as HqX by lia.
  unfold canonical in Hmx.
  destruct (round_quotient sx q (d - 57) (new_location 5629499534213120 r))
    as (m & k & Hres & Hc & Hk & Hb); [lia | lia |].
  exists m, (57 - d - k). replace (- (57 - d - k)) with (d - 57 + k) by lia.
  split; [done |]. split; [done |]. split; [lia |]. unfold X in *.
  destruct Hk as [-> | ->].
  - rewrite Z.sub_0_r. lia.
  - replace (57 - d) with (Z.succ (57 - d - 1)) in HqX by lia.
    rewrite Z.pow_succ_r in HqX by lia. lia.
Qed.

(** [tenth z] by the sign of [z]. *)
Lemma tenth_cases z :
  Z.abs z < 2 ^ 20 →
  match z with
  | Z0 => tenth z = S754_zero false
  | Zpos p => canon_near false p (tenth z)
  | Zneg p => canon_near true p (tenth z)
  end.
Proof.
  intros Hz. destruct z as [| p | p]; [done | |];
    apply (tenth_near_aux _ p); lia.
Qed.

(** ** Comparison with an integer constant *)

(** Between canonical mantissas, a larger exponent wins. *)
Lemma exponent_gap m1 m2 a b :
  2 ^ 52 <= m2 → m1 < 2 ^ 53 → 0 < a → 0 < b → m1 * a < m2 * (2 * a * b).
Proof.
  intros H2 H1 Ha Hb. assert (m1 * a < 2 * m2 * a) by (apply Z.mul_lt_mono_pos_r; lia).
  assert (2 * m2 * a * 1 <= 2 * m2 * a * b) by (apply Z.mul_le_mono_nonneg_l; lia). lia.
Qed.

Lemma compare_canonical m1 n1 m2 n2 :
  canonical m1 → canonical m2 → 0 <= n1 → 0 <= n2 →
  SFcompare (S754_finite false m1 (- n1)) (S754_finite false m2 (- n2))
  = Some (Zpos m1 * 2 ^ n2 ?= Zpos m2 * 2 ^ n1).
Proof.
  unfold canonical. intros H1 H2 Hn1 Hn2. cbn [SFcompare]. f_equal.
  assert (∀ a, 0 <= a → 0 < 2 ^ a) as Hp by (intros; apply Z.pow_pos_nonneg; lia).
  destruct (Z.compare_spec (- n1) (- n2)) as [He | Hlt | Hgt]; symmetry.
  - assert (n1 = n2) as -> by lia. specialize (Hp n2 Hn2).
    change (Pos.compare_cont Eq m1 m2) with (Zpos m1 ?= Zpos m2).
    symmetry. by apply Zmult_compare_compat_r, Z.lt_gt.
  - apply Z.compare_lt_iff. replace n1 with (Z.succ n2 + (n1 - n2 - 1)) by lia.
    rewrite Z.pow_add_r, Z.pow_succ_r by lia.
    pose proof (Hp n2 Hn2). pose proof (Hp (n1 - n2 - 1) ltac:(lia)).
    apply exponent_gap; lia.
  - apply Z.compare_gt_iff. replace n2 with (Z.succ n1 + (n2 - n1 - 1)) by lia.
    rewrite Z.pow_add_r, Z.pow_succ_r by lia.
    pose proof (Hp n1 Hn1). pose proof (Hp (n2 - n1 - 1) ltac:(lia)).
    apply exponent_gap; lia.
Qed.

Lemma compare_negated m1 e1 m2 e2 :
  SFcompare (S754_finite true m1 e1) (S754_finite true m2 e2)
  = CompOpp <$> SFcompare (S754_finite false m1 e1) (S754_finite false m2 e2).
Proof. simpl. by destruct (e1 ?= e2). Qed.

Lemma compare_swap x y : SFcompare y x = CompOpp <$> SFcompare x y.
Proof.
  destruct x as [| [] | | s m e], y as [| [] | | s' m' e']; try done;
    try (by destruct s); try (by destruct s'); try by destruct s0.
  destruct s, s'; try done; simpl; rewrite (Z.compare_antisym e e');
    destruct (e ?= e'); try done; simpl;
    change (Pos.compare_cont Eq ?a ?b) with (Pos.compare a b);
    by rewrite (Pos.compare_antisym m m').
Qed.

(** A magnitude away from [10 c] tenths stays on its side of [c]. *)
Lemma near_compare p c m n :
  Z.abs (10 * Zpos m - Zpos p * 2 ^ n) <= 20 → 36 <= n → Zpos p ≠ 10 * c →
  (Zpos m ?= c * 2 ^ n) = (Zpos p ?= 10 * c).
Proof.
  intros Hm Hn Hne. pose proof (Z.pow_le_mono_r 2 36 n ltac:(lia) Hn) as Hp.
  set (w := 2 ^ n) in *. destruct (Z.compare_spec (Zpos p) (10 * c)); [done | |].
  - apply Z.compare_lt_iff. assert (Zpos p * w <= (10 * c - 1) * w) by nia. lia.
  - apply Z.compare_gt_iff. assert ((10 * c + 1) * w <= Zpos p * w) by nia. lia.
Qed.

Lemma compare_near_const sp p x c :
  Zpos c < 2 ^ 20 → canon_near sp p x → Zpos p ≠ 10 * Zpos c →
  SFcompare x (binary_round 53 1024 sp c 0)
  = Some (if sp then CompOpp (Zpos p ?= 10 * Zpos c) else Zpos p ?= 10 * Zpos c).
Proof.
  intros Hc (m & n & -> & Hm & Hn & Hd) Hne.
  destruct (binary_round_int sp c Hc) as (mx & d & -> & Hmx & Hd20 & _ & Hv).
  replace (d - 53) with (- (53 - d)) by lia.
  assert (SFcompare (S754_finite false m (- n)) (S754_finite false mx (- (53 - d)))
          = Some (Zpos p ?= 10 * Zpos c)) as He.
  { rewrite compare_canonical, Hv by (done || lia). f_equal.
    rewrite <-(near_compare p (Zpos c) m n) by (done || lia).
    rewrite <-Z.mul_assoc, (Z.mul_comm (2 ^ (53 - d))), Z.mul_assoc.
    symmetry. apply Zmult_compare_compat_r. apply Z.lt_gt, Z.pow_pos_nonneg; lia. }
  destruct sp; [by rewrite compare_negated, He | done].
Qed.

Lemma compare_same s m e : SFcompare (S754_finite s m e) (S754_finite s m e) = Some Eq.
Proof.
  simpl. rewrite Z.compare_refl. change (Pos.compare_cont Eq m m) with (Pos.compare m m).
  rewrite Pos.compare_refl. by destruct s.
Qed.

Lemma double_of_Z_pos sx p :
  Zpos p < 2 ^ 20 → ∃ m e, binary_round 53 1024 sx p 0 = S754_finite sx m e.
Proof.
  intros Hp. destruct (binary_round_int sx p Hp) as (m & d & -> & _). by exists m, (d - 53).
Qed.

(** Comparing a tenth with an integer the division reaches exactly. *)
Lemma tenth_compare t c :
  Z.abs t < 2 ^ 20 → Z.abs c < 2 ^ 20 → tenth (10 * c) = double_of_Z c →
  SFcompare (tenth t) (double_of_Z c) = Some (t ?= 10 * c).
Proof.
  intros Ht Hc Hex. pose proof (tenth_cases t Ht) as Hn.
  destruct (Z.eq_dec t (10 * c)) as [-> | Hne].
  { rewrite Hex, Z.compare_refl. destruct c as [| c | c]; [done | |]; simpl double_of_Z;
      [destruct (double_of_Z_pos false c) as (? & ? & ->)
      |destruct (double_of_Z_pos true c) as (? & ? & ->)]; try lia; apply compare_same. }
  destruct c as [| c | c]; simpl double_of_Z.
  - destruct t as [| p | p]; [by rewrite Hn | |];
      destruct Hn as (m & n & -> & _); done.
  - destruct t as [| p | p].
    + rewrite Hn. by destruct (double_of_Z_pos false c) as (? & ? & ->); [lia |].
    + apply (compare_near_const false); [lia | done | lia].
    + destruct Hn as (m & n & -> & _).
      by destruct (double_of_Z_pos false c) as (? & ? & ->); [lia |].
  - destruct t as [| p | p].
    + rewrite Hn. by destruct (double_of_Z_pos true c) as (? & ? & ->); [lia |].
    + destruct Hn as (m & n & -> & _).
      by destruct (double_of_Z_pos true c) as (? & ? & ->); [lia |].
    + rewrite (compare_near_const true p _ c Hc Hn) by lia.
      destruct (Z.compare_spec (Zpos p) (10 * Zpos c)),
        (Z.compare_spec (Zneg p) (10 * Zneg c)); done || lia.
Qed.

Lemma tenth_ltb t c :
  Z.abs t < 2 ^ 20 → Z.abs c < 2 ^ 20 → tenth (10 * c) = double_of_Z c →
  double_ltb (tenth t) (double_of_Z c) = (t <? 10 * c) ∧
  double_ltb (double_of_Z c) (tenth t) = (10 * c <? t).
Proof.
  intros Ht Hc Hex. unfold double_ltb, SFltb, Z.ltb.
  rewrite (compare_swap (tenth t)), (tenth_compare t c Ht Hc Hex).
  rewrite (Z.compare_antisym t (10 * c)). by destruct (t ?= 10 * c).
Qed.

(** ** Printing *)

(** The decimal text of [z] tenths. *)
Definition tenth_text (z : Z) : string :=
  sign_text (z <? 0) +:+ pretty (Z.abs z / 10) +:+ "." +:+ pretty (Z.abs z mod 10).

Lemma div_round_even_near n d p :
  Z.abs (n - p * d) <= 20 → 2 ^ 36 <= d → div_round_even n d = p.
Proof.
  intros Hn Hd. unfold div_round_even.
  destruct (Z.le_gt_cases (p * d) n).
  - assert (n / d = p) as ->
      by (symmetry; apply (Z.div_unique n d p (n - p * d)); lia).
    assert (n mod d = n - p * d) as ->
      by (symmetry; apply (Z.mod_unique n d p (n - p * d)); lia).
    by destruct (Z.ltb_spec (2 * (n - p * d)) d); [| lia].
  - assert (n / d = p - 1) as ->
      by (symmetry; apply (Z.div_unique n d (p - 1) (n - (p - 1) * d)); lia).
    assert (n mod d = n - (p - 1) * d) as ->
      by (symmetry; apply (Z.mod_unique n d (p - 1) (n - (p - 1) * d)); lia).
    destruct (Z.ltb_spec (2 * (n - (p - 1) * d)) d); [lia |].
    destruct (Z.ltb_spec d (2 * (n - (p - 1) * d))); lia.
Qed.

Lemma fixed1_near s p x :
  canon_near s p x →
  fixed1 x = sign_text s +:+ pretty (Zpos p / 10) +:+ "." +:+ pretty (Zpos p mod 10).
Proof.
  intros (m & n & -> & Hm & Hn & Hd). unfold fixed1.
  destruct (Z.leb_spec 0 (- n)); [lia |]. rewrite Z.opp_involutive.
  rewrite (div_round_even_near _ _ (Zpos p)); [done | done |].
  apply Z.pow_le_mono_r; lia.
Qed.

(** The printed quotient is the decimal notation of the tenths. *)
Lemma fixed1_tenth z : Z.abs z < 2 ^ 20 → fixed1 (tenth z) = tenth_text z.
Proof.
  intros Hz. pose proof (tenth_cases z Hz) as Hn. destruct z as [| p | p].
  - by rewrite Hn.
  - by apply fixed1_near.
  - by apply fixed1_near.
Qed.
