(* ===== verification/SensorData.v ===== *)
(** * Sensor data ([src/app/sensor_data.cpp])

    Decoding of the 11-byte sensor payload, the range checks with their
    warnings, and the JSON text that is published. *)

From S2P Require Import Prelude FrameParser Float64.

Local Open Scope Z_scope.
Local Open Scope gateway_scope.

(** ** The code *)

Record SensorData : Type := mk_sensor {
  device_id : Z;
  cmd : Z;
  temperature_c : double;
  humidity_percent : double;
  gas_ppm : Z;
  battery_mv : Z;
  status : Z;
  sequence : Z;
  valid : bool;
  warnings : list string;
}.

(** [SensorData{}]. *)
Definition default_sensor : SensorData :=
  mk_sensor 0 0 (double_of_Z 0) (double_of_Z 0) 0 0 0 0 true [].

Definition kSensorPayloadSize : nat := 11.

Definition read_u16_be (data : list Z) (offset : nat) : Z :=
  u16 (be16 data.[offset] data.[offset + 1]).

Definition read_i16_be (data : list Z) (offset : nat) : Z :=
  i16 (be16 data.[offset] data.[offset + 1]).

Definition add_warning (d : SensorData) (warning : string) : SensorData :=
  mk_sensor (device_id d) (cmd d) (temperature_c d) (humidity_percent d) (gas_ppm d)
            (battery_mv d) (status d) (sequence d) false (warnings d ++ [warning]).

(** [if (c) { add_warning(data, w); }] *)
Definition warn_if (c : SensorData → bool) (w : string) (d : SensorData) : SensorData :=
  if c d then add_warning d w else d.

Definition validate_sensor_data_impl (d0 : SensorData) : SensorData :=
  let d1 := warn_if (λ d, double_ltb (temperature_c d) (double_of_Z (-40))
                          || double_ltb (double_of_Z 85) (temperature_c d))%bool
                    "temperature out of range" d0 in
  let d2 := warn_if (λ d, double_ltb (humidity_percent d) (double_of_Z 0)
                          || double_ltb (double_of_Z 100) (humidity_percent d))%bool
                    "humidity out of range" d1 in
  let d3 := warn_if (λ d, 5000 <? gas_ppm d) "gas concentration out of range" d2 in
  let d4 := warn_if (λ d, (battery_mv d <? 3000) || (4200 <? battery_mv d))%bool
                    "battery voltage out of range" d3 in
  let d5 := warn_if (λ d, negb (Z.land (status d) 0x01 =? 0))
                    "device reports sensor fault" d4 in
  let d6 := warn_if (λ d, negb (Z.land (status d) 0x02 =? 0))
                    "device reports low battery" d5 in
  warn_if (λ d, negb (Z.land (status d) 0x04 =? 0)) "device is calibrating" d6.

(** The result and the final value of the [out] parameter. *)
Definition parse_sensor_data (frame : Frame) : bool * SensorData :=
  let p := frame_payload frame in
  let out := mk_sensor (frame_device_id frame) (frame_cmd frame)
               (double_of_Z 0) (double_of_Z 0) 0 0 0 0 true [] in
  if negb (length p =? kSensorPayloadSize)%nat
  then (false, add_warning out "invalid payload length")
  else
    let temperature_x10 := read_i16_be p 0 in
    let humidity_x10 := read_u16_be p 2 in
    let out1 := mk_sensor (device_id out) (cmd out)
                  (tenth temperature_x10) (tenth humidity_x10)
                  (read_u16_be p 4) (read_u16_be p 6) p.[8] (read_u16_be p 9)
                  (valid out) (warnings out) in
    let out2 := validate_sensor_data_impl out1 in
    (valid out2, out2).

Definition validate_sensor_data (d : SensorData) : SensorData :=
  validate_sensor_data_impl
    (mk_sensor (device_id d) (cmd d) (temperature_c d) (humidity_percent d) (gas_ppm d)
               (battery_mv d) (status d) (sequence d) true []).

(** The [warnings] array: elements separated by commas. *)
Fixpoint warnings_loop (i : nat) (l : list string) : string :=
  match l with
  | [] => ""
  | w :: rest =>
      (if (i =? 0)%nat then "" else ",") +:+ quoted w +:+ warnings_loop (S i) rest
  end.

Definition sensor_data_to_json (d : SensorData) : string :=
  "{"
  +:+ jkey "device_id" +:+ dec (device_id d) +:+ ","
  +:+ jkey "cmd" +:+ dec (cmd d) +:+ ","
  +:+ jkey "temperature_c" +:+ fixed1 (temperature_c d) +:+ ","
  +:+ jkey "humidity_percent" +:+ fixed1 (humidity_percent d) +:+ ","
  +:+ jkey "gas_ppm" +:+ dec (gas_ppm d) +:+ ","
  +:+ jkey "battery_mv" +:+ dec (battery_mv d) +:+ ","
  +:+ jkey "status" +:+ dec (status d) +:+ ","
  +:+ jkey "sequence" +:+ dec (sequence d) +:+ ","
  +:+ jkey "valid" +:+ bool_text (valid d)
  +:+ (match warnings d with
       | [] => ""
       | ws => "," +:+ jkey "warnings" +:+ "[" +:+ warnings_loop 0 ws +:+ "]"
       end)
  +:+ "}".

(** ** Validation *)

(** The condition of each warning, on the raw readings (tenths for the two
    fractional ones). *)
Definition raw_warnings (t h gas mv st : Z) : list string :=
  (if (t <? -400) || (850 <? t) then ["temperature out of range"] else [])%bool
  ++ (if (h <? 0) || (1000 <? h) then ["humidity out of range"] else [])%bool
  ++ (if 5000 <? gas then ["gas concentration out of range"] else [])
  ++ (if (mv <? 3000) || (4200 <? mv) then ["battery voltage out of range"] else [])%bool
  ++ (if negb (Z.land st 1 =? 0) then ["device reports sensor fault"] else [])
  ++ (if negb (Z.land st 2 =? 0) then ["device reports low battery"] else [])
  ++ (if negb (Z.land st 4 =? 0) then ["device is calibrating"] else []).

Definition set_checks (d : SensorData) (v : bool) (ws : list string) : SensorData :=
  mk_sensor (device_id d) (cmd d) (temperature_c d) (humidity_percent d) (gas_ppm d)
            (battery_mv d) (status d) (sequence d) v ws.

(** Warnings are appended, and any warning invalidates the record. *)
Definition append_warnings (d : SensorData) (ws : list string) : SensorData :=
  set_checks d (valid d && match ws with [] => true | _ => false end) (warnings d ++ ws).

Lemma append_warnings_nil d : append_warnings d [] = d.
Proof.
  destruct d. unfold append_warnings, set_checks. simpl. by rewrite andb_true_r, app_nil_r.
Qed.

Lemma append_warnings_app d w1 w2 :
  append_warnings (append_warnings d w1) w2 = append_warnings d (w1 ++ w2).
Proof.
  unfold append_warnings, set_checks. simpl. rewrite app_assoc. f_equal.
  by destruct (valid d), w1, w2.
Qed.

Lemma warn_if_append c w d :
  warn_if c w d = append_warnings d (if c d then [w] else []).
Proof.
  unfold warn_if. destruct (c d); [| by rewrite append_warnings_nil].
  unfold add_warning, append_warnings, set_checks. by rewrite andb_false_r.
Qed.

(** The warnings of a record, in the order of the checks. *)
Definition record_warnings (d : SensorData) : list string :=
  (if double_ltb (temperature_c d) (double_of_Z (-40))
      || double_ltb (double_of_Z 85) (temperature_c d)
   then ["temperature out of range"] else [])%bool
  ++ (if double_ltb (humidity_percent d) (double_of_Z 0)
         || double_ltb (double_of_Z 100) (humidity_percent d)
      then ["humidity out of range"] else [])%bool
  ++ (if 5000 <? gas_ppm d then ["gas concentration out of range"] else [])
  ++ (if (battery_mv d <? 3000) || (4200 <? battery_mv d)
      then ["battery voltage out of range"] else [])%bool
  ++ (if negb (Z.land (status d) 1 =? 0) then ["device reports sensor fault"] else [])
  ++ (if negb (Z.land (status d) 2 =? 0) then ["device reports low battery"] else [])
  ++ (if negb (Z.land (status d) 4 =? 0) then ["device is calibrating"] else []).

Lemma validate_impl_append d :
  validate_sensor_data_impl d = append_warnings d (record_warnings d).
Proof.
  unfold validate_sensor_data_impl, record_warnings. cbv zeta.
  rewrite !warn_if_append, !append_warnings_app. by f_equal.
Qed.

(** A record whose readings are given in tenths. *)
Definition reading (dev c t h gas mv st sq : Z) : SensorData :=
  mk_sensor dev c (tenth t) (tenth h) gas mv st sq true [].

Lemma record_warnings_reading dev c t h gas mv st sq :
  is_i16 t → is_u16 h →
  record_warnings (reading dev c t h gas mv st sq) = raw_warnings t h gas mv st.
Proof.
  unfold is_i16, is_u16. intros Ht Hh.
  unfold record_warnings, raw_warnings, reading.
  cbn [temperature_c humidity_percent gas_ppm battery_mv status].
  destruct (tenth_ltb t (-40)) as [-> _]; [lia | lia | by vm_compute |].
  destruct (tenth_ltb t 85) as [_ ->]; [lia | lia | by vm_compute |].
  destruct (tenth_ltb h 0) as [-> _]; [lia | lia | by vm_compute |].
  destruct (tenth_ltb h 100) as [_ ->]; [lia | lia | by vm_compute |].
  done.
Qed.

Lemma validate_reading dev c t h gas mv st sq :
  is_i16 t → is_u16 h →
  validate_sensor_data (reading dev c t h gas mv st sq)
  = append_warnings (reading dev c t h gas mv st sq) (raw_warnings t h gas mv st).
Proof.
  intros Ht Hh. unfold validate_sensor_data. rewrite validate_impl_append.
  by rewrite <-(record_warnings_reading dev c t h gas mv st sq).
Qed.

(** ** The payload on the wire *)

Definition sensor_payload (t h gas mv st sq : Z) : list Z :=
  [hi8 (u16 t); lo8 (u16 t); hi8 h; lo8 h; hi8 gas; lo8 gas; hi8 mv; lo8 mv; st;
   hi8 sq; lo8 sq].

Lemma parse_sensor_payload dev c t h gas mv st sq crc :
  is_i16 t → is_u16 h → is_u16 gas → is_u16 mv → is_u16 sq →
  parse_sensor_data (mk_frame c dev (sensor_payload t h gas mv st sq) crc)
  = (match raw_warnings t h gas mv st with [] => true | _ => false end,
     append_warnings (reading dev c t h gas mv st sq) (raw_warnings t h gas mv st)).
Proof.
  intros Ht Hh Hg Hm Hs. unfold parse_sensor_data, read_i16_be, read_u16_be.
  cbn [frame_payload sensor_payload length nth Nat.add Nat.eqb kSensorPayloadSize negb
       frame_device_id frame_cmd device_id cmd valid warnings].
  rewrite !be16_split, (u16_small h), (u16_small gas), (u16_small mv), (u16_small sq)
    by auto with width.
  rewrite i16_u16 by done. fold (reading dev c t h gas mv st sq).
  rewrite validate_impl_append, record_warnings_reading by done. done.
Qed.

Lemma raw_warnings_nil t h gas mv st :
  raw_warnings t h gas mv st = [] ↔
  -400 <= t <= 850 ∧ 0 <= h <= 1000 ∧ gas <= 5000 ∧ 3000 <= mv <= 4200 ∧
  Z.land st 1 = 0 ∧ Z.land st 2 = 0 ∧ Z.land st 4 = 0.
Proof.
  unfold raw_warnings. split.
  - intros H. repeat (apply app_nil in H as [? H]).
    repeat case_match; try discriminate;
      rewrite ?orb_false_iff, ?negb_false_iff in *; lia.
  - intros (? & ? & ? & ? & -> & -> & ->).
    repeat match goal with
      | |- context [?a <? ?b] => destruct (Z.ltb_spec a b); [lia |]
      end. done.
Qed.

(** Every 11-byte payload is the encoding of some readings. *)
Lemma sensor_payload_surj p :
  bytes p → length p = kSensorPayloadSize →
  ∃ t h gas mv st sq,
    p = sensor_payload t h gas mv st sq ∧
    is_i16 t ∧ is_u16 h ∧ is_u16 gas ∧ is_u16 mv ∧ is_u8 st ∧ is_u16 sq.
Proof.
  intros Hb Hl. unfold kSensorPayloadSize in Hl.
  do 11 (destruct p as [|? p]; [discriminate |]). destruct p; [| discriminate].
  unfold bytes in Hb. rewrite !Forall_cons in Hb.
  destruct Hb as (? & ? & ? & ? & ? & ? & ? & ? & ? & ? & ? & _).
  exists (i16 (z0 + 256 * z)), (z2 + 256 * z1), (z4 + 256 * z3), (z6 + 256 * z5), z7,
    (z9 + 256 * z8).
  unfold sensor_payload. rewrite u16_i16 by (unfold is_u8, is_u16 in *; lia).
  rewrite !lo8_join, !hi8_join by done.
  split_and!; try done; try apply i16_range; unfold is_u8, is_u16 in *; lia.
Qed.

Lemma warnings_loop_later i w ws :
  warnings_loop (S i) (w :: ws) = "," +:+ String.concat "," (quoted <$> (w :: ws)).
Proof.
  revert i w. induction ws as [|w' ws IH]; intros i w.
  { cbn [warnings_loop Nat.eqb fmap list_fmap String.concat]. by rewrite string_app_nil_r. }
  change (warnings_loop (S i) (w :: w' :: ws))
    with ("," +:+ quoted w +:+ warnings_loop (S (S i)) (w' :: ws)).
  by rewrite IH.
Qed.

Lemma warnings_loop_concat w ws :
  warnings_loop 0 (w :: ws) = String.concat "," (quoted <$> (w :: ws)).
Proof.
  destruct ws as [|w' ws].
  { cbn [warnings_loop Nat.eqb fmap list_fmap String.concat]. by rewrite string_app_nil_r. }
  change (warnings_loop 0 (w :: w' :: ws)) with (quoted w +:+ warnings_loop 1 (w' :: ws)).
  by rewrite warnings_loop_later.
Qed.

Definition no_warnings (ws : list string) : bool := match ws with [] => true | _ => false end.

(** ** Properties *)

(** C36: [parse_sensor_data] on any frame. A payload of the wrong length is
    refused with one warning and default readings; an 11-byte payload decodes to
    the readings it encodes, with exactly the warnings whose condition on the raw
    integers holds (the [double] comparisons are never off by a rounding), and
    the frame is accepted exactly when there is none. *)
Theorem parse_sensor_data_spec f :
  bytes (frame_payload f) →
  if decide (length (frame_payload f) = 11%nat)
  then ∃ t h gas mv st sq,
    frame_payload f = sensor_payload t h gas mv st sq ∧
    is_i16 t ∧ is_u16 h ∧ is_u16 gas ∧ is_u16 mv ∧ is_u8 st ∧ is_u16 sq ∧
    let ws := raw_warnings t h gas mv st in
    parse_sensor_data f =
      (no_warnings ws,
       set_checks (reading (frame_device_id f) (frame_cmd f) t h gas mv st sq)
                  (no_warnings ws) ws)
  else parse_sensor_data f =
         (false, mk_sensor (frame_device_id f) (frame_cmd f) (double_of_Z 0) (double_of_Z 0)
                   0 0 0 0 false ["invalid payload length"]).
Proof.
  intros Hb. destruct f as [c dev p crc]. cbn [frame_payload frame_device_id frame_cmd] in *.
  case_decide as Hl.
  - destruct (sensor_payload_surj p Hb Hl) as (t & h & gas & mv & st & sq & -> & Hr).
    exists t, h, gas, mv, st, sq. split; [done |].
    destruct Hr as (? & ? & ? & ? & ? & ?). split_and!; try done.
    cbv zeta. by rewrite parse_sensor_payload.
  - unfold parse_sensor_data. cbn [frame_payload].
    by destruct (Nat.eqb_spec (length p) kSensorPayloadSize).
Qed.

Lemma parse_sensor_data_spec_witness :
  bytes (frame_payload doc_frame) ∧
  ∃ t h gas mv st sq,
    frame_payload doc_frame = sensor_payload t h gas mv st sq ∧
    is_i16 t ∧ is_u16 h ∧ is_u16 gas ∧ is_u16 mv ∧ is_u8 st ∧ is_u16 sq ∧
    let ws := raw_warnings t h gas mv st in
    parse_sensor_data doc_frame =
      (no_warnings ws,
       set_checks (reading (frame_device_id doc_frame) (frame_cmd doc_frame) t h gas mv st sq)
                  (no_warnings ws) ws).
Proof.
  assert (bytes (frame_payload doc_frame)) as Hb by apply doc_frame_wf.
  split; [exact Hb |]. exact (parse_sensor_data_spec doc_frame Hb).
Defined.

(** A reading passes validation exactly when every documented range and
    status bit condition holds, whatever validity flag and warnings the record
    carried before, and validating a second time changes nothing. *)
Lemma validate_sensor_data_spec dev c t h gas mv st sq v0 ws0 :
  is_i16 t → is_u16 h →
  let d := set_checks (reading dev c t h gas mv st sq) v0 ws0 in
  let d' := validate_sensor_data d in
  (valid d' = true ↔
     -400 <= t <= 850 ∧ 0 <= h <= 1000 ∧ gas <= 5000 ∧ 3000 <= mv <= 4200 ∧
     Z.land st 1 = 0 ∧ Z.land st 2 = 0 ∧ Z.land st 4 = 0) ∧
  (valid d' = true ↔ warnings d' = []) ∧
  d' = set_checks d (valid d') (warnings d') ∧
  validate_sensor_data d' = d'.
Proof.
  intros Ht Hh d d'.
  assert (∀ v ws, validate_sensor_data (set_checks (reading dev c t h gas mv st sq) v ws)
            = append_warnings (reading dev c t h gas mv st sq) (raw_warnings t h gas mv st))
    as Hv by (intros; by apply validate_reading).
  unfold d', d. rewrite (Hv v0 ws0). cbn [append_warnings set_checks valid warnings reading].
  rewrite <-raw_warnings_nil. cbn [andb app].
  split; [by destruct (raw_warnings t h gas mv st) |].
  split; [by destruct (raw_warnings t h gas mv st) |]. split; [done |].
  apply (Hv (match raw_warnings t h gas mv st with [] => true | _ => false end)
            (raw_warnings t h gas mv st)).
Qed.

(** The JSON text of a reading: the two fractional readings appear as
    exact decimal tenths, in the documented member order, and the [warnings]
    array is present exactly when there are warnings. *)
Lemma sensor_json_text dev c t h gas mv st sq v ws :
  is_i16 t → is_u16 h →
  sensor_data_to_json (set_checks (reading dev c t h gas mv st sq) v ws) =
    "{" +:+ jkey "device_id" +:+ pretty dev +:+ "," +:+ jkey "cmd" +:+ pretty c +:+ ","
    +:+ jkey "temperature_c" +:+ tenth_text t +:+ ","
    +:+ jkey "humidity_percent" +:+ tenth_text h +:+ ","
    +:+ jkey "gas_ppm" +:+ pretty gas +:+ "," +:+ jkey "battery_mv" +:+ pretty mv +:+ ","
    +:+ jkey "status" +:+ pretty st +:+ "," +:+ jkey "sequence" +:+ pretty sq +:+ ","
    +:+ jkey "valid" +:+ (if v then "true" else "false")
    +:+ (if no_warnings ws then ""
         else "," +:+ jkey "warnings" +:+ "["
              +:+ String.concat "," (quoted <$> ws) +:+ "]")
    +:+ "}".
Proof.
  unfold is_i16, is_u16. intros Ht Hh. unfold sensor_data_to_json.
  cbn [set_checks reading device_id cmd temperature_c humidity_percent gas_ppm battery_mv
       status sequence valid warnings].
  rewrite !fixed1_tenth by lia. destruct ws as [|w ws]; [done |].
  cbn [no_warnings]. by rewrite warnings_loop_concat.
Qed.

