(* ===== verification/DeviceData.v ===== *)
(** * The device data model ([src/device/device_data.h], [device_interface.h])

    What an input adapter hands to the rest of the gateway: decoded readings
    with the protocol they came from, the outcome of one [read], and the status
    the adapter keeps for the health endpoint. *)

From S2P Require Import Prelude FrameParser Float64 SensorData.

Local Open Scope Z_scope.

(** ** The code *)

Inductive ProtocolType : Type := Uart | ModbusRtu | SocketCan.

#[export] Instance protocol_eq_dec : EqDecision ProtocolType.
Proof. solve_decision. Defined.

Definition protocol_to_string (p : ProtocolType) : string :=
  match p with
  | Uart => "UART"
  | ModbusRtu => "MODBUS_RTU"
  | SocketCan => "SOCKETCAN"
  end.

Record DeviceData : Type := mk_device_data {
  dd_device_id : Z;
  dd_protocol : ProtocolType;
  dd_temperature_c : double;
  dd_humidity_percent : double;
  dd_gas_ppm : Z;
  dd_battery_mv : Z;
  dd_status : Z;
  dd_sequence : Z;
}.

(** [DeviceData{}]. *)
Definition default_device_data : DeviceData :=
  mk_device_data 0 Uart (double_of_Z 0) (double_of_Z 0) 0 0 0 0.

Definition to_sensor_data (input : DeviceData) : SensorData :=
  validate_sensor_data
    (mk_sensor (dd_device_id input) 0x01 (dd_temperature_c input) (dd_humidity_percent input)
               (dd_gas_ppm input) (dd_battery_mv input) (dd_status input) (dd_sequence input)
               true []).

Inductive ReadCode : Type := Data | Timeout | ProtocolError | TransportError.

#[export] Instance read_code_eq_dec : EqDecision ReadCode.
Proof. solve_decision. Defined.

(** Counters are 64-bit [std::size_t]. *)
Record ProtocolErrorStats : Type := mk_stats {
  crc_errors : Z;
  length_errors : Z;
  overflow_bytes : Z;
  generic_errors : Z;
}.

Definition no_stats : ProtocolErrorStats := mk_stats 0 0 0 0.

Definition stats_total (s : ProtocolErrorStats) : Z :=
  u64 (u64 (u64 (crc_errors s + length_errors s) + overflow_bytes s) + generic_errors s).

Definition invalid_frame_count (s : ProtocolErrorStats) : Z :=
  u64 (u64 (crc_errors s + length_errors s) + generic_errors s).

Definition stats_empty (s : ProtocolErrorStats) : bool := stats_total s =? 0.

Record DeviceReadResult : Type := mk_read_result {
  rr_code : ReadCode;
  rr_data : option SensorData;
  rr_error : string;
  rr_stats : ProtocolErrorStats;
}.

(** [return {};] *)
Definition default_read_result : DeviceReadResult := mk_read_result Timeout None "" no_stats.

Record DeviceStatus : Type := mk_status {
  ds_device_id : Z;
  ds_protocol : ProtocolType;
  ds_online : bool;
  ds_last_update : Z;
  ds_error_count : Z;
}.

Definition default_status (p : ProtocolType) : DeviceStatus := mk_status 0 p false 0 0.

(** ** Facts *)

Lemma to_sensor_data_reading dev p t h gas mv st sq :
  is_i16 t → is_u16 h →
  to_sensor_data (mk_device_data dev p (tenth t) (tenth h) gas mv st sq)
  = append_warnings (reading dev 1 t h gas mv st sq) (raw_warnings t h gas mv st).
Proof. intros Ht Hh. by apply (validate_reading dev 1). Qed.
