(* ===== verification/Modbus.v ===== *)
(** * Modbus RTU frames ([src/modbus/modbus_rtu.cpp])

    The read request the master sends, the checks made on the slave's answer,
    and the mapping of six registers to the device data model. *)

From S2P Require Import Prelude Crc16 FrameParser Float64 SensorData DeviceData.

Local Open Scope Z_scope.
Local Open Scope gateway_scope.

(** ** The code *)

Inductive FunctionCode : Type := ReadHoldingRegisters | ReadInputRegisters.

(** [static_cast<std::uint8_t>(request.function)] *)
Definition function_code (f : FunctionCode) : Z :=
  match f with ReadHoldingRegisters => 0x03 | ReadInputRegisters => 0x04 end.

Inductive ResponseStatus : Type :=
  Ok | CrcError | ExceptionResponse | LengthError | AddressMismatch | FunctionMismatch.

#[export] Instance response_status_eq_dec : EqDecision ResponseStatus.
Proof. solve_decision. Defined.

Record ReadRequest : Type := mk_request {
  slave_id : Z;
  function : FunctionCode;
  start_address : Z;
  register_count : Z;
}.

Record ReadResponse : Type := mk_response {
  rsp_status : ResponseStatus;
  registers : list Z;
  exception_code : Z;
  rsp_error : string;
}.

Definition append_u16_be (output : list Z) (value : Z) : list Z :=
  output ++ [u8 (Z.shiftr value 8); u8 (Z.land value 0xFF)].

Definition mb_read_u16_be (input : list Z) (offset : nat) : Z :=
  u16 (be16 input.[offset] input.[offset + 1]).

Definition has_valid_crc (frame : list Z) : bool :=
  if (length frame <? 4)%nat then false
  else
    let payload_size := (length frame - 2)%nat in
    let expected := crc16_modbus (take payload_size frame) in
    let received := u16 (Z.lor (u16 frame.[payload_size])
                               (Z.shiftl (u16 frame.[payload_size + 1]) 8)) in
    expected =? received.

Definition build_read_request (request : ReadRequest) : list Z :=
  let frame := [slave_id request; function_code (function request)] in
  let frame := append_u16_be frame (start_address request) in
  let frame := append_u16_be frame (register_count request) in
  let crc := crc16_modbus frame in
  frame ++ [u8 (Z.land crc 0xFF)] ++ [u8 (Z.shiftr crc 8)].

(** A failed response: the default one with a status and a message. *)
Definition failure (s : ResponseStatus) (error : string) : ReadResponse :=
  mk_response s [] 0 error.

(** The body of the register loop: the offset and the registers so far. *)
Definition registers_body (frame : list Z) (limit : nat) (st : nat * list Z)
    : exec (ctl (nat * list Z)) :=
  let '(offset, regs) := st in
  if (offset <? limit)%nat
  then Ret (Continue ((offset + 2)%nat, regs ++ [mb_read_u16_be frame offset]))
  else Ret (Break st).

Definition parse_read_response (frame : list Z) (request : ReadRequest) : exec ReadResponse :=
  if (length frame <? 5)%nat
  then Ret (failure LengthError "Modbus response is too short")
  else if negb (has_valid_crc frame)
  then Ret (failure CrcError "Modbus response CRC mismatch")
  else if negb (frame.[0] =? slave_id request)
  then Ret (failure AddressMismatch "Modbus slave address mismatch")
  else
    let fn := function_code (function request) in
    if frame.[1] =? u8 (Z.lor fn 0x80) then
      if negb (length frame =? 5)%nat
      then Ret (failure LengthError "Modbus exception response length is invalid")
      else Ret (mk_response ExceptionResponse [] frame.[2]
                  ("Modbus slave exception code=" +:+ dec frame.[2]))
    else if negb (frame.[1] =? fn)
    then Ret (failure FunctionMismatch "Modbus function code mismatch")
    else
      let byte_count := Z.to_nat frame.[2] in
      let expected_byte_count := (Z.to_nat (register_count request) * 2)%nat in
      if negb (byte_count =? expected_byte_count)%nat
         || negb (length frame =? byte_count + 5)%nat
      then Ret (failure LengthError "Modbus register byte count is invalid")
      else
        st ← run_loop (S byte_count) (registers_body frame (3 + byte_count)) (3%nat, []);
        Ret (mk_response Ok (snd st) 0 "").

(** The result, the [output] parameter and the [error_message] parameter. *)
Definition registers_to_device_data (response : ReadResponse) (device_id : Z)
    (output : DeviceData) : bool * DeviceData * string :=
  if negb (bool_decide (rsp_status response = Ok))
  then (false, output, rsp_error response)
  else if (length (registers response) <? 6)%nat
  then (false, output, "six sensor registers are required")
  else
    let r := registers response in
    (true,
     mk_device_data (u8 device_id) ModbusRtu (tenth (i16 r.[0])) (tenth r.[1])
       r.[2] r.[3] (u8 r.[4]) r.[5],
     "").

(** ** The wire format of the answers *)

(** 16-bit words, high byte first. *)
Fixpoint be_words (regs : list Z) : list Z :=
  match regs with
  | [] => []
  | r :: rest => hi8 r :: lo8 r :: be_words rest
  end.

Lemma length_be_words regs : length (be_words regs) = (2 * length regs)%nat.
Proof. induction regs as [|r regs IH]; [done |]. cbn [be_words length]. rewrite IH. lia. Qed.

Lemma be_words_bytes regs : bytes (be_words regs).
Proof.
  induction regs as [|r regs IH]; [constructor |].
  repeat apply Forall_cons_2; [auto with width .. | done].
Qed.

Lemma be_words_surj n l :
  bytes l → length l = (2 * n)%nat →
  ∃ regs, l = be_words regs ∧ length regs = n ∧ Forall is_u16 regs.
Proof.
  revert l. induction n as [|n IH]; intros l Hb Hl.
  { destruct l; [| simpl in *; lia]. exists []. by split_and!; [| | constructor]. }
  destruct l as [|h [|lo l]]; simpl in Hl; [lia | lia |].
  apply Forall_cons in Hb as [Hh (Hlo & Hb)%Forall_cons].
  destruct (IH l Hb) as (regs & -> & Hn & Hr); [lia |].
  exists ((lo + 256 * h) :: regs). cbn [be_words length]. rewrite hi8_join, lo8_join by done.
  split_and!; [done | lia |]. constructor; [| done]. unfold is_u8, is_u16 in *. lia.
Qed.

Definition with_crc (body : list Z) : list Z := body ++ crc_trailer body.

(** The answer of a slave that read [regs], and its exception answer. *)
Definition reply_body (req : ReadRequest) (regs : list Z) : list Z :=
  [slave_id req; function_code (function req); Z.of_nat (2 * length regs)] ++ be_words regs.
Definition exception_body (req : ReadRequest) (code : Z) : list Z :=
  [slave_id req; Z.lor (function_code (function req)) 0x80; code].

(** A request the configuration can produce: one byte of slave id, at most
    125 registers. *)
Record wf_request (req : ReadRequest) : Prop := mk_wf_request {
  wf_slave : is_u8 (slave_id req);
  wf_start : is_u16 (start_address req);
  wf_count : 1 <= register_count req <= 125;
}.

(** ** Checksum of an answer *)

Lemma split_last2 (l : list Z) :
  (2 <= length l)%nat → ∃ d lo hi, l = d ++ [lo; hi].
Proof.
  intros Hl. exists (take (length l - 2) l).
  assert (length (drop (length l - 2) l) = 2%nat) as Hd by (rewrite length_drop; lia).
  destruct (drop (length l - 2) l) as [|lo [|hi [|]]] eqn:He; try discriminate.
  exists lo, hi. by rewrite <-He, take_drop.
Qed.

Lemma has_valid_crc_app d lo hi :
  (2 <= length d)%nat → is_u8 lo → is_u8 hi →
  has_valid_crc (d ++ [lo; hi]) = (crc16_modbus d =? lo + 256 * hi).
Proof.
  intros Hl Hlo Hhi. unfold has_valid_crc. rewrite length_app. cbn [length].
  destruct (Nat.ltb_spec (length d + 2) 4); [lia |].
  replace (length d + 2 - 2)%nat with (length d) by lia.
  rewrite take_app_length, !app_nth2, Nat.sub_diag by lia.
  replace (length d + 1 - length d)%nat with 1%nat by lia. cbn [nth].
  by rewrite u16_join_cast.
Qed.

(** The comparison of the code is the residue test. *)
Lemma has_valid_crc_residue frame :
  bytes frame → (4 <= length frame)%nat →
  has_valid_crc frame = (crc16_modbus frame =? 0).
Proof.
  intros Hb Hl. destruct (split_last2 frame) as (d & lo & hi & ->); [lia |].
  apply Forall_app in Hb as [_ (Hlo & (Hhi & _)%Forall_cons)%Forall_cons].
  rewrite length_app in Hl. simpl in Hl.
  rewrite has_valid_crc_app by (done || lia). apply eq_iff_eq_true.
  rewrite !Z.eqb_eq. symmetry. by apply crc_residue_iff.
Qed.

Lemma has_valid_crc_with_crc body :
  bytes body → (2 <= length body)%nat → has_valid_crc (with_crc body) = true.
Proof.
  intros Hb Hl. unfold with_crc, crc_trailer.
  rewrite has_valid_crc_app by auto with width.
  rewrite join_lo_hi by auto with width. apply Z.eqb_refl.
Qed.

Lemma has_valid_crc_split frame :
  bytes frame → has_valid_crc frame = true →
  ∃ body, frame = with_crc body ∧ bytes body ∧ (2 <= length body)%nat.
Proof.
  intros Hb Hv. assert (4 <= length frame)%nat as Hl.
  { unfold has_valid_crc in Hv. by destruct (Nat.ltb_spec (length frame) 4). }
  destruct (split_last2 frame) as (d & lo & hi & ->); [lia |].
  rewrite length_app in Hl. simpl in Hl. exists d.
  apply Forall_app in Hb as [Hd (Hlo & (Hhi & _)%Forall_cons)%Forall_cons].
  rewrite has_valid_crc_app in Hv by (done || lia). apply Z.eqb_eq in Hv.
  unfold with_crc, crc_trailer. rewrite Hv, lo8_join, hi8_join by done.
  split_and!; [done | done | lia].
Qed.

(** ** The register loop *)

Lemma nth_shift (pre l : list Z) i : (pre ++ l).[length pre + i] = l.[i].
Proof. rewrite app_nth2 by lia. f_equal. lia. Qed.

Lemma registers_loop_ok fuel pre regs post acc :
  Forall is_u16 regs → (length regs < fuel)%nat →
  run_loop fuel
    (registers_body (pre ++ be_words regs ++ post) (length pre + 2 * length regs))
    (length pre, acc)
  = Ret ((length pre + 2 * length regs)%nat, acc ++ regs).
Proof.
  intros Hr. revert fuel pre acc.
  induction Hr as [|r regs Hr _ IH]; intros fuel pre acc Hf;
    (destruct fuel as [|fuel]; [simpl in Hf; lia |]); cbn [run_loop registers_body].
  - cbn [length Nat.mul]. rewrite Nat.add_0_r, Nat.ltb_irrefl, app_nil_r. done.
  - cbn [length] in *.
    destruct (Nat.ltb_spec (length pre) (length pre + 2 * S (length regs))); [| lia].
    cbn [mbind exec_bind].
    assert (mb_read_u16_be (pre ++ be_words (r :: regs) ++ post) (length pre) = r) as ->.
    { unfold mb_read_u16_be. rewrite nth_shift.
      rewrite <-(Nat.add_0_r (length pre)) at 1. rewrite nth_shift. cbn [be_words app nth].
      rewrite be16_split by done. by apply u16_small. }
    specialize (IH fuel (pre ++ [hi8 r; lo8 r]) (acc ++ [r]) ltac:(lia)).
    rewrite <-!app_assoc, !length_app in IH. cbn [length] in IH.
    change ([hi8 r; lo8 r] ++ be_words regs ++ post) with (be_words (r :: regs) ++ post) in IH.
    replace (length pre + 2 + 2 * length regs)%nat
      with (length pre + 2 * S (length regs))%nat in IH by lia. done.
Qed.

(** ** Parsing *)

Definition ok_response (regs : list Z) : ReadResponse := mk_response Ok regs 0 "".
Definition exception_response (code : Z) : ReadResponse :=
  mk_response ExceptionResponse [] code ("Modbus slave exception code=" +:+ dec code).

Lemma function_code_u8 f : is_u8 (function_code f).
Proof. destruct f; unfold is_u8; simpl; lia. Qed.
#[export] Hint Resolve function_code_u8 : width.

Lemma exception_function f : u8 (Z.lor (function_code f) 0x80) = Z.lor (function_code f) 0x80.
Proof. by destruct f. Qed.

Lemma reply_function_ne f : function_code f ≠ Z.lor (function_code f) 0x80.
Proof. by destruct f. Qed.

Lemma length_with_crc body : length (with_crc body) = (length body + 2)%nat.
Proof. unfold with_crc. by rewrite length_app. Qed.

Lemma reply_body_bytes req regs :
  wf_request req → length regs = Z.to_nat (register_count req) → bytes (reply_body req regs).
Proof.
  intros [Hs _ Hc] Hl. unfold reply_body. repeat apply Forall_cons_2;
    [done | auto with width | unfold is_u8; lia |]. apply be_words_bytes.
Qed.

Lemma exception_body_bytes req code :
  wf_request req → is_u8 code → bytes (exception_body req code).
Proof.
  intros [Hs _ _] Hc. unfold exception_body.
  rewrite <-exception_function. repeat apply Forall_cons_2; auto with width.
Qed.

Lemma parse_reply req regs :
  wf_request req → Forall is_u16 regs → length regs = Z.to_nat (register_count req) →
  parse_read_response (with_crc (reply_body req regs)) req = Ret (ok_response regs).
Proof.
  intros Hw Hr Hl. unfold parse_read_response. rewrite length_with_crc.
  assert (length (reply_body req regs) = (3 + 2 * length regs)%nat) as Hlen.
  { unfold reply_body. rewrite length_app, length_be_words. done. }
  rewrite Hlen. destruct (Nat.ltb_spec (3 + 2 * length regs + 2) 5); [lia |].
  rewrite has_valid_crc_with_crc by (lia || by apply reply_body_bytes).
  set (frame := with_crc (reply_body req regs)).
  assert (frame.[0] = slave_id req ∧ frame.[1] = function_code (function req) ∧
          frame.[2] = Z.of_nat (2 * length regs)) as (-> & -> & ->) by done.
  rewrite exception_function, !Z.eqb_refl. cbn [negb].
  destruct (Z.eqb_spec (function_code (function req)) (Z.lor (function_code (function req)) 0x80))
    as [He |]; [by apply reply_function_ne in He |].
  rewrite Nat2Z.id, <-Hl, (Nat.mul_comm (length regs) 2), Nat.eqb_refl.
  replace (3 + 2 * length regs + 2)%nat with (2 * length regs + 5)%nat by lia.
  rewrite Nat.eqb_refl. cbn [negb orb].
  pose proof (registers_loop_ok (S (2 * length regs))
    [slave_id req; function_code (function req); Z.of_nat (2 * length regs)]
    regs (crc_trailer (reply_body req regs)) [] Hr ltac:(lia)) as Hrun.
  unfold frame, with_crc. unfold reply_body at 1. rewrite <-app_assoc.
  cbn [length] in Hrun. by rewrite Hrun.
Qed.

Lemma parse_exception req code :
  wf_request req → is_u8 code →
  parse_read_response (with_crc (exception_body req code)) req = Ret (exception_response code).
Proof.
  intros Hw Hc. unfold parse_read_response. rewrite length_with_crc.
  change (length (exception_body req code) + 2 <? 5)%nat with false.
  rewrite has_valid_crc_with_crc by first [by apply exception_body_bytes | simpl; lia].
  cbn [negb with_crc exception_body app nth]. by rewrite exception_function, !Z.eqb_refl.
Qed.

(** Every outcome of the parser. *)
Inductive parse_outcome (req : ReadRequest) (frame : list Z) : exec ReadResponse → Prop :=
  | outcome_failure s error :
      s ≠ Ok → s ≠ ExceptionResponse → error ≠ "" →
      parse_outcome req frame (Ret (failure s error))
  | outcome_exception code :
      is_u8 code → frame = with_crc (exception_body req code) →
      parse_outcome req frame (Ret (exception_response code))
  | outcome_ok regs :
      Forall is_u16 regs → length regs = Z.to_nat (register_count req) →
      frame = with_crc (reply_body req regs) →
      parse_outcome req frame (Ret (ok_response regs)).

(** A test that ends in one of the failure responses. *)
Ltac refused := left; do 2 eexists; split; [reflexivity | split_and!; discriminate].

(** The tests of the parser leave only the two answer formats. *)
Lemma parse_tests req frame :
  wf_request req → bytes frame →
  (∃ s error, parse_read_response frame req = Ret (failure s error) ∧
              s ≠ Ok ∧ s ≠ ExceptionResponse ∧ error ≠ "") ∨
  (∃ code, is_u8 code ∧ frame = with_crc (exception_body req code)) ∨
  (∃ regs, Forall is_u16 regs ∧ length regs = Z.to_nat (register_count req) ∧
           frame = with_crc (reply_body req regs)).
Proof.
  intros Hw Hb. unfold parse_read_response.
  destruct (Nat.ltb_spec (length frame) 5) as [| Hl]; [refused |].
  destruct (has_valid_crc frame) eqn:Hv; [| refused].
  destruct (has_valid_crc_split frame Hb Hv) as (body & -> & Hbody & _). cbn [negb].
  rewrite length_with_crc in *.
  destruct body as [|s [|f [|c rest]]]; simpl in Hl; try lia.
  cbn [with_crc app nth]. rewrite exception_function.
  apply Forall_cons in Hbody as [Hs (Hf & (Hc & Hrest)%Forall_cons)%Forall_cons].
  destruct (Z.eqb_spec s (slave_id req)) as [-> |]; [cbn [negb] | refused].
  destruct (Z.eqb_spec f (Z.lor (function_code (function req)) 0x80)) as [-> |].
  { cbn [length]. destruct (Nat.eqb_spec (S (S (S (length rest))) + 2) 5); [| refused].
    destruct rest; [right; left; by exists c | simpl in *; lia]. }
  destruct (Z.eqb_spec f (function_code (function req))) as [-> |];
    [cbn [negb] | refused].
  destruct (Nat.eqb_spec (Z.to_nat c) (Z.to_nat (register_count req) * 2)) as [Hcc |];
    [cbn [negb orb] | refused].
  cbn [length]. rewrite Hcc.
  destruct (Nat.eqb_spec (S (S (S (length rest))) + 2) (Z.to_nat (register_count req) * 2 + 5))
    as [Hlen |]; [right; right | refused].
  destruct (be_words_surj (Z.to_nat (register_count req)) rest Hrest) as (regs & -> & Hn & Hr);
    [lia |].
  exists regs. split_and!; [done | done |]. unfold reply_body. cbn [app].
  replace (Z.of_nat (2 * length regs)) with c; [done |]. unfold is_u8 in Hc. lia.
Qed.

Lemma parse_total req frame :
  wf_request req → bytes frame → parse_outcome req frame (parse_read_response frame req).
Proof.
  intros Hw Hb.
  destruct (parse_tests req frame Hw Hb)
    as [(s & e & -> & ? & ? & ?) | [(code & Hc & ->) | (regs & Hr & Hl & ->)]].
  - by constructor.
  - rewrite parse_exception by done. by constructor.
  - rewrite parse_reply by done. by constructor.
Qed.

Lemma with_crc_residue body : crc16_modbus (with_crc body) = 0.
Proof. apply crc_app_trailer. Qed.

(** ** Properties *)

(** The read request is eight bytes that a slave can check and decode: the
    CRC residue is zero, and the fields are the slave id, the function code, and
    the start address and register count in big-endian order. *)
Lemma build_read_request_format req :
  wf_request req →
  let frame := build_read_request req in
  length frame = 8%nat ∧ bytes frame ∧ crc16_modbus frame = 0 ∧
  frame.[0] = slave_id req ∧ frame.[1] = function_code (function req) ∧
  mb_read_u16_be frame 2 = start_address req ∧ mb_read_u16_be frame 4 = register_count req.
Proof.
  intros [Hs Ha Hc] frame.
  set (body := [slave_id req; function_code (function req);
                hi8 (start_address req); lo8 (start_address req);
                hi8 (register_count req); lo8 (register_count req)]).
  assert (frame = with_crc body) as -> by done.
  assert (is_u16 (register_count req)) as Hc16 by (unfold is_u16; lia).
  split; [done |]. split.
  { unfold with_crc, body, crc_trailer. repeat apply Forall_cons_2; auto with width. }
  split; [apply with_crc_residue |]. split; [done |]. split; [done |].
  unfold mb_read_u16_be, with_crc, body. cbn [app nth Nat.add].
  rewrite !be16_split by done. by rewrite !u16_small.
Qed.

Definition sample_request : ReadRequest := mk_request 1 ReadHoldingRegisters 0 6.

Lemma sample_request_wf : wf_request sample_request.
Proof. split; simpl; unfold is_u8, is_u16; lia. Qed.

(** C33: Parsing an answer always terminates with a response. It succeeds
    exactly on the answer of the addressed slave that carries the requested
    number of registers with a correct checksum, and returns those registers; it
    reports an exception exactly on that slave's exception answer, with its
    code; every other byte string yields no register and an error message. *)
Theorem parse_read_response_spec req frame :
  wf_request req → bytes frame →
  ∃ r, parse_read_response frame req = Ret r ∧
    (rsp_status r = Ok ↔
       ∃ regs, Forall is_u16 regs ∧ length regs = Z.to_nat (register_count req) ∧
               frame = with_crc (reply_body req regs)) ∧
    (∀ regs, Forall is_u16 regs → length regs = Z.to_nat (register_count req) →
             frame = with_crc (reply_body req regs) → registers r = regs) ∧
    (rsp_status r = ExceptionResponse ↔
       ∃ code, is_u8 code ∧ frame = with_crc (exception_body req code)) ∧
    (∀ code, is_u8 code → frame = with_crc (exception_body req code) →
             exception_code r = code) ∧
    (rsp_status r ≠ Ok → registers r = [] ∧ rsp_error r ≠ "").
Proof.
  intros Hw Hb.
  assert (∃ r, parse_read_response frame req = Ret r) as [r Hr].
  { destruct (parse_total req frame Hw Hb); by eexists. }
  assert (∀ regs, Forall is_u16 regs → length regs = Z.to_nat (register_count req) →
            frame = with_crc (reply_body req regs) → r = ok_response regs) as Hok.
  { intros regs H1 H2 ->. rewrite parse_reply in Hr by done. by simplify_eq. }
  assert (∀ code, is_u8 code → frame = with_crc (exception_body req code) →
            r = exception_response code) as Hex.
  { intros code H1 ->. rewrite parse_exception in Hr by done. by simplify_eq. }
  exists r. split; [done |].
  pose proof (parse_total req frame Hw Hb) as Ht. rewrite Hr in Ht.
  split_and!.
  - split; [| by intros (regs & H1 & H2 & H3); rewrite (Hok regs)].
    inversion Ht; subst; try done. by exists regs.
  - intros regs H1 H2 H3. by rewrite (Hok regs).
  - split; [| by intros (code & H1 & H2); rewrite (Hex code)].
    inversion Ht; subst; try done. by exists code.
  - intros code H1 H2. by rewrite (Hex code).
  - inversion Ht; subst; done.
Qed.

Lemma parse_read_response_spec_witness :
  bytes (with_crc (reply_body sample_request [253; 608; 300; 3700; 0; 1])) ∧
  ∃ r, parse_read_response
         (with_crc (reply_body sample_request [253; 608; 300; 3700; 0; 1])) sample_request
       = Ret r ∧ registers r = [253; 608; 300; 3700; 0; 1].
Proof.
  assert (bytes (with_crc (reply_body sample_request [253; 608; 300; 3700; 0; 1]))) as Hb.
  { vm_compute. repeat constructor; unfold is_u8; discriminate. }
  split; [exact Hb |].
  destruct (parse_read_response_spec sample_request _ sample_request_wf Hb)
    as (r & Hr & _ & Hregs & _).
  exists r. split; [exact Hr |]. apply Hregs; [| reflexivity | reflexivity].
  repeat constructor; unfold is_u16; lia.
Defined.

(** An answer with a correct checksum in which any two adjacent bytes were
    altered is always reported as a CRC error. *)
Lemma corrupted_response_rejected req body pre a b a' b' post :
  bytes body → (3 <= length body)%nat → with_crc body = pre ++ [a; b] ++ post →
  is_u8 a' → is_u8 b' → (a, b) ≠ (a', b') →
  parse_read_response (pre ++ [a'; b'] ++ post) req
  = Ret (failure CrcError "Modbus response CRC mismatch").
Proof.
  intros Hb Hl He Ha' Hb' Hne.
  assert (bytes (with_crc body)) as Hbs.
  { unfold with_crc. apply Forall_app_2; [done |]. repeat apply Forall_cons_2; auto with width. }
  pose proof (with_crc_residue body) as Hr.
  pose proof (f_equal length He) as Hlen. rewrite length_with_crc, !length_app in Hlen.
  rewrite He in Hbs, Hr.
  apply Forall_app in Hbs as [Hpre (Ha & (Hb0 & Hpost)%Forall_cons)%Forall_cons].
  assert (bytes (pre ++ [a'; b'] ++ post)) as Hbs'.
  { apply Forall_app_2; [done |]. by repeat apply Forall_cons_2. }
  unfold parse_read_response.
  assert (5 <= length (pre ++ [a'; b'] ++ post))%nat as H5.
  { rewrite !length_app. simpl in *. lia. }
  destruct (Nat.ltb_spec (length (pre ++ [a'; b'] ++ post)) 5); [lia |].
  rewrite has_valid_crc_residue by (done || lia).
  destruct (Z.eqb_spec (crc16_modbus (pre ++ [a'; b'] ++ post)) 0) as [Hz |]; [| done].
  exfalso. apply Hne. rewrite <-Hz in Hr.
  by destruct (crc_burst_inj pre a b a' b' post) as [-> ->].
Qed.

(** The register map: with a successful response of at least six
    registers the device data are the first six registers (temperature signed,
    status reduced to its low byte) and the sensor data derived from them carry
    the warnings of those readings; in every other case the call fails with a
    message and leaves the output unchanged. *)
Lemma registers_to_device_data_spec rsp dev out :
  is_u8 dev → Forall is_u16 (registers rsp) →
  match rsp_status rsp, registers rsp with
  | Ok, t :: h :: gas :: mv :: st :: sq :: _ =>
      let d := mk_device_data dev ModbusRtu (tenth (i16 t)) (tenth h) gas mv (st mod 256) sq in
      let ws := raw_warnings (i16 t) h gas mv (st mod 256) in
      registers_to_device_data rsp dev out = (true, d, "") ∧
      to_sensor_data d =
        set_checks (reading dev 1 (i16 t) h gas mv (st mod 256) sq) (no_warnings ws) ws
  | Ok, _ => registers_to_device_data rsp dev out
             = (false, out, "six sensor registers are required")
  | _, _ => registers_to_device_data rsp dev out = (false, out, rsp_error rsp)
  end.
Proof.
  intros Hd Hr. destruct rsp as [s regs code e]. cbn [rsp_status registers rsp_error] in *.
  unfold registers_to_device_data. cbn [rsp_status registers rsp_error].
  destruct s; [| done ..]. rewrite bool_decide_eq_true_2 by done. cbn [negb].
  destruct regs as [|t [|h [|gas [|mv [|st [|sq regs]]]]]]; try done.
  rewrite !Forall_cons in Hr. destruct Hr as (Ht & Hh & Hg & Hm & Hst & Hsq & _).
  cbn [length Nat.ltb Nat.leb nth]. rewrite (u8_small dev Hd).
  split; [done |]. apply to_sensor_data_reading; [apply i16_range | done].
Qed.

