(* ===== verification/Posix.v ===== *)
(** * System calls as the code sees them

    The operating system is not part of the repository: what a call returns is
    an input of the model. A call that the code repeats (on [EINTR], or until
    all bytes are written) reads a script, the list of results the kernel gives
    to the successive calls; a script that ends before the code stops calling
    is [OutOfFuel]. Descriptors are tracked in [os] so that leaks and double
    closes are visible. *)

From stdpp Require Import gmap.
From S2P Require Import Prelude.

Local Open Scope Z_scope.

(** ** Descriptors *)

Record os : Type := mk_os {
  open_fds : gset Z;
  bad_close : bool;
}.

Definition os_init : os := mk_os ∅ false.
Definition os_open (fd : Z) (o : os) : os := mk_os ({[fd]} ∪ open_fds o) (bad_close o).
(** [close] of a descriptor that is not open is recorded as an error. *)
Definition os_close (fd : Z) (o : os) : os :=
  if bool_decide (fd ∈ open_fds o)
  then mk_os (open_fds o ∖ {[fd]}) (bad_close o)
  else mk_os (open_fds o) true.

(** What the kernel guarantees of a call that returns a descriptor: it is
    either negative (failure) or not in use. *)
Definition fresh_fd (fd : Z) (o : os) : Prop := fd < 0 ∨ fd ∉ open_fds o.

(** An object that holds at most the descriptor [fd] ([-1] for none), with no
    other descriptor of its own and no double close so far. *)
Record owns (fd : Z) (others : gset Z) (o : os) : Prop := mk_owns {
  owns_fds : open_fds o = (if decide (0 <= fd) then {[fd]} ∪ others else others);
  owns_fresh : 0 <= fd → fd ∉ others;
  owns_ok : bad_close o = false;
}.

Lemma owns_close fd others o :
  owns fd others o → 0 <= fd → owns (-1) others (os_close fd o).
Proof.
  intros [Ho Hf Hb] Hfd. unfold os_close. rewrite decide_True in Ho by done.
  rewrite bool_decide_eq_true_2 by (rewrite Ho; set_solver).
  split; simpl; [| lia | done]. rewrite Ho. specialize (Hf Hfd). set_solver.
Qed.

Lemma owns_open fd fd' others o :
  owns fd others o → fd < 0 → 0 <= fd' → fresh_fd fd' o → owns fd' others (os_open fd' o).
Proof.
  intros [Ho Hf Hb] Hfd Hfd' Hfresh. rewrite decide_False in Ho by lia.
  assert (fd' ∉ others) as Hn.
  { destruct Hfresh; [lia |]. by rewrite <-Ho. }
  split; simpl; [| done | done]. rewrite decide_True by done. by rewrite Ho.
Qed.

(** ** [poll] of one descriptor for input *)

Inductive poll_result : Type :=
  | PollTimeout
  | PollReady (hangup : bool)      (** [revents] has [POLLERR], [POLLHUP] or [POLLNVAL] *)
  | PollEintr
  | PollError (message : string).

(** [do { ready = poll(...); } while (ready < 0 && errno == EINTR);] *)
Fixpoint poll_loop (script : list poll_result) : exec poll_result :=
  match script with
  | [] => OutOfFuel
  | PollEintr :: rest => poll_loop rest
  | r :: _ => Ret r
  end.

(** ** [write] and [send] *)

(** The values of [errno] the code distinguishes. *)
Inductive errno : Type := EINTR | EAGAIN | Eother (message : string).

Definition strerror (e : errno) : string :=
  match e with
  | EINTR => "Interrupted system call"
  | EAGAIN => "Resource temporarily unavailable"
  | Eother message => message
  end.

Inductive write_result : Type :=
  | Wrote (n : nat)
  | WriteFailed (e : errno).

(** The common shape of the three loops that send a whole buffer: [retry] tells
    which errors are retried. [line] is what the kernel has taken so far. *)
Inductive transfer_end : Type := Sent | SentZero | SendFailed (e : errno).

Fixpoint transfer (retry : errno → bool) (rest line : list Z) (script : list write_result)
    : exec (transfer_end * list Z) :=
  match rest with
  | [] => Ret (Sent, line)
  | _ :: _ =>
      match script with
      | [] => OutOfFuel
      | Wrote O :: _ => Ret (SentZero, line)
      | Wrote (S n) :: script' =>
          transfer retry (drop (S n) rest) (line ++ take (S n) rest) script'
      | WriteFailed e :: script' =>
          if retry e then transfer retry rest line script' else Ret (SendFailed e, line)
      end
  end.

(** *** What the loop guarantees *)

(** The line only grows, by a prefix of the data; success means all of it. *)
Lemma transfer_line retry rest line script e l :
  transfer retry rest line script = Ret (e, l) →
  ∃ k, l = line ++ take k rest ∧ (e = Sent → l = line ++ rest) ∧
       (e ≠ Sent → (k < length rest)%nat).
Proof.
  revert rest line. induction script as [| r script IH]; intros rest line Ht;
    destruct rest as [| b rest]; simpl in Ht; try discriminate Ht.
  - injection Ht as <- <-. exists O. simpl. rewrite app_nil_r. by split_and!.
  - injection Ht as <- <-. exists O. simpl. rewrite app_nil_r. by split_and!.
  - destruct r as [[| n] | er].
    + injection Ht as <- <-. exists O. simpl. rewrite app_nil_r.
      split_and!; [done | done | simpl; lia].
    + apply IH in Ht as (k & -> & Hs & Hf).
      exists (S n + k)%nat. rewrite <-app_assoc. split_and!.
      * f_equal. exact (take_take_drop (b :: rest) (S n) k).
      * intros He. rewrite app_assoc, (Hs He), <-app_assoc. f_equal. exact (take_drop (S n) (b :: rest)).
      * intros He. specialize (Hf He). simpl. rewrite length_drop in Hf. lia.
    + destruct (retry er); [by apply IH |].
      injection Ht as <- <-. exists O. simpl. rewrite app_nil_r.
      split_and!; [done | done | simpl; lia].
Qed.

(** The calls of a script by which the kernel takes at least one byte. *)
Definition takes_bytes (r : write_result) : bool :=
  match r with Wrote (S _) => true | _ => false end.
Definition progress (script : list write_result) : nat := length (filter takes_bytes script).

(** The loop ends when the kernel takes a byte often enough. *)
Lemma transfer_ends retry rest line script :
  (length rest <= progress script)%nat → ∃ r, transfer retry rest line script = Ret r.
Proof.
  revert rest line. induction script as [| r script IH]; intros rest line Hp;
    destruct rest as [| b rest]; try (by eexists); [unfold progress in Hp; simpl in Hp; lia |].
  destruct r as [[| n] | er]; cbn [transfer].
  - by eexists.
  - apply IH. unfold progress in *. rewrite length_drop.
    rewrite filter_cons_True in Hp by done. simpl in *. lia.
  - unfold progress in Hp. rewrite filter_cons_False in Hp by (intros []).
    destruct (retry er); [by apply IH | by eexists].
Qed.

(** An error that is retried forever keeps the loop busy. *)
Lemma transfer_spins retry b rest line e n :
  retry e = true → transfer retry (b :: rest) line (replicate n (WriteFailed e)) = OutOfFuel.
Proof. intros He. induction n as [| n IH]; [done |]. simpl. by rewrite He. Qed.

Lemma transfer_sent retry rest line script l :
  transfer retry rest line script = Ret (Sent, l) → l = line ++ rest.
Proof. intros (k & _ & Hs & _)%transfer_line. by apply Hs. Qed.

(** *** Sending from a position

    The shape of the loops around [send]: the data from [sent] on; [line] is what the
    kernel has taken. *)

Fixpoint send_from (retry : errno → bool) (data : list Z) (sent : nat) (line : list Z)
    (script : list write_result) : exec (bool * list Z) :=
  if (length data <=? sent)%nat then Ret (true, line)
  else match script with
       | [] => OutOfFuel
       | WriteFailed e :: script =>
           if retry e then send_from retry data sent line script else Ret (false, line)
       | Wrote O :: _ => Ret (false, line)
       | Wrote (S n) :: script =>
           send_from retry data (sent + S n) (line ++ take (S n) (drop sent data)) script
       end.

Lemma send_from_transfer retry data sent line script :
  send_from retry data sent line script
  = match transfer retry (drop sent data) line script with
    | Ret (Sent, l) => Ret (true, l)
    | Ret (_, l) => Ret (false, l)
    | Throw w => Throw w
    | OutOfFuel => OutOfFuel
    end.
Proof.
  revert sent line. induction script as [| r script IH]; intros sent line; simpl;
    destruct (Nat.leb_spec (length data) sent) as [Hl | Hl];
    try (rewrite drop_ge by lia; done);
    destruct (drop sent data) as [| b rest] eqn:Hd;
    try (apply (f_equal length) in Hd; rewrite length_drop in Hd; simpl in Hd; lia);
    [done |].
  destruct r as [[| n] | e]; [done | |].
  - rewrite IH, <-Hd, drop_drop. by rewrite Hd.
  - destruct (retry e); [| done]. by rewrite IH, Hd.
Qed.

(** The outcome: everything, or a proper prefix. *)
Lemma send_from_line retry data script ok line :
  send_from retry data 0 [] script = Ret (ok, line) →
  if ok : bool then line = data else ∃ k, line = take k data ∧ (k < length data)%nat.
Proof.
  rewrite send_from_transfer, drop_0.
  destruct (transfer _ data [] script) as [[e l] | |] eqn:Ht; try discriminate.
  apply transfer_line in Ht as (k & Hk & Hs & Hf). simpl in Hk, Hs.
  destruct e; intros [= <- <-]; [by apply Hs | |]; (exists k; split; [done | by apply Hf]).
Qed.

Lemma send_from_total retry data script :
  (length data <= progress script)%nat → ∃ r, send_from retry data 0 [] script = Ret r.
Proof.
  intros Hp. rewrite send_from_transfer, drop_0.
  destruct (transfer_ends retry data [] script Hp) as [[[] l] ->]; by eexists.
Qed.

(** The results after which the loop goes on. *)
Definition goes_on (retry : errno → bool) (r : write_result) : Prop :=
  match r with Wrote n => n ≠ 0%nat | WriteFailed e => retry e = true end.

Lemma send_from_all retry data script :
  Forall (goes_on retry) script → (length data <= progress script)%nat →
  send_from retry data 0 [] script = Ret (true, data).
Proof.
  intros Hg Hp. rewrite send_from_transfer, drop_0.
  enough (∀ rest line, (length rest <= progress script)%nat →
            transfer retry rest line script = Ret (Sent, line ++ rest)) as He;
    [by rewrite (He data []) |].
  clear Hp. induction Hg as [| r script Hr Hg IH]; intros rest line Hp;
    destruct rest as [| b rest]; cbn [transfer]; rewrite ?app_nil_r; try done.
  { unfold progress in Hp. simpl in Hp. lia. }
  destruct r as [[| n] | e]; cbn in Hr; [done | |].
  - rewrite IH, <-app_assoc; [by rewrite (take_drop (S n) (b :: rest)) |].
    unfold progress in *. rewrite filter_cons_True in Hp by done.
    rewrite length_drop. simpl in *. lia.
  - rewrite Hr. apply IH. unfold progress in *. by rewrite filter_cons_False in Hp by (intros []).
Qed.
