(* ===== verification/Logger.v ===== *)
(** * The logger ([src/log/logger.cpp])

    The opening of the log file, the time stamp, the level filter, the line and where it
    goes; and a reader of log files, which finds in the file what was logged. *)

From stdpp Require Import pretty.
From S2P Require Import Prelude Text.

Local Open Scope Z_scope.

(** ** The code *)

Inductive Level : Type := Debug_ | Info | Warn | Error.

#[export] Instance level_eq_dec : EqDecision Level.
Proof. solve_decision. Defined.

(** [static_cast<int>(level)] *)
Definition level_int (l : Level) : nat :=
  match l with Debug_ => 0 | Info => 1 | Warn => 2 | Error => 3 end.

Definition level_name (l : Level) : string :=
  match l with Debug_ => "DEBUG" | Info => "INFO" | Warn => "WARN" | Error => "ERROR" end.

(** The log file: its text, and whether its stream is still good; a stream that has
    failed once writes nothing more. *)
Record log_file : Type := mk_log_file {
  lf_text : string;
  lf_good : bool;
}.

(** The logger, with the lines it has put on the standard streams; [None]: the file is
    not open. *)
Record Logger : Type := mk_logger {
  lg_minimum_level : Level;
  lg_out : list string;
  lg_err : list string;
  lg_file : option log_file;
}.

(** The answers to the constructor: the message of [create_directories] when it fails,
    and the text of the file when it is opened for appending. *)
Record open_env : Type := mk_open_env {
  oe_create_error : option string;
  oe_file : option string;
}.

(** [!path.parent_path().empty()]: the path has a directory part. *)
Definition has_parent (file_path : string) : bool := negb (lacks "/" file_path).

Definition new_logger (file_path : string) (minimum_level : Level) (env : open_env) : Logger :=
  let created :=
    if has_parent file_path then
      match oe_create_error env with
      | Some message => ["[ERROR] create log directory failed: " +:+ message]
      | None => []
      end
    else [] in
  match oe_file env with
  | Some text => mk_logger minimum_level [] created (Some (mk_log_file text true))
  | None =>
      mk_logger minimum_level [] (created ++ ["[ERROR] open log file failed: " +:+ file_path]) None
  end.

(** [std::tm], the members the format uses. *)
Record tm : Type := mk_tm {
  tm_year : Z;                     (** years since 1900 *)
  tm_mon : Z;                      (** 0 to 11 *)
  tm_mday : Z;
  tm_hour : Z;
  tm_min : Z;
  tm_sec : Z;
}.

(** [std::setw(n) << std::setfill('0')] before an integer *)
Definition padded (n : nat) (z : Z) : string :=
  Nat.iter (n - String.length (dec z)) (String "0") (dec z).

(** [std::put_time(&local_time, "%Y-%m-%d %H:%M:%S")] *)
Definition put_time (t : tm) : string :=
  dec (tm_year t + 1900) +:+ "-" +:+ padded 2 (tm_mon t + 1) +:+ "-" +:+ padded 2 (tm_mday t) +:+ " "
  +:+ padded 2 (tm_hour t) +:+ ":" +:+ padded 2 (tm_min t) +:+ ":" +:+ padded 2 (tm_sec t).

(** The answers to one message: the clock, in nanoseconds since the epoch, and what
    becomes of the write to the file, [Some n] when it fails after [n] characters. *)
Record write_env : Type := mk_write_env {
  we_now : Z;
  we_failed : option nat;
}.

Section code.
(** [localtime_r]: the local time of a number of seconds. *)
Context (localtime : Z → tm).

(** [to_time_t] and the [duration_cast] truncate. *)
Definition current_timestamp (now : Z) : string :=
  let local_time := localtime (Z.quot now 1000000000) in
  let milliseconds := Z.rem (Z.quot now 1000000) 1000 in
  put_time local_time +:+ "." +:+ padded 3 milliseconds.

Definition log_line (timestamp : string) (level : Level) (module message : string) : string :=
  timestamp +:+ " [" +:+ level_name level +:+ "] [" +:+ module +:+ "] " +:+ message.

(** [file_ << line.str() << std::endl] *)
Definition append_line (failed : option nat) (line : string) (f : log_file) : log_file :=
  if negb (lf_good f) then f
  else
    match failed with
    | None => mk_log_file (lf_text f +:+ line +:+ nl) true
    | Some n => mk_log_file (lf_text f +:+ String.substring 0 n (line +:+ nl)) false
    end.

Definition write (env : write_env) (level : Level) (module message : string) (g : Logger) : Logger :=
  if (level_int level <? level_int (lg_minimum_level g))%nat then g
  else
    let line := log_line (current_timestamp (we_now env)) level module message in
    let to_err := bool_decide (level = Warn) || bool_decide (level = Error) in
    mk_logger (lg_minimum_level g)
      (if to_err then lg_out g else lg_out g ++ [line])
      (if to_err then lg_err g ++ [line] else lg_err g)
      (append_line (we_failed env) line <$> lg_file g).

Definition debug (env : write_env) (module message : string) (g : Logger) : Logger :=
  write env Debug_ module message g.
Definition info (env : write_env) (module message : string) (g : Logger) : Logger :=
  write env Info module message g.
Definition warn (env : write_env) (module message : string) (g : Logger) : Logger :=
  write env Warn module message g.
Definition error (env : write_env) (module message : string) (g : Logger) : Logger :=
  write env Error module message g.
End code.

(** A call of the logger. *)
Record log_call : Type := mk_log_call {
  lc_at : Level;
  lc_module : string;
  lc_message : string;
}.

Definition make_call (localtime : Z → tm) (g : Logger) (c : write_env * log_call) : Logger :=
  match lc_at (snd c) with
  | Debug_ => debug localtime (fst c) (lc_module (snd c)) (lc_message (snd c)) g
  | Info => info localtime (fst c) (lc_module (snd c)) (lc_message (snd c)) g
  | Warn => warn localtime (fst c) (lc_module (snd c)) (lc_message (snd c)) g
  | Error => error localtime (fst c) (lc_module (snd c)) (lc_message (snd c)) g
  end.

(** ** A reader of log files *)

Definition digit_value (c : ascii) : option Z :=
  let n := Z.of_nat (Ascii.nat_of_ascii c) in
  if (48 <=? n) && (n <=? 57) then Some (n - 48) else None.

Fixpoint digits_value (acc : Z) (s : string) : option Z :=
  match s with
  | EmptyString => Some acc
  | String c s => d ← digit_value c; digits_value (10 * acc + d) s
  end.

(** A number of digits. *)
Definition number_of (s : string) : option Z :=
  match s with EmptyString => None | _ => digits_value 0 s end.

(** The number before the first [c], and what follows it. *)
Definition number_before (c : ascii) (s : string) : option (Z * string) :=
  '(a, rest) ← cut c s;
  n ← number_of a;
  Some (n, rest).

Definition level_of (s : string) : option Level :=
  list_find (λ l, level_name l = s) [Debug_; Info; Warn; Error] ≫= λ p, Some (snd p).

Record log_entry : Type := mk_log_entry {
  le_time : tm;
  le_milliseconds : Z;
  le_call : log_call;
}.

(** The rest of the text after its first character, which is [c]. *)
Definition skip (c : ascii) (s : string) : option string :=
  match s with String d s => if Ascii.eqb c d then Some s else None | EmptyString => None end.

Definition read_entry (s : string) : option log_entry :=
  '(year, s) ← number_before "-" s;
  '(mon, s) ← number_before "-" s;
  '(mday, s) ← number_before " " s;
  '(hour, s) ← number_before ":" s;
  '(min, s) ← number_before ":" s;
  '(sec, s) ← number_before "." s;
  '(milliseconds, s) ← number_before " " s;
  s ← skip "[" s;
  '(name, s) ← cut "]" s;
  level ← level_of name;
  s ← skip " " s;
  s ← skip "[" s;
  '(module, s) ← cut "]" s;
  message ← skip " " s;
  Some (mk_log_entry (mk_tm (year - 1900) (mon - 1) mday hour min sec) milliseconds
          (mk_log_call level module message)).

(** The entries of a log file: a line that is not an entry makes the reading fail. *)
Definition read_log (text : string) : option (list log_entry) := mapM read_entry (lines text).

(** ** Facts *)

Lemma digit_value_char n : (n < 10)%N → digit_value (pretty_N_char n) = Some (Z.of_N n).
Proof.
  intros Hn. destruct n as [| p]; [done |]. repeat (destruct p as [p | p |]; try done; try lia).
Qed.

Lemma digits_value_go n s : digits_value 0 (pretty_N_go n s) = digits_value (Z.of_N n) s.
Proof.
  revert s. induction (N.lt_wf_0 n) as [n _ IH]. intros s.
  destruct (decide (n = 0)%N) as [-> | Hn]; [done |].
  rewrite pretty_N_go_step by lia. rewrite IH by (apply N.div_lt; lia). cbn [digits_value].
  rewrite digit_value_char by (apply N.mod_lt; lia). cbn [mbind option_bind]. f_equal.
  pose proof (N.div_mod' n 10). lia.
Qed.

Lemma digits_pretty (n : N) : digits_value 0 (pretty n) = Some (Z.of_N n).
Proof. unfold pretty, pretty_N. case_decide; [by subst | apply digits_value_go]. Qed.

Lemma digits_dec z : 0 <= z → digits_value 0 (dec z) = Some z.
Proof. intros Hz. destruct z as [| p | p]; [done | apply (digits_pretty (Npos p)) | done]. Qed.

Lemma digits_padded n z : 0 <= z → digits_value 0 (padded n z) = Some z.
Proof.
  intros Hz. unfold padded. induction (n - String.length (dec z))%nat as [| k IH]; [by apply digits_dec |].
  exact IH.
Qed.

Lemma dec_nonempty z : dec z ≠ "".
Proof.
  destruct z as [| p | p]; [done | | done]. intros Hp. pose proof (digits_dec (Zpos p) ltac:(done)) as Hd.
  by rewrite Hp in Hd.
Qed.

Lemma padded_nonempty n z : padded n z ≠ "".
Proof. unfold padded. destruct (n - String.length (dec z))%nat; [apply dec_nonempty | done]. Qed.

Lemma number_padded n z : 0 <= z → number_of (padded n z) = Some z.
Proof.
  intros Hz. unfold number_of. pose proof (padded_nonempty n z) as Hne.
  destruct (padded n z) eqn:Hp; [done |]. rewrite <-Hp. by apply digits_padded.
Qed.

Lemma lacks_padded c n z : is_numeral_char c = false → lacks c (padded n z) = true.
Proof.
  intros Hc. unfold padded. induction (n - String.length (dec z))%nat as [| k IH]; [by apply lacks_dec |].
  change (negb (Ascii.eqb "0" c) && lacks c (Nat.iter k (String "0") (dec z)) = true). rewrite IH.
  by destruct (Ascii.eqb_spec "0" c) as [<- |].
Qed.

Lemma number_before_padded c n z rest :
  0 <= z → is_numeral_char c = false → number_before c (padded n z +:+ String c rest) = Some (z, rest).
Proof.
  intros Hz Hc. unfold number_before. rewrite cut_app by by apply lacks_padded.
  cbn [mbind option_bind]. by rewrite number_padded.
Qed.

(** A minus sign is not part of a numeral that is not negative. *)
Lemma lacks_minus n z : 0 <= z → lacks "-" (padded n z) = true.
Proof.
  intros Hz. pose proof (digits_padded n z Hz) as Hd. revert Hd. generalize 0. generalize (padded n z).
  induction s as [| c s IH]; intros acc Hd; [done |]. cbn [digits_value] in Hd.
  apply bind_Some in Hd as (d & Hc & Hd). change (negb (Ascii.eqb c "-") && lacks "-" s = true).
  rewrite (IH _ Hd), andb_true_r.
  destruct (Ascii.eqb_spec c "-") as [-> |]; [by vm_compute in Hc | done].
Qed.

Lemma number_before_minus n z rest :
  0 <= z → number_before "-" (padded n z +:+ String "-" rest) = Some (z, rest).
Proof.
  intros Hz. unfold number_before. rewrite cut_app by by apply lacks_minus.
  cbn [mbind option_bind]. by rewrite number_padded.
Qed.

Lemma level_of_name l : level_of (level_name l) = Some l.
Proof. by destruct l. Qed.

(** A broken-down time of the years 0 to 9999 and beyond. *)
Record tm_ok (t : tm) : Prop := mk_tm_ok {
  tk_year : 0 <= tm_year t + 1900;
  tk_mon : 0 <= tm_mon t;
  tk_mday : 0 <= tm_mday t;
  tk_hour : 0 <= tm_hour t;
  tk_min : 0 <= tm_min t;
  tk_sec : 0 <= tm_sec t;
}.

Lemma dec_padded z : dec z = padded 0 z.
Proof. done. Qed.

Lemma read_entry_line t ms level module message :
  tm_ok t → 0 <= ms → lacks "]" module = true →
  read_entry (log_line (put_time t +:+ "." +:+ padded 3 ms) level module message)
  = Some (mk_log_entry t ms (mk_log_call level module message)).
Proof.
  intros [] Hms Hm. unfold log_line, put_time, read_entry. rewrite !string_app_assoc, dec_padded.
  rewrite !app_String, !app_Empty.
  do 2 (rewrite number_before_minus by lia; cbn [mbind option_bind]).
  do 5 (rewrite number_before_padded by (lia || done); cbn [mbind option_bind]).
  cbn [skip Ascii.eqb Bool.eqb mbind option_bind]. rewrite cut_app by by destruct level.
  cbn [mbind option_bind]. rewrite level_of_name.
  cbn [skip Ascii.eqb Bool.eqb mbind option_bind]. rewrite cut_app by done.
  cbn [skip Ascii.eqb Bool.eqb mbind option_bind]. rewrite !Z.add_simpl_r. by destruct t.
Qed.

(** *** Texts of whole lines *)

Definition text_of (ls : list string) : string := foldr (λ l s, l +:+ nl +:+ s) "" ls.

(** The text is empty or ends with a new line. *)
Definition whole (s : string) : Prop := s = "" ∨ ∃ t, s = t +:+ nl.

Lemma text_of_app ls ks : text_of (ls ++ ks) = text_of ls +:+ text_of ks.
Proof.
  unfold text_of. induction ls as [| l ls IH]; [done |]. cbn [app foldr]. by rewrite IH, !string_app_assoc.
Qed.

Lemma lines_whole s rest : whole s → lines (s +:+ rest) = lines s ++ lines rest.
Proof.
  intros [-> | [t ->]]; [done |]. rewrite string_app_assoc.
  induction t as [| c t IH]; [done |]. rewrite !app_String. cbn [lines].
  destruct (Ascii.eqb c nl_char); [by rewrite IH |]. rewrite IH.
  assert (lines (t +:+ nl) ≠ []) as Hne.
  { destruct t as [| x t]; [done |]. rewrite app_String. cbn [lines].
    destruct (Ascii.eqb x nl_char); [done |]. by destruct (lines (t +:+ nl)). }
  by destruct (lines (t +:+ nl)).
Qed.

Lemma lines_text_of ls : Forall (λ l, lacks nl_char l = true) ls → lines (text_of ls) = ls.
Proof.
  unfold text_of. induction 1 as [| l ls Hl _ IH]; [done |]. cbn [foldr]. by rewrite lines_line, IH.
Qed.

Lemma substring_splits n s : ∃ rest, s = String.substring 0 n s +:+ rest.
Proof.
  revert n. induction s as [| c s IH]; intros n; [by exists ""; destruct n |].
  destruct n as [| n]; [by eexists |]. destruct (IH n) as [rest Hr]. exists rest.
  cbn [String.substring]. by rewrite app_String, <-Hr.
Qed.

(** *** A run of the logger *)

Section facts.
Context (localtime : Z → tm).

Abbreviation call := (write_env * log_call)%type.

Definition call_line (c : call) : string :=
  log_line (current_timestamp localtime (we_now (fst c))) (lc_at (snd c)) (lc_module (snd c))
    (lc_message (snd c)).

(** The calls at or above the minimum level, and those that go to the error stream. *)
Definition shown (minimum_level : Level) (c : call) : Prop :=
  (level_int minimum_level <= level_int (lc_at (snd c)))%nat.
#[export] Instance shown_dec minimum_level c : Decision (shown minimum_level c).
Proof. unfold shown. apply _. Defined.

Definition on_err (c : call) : Prop := lc_at (snd c) = Warn ∨ lc_at (snd c) = Error.
#[export] Instance on_err_dec c : Decision (on_err c).
Proof. unfold on_err. apply _. Defined.

(** What has happened to an open file to which the lines were written. *)
Record file_after (f : log_file) (cs : list call) (f' : log_file) : Prop := mk_file_after {
  fa_good : lf_good f' = true → lf_text f' = lf_text f +:+ text_of (call_line <$> cs);
  fa_prefix : ∃ rest, lf_text f +:+ text_of (call_line <$> cs) = lf_text f' +:+ rest;
  fa_ok : lf_good f = true → Forall (λ c, we_failed (fst c) = None) cs → lf_good f' = true;
  fa_bad : lf_good f = false → lf_text f' = lf_text f ∧ lf_good f' = false;
}.

Lemma file_after_nil f : file_after f [] f.
Proof. split; cbn; rewrite ?string_app_nil_r; try done. exists "". by rewrite string_app_nil_r. Qed.

Lemma append_line_after f (c : call) :
  file_after f [c] (append_line (we_failed (fst c)) (call_line c) f).
Proof.
  unfold append_line. cbn [fmap list_fmap text_of foldr].
  destruct (lf_good f) eqn:Hg; cbn [negb].
  - destruct (we_failed (fst c)) as [n |] eqn:Hf; split; cbn; try congruence; try done.
    + destruct (substring_splits n (call_line c +:+ nl)) as [rest Hr]. exists rest.
      by rewrite string_app_assoc, <-Hr.
    + intros _ Hc. apply Forall_cons in Hc as [? _]. congruence.
    + exists "". by rewrite !string_app_nil_r.
  - split; try done; [congruence |]. by exists (call_line c +:+ nl).
Qed.

Lemma file_after_trans f cs f1 ds f2 :
  file_after f cs f1 → file_after f1 ds f2 → file_after f (cs ++ ds) f2.
Proof.
  intros [G1 [r1 P1] K1 B1] [G2 [r2 P2] K2 B2]. split.
  - intros Hg. assert (lf_good f1 = true) as Hg1.
    { destruct (lf_good f1) eqn:Hb; [done |]. destruct (B2 eq_refl). congruence. }
    by rewrite fmap_app, text_of_app, (G2 Hg), (G1 Hg1), string_app_assoc.
  - rewrite fmap_app, text_of_app, <-string_app_assoc. destruct (lf_good f1) eqn:Hb.
    + rewrite <-(G1 eq_refl), P2. by exists r2.
    + destruct (B2 eq_refl) as [-> _]. rewrite P1, string_app_assoc. by eexists.
  - intros Hg [Hc Hd]%Forall_app. auto.
  - intros Hg. destruct (B1 Hg) as [Ht1 Hg1]. destruct (B2 Hg1) as [Ht2 Hg2]. split; congruence.
Qed.

Lemma make_call_eq g c :
  make_call localtime g c = write localtime (fst c) (lc_at (snd c)) (lc_module (snd c)) (lc_message (snd c)) g.
Proof. unfold make_call. by destruct (lc_at (snd c)). Qed.

(** What a run of calls does to a logger. *)
Record logged (g : Logger) (cs : list call) (g' : Logger) : Prop := mk_logged {
  lo_level : lg_minimum_level g' = lg_minimum_level g;
  lo_out : lg_out g' = lg_out g ++ (call_line <$> filter (λ c, ¬ on_err c) cs);
  lo_err : lg_err g' = lg_err g ++ (call_line <$> filter on_err cs);
  lo_file : match lg_file g with
            | None => lg_file g' = None
            | Some f => ∃ f', lg_file g' = Some f' ∧ file_after f cs f'
            end;
}.

Lemma make_call_logged g c :
  logged g (filter (shown (lg_minimum_level g)) [c]) (make_call localtime g c).
Proof.
  rewrite make_call_eq. unfold write. rewrite filter_cons, filter_nil.
  destruct (Nat.ltb_spec (level_int (lc_at (snd c))) (level_int (lg_minimum_level g))) as [Hl | Hl].
  - rewrite decide_False by (unfold shown; lia). split; cbn; rewrite ?app_nil_r; try done.
    destruct (lg_file g) as [f |]; [| done]. exists f. split; [done | apply file_after_nil].
  - rewrite decide_True by (unfold shown; lia).
    assert (bool_decide (lc_at (snd c) = Warn) || bool_decide (lc_at (snd c) = Error)
            = bool_decide (on_err c)) as -> by (unfold on_err; by rewrite <-bool_decide_or).
    split; cbn [lg_minimum_level lg_out lg_err lg_file]; [done | ..].
    + rewrite filter_cons, filter_nil. case_bool_decide; case_decide; try tauto; cbn; by rewrite ?app_nil_r.
    + rewrite filter_cons, filter_nil. case_bool_decide; case_decide; try tauto; cbn; by rewrite ?app_nil_r.
    + destruct (lg_file g) as [f |]; [| done]. eexists. split; [done |]. apply append_line_after.
Qed.

Lemma calls_logged g cs :
  logged g (filter (shown (lg_minimum_level g)) cs) (foldl (make_call localtime) g cs).
Proof.
  revert g. induction cs as [| c cs IH]; intros g.
  { split; cbn; rewrite ?app_nil_r; try done. destruct (lg_file g) as [f |]; [| done].
    exists f. split; [done | apply file_after_nil]. }
  cbn [foldl]. destruct (make_call_logged g c) as [L1 O1 E1 F1].
  destruct (IH (make_call localtime g c)) as [L2 O2 E2 F2].
  change (c :: cs) with ([c] ++ cs). rewrite L1 in *. rewrite filter_app. split.
  - congruence.
  - by rewrite O2, O1, filter_app, fmap_app, app_assoc.
  - by rewrite E2, E1, filter_app, fmap_app, app_assoc.
  - destruct (lg_file g) as [f |].
    + destruct F1 as (f1 & Hf1 & F1). rewrite Hf1 in F2. destruct F2 as (f2 & Hf2 & F2).
      exists f2. split; [done |]. by eapply file_after_trans.
    + rewrite F1 in F2. exact F2.
Qed.

(** The entry a call leaves. *)
Definition entry_of (c : call) : log_entry :=
  let now := we_now (fst c) in
  mk_log_entry (localtime (Z.quot now 1000000000)) (Z.rem (Z.quot now 1000000) 1000) (snd c).

(** The module is a name and the message a line; the clock is after the epoch. *)
Record plain_call (c : call) : Prop := mk_plain_call {
  pl_now : 0 <= we_now (fst c);
  pl_name : lacks "]" (lc_module (snd c)) = true;
  pl_module : lacks nl_char (lc_module (snd c)) = true;
  pl_message : lacks nl_char (lc_message (snd c)) = true;
}.

(** What the C library says of [localtime_r]. *)
Definition clock_ok : Prop := ∀ seconds, 0 <= seconds → tm_ok (localtime seconds).

Lemma read_call_line c : clock_ok → plain_call c → read_entry (call_line c) = Some (entry_of c).
Proof.
  intros Hk []. unfold call_line, current_timestamp.
  rewrite read_entry_line; [by destruct c as [? []] | | | done].
  - apply Hk, Z.quot_pos; lia.
  - apply Z.rem_nonneg; [done |]. apply Z.quot_pos; lia.
Qed.

Lemma call_line_lacks c : plain_call c → lacks nl_char (call_line c) = true.
Proof.
  intros []. unfold call_line, log_line, current_timestamp, put_time.
  repeat (rewrite lacks_app, ?dec_padded, ?lacks_padded by done). rewrite pl_module0, pl_message0.
  by destruct (lc_at (snd c)).
Qed.

Lemma read_calls cs :
  clock_ok → Forall plain_call cs → mapM read_entry (call_line <$> cs) = Some (entry_of <$> cs).
Proof.
  intros Hk Hp. apply mapM_Some_2. induction Hp as [| c cs Hc _ IH]; [apply Forall2_nil_2 |].
  apply Forall2_cons_2; [by apply read_call_line | exact IH].
Qed.

Lemma read_log_app text cs old :
  clock_ok → Forall plain_call cs → whole text → read_log text = Some old →
  read_log (text +:+ text_of (call_line <$> cs)) = Some (old ++ (entry_of <$> cs)).
Proof.
  intros Hk Hp Hw Ho. unfold read_log in *. rewrite lines_whole by done.
  rewrite lines_text_of by (apply Forall_fmap; eapply Forall_impl; [exact Hp | apply call_line_lacks]).
  apply mapM_Some. apply Forall2_app; apply mapM_Some; [done | by apply read_calls].
Qed.
End facts.

(** ** Properties *)

(** C35: The log holds what was logged. Over any calls of a logger: each call at or above
    the minimum level puts its line on one of the standard streams, in order, WARN and
    ERROR on the error stream after the complaints of the constructor, the others on the
    output; the file, if it was opened, is at any moment its old text followed by those
    lines, cut short only when a write has failed; and as long as none has, a reader of
    an old file of whole lines finds its old entries and then one entry per line, with
    the time, the level, the module and the message of the call. *)
Theorem log_reads_back localtime file_path minimum_level env cs :
  let g := foldl (make_call localtime) (new_logger file_path minimum_level env) cs in
  let written := filter (shown minimum_level) cs in
  lg_out g = call_line localtime <$> filter (λ c, ¬ on_err c) written ∧
  lg_err g = lg_err (new_logger file_path minimum_level env)
             ++ (call_line localtime <$> filter on_err written) ∧
  match oe_file env with
  | None => lg_file g = None
  | Some text =>
      ∃ f, lg_file g = Some f ∧
        (∃ rest, text +:+ text_of (call_line localtime <$> written) = lf_text f +:+ rest) ∧
        (Forall (λ c, we_failed (fst c) = None) written →
           lf_text f = text +:+ text_of (call_line localtime <$> written) ∧
           ∀ old, clock_ok localtime → Forall plain_call cs → whole text → read_log text = Some old →
             read_log (lf_text f) = Some (old ++ (entry_of localtime <$> written)))
  end.
Proof.
  set (g0 := new_logger file_path minimum_level env). cbv zeta.
  assert (lg_minimum_level g0 = minimum_level ∧ lg_out g0 = [] ∧
          lg_file g0 = (text ← oe_file env; Some (mk_log_file text true))) as (Hl & Ho & Hf)
    by (unfold g0, new_logger; by destruct (oe_file env)).
  destruct (calls_logged localtime g0 cs) as [_ Hout Herr Hfile].
  rewrite Hl in *. rewrite Ho in Hout. split; [exact Hout |]. split; [exact Herr |].
  rewrite Hf in Hfile. destruct (oe_file env) as [text |]; [| exact Hfile].
  destruct Hfile as (f & Hg & [Hgood Hpre Hok _]). cbn [lf_text lf_good] in *.
  exists f. split; [exact Hg |]. split; [exact Hpre |]. intros Hw.
  pose proof (Hgood (Hok eq_refl Hw)) as Ht. split; [exact Ht |].
  intros old Hk Hp Hwh Hold. rewrite Ht. apply read_log_app; [done | | done | done].
  rewrite Forall_forall in *. intros c [_ Hc]%list_elem_of_filter. by apply Hp.
Qed.

(** The clock of the first day. *)
Definition first_day (seconds : Z) : tm :=
  mk_tm 70 0 1 (seconds / 3600 mod 24) (seconds / 60 mod 60) (seconds mod 60).

Definition sample_calls : list (write_env * log_call) :=
  [(mk_write_env 3723004000000 None, mk_log_call Info "gateway" "started");
   (mk_write_env 3723005000000 None, mk_log_call Debug_ "uart" "idle");
   (mk_write_env 3724000000000 None, mk_log_call Error "mqtt" "publish failed: [timeout]")].

Lemma log_reads_back_witness :
  let old := "1970-01-01 00:00:59.007 [WARN] [can] restarted" +:+ nl in
  let env := mk_open_env None (Some old) in
  let g := foldl (make_call first_day) (new_logger "logs/gateway.log" Info env) sample_calls in
  lg_out g = ["1970-01-01 01:02:03.004 [INFO] [gateway] started"] ∧
  ∃ f, lg_file g = Some f ∧
    read_log (lf_text f) =
      Some ([mk_log_entry (mk_tm 70 0 1 0 0 59) 7 (mk_log_call Warn "can" "restarted");
             mk_log_entry (mk_tm 70 0 1 1 2 3) 4 (mk_log_call Info "gateway" "started");
             mk_log_entry (mk_tm 70 0 1 1 2 4) 0 (mk_log_call Error "mqtt" "publish failed: [timeout]")]).
Proof.
  intros old env g.
  destruct (log_reads_back first_day "logs/gateway.log" Info env sample_calls) as (Hout & _ & Hfile).
  split; [etransitivity; [exact Hout | vm_compute; reflexivity] |].
  destruct Hfile as (f & Hg & _ & Hok). exists f. split; [exact Hg |].
  destruct Hok as [_ Hread]; [repeat (apply Forall_cons_2; [reflexivity |]); apply Forall_nil_2 |].
  etransitivity; [eapply Hread |].
  - intros seconds Hs. split; cbn; try lia; apply Z.mod_pos_bound; lia.
  - repeat (apply Forall_cons_2; [split; reflexivity || (cbn; lia) |]). apply Forall_nil_2.
  - right. by exists "1970-01-01 00:00:59.007 [WARN] [can] restarted".
  - vm_compute. reflexivity.
  - vm_compute. reflexivity.
Defined.
