(* ===== verification/SerialPort.v ===== *)
(** * The serial port ([src/device/serial_port.cpp])

    Opening a terminal in raw mode, and the timed read and complete write the
    UART and Modbus devices are built on. *)

From S2P Require Import Prelude Posix.

Local Open Scope Z_scope.

(** ** The code *)

(** [speed_t] values of the baud rates; 0 when the rate is not supported. *)
Definition B9600 : Z := 0xD.
Definition B19200 : Z := 0xE.
Definition B38400 : Z := 0xF.
Definition B57600 : Z := 0x1001.
Definition B115200 : Z := 0x1002.

Definition to_speed (baud_rate : Z) : Z :=
  if baud_rate =? 9600 then B9600
  else if baud_rate =? 19200 then B19200
  else if baud_rate =? 38400 then B38400
  else if baud_rate =? 57600 then B57600
  else if baud_rate =? 115200 then B115200
  else 0.

(** The fields of [struct termios] the code or its library calls set. *)
Record termios : Type := mk_termios {
  c_iflag : Z;
  c_oflag : Z;
  c_cflag : Z;
  c_lflag : Z;
  c_vmin : Z;
  c_vtime : Z;
  c_ispeed : Z;
  c_ospeed : Z;
}.

(** Bits of [c_cflag]. *)
Definition CSIZE : Z := 0x30.
Definition CS8 : Z := 0x30.
Definition CSTOPB : Z := 0x40.
Definition CREAD : Z := 0x80.
Definition PARENB : Z := 0x100.
Definition CLOCAL : Z := 0x800.
Definition CRTSCTS : Z := 0x80000000.

(** [flags &= ~mask] on a 32-bit word. *)
Definition clear_bits (flags mask : Z) : Z := Z.ldiff flags mask.

(** The [c_cflag] assignments of [open_port]. *)
Definition frame_format (cflag : Z) : Z :=
  let cflag := Z.lor cflag (Z.lor CLOCAL CREAD) in
  let cflag := clear_bits cflag CSIZE in
  let cflag := Z.lor cflag CS8 in
  let cflag := clear_bits cflag PARENB in
  let cflag := clear_bits cflag CSTOPB in
  clear_bits cflag CRTSCTS.

(** What the kernel answers to the calls of [open_port]. *)
Record port_open_env : Type := mk_port_open {
  po_open : Z;                     (** result of [::open] *)
  po_getattr : option termios;     (** the settings, or a failure *)
  po_setattr_ok : bool;
  po_errno : string;               (** [strerror(errno)] after the failing call *)
}.

Definition SerialPort : Type := Z.   (** [fd_] *)

Definition close_port (fd : SerialPort) (o : os) : SerialPort * os :=
  if 0 <=? fd then (-1, os_close fd o) else (fd, o).

Definition is_open (fd : SerialPort) : bool := 0 <=? fd.

(** The terminal library of the C runtime, which is not part of the repository. *)
Class TerminalLibrary : Type := mk_terminal_library {
  cfmakeraw : termios → termios;
  cfsetispeed : Z → termios → termios;
  cfsetospeed : Z → termios → termios;
}.

Section open.
Context `{TerminalLibrary}.

Definition line_settings (speed : Z) (tty : termios) : termios :=
  let tty := cfsetospeed speed (cfsetispeed speed (cfmakeraw tty)) in
  mk_termios (c_iflag tty) (c_oflag tty) (frame_format (c_cflag tty)) (c_lflag tty)
             0 0 (c_ispeed tty) (c_ospeed tty).

(** The result, the port, the descriptors, the error message and the settings
    given to [tcsetattr], if it is reached. *)
Definition open_port (fd : SerialPort) (baud_rate : Z) (o : os) (env : port_open_env)
    : bool * SerialPort * os * string * option termios :=
  let '(fd, o) := close_port fd o in
  let speed := to_speed baud_rate in
  if speed =? 0 then (false, fd, o, "unsupported baud rate", None)
  else
    let fd := po_open env in
    if fd <? 0 then (false, fd, o, po_errno env, None)
    else
      let o := os_open fd o in
      match po_getattr env with
      | None => let '(fd, o) := close_port fd o in (false, fd, o, po_errno env, None)
      | Some tty =>
          let tty := line_settings speed tty in
          if negb (po_setattr_ok env)
          then let '(fd, o) := close_port fd o in (false, fd, o, po_errno env, Some tty)
          else (true, fd, o, "", Some tty)
      end.
End open.

(** [flush_error]: the failure of [tcflush], if any. *)
Definition discard_input (fd : SerialPort) (flush_error : option string) (error_message : string)
    : bool * string :=
  if fd <? 0 then (false, "serial port is closed")
  else match flush_error with
       | Some message => (false, message)
       | None => (true, error_message)
       end.

Definition serial_retries (e : errno) : bool :=
  match e with EINTR | EAGAIN => true | Eother _ => false end.

(** The [while] loop of [write_all] from [written]: the result, the error
    message and the bytes the kernel has taken ([line]). Each call to [::write]
    takes the next entry of the script. *)
Fixpoint write_all_loop (data : list Z) (written : nat) (line : list Z) (error_message : string)
    (script : list write_result) : exec (bool * string * list Z) :=
  if (length data <=? written)%nat then Ret (true, error_message, line)
  else match script with
       | [] => OutOfFuel
       | Wrote O :: _ => Ret (false, "serial write returned zero", line)
       | Wrote (S n) :: script =>
           write_all_loop data (written + S n) (line ++ take (S n) (drop written data))
                          error_message script
       | WriteFailed e :: script =>
           if serial_retries e then write_all_loop data written line error_message script
           else Ret (false, strerror e, line)
       end.

Definition write_all (data : list Z) (error_message : string) (script : list write_result)
    : exec (bool * string * list Z) :=
  write_all_loop data 0 [] error_message script.

Inductive read_result : Type :=
  | ReadBytes (received : list Z)
  | ReadFailed (e : errno).

(** The result, the bytes put in the buffer and the error message. *)
Definition read_some (capacity : nat) (error_message : string) (polls : list poll_result)
    (input : read_result) : exec (Z * list Z * string) :=
  ready ← poll_loop polls;
  match ready with
  | PollTimeout | PollEintr => Ret (0, [], error_message)
  | PollError message => Ret (-1, [], message)
  | PollReady true => Ret (-1, [], "serial connection lost")
  | PollReady false =>
      match input with
      | ReadFailed EINTR | ReadFailed EAGAIN => Ret (0, [], error_message)
      | ReadFailed (Eother message) => Ret (-1, [], message)
      | ReadBytes received =>
          let received := take capacity received in
          Ret (Z.of_nat (length received), received, error_message)
      end
  end.

(** ** Facts *)

Lemma close_port_owns fd o others :
  owns fd others o → let '(fd', o') := close_port fd o in fd' < 0 ∧ owns fd' others o'.
Proof.
  intros Ho. unfold close_port. destruct (Z.leb_spec 0 fd); [| by split].
  split; [lia |]. by apply owns_close.
Qed.

Lemma owns_none fd fd' others o : owns fd others o → fd < 0 → fd' < 0 → owns fd' others o.
Proof.
  intros [Ho Hf Hb] Hfd Hfd'. split; [| lia | done].
  rewrite decide_False by lia. by rewrite decide_False in Ho by lia.
Qed.

Lemma open_port_owns `{TerminalLibrary} fd baud o env others :
  owns fd others o → fresh_fd (po_open env) (snd (close_port fd o)) →
  let '(ok, fd', o', _, _) := open_port fd baud o env in
  owns fd' others o' ∧ (ok = true ↔ 0 <= fd').
Proof.
  intros Ho Hf. unfold open_port. pose proof (close_port_owns fd o others Ho) as Hc.
  destruct (close_port fd o) as [fd0 o0]. destruct Hc as [Hfd0 Ho0]. simpl in Hf.
  destruct (to_speed baud =? 0); [split; [done | split; [done | lia]] |].
  destruct (Z.ltb_spec (po_open env) 0) as [Hn | Hp].
  { split; [by eapply owns_none | split; [done | lia]]. }
  pose proof (owns_open fd0 (po_open env) others o0 Ho0 Hfd0 Hp Hf) as Hop.
  pose proof (close_port_owns _ _ others Hop) as Hc2.
  destruct (po_getattr env) as [tty |];
    [destruct (po_setattr_ok env); cbn [negb]; [by split; [done | lia] |] |];
    destruct (close_port (po_open env) (os_open (po_open env) o0)) as [fd1 o1];
    destruct Hc2; (split; [done | split; [done | lia]]).
Qed.

(** [write_all] is the generic loop on what is left to send. *)
Lemma write_all_loop_transfer data written line em script :
  write_all_loop data written line em script
  = match transfer serial_retries (drop written data) line script with
    | Ret (Sent, l) => Ret (true, em, l)
    | Ret (SentZero, l) => Ret (false, "serial write returned zero", l)
    | Ret (SendFailed e, l) => Ret (false, strerror e, l)
    | Throw w => Throw w
    | OutOfFuel => OutOfFuel
    end.
Proof.
  revert written line. induction script as [| r script IH]; intros written line; simpl;
    destruct (Nat.leb_spec (length data) written) as [Hl | Hl];
    try (rewrite drop_ge by lia; done);
    destruct (drop written data) as [| b rest] eqn:Hd;
    try (apply (f_equal length) in Hd; rewrite length_drop in Hd; simpl in Hd; lia);
    [done |].
  destruct r as [[| n] | e]; [done | |].
  - rewrite IH, <-Hd, drop_drop. by rewrite Hd.
  - destruct (serial_retries e); [| done]. by rewrite IH, Hd.
Qed.

Lemma to_speed_supported baud :
  to_speed baud ≠ 0 ↔ baud ∈ [9600; 19200; 38400; 57600; 115200].
Proof.
  unfold to_speed. rewrite !elem_of_cons, elem_of_nil.
  repeat match goal with |- context [baud =? ?b] => destruct (Z.eqb_spec baud b) end;
    subst; split; intros H; try done; try tauto; try lia.
Qed.

(** What the [speed_t] values of Linux stand for, in bits per second
    ([asm-generic/termbits.h]). *)
Definition bits_per_second (speed : Z) : option Z :=
  match speed with
  | 13 => Some 9600
  | 14 => Some 19200
  | 15 => Some 38400
  | 4097 => Some 57600
  | 4098 => Some 115200
  | _ => None
  end.

Lemma to_speed_rate baud : to_speed baud ≠ 0 → bits_per_second (to_speed baud) = Some baud.
Proof.
  intros [-> | [-> | [-> | [-> | [-> | []%elem_of_nil]%elem_of_cons]%elem_of_cons]%elem_of_cons]%elem_of_cons]%to_speed_supported%elem_of_cons; done.
Qed.

Lemma land_clear_bits f m c : Z.land (clear_bits f m) c = Z.land f (Z.ldiff c m).
Proof. unfold clear_bits. bitwise. Qed.

Lemma land_set_bits f m c : Z.land (Z.lor f m) c = Z.lor (Z.land f c) (Z.land m c).
Proof. bitwise. Qed.

(** What a mask sees of [c_cflag] after [open_port]. *)
Lemma frame_format_mask f c :
  let c1 := Z.ldiff (Z.ldiff (Z.ldiff c CRTSCTS) CSTOPB) PARENB in
  Z.land (frame_format f) c
  = Z.lor (Z.lor (Z.land f (Z.ldiff c1 CSIZE))
                 (Z.land (Z.lor CLOCAL CREAD) (Z.ldiff c1 CSIZE))) (Z.land CS8 c1).
Proof.
  unfold frame_format.
  by rewrite !land_clear_bits, land_set_bits, land_clear_bits, land_set_bits.
Qed.

(** Eight data bits, no parity, one stop bit, no hardware flow control, no
    modem control, receiver on. *)
Record raw_8n1 (tty : termios) : Prop := mk_raw_8n1 {
  eight_bits : Z.land (c_cflag tty) CSIZE = CS8;
  no_parity : Z.land (c_cflag tty) PARENB = 0;
  one_stop_bit : Z.land (c_cflag tty) CSTOPB = 0;
  no_flow_control : Z.land (c_cflag tty) CRTSCTS = 0;
  local_line : Z.land (c_cflag tty) CLOCAL = CLOCAL;
  receiver_on : Z.land (c_cflag tty) CREAD = CREAD;
  no_wait : c_vmin tty = 0 ∧ c_vtime tty = 0;
}.

Lemma lor_land_same f c : Z.lor (Z.land f c) c = c.
Proof. bitwise. Qed.

(** Evaluates the closed bit operations of the goal. *)
Ltac eval_masks :=
  repeat match goal with
  | |- context [Z.ldiff ?a ?b] =>
      let v := eval vm_compute in (Z.ldiff a b) in change (Z.ldiff a b) with v
  | |- context [Z.land (Z.lor CLOCAL CREAD) ?c] =>
      let v := eval vm_compute in (Z.land (Z.lor CLOCAL CREAD) c) in
      change (Z.land (Z.lor CLOCAL CREAD) c) with v
  | |- context [Z.land CS8 ?c] =>
      let v := eval vm_compute in (Z.land CS8 c) in change (Z.land CS8 c) with v
  end.

Lemma line_settings_8n1 `{TerminalLibrary} speed tty : raw_8n1 (line_settings speed tty).
Proof.
  unfold line_settings. set (t := cfsetospeed _ _). clearbody t.
  split; cbn [c_cflag c_vmin c_vtime]; rewrite ?frame_format_mask; cbv zeta;
    eval_masks; rewrite ?Z.land_0_r, ?Z.lor_0_r; try done; apply lor_land_same.
Qed.

Lemma read_some_code c em polls input n buf e :
  read_some c em polls input = Ret (n, buf, e) →
  (n = -1 ∧ buf = []) ∨ (n = Z.of_nat (length buf) ∧ e = em ∧ (length buf <= c)%nat).
Proof.
  unfold read_some. destruct (poll_loop polls) as [[| [] | | m] | |]; try discriminate;
    cbn [mbind exec_bind]; [| | | |];
    try (intros [= <- <- <-]; (by left) || (right; simpl; split_and!; [done | done | lia])).
  destruct input as [l | []]; intros [= <- <- <-];
    (by left) || (right; split_and!; [done | done | rewrite ?length_take; simpl; lia]).
Qed.

Lemma read_some_total c em polls input :
  (∃ r, poll_loop polls = Ret r) → ∃ r, read_some c em polls input = Ret r.
Proof.
  intros [r Hr]. unfold read_some. rewrite Hr.
  destruct r as [| [] | |], input as [| []]; by eexists.
Qed.

(** ** Properties *)

(** [write_all] never sends anything but the given bytes in order. It
    reports success exactly when all of them were taken by the kernel, a failure
    leaves a proper prefix on the line with a message, and it ends as soon as the
    kernel accepts a byte often enough; interrupted and would-block calls are
    retried without bound. *)
Lemma write_all_spec data em script :
  (∀ ok em' line, write_all data em script = Ret (ok, em', line) →
     if ok then line = data ∧ em' = em
     else ∃ k, line = take k data ∧ (k < length data)%nat) ∧
  ((length data <= progress script)%nat → ∃ r, write_all data em script = Ret r) ∧
  (∀ n, data ≠ [] → write_all data em (replicate n (WriteFailed EAGAIN)) = OutOfFuel).
Proof.
  unfold write_all. rewrite write_all_loop_transfer, drop_0. split_and!.
  - intros ok em' line Hw.
    destruct (transfer _ data [] script) as [[e l] | |] eqn:Ht; try discriminate Hw.
    apply transfer_line in Ht as (k & Hk & Hs & Hf). simpl in Hk.
    destruct e; injection Hw as <- <- <-; [split; [by apply Hs | done] | |];
      (exists k; split; [done | by apply Hf]).
  - intros Hp. destruct (transfer_ends serial_retries data [] script Hp) as [[e l] ->].
    destruct e; by eexists.
  - intros n Hne. rewrite write_all_loop_transfer, drop_0.
    destruct data as [| b rest]; [done |]. by rewrite transfer_spins.
Qed.

(** C37: [open_port] on any answers of the system. An unsupported baud rate is
    refused before the device is opened; success leaves a descriptor whose line
    settings are eight data bits, no parity, one stop bit, no flow control and
    non-blocking reads, with both speeds set to the [speed_t] value that stands for the
    requested rate; every failure leaves the port
    closed with a message of its cause, and no branch leaks a descriptor. *)
Theorem open_port_spec `{TerminalLibrary} fd baud o env others :
  owns fd others o → fresh_fd (po_open env) (snd (close_port fd o)) →
  let '(ok, fd', o', em, applied) := open_port fd baud o env in
  owns fd' others o' ∧ is_open fd' = ok ∧
  (ok = true → em = "" ∧ baud ∈ [9600; 19200; 38400; 57600; 115200] ∧
     ∃ tty t speed, po_getattr env = Some tty ∧ applied = Some t ∧ raw_8n1 t ∧
       bits_per_second speed = Some baud ∧
       let set := cfsetospeed speed (cfsetispeed speed (cfmakeraw tty)) in
       c_ispeed t = c_ispeed set ∧ c_ospeed t = c_ospeed set) ∧
  (ok = false → if decide (baud ∈ [9600; 19200; 38400; 57600; 115200])
                then em = po_errno env
                else em = "unsupported baud rate" ∧ applied = None).
Proof.
  intros Ho Hf. pose proof (open_port_owns fd baud o env others Ho Hf) as Hown.
  pose proof (to_speed_supported baud) as Hsp.
  destruct (open_port fd baud o env) as [[[[ok fd'] o'] em] applied] eqn:Hop.
  destruct Hown as [Hown Hok]. split; [done |]. split.
  { unfold is_open. destruct Hok as [Hok Hok'].
    destruct ok, (Z.leb_spec 0 fd') as [Hfd | Hfd]; try done; exfalso.
    - specialize (Hok eq_refl). lia.
    - discriminate (Hok' Hfd). }
  unfold open_port in Hop. destruct (close_port fd o) as [fd0 o0].
  destruct (Z.eqb_spec (to_speed baud) 0) as [Hz | Hnz].
  { injection Hop as <- <- <- <- <-. split; [done |]. intros _.
    rewrite decide_False; [done |]. tauto. }
  pose proof (to_speed_rate baud Hnz) as Hrate. apply Hsp in Hnz. rewrite decide_True by done.
  destruct (po_open env <? 0); [by injection Hop as <- <- <- <- <- |].
  destruct (po_getattr env) as [tty |];
    [destruct (po_setattr_ok env); cbn [negb] in Hop |].
  2, 3: destruct (close_port (po_open env) _); by injection Hop as <- <- <- <- <-.
  injection Hop as <- <- <- <- <-. split; [| done]. intros _. split_and!; try done.
  exists tty, (line_settings (to_speed baud) tty), (to_speed baud).
  split_and!; try done. apply line_settings_8n1.
Qed.

Definition sample_termios : termios := mk_termios 0 0 0xBF 0 1 0 0 0.
Definition set_speed (v : Z) (t : termios) : termios :=
  mk_termios (c_iflag t) (c_oflag t) (c_cflag t) (c_lflag t) (c_vmin t) (c_vtime t) v v.

#[local] Instance sample_library : TerminalLibrary := mk_terminal_library id set_speed set_speed.

Lemma open_port_spec_witness :
  let env := mk_port_open 5 (Some sample_termios) true "" in
  owns (-1) ∅ os_init ∧
  let '(ok, fd', o', em, applied) := open_port (-1) 9600 os_init env in
  ok = true ∧ owns fd' ∅ o' ∧
  ∃ tty t speed, po_getattr env = Some tty ∧ applied = Some t ∧ raw_8n1 t ∧
    bits_per_second speed = Some 9600 ∧
    let set := cfsetospeed speed (cfsetispeed speed (cfmakeraw tty)) in
    c_ispeed t = c_ispeed set ∧ c_ospeed t = c_ospeed set.
Proof.
  intros env. assert (owns (-1) ∅ os_init) as Ho by (split; [done | lia | done]).
  split; [exact Ho |].
  assert (fresh_fd (po_open env) (snd (close_port (-1) os_init))) as Hf by (right; set_solver).
  pose proof (open_port_spec (-1) 9600 os_init env ∅ Ho Hf) as Hs.
  change (open_port (-1) 9600 os_init env)
    with (true, 5, os_open 5 os_init, "", Some (line_settings B9600 sample_termios)) in *.
  destruct Hs as (Hown & _ & Hok & _). specialize (Hok eq_refl). tauto.
Defined.
