(* ===== verification/DeviceInterface.v ===== *)
(** * What an input adapter promises ([src/device/device_interface.h])

    The operations of [DeviceInterface] as a type class, and a second class with
    the laws the device manager relies on. The three adapters are instances. *)

From S2P Require Import Prelude SensorData DeviceData Posix.

Local Open Scope Z_scope.

(** [SEnv] and [REnv] are what the environment (kernel and clock) answers
    during a call of [start] and of [read]. *)
Class DeviceInterface (D SEnv REnv : Type) : Type := {
  start : D → os → SEnv → bool * D * os * string;
  stop : D → os → D * os;
  read : D → os → REnv → exec (DeviceReadResult * D * os);
  get_device_status : D → DeviceStatus;
}.

(** The assignments the adapters make to their status. *)
Definition set_online (b : bool) (s : DeviceStatus) : DeviceStatus :=
  mk_status (ds_device_id s) (ds_protocol s) b (ds_last_update s) (ds_error_count s).
Definition add_errors (count : Z) (s : DeviceStatus) : DeviceStatus :=
  mk_status (ds_device_id s) (ds_protocol s) (ds_online s) (ds_last_update s)
            (u64 (ds_error_count s + count)).

(** The errors a read result stands for: what [error_stats] counts, one for a
    transport error or a protocol error without statistics, and one for a
    timeout that carries a message. *)
Definition errors_reported (r : DeviceReadResult) : Z :=
  match rr_code r with
  | TransportError => 1
  | ProtocolError => if stats_empty (rr_stats r) then 1 else stats_total (rr_stats r)
  | Timeout => if bool_decide (rr_error r = "") then 0 else 1
  | Data => stats_total (rr_stats r)
  end.

Definition online (s : DeviceStatus) : bool := ds_online s.

(** How a call changes the counters of a status: [n] more errors. *)
Record counted (n : Z) (s s' : DeviceStatus) : Prop := mk_counted {
  counted_protocol : ds_protocol s' = ds_protocol s;
  counted_errors : ds_error_count s' = u64 (ds_error_count s + n);
}.

(** Timeouts and transport errors carry no statistics, and only the Modbus adapter
    gives a timeout a message. *)
Record result_ok (p : ProtocolType) (res : DeviceReadResult) : Prop := mk_result_ok {
  no_stats_lost : rr_code res = TransportError ∨ rr_code res = Timeout → rr_stats res = no_stats;
  silent_timeout : rr_code res = Timeout → rr_error res ≠ "" → p = ModbusRtu;
}.

Class DeviceLaws (D SEnv REnv : Type) `{!DeviceInterface D SEnv REnv} : Type := {
  dev_fd : D → Z;                  (** the descriptor the device holds *)
  dev_wf : D → Prop;
  start_fd : SEnv → Z;             (** the descriptor the kernel gives *)
  read_ready : REnv → Prop;        (** the kernel does not repeat [EINTR] forever *)
  status_range d : dev_wf d → 0 <= ds_error_count (get_device_status d) < 2 ^ 64;
  start_law d o env others :
    dev_wf d → owns (dev_fd d) others o → fresh_fd (start_fd env) (snd (stop d o)) →
    let '(ok, d', o', _) := start d o env in
    dev_wf d' ∧ owns (dev_fd d') others o' ∧ (ok = true ↔ 0 <= dev_fd d') ∧
    counted (if ok then 0 else 1) (get_device_status d) (get_device_status d') ∧
    (ok = true → online (get_device_status d') = true);
  stop_law d o others :
    dev_wf d → owns (dev_fd d) others o →
    let '(d', o') := stop d o in
    dev_wf d' ∧ owns (dev_fd d') others o' ∧ dev_fd d' < 0 ∧
    counted 0 (get_device_status d) (get_device_status d') ∧
    online (get_device_status d') = false;
  read_law d o env others res d' o' :
    dev_wf d → owns (dev_fd d) others o → read d o env = Ret (res, d', o') →
    dev_wf d' ∧ owns (dev_fd d') others o' ∧
    counted (errors_reported res) (get_device_status d) (get_device_status d') ∧
    (rr_code res = Data ↔ is_Some (rr_data res)) ∧
    if decide (rr_code res = TransportError)
    then dev_fd d' < 0 ∧ online (get_device_status d') = false
    else dev_fd d' = dev_fd d;
  read_result_ok d o env res d' o' :
    dev_wf d → read d o env = Ret (res, d', o') →
    result_ok (ds_protocol (get_device_status d)) res;
  read_total d o env : dev_wf d → read_ready env → ∃ r, read d o env = Ret r;
}.

Lemma u64_range z : 0 <= u64 z < 2 ^ 64.
Proof. apply Z.mod_pos_bound. lia. Qed.

Lemma u64_small z : 0 <= z < 2 ^ 64 → u64 z = z.
Proof. apply Z.mod_small. Qed.

(** A status whose count did not change is [counted 0]. *)
Lemma counted_same s s' :
  0 <= ds_error_count s < 2 ^ 64 →
  ds_protocol s' = ds_protocol s → ds_error_count s' = ds_error_count s → counted 0 s s'.
Proof. intros Hr Hp He. split; [done |]. by rewrite He, Z.add_0_r, u64_small. Qed.

(** Successive reads of a device. *)
Fixpoint read_session `{DeviceInterface D SEnv REnv} (d : D) (o : os) (envs : list REnv)
    : exec (list DeviceReadResult * D * os) :=
  match envs with
  | [] => Ret ([], d, o)
  | env :: rest =>
      '(res, d, o) ← read d o env;
      '(results, d, o) ← read_session d o rest;
      Ret (res :: results, d, o)
  end.

(** The readings handed to the data handler. *)
Definition delivered (results : list DeviceReadResult) : list SensorData := omap rr_data results.
