(* ===== verification/UartDevice.v ===== *)
(** * The UART adapter ([src/device/uart_device.cpp])

    Bytes read from the serial port go through the frame parser; the readings
    of one read are queued and handed out one per call. *)

From S2P Require Import Prelude RingBuffer FrameParser FrameScan SensorData DeviceData Posix SerialPort DeviceInterface.

Local Open Scope Z_scope.

(** ** The code *)

(** The path and the mutex have no state of their own; each locked block is one
    assignment of the status. *)
Record UartDevice : Type := mk_uart {
  uart_baud_rate : Z;
  uart_port : SerialPort;
  uart_parser : FrameParser;
  uart_pending : list SensorData;
  uart_status : DeviceStatus;
}.

Definition new_uart (baud_rate : Z) : UartDevice :=
  mk_uart baud_rate (-1) new_parser [] (default_status Uart).

Definition uart_set_port (p : SerialPort) (d : UartDevice) : UartDevice :=
  mk_uart (uart_baud_rate d) p (uart_parser d) (uart_pending d) (uart_status d).
Definition uart_set_parser (p : FrameParser) (d : UartDevice) : UartDevice :=
  mk_uart (uart_baud_rate d) (uart_port d) p (uart_pending d) (uart_status d).
Definition uart_set_pending (q : list SensorData) (d : UartDevice) : UartDevice :=
  mk_uart (uart_baud_rate d) (uart_port d) (uart_parser d) q (uart_status d).
Definition uart_set_status (s : DeviceStatus) (d : UartDevice) : UartDevice :=
  mk_uart (uart_baud_rate d) (uart_port d) (uart_parser d) (uart_pending d) s.

Definition uart_record_errors (count : Z) (d : UartDevice) : UartDevice :=
  uart_set_status (add_errors count (uart_status d)) d.

Definition uart_stop (d : UartDevice) (o : os) : UartDevice * os :=
  let '(p, o) := close_port (uart_port d) o in
  let d := uart_set_port p d in
  (uart_set_status (set_online false (uart_status d)) d, o).

Section code.
Context `{TerminalLibrary}.

Definition uart_start (d : UartDevice) (o : os) (env : port_open_env)
    : bool * UartDevice * os * string :=
  let '(ok, p, o, em, _) := open_port (uart_port d) (uart_baud_rate d) o env in
  let d := uart_set_port p d in
  if negb ok then (false, uart_record_errors 1 d, o, em)
  else
    let d := uart_set_parser (reset (uart_parser d)) d in
    (true, uart_set_status (set_online true (uart_status d)) d, o, em).
End code.

(** The answers to one [read]: the polls, the bytes, the clock. *)
Record uart_env : Type := mk_uart_env {
  ue_polls : list poll_result;
  ue_input : read_result;
  ue_now : Z;                      (** [unix_seconds()] *)
}.

(** The loop over the frames of one read. *)
Fixpoint uart_frames_loop (frames : list Frame) (pending : list SensorData)
    (stats : ProtocolErrorStats) : list SensorData * ProtocolErrorStats :=
  match frames with
  | [] => (pending, stats)
  | frame :: rest =>
      let '(ok, data) := parse_sensor_data frame in
      if ok then uart_frames_loop rest (pending ++ [data]) stats
      else uart_frames_loop rest pending
             (mk_stats (crc_errors stats) (length_errors stats) (overflow_bytes stats)
                       (u64 (generic_errors stats + 1)))
  end.

(** The part of [read] after a successful [read_some]. *)
Definition uart_received (d : UartDevice) (o : os) (buffer : list Z) (now : Z)
    : exec (DeviceReadResult * UartDevice * os) :=
  '(parser, frames) ← feed (uart_parser d) buffer;
  let '(crc, parser) := take_crc_error_count parser in
  let '(len, parser) := take_length_error_count parser in
  let '(ovf, parser) := take_overflow_byte_count parser in
  let '(pending, stats) :=
    uart_frames_loop frames (uart_pending d) (mk_stats crc len ovf 0) in
  let d := uart_set_pending pending (uart_set_parser parser d) in
  let d := if stats_empty stats then d else uart_record_errors (stats_total stats) d in
  match pending with
  | [] =>
      if stats_empty stats then Ret (default_read_result, d, o)
      else Ret (mk_read_result ProtocolError None "UART frame rejected" stats, d, o)
  | data :: rest =>
      let d := uart_set_pending rest d in
      let s := uart_status d in
      let d := uart_set_status
                 (mk_status (device_id data) (ds_protocol s) true now (ds_error_count s)) d in
      Ret (mk_read_result Data (Some data)
             (if stats_empty stats then "" else "UART frame rejected") stats, d, o)
  end.

Definition uart_read (d : UartDevice) (o : os) (env : uart_env)
    : exec (DeviceReadResult * UartDevice * os) :=
  match uart_pending d with
  | data :: rest =>
      Ret (mk_read_result Data (Some data) "" no_stats, uart_set_pending rest d, o)
  | [] =>
      '(received, buffer, error) ← read_some 256 "" (ue_polls env) (ue_input env);
      if received <? 0 then
        let '(d, o) := uart_stop (uart_record_errors 1 d) o in
        Ret (mk_read_result TransportError None error no_stats, d, o)
      else if received =? 0 then Ret (default_read_result, d, o)
      else uart_received d o buffer (ue_now env)
  end.

#[export] Instance uart_interface `{TerminalLibrary} :
  DeviceInterface UartDevice port_open_env uart_env := {|
  start := uart_start;
  stop := uart_stop;
  read := uart_read;
  get_device_status := uart_status;
|}.

(** ** Facts *)

(** The reading a frame carries, if it is accepted. *)
Definition reading_of (f : Frame) : option SensorData :=
  let '(ok, d) := parse_sensor_data f in if ok then Some d else None.

Definition is_rejected (f : Frame) : bool := negb (fst (parse_sensor_data f)).
Definition rejected (fs : list Frame) : nat := length (filter is_rejected fs).

Lemma rejected_cons f fs :
  rejected (f :: fs) = ((if is_rejected f then 1 else 0) + rejected fs)%nat.
Proof. unfold rejected. rewrite filter_cons. by destruct (is_rejected f). Qed.

Lemma uart_frames_loop_ok fs q st :
  uart_frames_loop fs q st
  = (q ++ omap reading_of fs,
     mk_stats (crc_errors st) (length_errors st) (overflow_bytes st)
              (bump (rejected fs) (generic_errors st))).
Proof.
  revert q st. induction fs as [| f fs IH]; intros q st; cbn [uart_frames_loop].
  { rewrite app_nil_r. by destruct st. }
  rewrite rejected_cons, bump_add. unfold is_rejected. cbn [omap list_omap].
  replace (reading_of f) with (let '(ok, d) := parse_sensor_data f in if ok then Some d else None)
    by done.
  destruct (parse_sensor_data f) as [[] d]; rewrite IH; [| done].
  by rewrite <-app_assoc.
Qed.

(** The statistics of one read that decodes the events [evs]. *)
Definition read_stats (evs : list event) : ProtocolErrorStats :=
  mk_stats (u64 (Z.of_nat (FrameScan.crc_errors evs)))
           (u64 (Z.of_nat (FrameScan.length_errors evs))) 0
           (u64 (Z.of_nat (rejected (accepted evs)))).

Record uart_wf (d : UartDevice) : Prop := mk_uart_wf {
  uart_parser_ok : parser_inv (uart_parser d);
  uart_crc_zero : crc_error_count_ (uart_parser d) = 0;
  uart_len_zero : length_error_count_ (uart_parser d) = 0;
  uart_ovf_zero : overflow_byte_count_ (uart_parser d) = 0;
  uart_count : 0 <= ds_error_count (uart_status d) < 2 ^ 64;
}.

(** The status after a read that counted [stats]. *)
Definition status_after (stats : ProtocolErrorStats) (s : DeviceStatus) : DeviceStatus :=
  if stats_empty stats then s else add_errors (stats_total stats) s.

(** What a read that decodes [evs] returns, and the queue and status it leaves. *)
Definition uart_result (evs : list event) (now : Z) (q : list SensorData) (s : DeviceStatus)
    : DeviceReadResult * list SensorData * DeviceStatus :=
  let stats := read_stats evs in
  match q ++ omap reading_of (accepted evs) with
  | [] => (if stats_empty stats then default_read_result
           else mk_read_result ProtocolError None "UART frame rejected" stats,
           [], status_after stats s)
  | data :: rest =>
      (mk_read_result Data (Some data)
         (if stats_empty stats then "" else "UART frame rejected") stats,
       rest,
       mk_status (device_id data) (ds_protocol s) true now
                 (ds_error_count (status_after stats s)))
  end.

Lemma uart_received_ok d o buf now :
  uart_wf d →
  let '(evs, rest) := scan (pending (uart_parser d) ++ buf) in
  ∃ p', pending p' = rest ∧ parser_inv p' ∧ crc_error_count_ p' = 0 ∧
        length_error_count_ p' = 0 ∧ overflow_byte_count_ p' = 0 ∧
    let '(res, q, s) := uart_result evs now (uart_pending d) (uart_status d) in
    uart_received d o buf now
    = Ret (res, mk_uart (uart_baud_rate d) (uart_port d) p' q s, o).
Proof.
  intros [Hinv Hc Hl Ho _]. destruct (feed_ok _ buf Hinv) as (p' & Hf & Hd & Hinv').
  destruct (scan _) as [evs rest]. cbn [fst snd] in *.
  exists (mk_parser (buffer_ p') 0 0 0). destruct Hd as [Hwf Hr Hdc Hdl Hdo].
  split_and!; try done. { split; [done | apply Hinv']. }
  unfold uart_received. rewrite Hf. cbn [mbind exec_bind take_crc_error_count
    take_length_error_count take_overflow_byte_count buffer_ crc_error_count_
    length_error_count_ overflow_byte_count_].
  rewrite Hdc, Hdl, Hdo, Hc, Hl, Ho, uart_frames_loop_ok.
  cbn [crc_errors length_errors overflow_bytes generic_errors].
  rewrite !bump_u64, !Z.add_0_l by lia. fold (read_stats evs).
  unfold uart_result. destruct (uart_pending d ++ _) as [| data q];
    unfold status_after; destruct (stats_empty (read_stats evs)); reflexivity.
Qed.

Lemma uart_stop_eq d o :
  uart_stop d o = (mk_uart (uart_baud_rate d) (fst (close_port (uart_port d) o)) (uart_parser d)
                     (uart_pending d) (set_online false (uart_status d)),
                   snd (close_port (uart_port d) o)).
Proof. unfold uart_stop. by destruct (close_port _ o). Qed.

Lemma uart_wf_status d p q s :
  uart_wf d → 0 <= ds_error_count s < 2 ^ 64 →
  uart_wf (mk_uart (uart_baud_rate d) p (uart_parser d) q s).
Proof. by intros [] ?. Qed.

Lemma uart_stop_law d o others :
  uart_wf d → owns (uart_port d) others o →
  let '(d', o') := uart_stop d o in
  uart_wf d' ∧ owns (uart_port d') others o' ∧ uart_port d' < 0 ∧
  counted 0 (uart_status d) (uart_status d') ∧ ds_online (uart_status d') = false.
Proof.
  intros Hwf Ho. rewrite uart_stop_eq. pose proof (close_port_owns _ _ _ Ho) as Hc.
  destruct (close_port (uart_port d) o) as [p o']. destruct Hc. split_and!; try done.
  - by apply uart_wf_status, Hwf.
  - apply counted_same; [apply Hwf | done ..].
Qed.

Lemma parser_reset_wf p : parser_inv p → parser_inv (reset p) ∧ pending (reset p) = [].
Proof.
  intros Hp. destruct (clear_ok _ _ (inv_wf _ Hp)) as [Hw Hc].
  split; [| done]. split; [done |]. cbn [reset buffer_]. by rewrite Hc.
Qed.

Lemma uart_start_law `{TerminalLibrary} d o env others :
  uart_wf d → owns (uart_port d) others o →
  fresh_fd (po_open env) (snd (uart_stop d o)) →
  let '(ok, d', o', _) := uart_start d o env in
  uart_wf d' ∧ owns (uart_port d') others o' ∧ (ok = true ↔ 0 <= uart_port d') ∧
  counted (if ok then 0 else 1) (uart_status d) (uart_status d') ∧
  (ok = true → ds_online (uart_status d') = true).
Proof.
  intros Hwf Ho Hf. rewrite uart_stop_eq in Hf. cbn [snd] in Hf.
  pose proof (open_port_owns _ (uart_baud_rate d) o env others Ho Hf) as Hop.
  unfold uart_start. destruct (open_port _ _ _ _) as [[[[ok p] o'] em] t].
  destruct Hop as [Hop Hok]. destruct Hwf as [Hp ????], ok; cbn [negb].
  - split_and!; try done; [| by apply counted_same].
    destruct (parser_reset_wf _ Hp). by split.
  - split_and!; try done. split; try done. apply u64_range.
Qed.

Lemma uart_result_counted evs now q s :
  0 <= ds_error_count s < 2 ^ 64 →
  let '(res, q', s') := uart_result evs now q s in
  counted (errors_reported res) s s' ∧ (rr_code res = Data ↔ is_Some (rr_data res)) ∧
  rr_code res ≠ TransportError.
Proof.
  intros Hs. unfold uart_result, status_after.
  assert (stats_empty (read_stats evs) = true → stats_total (read_stats evs) = 0) as Hz
    by (apply Z.eqb_eq).
  destruct (q ++ _) as [| data rest]; destruct (stats_empty (read_stats evs)) eqn:He;
    (split; [| split; [by split; [| intros []] || by split |]; done]);
    unfold errors_reported; cbn [rr_code rr_error rr_stats rr_data default_read_result];
    rewrite ?He, ?(Hz eq_refl).
  - by apply counted_same.
  - by split.
  - by apply counted_same.
  - by split.
Qed.

Lemma status_after_range st s :
  0 <= ds_error_count s < 2 ^ 64 → 0 <= ds_error_count (status_after st s) < 2 ^ 64.
Proof. intros Hs. unfold status_after. destruct (stats_empty st); [done | apply u64_range]. Qed.

Lemma uart_result_range evs now q s :
  0 <= ds_error_count s < 2 ^ 64 →
  let '(_, _, s') := uart_result evs now q s in 0 <= ds_error_count s' < 2 ^ 64.
Proof.
  intros Hs. pose proof (status_after_range (read_stats evs) s Hs).
  unfold uart_result. by destruct (q ++ _).
Qed.

(** Every outcome of one [read]. *)
Inductive uart_read_outcome (d : UartDevice) (o : os) (env : uart_env) :
    DeviceReadResult * UartDevice * os → Prop :=
  | uart_queued data rest :
      uart_pending d = data :: rest →
      uart_read_outcome d o env
        (mk_read_result Data (Some data) "" no_stats, uart_set_pending rest d, o)
  | uart_lost error :
      uart_pending d = [] →
      read_some 256 "" (ue_polls env) (ue_input env) = Ret (-1, [], error) →
      uart_read_outcome d o env
        (mk_read_result TransportError None error no_stats,
         fst (uart_stop (uart_record_errors 1 d) o), snd (uart_stop (uart_record_errors 1 d) o))
  | uart_idle error :
      uart_pending d = [] →
      read_some 256 "" (ue_polls env) (ue_input env) = Ret (0, [], error) →
      uart_read_outcome d o env (default_read_result, d, o)
  | uart_bytes buf p' :
      uart_pending d = [] → buf ≠ [] →
      read_some 256 "" (ue_polls env) (ue_input env) = Ret (Z.of_nat (length buf), buf, "") →
      parser_inv p' → crc_error_count_ p' = 0 → length_error_count_ p' = 0 →
      overflow_byte_count_ p' = 0 →
      pending p' = snd (scan (pending (uart_parser d) ++ buf)) →
      uart_read_outcome d o env
        (let '(res, q, s) := uart_result (fst (scan (pending (uart_parser d) ++ buf)))
                                         (ue_now env) [] (uart_status d) in
         (res, mk_uart (uart_baud_rate d) (uart_port d) p' q s, o)).

Lemma uart_read_cases d o env r :
  uart_wf d → uart_read d o env = Ret r → uart_read_outcome d o env r.
Proof.
  intros Hwf. unfold uart_read. destruct (uart_pending d) as [| data rest] eqn:Hq.
  2:{ intros [= <-]. by apply uart_queued. }
  destruct (read_some _ _ _ _) as [[[n buf] e] | |] eqn:Hr; try discriminate.
  cbn [mbind exec_bind].
  pose proof (read_some_code _ _ _ _ _ _ _ Hr) as [[-> ->] | (-> & -> & Hlen)].
  - cbn [Z.ltb Z.compare]. rewrite (surjective_pairing (uart_stop _ o)). intros [= <-].
    by apply uart_lost.
  - destruct (Z.ltb_spec (Z.of_nat (length buf)) 0); [lia |].
    destruct (Z.eqb_spec (Z.of_nat (length buf)) 0) as [Hz | Hnz].
    + destruct buf; [| discriminate]. intros [= <-]. by eapply uart_idle.
    + pose proof (uart_received_ok d o buf (ue_now env) Hwf) as Hrec.
      rewrite Hq in Hrec.
      destruct (scan (pending (uart_parser d) ++ buf)) as [evs rest] eqn:Hs.
      destruct Hrec as (p' & Hp & Hinv & Hc & Hl & Ho & Hrec).
      destruct (uart_result evs (ue_now env) [] (uart_status d)) as [[res q] s] eqn:Hres.
      rewrite Hrec. intros [= <-].
      assert (uart_read_outcome d o env
        (let '(res, q, s) := uart_result (fst (scan (pending (uart_parser d) ++ buf)))
                                         (ue_now env) [] (uart_status d) in
         (res, mk_uart (uart_baud_rate d) (uart_port d) p' q s, o))) as Hout.
      { apply uart_bytes; try done; [by destruct buf |]. by rewrite Hs. }
      rewrite Hs in Hout. cbn [fst] in Hout. by rewrite Hres in Hout.
Qed.

Lemma uart_record_wf d : uart_wf d → uart_wf (uart_record_errors 1 d).
Proof. intros []. split; try done. apply u64_range. Qed.

Lemma uart_read_law d o env others res d' o' :
  uart_wf d → owns (uart_port d) others o → uart_read d o env = Ret (res, d', o') →
  uart_wf d' ∧ owns (uart_port d') others o' ∧
  counted (errors_reported res) (uart_status d) (uart_status d') ∧
  (rr_code res = Data ↔ is_Some (rr_data res)) ∧
  if decide (rr_code res = TransportError)
  then uart_port d' < 0 ∧ ds_online (uart_status d') = false
  else uart_port d' = uart_port d.
Proof.
  intros Hwf Ho Hr%uart_read_cases; [| done].
  pose proof (uart_count d Hwf) as Hcnt.
  remember (res, d', o') as r eqn:Heq.
  destruct Hr as [data rest Hq | error Hq Hs | error Hq Hs | buf p' Hq Hne Hs].
  - injection Heq as <- <- <-. split_and!; try done; [by destruct Hwf | by apply counted_same].
  - injection Heq as <- Hd Ho'. pose proof (uart_stop_law (uart_record_errors 1 d) o others
      (uart_record_wf d Hwf) Ho) as Hst.
    destruct (uart_stop (uart_record_errors 1 d) o) as [d1 o1]. simpl in Hd, Ho'. subst.
    destruct Hst as (? & ? & ? & [Hp He] & ?).
    split_and!; try done; [| by split; [| intros []]].
    split; [done |]. rewrite He. cbn. rewrite Z.add_0_r. apply u64_small, u64_range.
  - injection Heq as <- <- <-. split_and!; try done; [by apply counted_same | by split; [| intros []]].
  - pose proof (uart_result_counted (fst (scan (pending (uart_parser d) ++ buf))) (ue_now env) []
                  (uart_status d) Hcnt) as Hc.
    pose proof (uart_result_range (fst (scan (pending (uart_parser d) ++ buf))) (ue_now env) []
                  (uart_status d) Hcnt) as Hrg.
    destruct (uart_result _ _ _ _) as [[res1 q] s]. injection Heq as <- <- <-.
    destruct Hc as (? & ? & ?). rewrite decide_False by done. by split_and!.
Qed.

Lemma uart_read_wf d o env res d' o' :
  uart_wf d → uart_read d o env = Ret (res, d', o') → uart_wf d'.
Proof.
  intros Hwf Hr%uart_read_cases; [| done]. pose proof (uart_count d Hwf) as Hcnt.
  remember (res, d', o') as r eqn:Heq.
  destruct Hr as [data rest Hq | error Hq Hs | error Hq Hs | buf p' Hq Hne Hs].
  - injection Heq as _ <- _. by destruct Hwf.
  - rewrite uart_stop_eq in Heq. injection Heq as _ <- _.
    apply (uart_wf_status (uart_record_errors 1 d)); [by apply uart_record_wf | apply u64_range].
  - by injection Heq as _ <- _.
  - pose proof (uart_result_range (fst (scan (pending (uart_parser d) ++ buf))) (ue_now env) []
                  (uart_status d) Hcnt) as Hrg.
    destruct (uart_result _ _ _ _) as [[res1 q] s]. injection Heq as _ <- _. by split.
Qed.

Lemma uart_read_total d o env :
  uart_wf d → (∃ r, poll_loop (ue_polls env) = Ret r) → ∃ r, uart_read d o env = Ret r.
Proof.
  intros Hwf Hp. unfold uart_read. destruct (uart_pending d) as [| data rest]; [| by eexists].
  destruct (read_some_total 256 "" _ (ue_input env) Hp) as [[[n buf] e] ->].
  cbn [mbind exec_bind]. destruct (n <? 0).
  { rewrite (surjective_pairing (uart_stop _ o)). by eexists. }
  destruct (n =? 0); [by eexists |].
  pose proof (uart_received_ok d o buf (ue_now env) Hwf) as Hrec.
  destruct (scan _) as [evs rest]. destruct Hrec as (p' & _ & _ & _ & _ & _ & Hrec).
  destruct (uart_result evs _ _ _) as [[res q] s]. rewrite Hrec. by eexists.
Qed.

Lemma uart_read_result d o env res d' o' :
  uart_wf d → uart_read d o env = Ret (res, d', o') → result_ok (ds_protocol (uart_status d)) res.
Proof.
  intros Hwf Hr%uart_read_cases; [| done]. remember (res, d', o') as r eqn:Heq.
  destruct Hr as [data rest Hq | error Hq Hs | error Hq Hs | buf p' Hq Hne Hs];
    [by injection Heq as <- _ _ .. |].
  unfold uart_result in Heq.
  destruct (_ ++ _) as [| data q]; [destruct (stats_empty _) |]; injection Heq as <- _ _;
    by split; [intros [] |].
Qed.

#[export] Instance uart_laws `{TerminalLibrary} :
  DeviceLaws UartDevice port_open_env uart_env := {|
  dev_fd := uart_port;
  dev_wf := uart_wf;
  start_fd := po_open;
  read_ready env := ∃ r, poll_loop (ue_polls env) = Ret r;
  status_range := uart_count;
  start_law := uart_start_law;
  stop_law := uart_stop_law;
  read_law := uart_read_law;
  read_result_ok := uart_read_result;
  read_total := uart_read_total;
|}.

(** ** Sessions *)

(** The bytes one call takes from the line: none while readings are queued. *)
Definition bytes_taken (d : UartDevice) (env : uart_env) : list Z :=
  match uart_pending d, read_some 256 "" (ue_polls env) (ue_input env) with
  | [], Ret (_, buf, _) => buf
  | _, _ => []
  end.

(** The bytes a session takes from the line. *)
Fixpoint line_input (d : UartDevice) (o : os) (envs : list uart_env) : list Z :=
  match envs with
  | [] => []
  | env :: rest =>
      bytes_taken d env ++
      match uart_read d o env with
      | Ret (_, d', o') => line_input d' o' rest
      | _ => []
      end
  end.

(** What is still to come out of the device: the queue, then the readings in the
    bytes [x] and the ones already buffered. *)
Definition upcoming (d : UartDevice) (x : list Z) : list SensorData :=
  uart_pending d ++ omap reading_of (accepted (fst (scan (pending (uart_parser d) ++ x)))).

Lemma uart_result_flow evs now q s :
  let '(res, q', _) := uart_result evs now q s in
  option_list (rr_data res) ++ q' = q ++ omap reading_of (accepted evs).
Proof.
  unfold uart_result. destruct (q ++ _) as [| data rest]; [| done].
  by destruct (stats_empty _).
Qed.

Lemma uart_read_flow d o env res d' o' x :
  uart_wf d → uart_read d o env = Ret (res, d', o') → rr_code res ≠ TransportError →
  upcoming d (bytes_taken d env ++ x) = option_list (rr_data res) ++ upcoming d' x ∧
  snd (scan (pending (uart_parser d) ++ bytes_taken d env)) = pending (uart_parser d').
Proof.
  intros Hwf Hr%uart_read_cases Hne; [| done].
  pose proof (inv_waits _ (uart_parser_ok d Hwf)) as Hw.
  remember (res, d', o') as r eqn:Heq. unfold upcoming, bytes_taken.
  destruct Hr as [data rest Hq | error Hq Hs | error Hq Hs | buf p' Hq Hn Hs Hinv ??? Hp].
  - injection Heq as <- <- <-. rewrite Hq. simpl. by rewrite app_nil_r, (scan_wait _ Hw).
  - injection Heq as <- <- <-. done.
  - injection Heq as <- <- <-. rewrite Hq, Hs. simpl. by rewrite app_nil_r, (scan_wait _ Hw).
  - pose proof (uart_result_flow (fst (scan (pending (uart_parser d) ++ buf))) (ue_now env) []
                  (uart_status d)) as Hf.
    destruct (uart_result _ _ _ _) as [[res1 q] s]. injection Heq as <- <- <-.
    rewrite Hq, Hs. cbn [uart_parser uart_pending app]. rewrite Hp. split; [| done].
    rewrite app_assoc, (scan_app (pending (uart_parser d) ++ buf)).
    destruct (scan (pending (uart_parser d) ++ buf)) as [e1 r1]. cbn [fst snd] in *.
    destruct (scan (r1 ++ x)) as [e2 r2]. cbn [fst].
    by rewrite accepted_app, omap_app, app_assoc, Hf.
Qed.

Lemma uart_session_flow `{TerminalLibrary} d o envs results d' o' x :
  uart_wf d → read_session d o envs = Ret (results, d', o') →
  Forall (λ r, rr_code r ≠ TransportError) results →
  upcoming d (line_input d o envs ++ x) = delivered results ++ upcoming d' x.
Proof.
  revert d o results. induction envs as [| env envs IH]; intros d o results Hwf Hs Hne.
  { simpl in Hs. by injection Hs as <- <- <-. }
  cbn [read_session] in Hs. cbn [line_input]. change (read d o env) with (uart_read d o env) in Hs.
  destruct (uart_read d o env) as [[[res d1] o1] | |] eqn:Hr; try discriminate Hs.
  cbn [mbind exec_bind] in Hs.
  destruct (read_session d1 o1 envs) as [[[rs d2] o2] | |] eqn:Hs1; try discriminate Hs.
  injection Hs as <- <- <-. apply Forall_cons in Hne as [Hne1 Hne2].
  destruct (uart_read_flow _ _ _ _ _ _ (line_input d1 o1 envs ++ x) Hwf Hr Hne1) as [Hf _].
  rewrite <-app_assoc, Hf. unfold delivered in *. cbn [omap list_omap].
  rewrite (IH d1 o1 rs (uart_read_wf _ _ _ _ _ _ Hwf Hr) Hs1 Hne2).
  by destruct (rr_data res).
Qed.

Lemma uart_session_wf `{TerminalLibrary} d o envs results d' o' :
  uart_wf d → read_session d o envs = Ret (results, d', o') → uart_wf d'.
Proof.
  revert d o results. induction envs as [| e envs IH]; intros d o rs Hwf Hs.
  { by injection Hs as <- <- <-. }
  cbn [read_session] in Hs. destruct (read d o e) as [[[r d1] o1] | |] eqn:Hr; try discriminate Hs.
  cbn [mbind exec_bind] in Hs.
  destruct (read_session d1 o1 envs) as [[[rs1 d2] o2] | |] eqn:Hs1; try discriminate Hs.
  injection Hs as <- <- <-. eapply IH; [| exact Hs1]. by eapply uart_read_wf.
Qed.

(** ** Properties *)

(** C11: Nothing is lost, duplicated or reordered between the serial line and the
    data handler. Over any session of reads of a freshly started device that meets
    no transport error, the readings handed out followed by those still queued are
    exactly the accepted sensor readings of the frames the reference decoder finds
    in the bytes taken from the line, however the kernel cut them into reads. *)
Theorem uart_session_delivers `{TerminalLibrary} d0 o0 env d o envs results d' o' em :
  uart_wf d0 → uart_pending d0 = [] → uart_start d0 o0 env = (true, d, o, em) →
  read_session d o envs = Ret (results, d', o') →
  Forall (λ r, rr_code r ≠ TransportError) results →
  delivered results ++ uart_pending d' =
  omap reading_of (accepted (fst (scan (line_input d o envs)))).
Proof.
  intros Hwf Hq Hst Hs Hne. unfold uart_start in Hst.
  destruct (open_port _ _ _ _) as [[[[ok p] o1] em1] t]. destruct ok; [| discriminate Hst].
  cbn [negb] in Hst. injection Hst as <- <- <-.
  destruct (parser_reset_wf _ (uart_parser_ok _ Hwf)) as [Hinv Hp].
  match type of Hs with read_session ?d _ _ = _ => set (d1 := d) in * end.
  assert (uart_wf d1) as Hwf1 by (by split; try apply Hwf).
  pose proof (uart_session_flow d1 o1 envs results d' o' [] Hwf1 Hs Hne) as Hf.
  unfold upcoming in Hf. rewrite !app_nil_r in Hf.
  unfold d1 in Hf at 1 2. cbn [uart_pending uart_parser uart_set_status uart_set_parser
    uart_set_port] in Hf. rewrite Hq, Hp in Hf. cbn [app] in Hf. rewrite Hf.
  pose proof (uart_session_wf _ _ _ _ _ _ Hwf1 Hs) as Hwf'.
  rewrite (scan_wait _ (inv_waits _ (uart_parser_ok _ Hwf'))). simpl. by rewrite app_nil_r.
Qed.

Definition sample_uart_envs : list uart_env :=
  [mk_uart_env [PollReady false] (ReadBytes (0x00 :: take 7 (encode_frame doc_frame))) 100;
   mk_uart_env [PollTimeout] (ReadBytes []) 101;
   mk_uart_env [PollEintr; PollReady false]
     (ReadBytes (drop 7 (encode_frame doc_frame) ++ encode_frame doc_frame)) 102].

#[local] Instance no_terminal : TerminalLibrary := mk_terminal_library id (λ _, id) (λ _, id).

Lemma uart_session_delivers_witness :
  let env := mk_port_open 5 (Some (mk_termios 0 0 0 0 0 0 0 0)) true "" in
  let d := uart_set_status (set_online true (default_status Uart))
             (uart_set_parser (reset new_parser) (uart_set_port 5 (new_uart 9600))) in
  uart_start (new_uart 9600) os_init env = (true, d, os_open 5 os_init, "") ∧
  ∃ results d' o', read_session d (os_open 5 os_init) sample_uart_envs = Ret (results, d', o') ∧
    length (delivered results) = 1%nat ∧ length (uart_pending d') = 1%nat ∧
    delivered results ++ uart_pending d'
    = omap reading_of (accepted (fst (scan (line_input d (os_open 5 os_init) sample_uart_envs)))).
Proof.
  intros env d.
  assert (uart_start (new_uart 9600) os_init env = (true, d, os_open 5 os_init, "")) as Hst
    by reflexivity.
  split; [exact Hst |].
  assert (uart_wf (new_uart 9600)) as Hwf
    by (split; try done; apply parser_inv_new).
  destruct (read_session d (os_open 5 os_init) sample_uart_envs)
    as [[[results d'] o'] | |] eqn:Hs; vm_compute in Hs; try discriminate Hs.
  exists results, d', o'. split; [reflexivity |].
  injection Hs as <- <- <-. split_and!; [reflexivity | reflexivity |].
  eapply (uart_session_delivers (new_uart 9600) os_init env); [exact Hwf | reflexivity | exact Hst | |].
  - vm_compute. reflexivity.
  - repeat constructor; discriminate.
Defined.
