(* ===== verification/ModbusDevice.v ===== *)
(** * The Modbus RTU adapter ([src/device/modbus_device.cpp])

    A request every poll interval, and a response collected from the serial
    line until it is complete, silent or late. Clocks are in nanoseconds. *)

From S2P Require Import Prelude FrameParser Float64 SensorData DeviceData Modbus Posix SerialPort DeviceInterface.

Local Open Scope Z_scope.
Local Open Scope gateway_scope.

(** ** The code *)

Record ModbusDeviceOptions : Type := mk_modbus_options {
  mo_baud_rate : Z;
  mo_request : ReadRequest;
  mo_poll_interval_ms : Z;
  mo_response_timeout_ms : Z;
}.

Record ModbusDevice : Type := mk_modbus {
  mb_options : ModbusDeviceOptions;
  mb_port : SerialPort;
  mb_next_poll : Z;
  mb_status : DeviceStatus;
}.

Definition new_modbus (options : ModbusDeviceOptions) : ModbusDevice :=
  mk_modbus options (-1) 0 (mk_status (slave_id (mo_request options)) ModbusRtu false 0 0).

Definition mb_set_port (p : SerialPort) (d : ModbusDevice) : ModbusDevice :=
  mk_modbus (mb_options d) p (mb_next_poll d) (mb_status d).
Definition mb_set_next_poll (t : Z) (d : ModbusDevice) : ModbusDevice :=
  mk_modbus (mb_options d) (mb_port d) t (mb_status d).
Definition mb_set_status (s : DeviceStatus) (d : ModbusDevice) : ModbusDevice :=
  mk_modbus (mb_options d) (mb_port d) (mb_next_poll d) s.

Definition milliseconds (ms : Z) : Z := ms * 1000000.
(** [duration_cast<milliseconds>] truncates towards zero. *)
Definition to_milliseconds (ns : Z) : Z := Z.quot ns 1000000.

Definition mb_record_error (d : ModbusDevice) : ModbusDevice :=
  mb_set_status (add_errors 1 (mb_status d)) d.

Definition mb_stop (d : ModbusDevice) (o : os) : ModbusDevice * os :=
  let '(p, o) := close_port (mb_port d) o in
  let d := mb_set_port p d in
  (mb_set_status (set_online false (mb_status d)) d, o).

(** The answers to [start]: those to [open_port] and the clock. *)
Definition mb_start `{TerminalLibrary} (d : ModbusDevice) (o : os) (env : port_open_env * Z)
    : bool * ModbusDevice * os * string :=
  let '(ok, p, o, em, _) := open_port (mb_port d) (mo_baud_rate (mb_options d)) o (fst env) in
  let d := mb_set_port p d in
  if negb ok then (false, mb_record_error d, o, em)
  else
    let d := mb_set_next_poll (snd env) d in
    (true, mb_set_status (set_online true (mb_status d)) d, o, em).

(** One turn of the response loop: the clock at the loop test and when the
    remaining time is computed, and what the kernel answers to a read with a given
    timeout. *)
Record turn : Type := mk_turn {
  turn_test : Z;
  turn_remaining : Z;
  turn_answer : Z → list poll_result * read_result;
}.

(** The answers to one [read]. *)
Record modbus_env : Type := mk_modbus_env {
  me_now : Z;                      (** the clock at the start *)
  me_flush : option string;        (** the failure of [tcflush], if any *)
  me_writes : list write_result;
  me_sent : Z;                     (** the clock when the request has been written *)
  me_turns : list turn;
  me_unix : Z;                     (** [unix_seconds()] *)
}.

(** The new [expected_size] after [response] grew. *)
Definition update_expected (response : list Z) (expected : nat) : nat :=
  if (2 <=? length response)%nat && negb (Z.land response.[1] 0x80 =? 0) then 5%nat
  else if (3 <=? length response)%nat then (3 + Z.to_nat response.[2] + 2)%nat
  else expected.

(** The [while] loop that collects the response: [None] is a transport error. *)
Fixpoint response_loop (deadline : Z) (response : list Z) (expected : nat) (error : string)
    (turns : list turn) : exec (option (list Z) * string) :=
  match turns with
  | [] => OutOfFuel
  | t :: rest =>
      if (turn_test t <? deadline) && (length response <? expected)%nat then
        let '(polls, input) := turn_answer t (to_milliseconds (deadline - turn_remaining t)) in
        '(received, buffer, error) ← read_some 256 error polls input;
        if received <? 0 then Ret (None, error)
        else if received =? 0 then Ret (Some response, error)
        else
          let response := response ++ buffer in
          response_loop deadline response (update_expected response expected) error rest
      else Ret (Some response, error)
  end.

(** The part of [read] after the response loop. *)
Definition mb_decode (d : ModbusDevice) (o : os) (response : list Z) (now : Z)
    : exec (DeviceReadResult * ModbusDevice * os) :=
  match response with
  | [] =>
      let d := mb_record_error d in
      let d := mb_set_status (set_online false (mb_status d)) d in
      Ret (mk_read_result Timeout None "Modbus response timeout" no_stats, d, o)
  | _ :: _ =>
      let request := mo_request (mb_options d) in
      parsed ← parse_read_response response request;
      if negb (bool_decide (rsp_status parsed = Ok))
      then Ret (mk_read_result ProtocolError None (rsp_error parsed) no_stats,
                mb_record_error d, o)
      else
        let '(ok, data, error) :=
          registers_to_device_data parsed (slave_id request) default_device_data in
        if negb ok
        then Ret (mk_read_result ProtocolError None error no_stats, mb_record_error d, o)
        else
          let s := mb_status d in
          let d := mb_set_status
                     (mk_status (ds_device_id s) (ds_protocol s) true now (ds_error_count s)) d in
          Ret (mk_read_result Data (Some (to_sensor_data data)) "" no_stats, d, o)
  end.

(** [record_error(); stop(); return transport error] *)
Definition mb_fail (d : ModbusDevice) (o : os) (error : string)
    : DeviceReadResult * ModbusDevice * os :=
  let '(d, o) := mb_stop (mb_record_error d) o in
  (mk_read_result TransportError None error no_stats, d, o).

(** The bytes put on the line are the last component. *)
Definition mb_read_line (d : ModbusDevice) (o : os) (env : modbus_env)
    : exec (DeviceReadResult * ModbusDevice * os * list Z) :=
  let now := me_now env in
  if now <? mb_next_poll d then Ret (default_read_result, d, o, [])
  else
    let d := mb_set_next_poll (now + milliseconds (mo_poll_interval_ms (mb_options d))) d in
    let '(ok, error) := discard_input (mb_port d) (me_flush env) "" in
    if negb ok then Ret (mb_fail d o error, [])
    else
      '(ok, error, line) ←
        write_all (build_read_request (mo_request (mb_options d))) error (me_writes env);
      if negb ok then Ret (mb_fail d o error, line)
      else
        let deadline := me_sent env + milliseconds (mo_response_timeout_ms (mb_options d)) in
        '(response, error) ← response_loop deadline [] 5 error (me_turns env);
        match response with
        | None => Ret (mb_fail d o error, line)
        | Some response =>
            r ← mb_decode d o response (me_unix env);
            Ret (r, line)
        end.

Definition mb_read (d : ModbusDevice) (o : os) (env : modbus_env)
    : exec (DeviceReadResult * ModbusDevice * os) :=
  r ← mb_read_line d o env; Ret (fst r).

#[export] Instance modbus_interface `{TerminalLibrary} :
  DeviceInterface ModbusDevice (port_open_env * Z) modbus_env := {|
  start := mb_start;
  stop := mb_stop;
  read := mb_read;
  get_device_status := mb_status;
|}.

(** ** Facts *)

Record mb_wf (d : ModbusDevice) : Prop := mk_mb_wf {
  mb_request_wf : wf_request (mo_request (mb_options d));
  mb_protocol : ds_protocol (mb_status d) = ModbusRtu;
  mb_count : 0 <= ds_error_count (mb_status d) < 2 ^ 64;
}.

(** What every result of [read] satisfies. *)
Definition mb_post (others : gmap.gset Z) (d : ModbusDevice)
    (r : DeviceReadResult * ModbusDevice * os) : Prop :=
  let '(res, d', o') := r in
  mb_wf d' ∧ owns (mb_port d') others o' ∧
  counted (errors_reported res) (mb_status d) (mb_status d') ∧
  (rr_code res = Data ↔ is_Some (rr_data res)) ∧
  if decide (rr_code res = TransportError)
  then mb_port d' < 0 ∧ ds_online (mb_status d') = false
  else mb_port d' = mb_port d.

Lemma mb_stop_law d o others :
  mb_wf d → owns (mb_port d) others o →
  let '(d', o') := mb_stop d o in
  mb_wf d' ∧ owns (mb_port d') others o' ∧ mb_port d' < 0 ∧
  counted 0 (mb_status d) (mb_status d') ∧ ds_online (mb_status d') = false.
Proof.
  intros Hwf Ho. unfold mb_stop. pose proof (close_port_owns _ _ _ Ho) as Hc.
  destruct (close_port (mb_port d) o) as [p o']. destruct Hc, Hwf.
  split_and!; try done. by apply counted_same.
Qed.

Lemma mb_start_law `{TerminalLibrary} d o env others :
  mb_wf d → owns (mb_port d) others o →
  fresh_fd (po_open (fst env)) (snd (mb_stop d o)) →
  let '(ok, d', o', _) := mb_start d o env in
  mb_wf d' ∧ owns (mb_port d') others o' ∧ (ok = true ↔ 0 <= mb_port d') ∧
  counted (if ok then 0 else 1) (mb_status d) (mb_status d') ∧
  (ok = true → ds_online (mb_status d') = true).
Proof.
  intros [Hq Hpr Hc] Ho Hf. unfold mb_stop in Hf.
  pose proof (open_port_owns _ (mo_baud_rate (mb_options d)) o (fst env) others Ho) as Hop.
  unfold mb_start. destruct (close_port (mb_port d) o) as [p0 o0].
  specialize (Hop Hf). destruct (open_port _ _ _ _) as [[[[ok p] o'] em] t].
  destruct Hop as [Hop Hok]. destruct ok; cbn [negb].
  - split_and!; try done. by apply counted_same.
  - split_and!; try done. split; [done | done | apply u64_range].
Qed.

Lemma mb_record_wf d : mb_wf d → mb_wf (mb_record_error d).
Proof. intros []. split; [done | done | apply u64_range]. Qed.

Lemma mb_fail_post d o e others :
  mb_wf d → owns (mb_port d) others o → mb_post others d (mb_fail d o e).
Proof.
  intros Hwf Ho. unfold mb_fail.
  pose proof (mb_stop_law (mb_record_error d) o others (mb_record_wf d Hwf) Ho) as Hs.
  destruct (mb_stop _ o) as [d' o']. destruct Hs as (? & ? & ? & [Hp He] & ?).
  split_and!; try done; [| by split; [| intros []]].
  split; [done |]. rewrite He. cbn. rewrite Z.add_0_r. apply u64_small, u64_range.
Qed.

(** A result that counts one error and keeps the port. *)
Lemma mb_error_post d o res s others :
  mb_wf d → owns (mb_port d) others o →
  ds_protocol s = ds_protocol (mb_status d) → ds_error_count s = u64 (ds_error_count (mb_status d) + 1) →
  errors_reported res = 1 → rr_data res = None → rr_code res = ProtocolError ∨ rr_code res = Timeout →
  mb_post others d (res, mb_set_status s d, o).
Proof.
  intros [Hq Hpr Hc] Ho Hp Hn He Hd Hcode. unfold mb_post. rewrite He, Hd.
  split_and!; [split; [done | |] | done | by split | |].
  - cbn [mb_status mb_set_status]. by rewrite Hp.
  - cbn [mb_status mb_set_status]. rewrite Hn. apply u64_range.
  - split; [| by intros []]. destruct Hcode as [-> | ->]; discriminate.
  - by destruct Hcode as [-> | ->].
Qed.

(** A result that counts no error and keeps the port. *)
Lemma mb_quiet_post d o res s others :
  mb_wf d → owns (mb_port d) others o →
  ds_protocol s = ds_protocol (mb_status d) → ds_error_count s = ds_error_count (mb_status d) →
  errors_reported res = 0 → rr_code res ≠ TransportError →
  (rr_code res = Data ↔ is_Some (rr_data res)) →
  mb_post others d (res, mb_set_status s d, o).
Proof.
  intros [Hq Hpr Hc] Ho Hp Hn He Hcode Hdata. unfold mb_post. rewrite He, decide_False by done.
  split_and!; try done; [| by apply counted_same]. split; [done | |]; cbn; by rewrite ?Hp, ?Hn.
Qed.

Lemma mb_decode_post d o response now r others :
  mb_wf d → owns (mb_port d) others o → mb_decode d o response now = Ret r → mb_post others d r.
Proof.
  intros Hwf Ho. unfold mb_decode. destruct response as [| b response].
  { intros [= <-]. apply (mb_error_post d o _ _ others Hwf Ho); try done. by right. }
  destruct (parse_read_response _ _) as [p | |]; try discriminate. cbn [mbind exec_bind].
  destruct (bool_decide (rsp_status p = Ok)); cbn [negb].
  2:{ intros [= <-]. apply (mb_error_post d o _ _ others Hwf Ho); try done. by left. }
  destruct (registers_to_device_data _ _ _) as [[[] data] e]; cbn [negb]; intros [= <-].
  - apply (mb_quiet_post d o _ _ others Hwf Ho); done.
  - apply (mb_error_post d o _ _ others Hwf Ho); try done. by left.
Qed.

Lemma mb_read_line_post d o env r line others :
  mb_wf d → owns (mb_port d) others o → mb_read_line d o env = Ret (r, line) → mb_post others d r.
Proof.
  intros Hwf Ho. unfold mb_read_line. destruct (_ <? _).
  { intros [= <- <-]. replace (default_read_result, d, o)
      with (default_read_result, mb_set_status (mb_status d) d, o) by by destruct d.
    apply (mb_quiet_post d o _ _ others Hwf Ho); try done. by split; [| intros []]. }
  set (d1 := mb_set_next_poll _ d). assert (mb_wf d1) as Hwf1 by by destruct Hwf.
  assert (∀ x, mb_post others d1 x → mb_post others d x) as Hd1 by done.
  destruct (discard_input _ _ _) as [[] e]; cbn [negb];
    [| intros [= <- <-]; by apply Hd1, mb_fail_post].
  destruct (write_all _ _ _) as [[[[] e1] line1] | |]; try discriminate; cbn [mbind exec_bind negb];
    [| intros [= <- <-]; by apply Hd1, mb_fail_post].
  destruct (response_loop _ _ _ _ _) as [[[resp |] e2] | |]; try discriminate; cbn [mbind exec_bind];
    [| intros [= <- <-]; by apply Hd1, mb_fail_post].
  destruct (mb_decode _ _ _ _) as [r1 | |] eqn:Hdec; try discriminate. cbn [mbind exec_bind].
  intros [= <- <-]. by apply Hd1, (mb_decode_post _ _ _ _ _ _ Hwf1 Ho Hdec).
Qed.

Lemma mb_read_law d o env others res d' o' :
  mb_wf d → owns (mb_port d) others o → mb_read d o env = Ret (res, d', o') →
  mb_post others d (res, d', o').
Proof.
  intros Hwf Ho. unfold mb_read.
  destruct (mb_read_line d o env) as [[r line] | |] eqn:Hr; try discriminate.
  cbn [mbind exec_bind fst]. intros [= ->]. by eapply mb_read_line_post.
Qed.

(** *** The response loop ends *)

(** A turn in which the kernel returns from [poll] and [read], with bytes. *)
Definition turn_ok (t : turn) : Prop :=
  ∀ ms, (∃ r, poll_loop (fst (turn_answer t ms)) = Ret r) ∧
        match snd (turn_answer t ms) with ReadBytes l => bytes l | ReadFailed _ => True end.

Lemma read_some_bytes c em polls input n buf e :
  match input with ReadBytes l => bytes l | ReadFailed _ => True end →
  read_some c em polls input = Ret (n, buf, e) → bytes buf.
Proof.
  intros Hb. unfold read_some. destruct (poll_loop polls) as [[| [] | | m] | |]; try discriminate;
    cbn [mbind exec_bind]; try (intros [= _ <- _]; constructor).
  destruct input as [l | []]; intros [= _ <- _]; [by apply Forall_take | constructor ..].
Qed.

Lemma update_expected_le r e : bytes r → (e <= 260)%nat → (update_expected r e <= 260)%nat.
Proof.
  intros Hb He. unfold update_expected. destruct (_ && _); [lia |].
  destruct (3 <=? length r)%nat; [| done].
  destruct r as [| a [| b [| c r]]]; simpl; try lia.
  unfold bytes in Hb. rewrite !Forall_cons in Hb. destruct Hb as (_ & _ & Hc & _).
  unfold is_u8 in Hc. lia.
Qed.

(** Every turn that goes on adds a byte, and no expected size exceeds 260. *)
Lemma response_loop_ends deadline turns response expected em :
  bytes response → (expected <= 260)%nat → (260 - length response < length turns)%nat →
  Forall turn_ok turns →
  ∃ r e, response_loop deadline response expected em turns = Ret (r, e) ∧
         match r with Some l => bytes l | None => True end.
Proof.
  revert response expected em.
  induction turns as [| t turns IH]; intros response expected em Hb He Hl Ht;
    [simpl in Hl; lia |].
  apply Forall_cons in Ht as [Ht1 Ht]. cbn [response_loop].
  destruct (_ <? _); cbn [andb]; [| by do 2 eexists].
  destruct (Nat.ltb_spec (length response) expected) as [Hlt | Hge]; [| by do 2 eexists].
  set (ms := to_milliseconds _). destruct (Ht1 ms) as [Hp Hi].
  destruct (turn_answer t ms) as [polls input]. cbn [fst snd] in Hp, Hi.
  destruct (read_some_total 256 em polls input Hp) as [[[n buf] e] Hr].
  rewrite Hr. cbn [mbind exec_bind].
  pose proof (read_some_bytes _ _ _ _ _ _ _ Hi Hr) as Hbuf.
  destruct (read_some_code _ _ _ _ _ _ _ Hr) as [[-> ->] | (-> & -> & _)]; [by do 2 eexists |].
  destruct (Z.ltb_spec (Z.of_nat (length buf)) 0); [lia |].
  destruct (Z.eqb_spec (Z.of_nat (length buf)) 0); [by do 2 eexists |].
  apply IH; try done.
  - by apply Forall_app_2.
  - apply update_expected_le; [by apply Forall_app_2 | done].
  - rewrite length_app. simpl in Hl. lia.
Qed.

Definition modbus_ready (env : modbus_env) : Prop :=
  (8 <= progress (me_writes env))%nat ∧ (260 < length (me_turns env))%nat ∧
  Forall turn_ok (me_turns env).

Lemma write_all_total data em script :
  (length data <= progress script)%nat → ∃ r, write_all data em script = Ret r.
Proof.
  intros Hp. unfold write_all. rewrite write_all_loop_transfer, drop_0.
  destruct (transfer_ends serial_retries data [] script Hp) as [[[] l] ->]; by eexists.
Qed.

Lemma mb_decode_total d o response now :
  mb_wf d → bytes response → ∃ r, mb_decode d o response now = Ret r.
Proof.
  intros [Hq _ _] Hb. unfold mb_decode. destruct response as [| b response]; [by eexists |].
  assert (∃ p, parse_read_response (b :: response) (mo_request (mb_options d)) = Ret p) as [p Hp].
  { destruct (parse_total (mo_request (mb_options d)) (b :: response) Hq Hb); by eexists. }
  rewrite Hp. cbn [mbind exec_bind]. destruct (negb _); [by eexists |].
  destruct (registers_to_device_data _ _ _) as [[[] data] e]; by eexists.
Qed.

Lemma mb_read_total d o env : mb_wf d → modbus_ready env → ∃ r, mb_read d o env = Ret r.
Proof.
  intros Hwf (Hw & Hl & Ht). unfold mb_read, mb_read_line.
  destruct (_ <? _); [by eexists |].
  destruct (discard_input _ _ _) as [[] e]; cbn [negb]; [| by eexists].
  destruct (write_all_total (build_read_request (mo_request (mb_options d))) e _ Hw)
    as [[[ok e1] line] Hwr].
  cbn [mb_options mb_set_next_poll]. rewrite Hwr. cbn [mbind exec_bind].
  destruct ok; cbn [negb]; [| by eexists].
  destruct (response_loop_ends
    (me_sent env + milliseconds (mo_response_timeout_ms (mb_options d)))
    (me_turns env) [] 5 e1) as (r & e2 & Hr & Hb); [constructor | lia | simpl; lia | done |].
  rewrite Hr. cbn [mbind exec_bind]. destruct r as [response |]; [| by eexists].
  destruct (mb_decode_total (mb_set_next_poll
    (me_now env + milliseconds (mo_poll_interval_ms (mb_options d))) d) o response (me_unix env))
    as [x ->]; [by destruct Hwf | done |]. by eexists.
Qed.

(** No Modbus result carries statistics. *)
Lemma mb_fail_stats d o e : rr_stats (fst (fst (mb_fail d o e))) = no_stats.
Proof. unfold mb_fail. by destruct (mb_stop _ o). Qed.

Lemma mb_decode_stats d o response now r :
  mb_decode d o response now = Ret r → rr_stats (fst (fst r)) = no_stats.
Proof.
  unfold mb_decode. destruct response as [| b response]; [by intros [= <-] |].
  destruct (parse_read_response _ _) as [p | |]; try discriminate. cbn [mbind exec_bind].
  destruct (negb _); [by intros [= <-] |].
  destruct (registers_to_device_data _ _ _) as [[[] data] e]; by intros [= <-].
Qed.

Lemma mb_read_stats d o env res d' o' :
  mb_read d o env = Ret (res, d', o') → rr_stats res = no_stats.
Proof.
  unfold mb_read. destruct (mb_read_line d o env) as [[r line] | |] eqn:Hr; try discriminate.
  cbn [mbind exec_bind fst]. intros [= ->]. change res with (fst (fst (res, d', o'))).
  revert Hr. generalize (res, d', o'). intros r Hr. unfold mb_read_line in Hr.
  destruct (_ <? _); [by injection Hr as <- _ |].
  destruct (discard_input _ _ _) as [[] e]; cbn [negb] in Hr;
    [| injection Hr as <- _; apply mb_fail_stats].
  destruct (write_all _ _ _) as [[[[] e1] line1] | |]; try discriminate Hr;
    cbn [mbind exec_bind negb] in Hr; [| injection Hr as <- _; apply mb_fail_stats].
  destruct (response_loop _ _ _ _ _) as [[[resp |] e2] | |]; try discriminate Hr;
    cbn [mbind exec_bind] in Hr; [| injection Hr as <- _; apply mb_fail_stats].
  destruct (mb_decode _ _ _ _) as [r1 | |] eqn:Hdec; try discriminate Hr.
  injection Hr as <- _. by eapply mb_decode_stats.
Qed.

Lemma mb_read_result d o env res d' o' :
  mb_wf d → mb_read d o env = Ret (res, d', o') → result_ok (ds_protocol (mb_status d)) res.
Proof. intros [_ Hp _] Hr. split; [intros _; by eapply mb_read_stats | by rewrite Hp]. Qed.

#[export] Instance modbus_laws `{TerminalLibrary} :
  DeviceLaws ModbusDevice (port_open_env * Z) modbus_env := {|
  dev_fd := mb_port;
  dev_wf := mb_wf;
  start_fd env := po_open (fst env);
  read_ready := modbus_ready;
  status_range := mb_count;
  start_law := mb_start_law;
  stop_law := mb_stop_law;
  read_law := mb_read_law;
  read_result_ok := mb_read_result;
  read_total := mb_read_total;
|}.

(** *** Collecting a complete response *)

(** The size a response announces once it has been received up to [r]. *)
Definition announced (r : list Z) : nat := update_expected r 5.

Lemma update_expected_announced r e :
  (length r < 3)%nat → e = 5%nat → update_expected r e = 5%nat.
Proof.
  intros Hl ->. unfold update_expected.
  destruct (Nat.leb_spec 3 (length r)); [lia |]. by destruct (_ && _).
Qed.

Lemma update_expected_long r e : (3 <= length r)%nat → update_expected r e = announced r.
Proof.
  intros Hl. unfold announced, update_expected. by rewrite (proj2 (Nat.leb_le 3 (length r)) Hl).
Qed.

Lemma announced_app r x : (3 <= length r)%nat → announced (r ++ x) = announced r.
Proof.
  intros Hl. unfold announced, update_expected. rewrite length_app.
  destruct r as [| a [| b [| c r]]]; simpl in Hl; [lia .. |].
  cbn [app nth length]. reflexivity.
Qed.

Lemma announced_short r : (length r < 3)%nat → announced r = 5%nat.
Proof. intros Hl. by apply update_expected_announced. Qed.

(** The loop's variable always holds the announced size. *)
Lemma update_expected_step r x : update_expected (r ++ x) (announced r) = announced (r ++ x).
Proof.
  destruct (Nat.le_gt_cases 3 (length (r ++ x))) as [Hl | Hl].
  - by apply update_expected_long.
  - rewrite (announced_short (r ++ x)) by done. apply update_expected_announced; [done |].
    apply announced_short. rewrite length_app in Hl. lia.
Qed.

(** A turn that reads [chunk] before the deadline. *)
Record on_time (deadline : Z) (t : turn) (chunk : list Z) : Prop := mk_on_time {
  early : turn_test t < deadline;
  not_empty : chunk ≠ [];
  reads_chunk ms em :
    read_some 256 em (fst (turn_answer t ms)) (snd (turn_answer t ms))
    = Ret (Z.of_nat (length chunk), chunk, em);
}.

Lemma response_loop_collects deadline turns chunks last more response em :
  Forall2 (on_time deadline) turns chunks →
  (5 <= length (response ++ concat chunks))%nat →
  length (response ++ concat chunks) = announced (response ++ concat chunks) →
  response_loop deadline response (announced response) em (turns ++ last :: more)
  = Ret (Some (response ++ concat chunks), em).
Proof.
  intros Ht. revert response. induction Ht as [| t c turns chunks [He Hn Hc] Ht IH];
    intros response Hl Ha.
  { cbn [app concat response_loop] in *. rewrite app_nil_r in *.
    rewrite <-Ha, Nat.ltb_irrefl, andb_false_r. done. }
  cbn [app concat response_loop] in *. rewrite (proj2 (Z.ltb_lt _ _) He). cbn [andb].
  assert (length response < announced response)%nat as Hlt.
  { destruct (Nat.le_gt_cases 3 (length response)) as [H3 | H3].
    - rewrite (announced_app response (c ++ concat chunks) H3) in Ha. rewrite <-Ha, length_app.
      destruct c; [done | simpl; lia].
    - rewrite announced_short by done. lia. }
  rewrite (proj2 (Nat.ltb_lt _ _) Hlt). set (ms := to_milliseconds _).
  specialize (Hc ms em). destruct (turn_answer t ms) as [polls input]. cbn [fst snd] in Hc.
  rewrite Hc. cbn [mbind exec_bind].
  destruct (Z.ltb_spec (Z.of_nat (length c)) 0); [lia |].
  destruct (Z.eqb_spec (Z.of_nat (length c)) 0); [destruct c; [done | simpl in *; lia] |].
  rewrite update_expected_step. rewrite app_assoc in Hl, Ha |- *. by apply IH.
Qed.

(** A poll is due, the port is open and its input can be flushed. *)
Record poll_due (d : ModbusDevice) (env : modbus_env) : Prop := mk_poll_due {
  due : mb_next_poll d <= me_now env;
  due_open : 0 <= mb_port d;
  due_flush : me_flush env = None;
}.

Definition deadline_of (d : ModbusDevice) (env : modbus_env) : Z :=
  me_sent env + milliseconds (mo_response_timeout_ms (mb_options d)).

(** The device once the poll has been scheduled. *)
Definition polled (d : ModbusDevice) (env : modbus_env) : ModbusDevice :=
  mb_set_next_poll (me_now env + milliseconds (mo_poll_interval_ms (mb_options d))) d.

(** A read that is due and sends its request runs the response loop. *)
Lemma mb_read_due d o env line :
  poll_due d env →
  write_all (build_read_request (mo_request (mb_options d))) "" (me_writes env)
    = Ret (true, "", line) →
  mb_read_line d o env
  = '(response, error) ← response_loop (deadline_of d env) [] 5 "" (me_turns env);
    match response with
    | None => Ret (mb_fail (polled d env) o error, line)
    | Some response => r ← mb_decode (polled d env) o response (me_unix env); Ret (r, line)
    end.
Proof.
  intros [Hd Ho Hf] Hw. unfold mb_read_line. destruct (Z.ltb_spec (me_now env) (mb_next_poll d)); [lia |].
  unfold discard_input. cbn [mb_port mb_set_next_poll mb_options]. rewrite Hf.
  destruct (Z.ltb_spec (mb_port d) 0); [lia |]. cbn [negb]. rewrite Hw. reflexivity.
Qed.

Lemma announced_reply req regs :
  wf_request req → length regs = Z.to_nat (register_count req) →
  length (with_crc (reply_body req regs)) = announced (with_crc (reply_body req regs)).
Proof.
  intros [_ _ Hc] Hl. rewrite length_with_crc. unfold reply_body at 1.
  rewrite length_app, length_be_words. unfold announced, update_expected.
  unfold with_crc, reply_body. cbn [app nth length].
  replace (Z.land (function_code (function req)) 0x80 =? 0) with true
    by by destruct (function req).
  cbn [Nat.leb negb andb]. rewrite Nat2Z.id. lia.
Qed.

Lemma announced_exception req code :
  length (with_crc (exception_body req code)) = announced (with_crc (exception_body req code)).
Proof. by destruct req as [s [] a c]. Qed.

(** ** Properties *)

(** C17: A complete exchange with the slave, however the answer is cut into reads.
    When a poll is due, the bytes put on the line are exactly the read request; an
    answer with six or more registers received before the deadline becomes the
    readings of those registers and marks the device online; an exception answer is
    reported as a protocol error with its code and counted once. In both cases the
    next poll is one interval later and the port is kept. *)
Theorem modbus_exchange d o env reply turns chunks last more line :
  let req := mo_request (mb_options d) in
  mb_wf d → poll_due d env →
  write_all (build_read_request req) "" (me_writes env) = Ret (true, "", line) →
  me_turns env = turns ++ last :: more →
  Forall2 (on_time (deadline_of d env)) turns chunks → concat chunks = reply →
  (∀ t h gas mv st sq regs,
     Forall is_u16 (t :: h :: gas :: mv :: st :: sq :: regs) →
     length (t :: h :: gas :: mv :: st :: sq :: regs) = Z.to_nat (register_count req) →
     reply = with_crc (reply_body req (t :: h :: gas :: mv :: st :: sq :: regs)) →
     mb_read_line d o env
     = Ret (mk_read_result Data
              (Some (to_sensor_data (mk_device_data (slave_id req) ModbusRtu (tenth (i16 t))
                                                    (tenth h) gas mv (st mod 256) sq)))
              "" no_stats,
            mb_set_status (mk_status (ds_device_id (mb_status d)) (ds_protocol (mb_status d)) true
                                     (me_unix env) (ds_error_count (mb_status d))) (polled d env),
            o, build_read_request req)) ∧
  (∀ code, is_u8 code → reply = with_crc (exception_body req code) →
     mb_read_line d o env
     = Ret (mk_read_result ProtocolError None ("Modbus slave exception code=" +:+ dec code) no_stats,
            mb_record_error (polled d env), o, build_read_request req)).
Proof.
  intros req [Hq _ Hcnt] Hdue Hw Ht Hon Hre.
  assert (line = build_read_request req) as ->.
  { unfold write_all in Hw. rewrite write_all_loop_transfer, drop_0 in Hw.
    destruct (transfer _ _ _ _) as [[[] l] | |] eqn:Htr; try discriminate Hw.
    injection Hw as <-. by apply transfer_sent in Htr. }
  assert (length reply = announced reply → (5 <= length reply)%nat →
    mb_read_line d o env = r ← mb_decode (polled d env) o reply (me_unix env);
                           Ret (r, build_read_request req)) as Hrun.
  { intros Ha H5. rewrite (mb_read_due d o env _ Hdue Hw), Ht.
    change 5%nat with (announced []).
    rewrite (response_loop_collects _ _ _ _ _ [] "" Hon); cbn [app]; rewrite Hre; done. }
  split.
  - intros t h gas mv st sq regs Hr Hl Hrep. rewrite Hrun.
    2:{ rewrite Hrep. by apply announced_reply. }
    2:{ rewrite Hrep, length_with_crc. unfold reply_body. rewrite length_app. simpl. lia. }
    unfold mb_decode. destruct reply as [| b reply']; [discriminate |].
    cbn [polled mb_options mb_set_next_poll]. fold req. rewrite Hrep, parse_reply by done.
    cbn [mbind exec_bind]. rewrite bool_decide_eq_true_2 by done. cbn [negb].
    unfold registers_to_device_data. rewrite bool_decide_eq_true_2 by done.
    cbn [negb ok_response registers length Nat.ltb Nat.leb nth]. by rewrite (u8_small (slave_id req)) by apply Hq.
  - intros code Hc Hrep. rewrite Hrun.
    2:{ rewrite Hrep. by apply announced_exception. }
    2:{ rewrite Hrep, length_with_crc. simpl. lia. }
    unfold mb_decode. destruct reply as [| b reply']; [discriminate |].
    cbn [polled mb_options mb_set_next_poll]. fold req. rewrite Hrep, parse_exception by done.
    done.
Qed.

Definition sample_options : ModbusDeviceOptions := mk_modbus_options 9600 sample_request 1000 500.
Definition sample_modbus : ModbusDevice := mb_set_port 5 (new_modbus sample_options).
Definition chunk_turn (now : Z) (chunk : list Z) : turn :=
  mk_turn now now (λ _, ([PollReady false], ReadBytes chunk)).
Definition sample_reply : list Z := with_crc (reply_body sample_request [253; 608; 300; 3700; 0; 7]).
Definition sample_exchange : modbus_env :=
  mk_modbus_env 0 None [Wrote 8] 1000
    [chunk_turn 2000 (take 2 sample_reply); chunk_turn 3000 (drop 2 sample_reply);
     chunk_turn 4000 []] 1700000000.

Lemma sample_due env : me_now env = 0 → me_flush env = None → poll_due sample_modbus env.
Proof. intros H1 H2. by split; rewrite ?H1. Qed.

Lemma modbus_exchange_witness :
  poll_due sample_modbus sample_exchange ∧
  mb_read_line sample_modbus os_init sample_exchange
  = Ret (mk_read_result Data
           (Some (to_sensor_data (mk_device_data 1 ModbusRtu (tenth (i16 253)) (tenth 608)
                                                 300 3700 (0 mod 256) 7))) "" no_stats,
         mb_set_status (mk_status 1 ModbusRtu true 1700000000 0)
                       (polled sample_modbus sample_exchange),
         os_init, build_read_request sample_request).
Proof.
  split; [by apply sample_due |].
  refine (proj1 (modbus_exchange sample_modbus os_init sample_exchange sample_reply
    [chunk_turn 2000 (take 2 sample_reply); chunk_turn 3000 (drop 2 sample_reply)]
    [take 2 sample_reply; drop 2 sample_reply] (chunk_turn 4000 []) []
    (build_read_request sample_request) _ _ _ _ _ _) 253 608 300 3700 0 7 [] _ _ _);
    try reflexivity.
  - split; [exact sample_request_wf | reflexivity | simpl; lia].
  - by apply sample_due.
  - repeat constructor; try discriminate.
  - repeat constructor; unfold is_u16; lia.
Defined.

(** The answer of a line on which nothing arrives: a poll with a timeout expires,
    a poll with a negative timeout does not return. *)
Definition silent_answer (ms : Z) : list poll_result * read_result :=
  (if ms <? 0 then [] else [PollTimeout], ReadBytes []).

(** C38: A slave that does not answer. If the remaining time is computed within a
    millisecond of the deadline at the latest, the read ends with the timeout
    message, one more error, and the device offline with its port kept. The clock
    is read twice per turn, though: if more than a millisecond passes the deadline
    between the loop test and the second reading, [poll] is given a negative
    timeout and the read blocks for as long as the slave stays silent. *)
Theorem modbus_silent_slave d o env t more line :
  poll_due d env →
  write_all (build_read_request (mo_request (mb_options d))) "" (me_writes env)
    = Ret (true, "", line) →
  me_turns env = t :: more → turn_test t < deadline_of d env →
  turn_answer t = silent_answer →
  mb_read d o env
  = if turn_remaining t <? deadline_of d env + 1000000
    then Ret (mk_read_result Timeout None "Modbus response timeout" no_stats,
              mb_set_status (set_online false (add_errors 1 (mb_status d))) (polled d env), o)
    else OutOfFuel.
Proof.
  intros Hdue Hw Ht Hlt Hans. unfold mb_read. rewrite (mb_read_due d o env line Hdue Hw), Ht.
  cbn [response_loop]. rewrite (proj2 (Z.ltb_lt _ _) Hlt), Hans. cbn [length Nat.ltb Nat.leb andb].
  unfold silent_answer, to_milliseconds.
  destruct (Z.ltb_spec (turn_remaining t) (deadline_of d env + 1000000)) as [Hin | Hout].
  - destruct (Z.ltb_spec (Z.quot (deadline_of d env - turn_remaining t) 1000000) 0) as [Hn |]; [| done].
    exfalso. destruct (Z.le_gt_cases 0 (deadline_of d env - turn_remaining t)) as [Hp | Hp].
    + pose proof (Z.quot_pos _ 1000000 Hp ltac:(lia)). lia.
    + rewrite <-(Z.opp_involutive (_ - _)), Z.quot_opp_l, Z.quot_small in Hn by lia. lia.
  - destruct (Z.ltb_spec (Z.quot (deadline_of d env - turn_remaining t) 1000000) 0) as [| Hn]; [done |].
    exfalso. pose proof (Z.quot_le_mono (deadline_of d env - turn_remaining t) (-1000000) 1000000
      ltac:(lia) ltac:(lia)) as Hm. change (Z.quot (-1000000) 1000000) with (-1) in Hm. lia.
Qed.

Definition silent_exchange (second_reading : Z) : modbus_env :=
  mk_modbus_env 0 None [Wrote 8] 0 [mk_turn 499999999 second_reading silent_answer] 1700000000.

Lemma modbus_silent_slave_witness :
  poll_due sample_modbus (silent_exchange 500000000) ∧
  mb_read sample_modbus os_init (silent_exchange 500000000)
  = Ret (mk_read_result Timeout None "Modbus response timeout" no_stats,
         mb_set_status (mk_status 1 ModbusRtu false 0 1)
                       (polled sample_modbus (silent_exchange 500000000)), os_init) ∧
  mb_read sample_modbus os_init (silent_exchange 502000000) = OutOfFuel.
Proof.
  split; [by apply sample_due |]. split.
  - apply (modbus_silent_slave sample_modbus os_init (silent_exchange 500000000)
      (mk_turn 499999999 500000000 silent_answer) [] (build_read_request sample_request));
      try reflexivity. by apply sample_due.
  - apply (modbus_silent_slave sample_modbus os_init (silent_exchange 502000000)
      (mk_turn 499999999 502000000 silent_answer) [] (build_read_request sample_request));
      try reflexivity. by apply sample_due.
Defined.
