(* ===== verification/Can.v ===== *)
(** * CAN frames and the SocketCAN device ([src/can])

    The checks on a CAN frame, its mapping to the device data model, and the
    raw socket that delivers frames. *)

From S2P Require Import Prelude FrameParser Float64 SensorData DeviceData Posix.

Local Open Scope Z_scope.
Local Open Scope gateway_scope.

(** ** The code *)

(** [canbus::CanFrame]; [data] has eight bytes. *)
Record CanFrame : Type := mk_can_frame {
  can_id : Z;
  can_extended : bool;
  can_dlc : Z;
  can_data : list Z;
}.

Definition default_can_frame : CanFrame := mk_can_frame 0 false 0 (replicate 8 0).

Definition can_read_u16_be (data : list Z) (offset : nat) : Z :=
  u16 (be16 data.[offset] data.[offset + 1]).

(** The result, the [output] parameter and the [error_message] parameter. *)
Definition parse_sensor_frame (frame : CanFrame) (output : DeviceData)
    : bool * DeviceData * string :=
  if can_extended frame || (0x7FF <? Z.land (can_id frame) 0x1FFFFFFF)
  then (false, output, "only standard 11-bit CAN identifiers are supported")
  else if negb (can_dlc frame =? 8)
  then (false, output, "CAN sensor frame DLC must be 8")
  else
    let d := can_data frame in
    (true,
     mk_device_data (u8 (Z.land (can_id frame) 0xFF)) SocketCan
       (tenth (i16 (can_read_u16_be d 0))) (tenth (can_read_u16_be d 2))
       (can_read_u16_be d 4) (u16 (u16 d.[6] * 100)) d.[7] 0,
     "").

(** [struct can_frame] of the kernel: the identifier word carries flags. *)
Record raw_can_frame : Type := mk_raw_can {
  raw_can_id : Z;
  raw_can_dlc : Z;
  raw_can_data : list Z;
}.

Definition CAN_EFF_FLAG : Z := 0x80000000.
Definition CAN_RTR_FLAG : Z := 0x40000000.
Definition CAN_ERR_FLAG : Z := 0x20000000.
Definition CAN_EFF_MASK : Z := 0x1FFFFFFF.
Definition CAN_SFF_MASK : Z := 0x7FF.

Inductive recv_can_result : Type :=
  | RecvFrame (f : raw_can_frame)
  | RecvShort
  | RecvError (message : string).

(** What the kernel answers to the calls of [open_device]. *)
Record can_open_env : Type := mk_can_open {
  co_socket : Z;                   (** result of [socket] *)
  co_ioctl_ok : bool;
  co_bind_ok : bool;
  co_errno : string;               (** [strerror(errno)] after the failing call *)
}.

Definition SocketCanDevice : Type := Z.   (** [socket_fd_] *)

Definition close_device (s : SocketCanDevice) (o : os) : SocketCanDevice * os :=
  if 0 <=? s then (-1, os_close s o) else (s, o).

(** The result, the device, the descriptors and the error message. *)
Definition open_device (s : SocketCanDevice) (o : os) (env : can_open_env)
    : bool * SocketCanDevice * os * string :=
  let '(s, o) := close_device s o in
  let fd := co_socket env in
  if fd <? 0 then (false, fd, o, co_errno env)
  else
    let o := os_open fd o in
    if negb (co_ioctl_ok env) then
      let '(s, o) := close_device fd o in (false, s, o, co_errno env)
    else if negb (co_bind_ok env) then
      let '(s, o) := close_device fd o in (false, s, o, co_errno env)
    else (true, fd, o, "").

(** The code, the [output] parameter and the [error_message] parameter. *)
Definition read_frame (output : CanFrame) (error_message : string)
    (polls : list poll_result) (received : recv_can_result) : exec (Z * CanFrame * string) :=
  ready ← poll_loop polls;
  match ready with
  | PollTimeout | PollEintr => Ret (0, output, error_message)
  | PollError message => Ret (-1, output, message)
  | PollReady true => Ret (-1, output, "SocketCAN connection lost")
  | PollReady false =>
      match received with
      | RecvError message => Ret (-1, output, message)
      | RecvShort => Ret (-1, output, "short CAN frame")
      | RecvFrame f =>
          if negb (Z.land (raw_can_id f) (Z.lor CAN_RTR_FLAG CAN_ERR_FLAG) =? 0)
          then Ret (2, output, "CAN RTR or error frame is not sensor data")
          else
            let extended := negb (Z.land (raw_can_id f) CAN_EFF_FLAG =? 0) in
            Ret (1,
                 mk_can_frame
                   (if extended then Z.land (raw_can_id f) CAN_EFF_MASK
                    else Z.land (raw_can_id f) CAN_SFF_MASK)
                   extended (raw_can_dlc f) (take 8 (raw_can_data f)),
                 error_message)
      end
  end.

(** ** Facts *)

(** The eight data bytes of readings: temperature, humidity and gas as 16-bit
    words, the battery in tenths of a volt, the status. *)
Definition can_payload (t h gas bat st : Z) : list Z :=
  [hi8 (u16 t); lo8 (u16 t); hi8 h; lo8 h; hi8 gas; lo8 gas; bat; st].

Lemma can_payload_surj p :
  bytes p → length p = 8%nat →
  ∃ t h gas bat st,
    p = can_payload t h gas bat st ∧
    is_i16 t ∧ is_u16 h ∧ is_u16 gas ∧ is_u8 bat ∧ is_u8 st.
Proof.
  intros Hb Hl. do 8 (destruct p as [|? p]; [discriminate |]). destruct p; [| discriminate].
  unfold bytes in Hb. rewrite !Forall_cons in Hb.
  destruct Hb as (? & ? & ? & ? & ? & ? & ? & ? & _).
  exists (i16 (z0 + 256 * z)), (z2 + 256 * z1), (z4 + 256 * z3), z5, z6.
  unfold can_payload. rewrite u16_i16 by (unfold is_u8, is_u16 in *; lia).
  rewrite !lo8_join, !hi8_join by done.
  split_and!; try done; try apply i16_range; unfold is_u8, is_u16 in *; lia.
Qed.

Lemma parse_can_payload id dlc t h gas bat st out :
  Z.land id 0x1FFFFFFF <= 0x7FF → dlc = 8 →
  is_i16 t → is_u16 h → is_u16 gas → is_u8 bat → is_u8 st →
  parse_sensor_frame (mk_can_frame id false dlc (can_payload t h gas bat st)) out
  = (true, mk_device_data (id mod 256) SocketCan (tenth t) (tenth h) gas (100 * bat) st 0, "").
Proof.
  intros Hid -> Ht Hh Hg Hb Hs. unfold parse_sensor_frame, can_read_u16_be.
  cbn [can_extended can_id can_dlc can_data orb can_payload nth Nat.add].
  destruct (Z.ltb_spec 0x7FF (Z.land id 0x1FFFFFFF)); [lia |]. cbn [Z.eqb Pos.eqb negb].
  rewrite !be16_split, (u16_small h), (u16_small gas), (u16_small (u16 t)), i16_u16
    by auto with width.
  change (u8 (Z.land id 0xFF)) with (lo8 id). rewrite lo8_mod.
  assert (u16 (u16 bat * 100) = 100 * bat) as ->; [| done].
  rewrite (u16_small bat) by auto with width.
  rewrite u16_small; unfold is_u8, is_u16 in *; lia.
Qed.

Lemma close_device_owns s o others :
  owns s others o →
  let '(s', o') := close_device s o in s' < 0 ∧ owns s' others o'.
Proof.
  intros Ho. unfold close_device. destruct (Z.leb_spec 0 s); [| by split].
  split; [lia |]. by apply owns_close.
Qed.

Lemma open_device_owns s o env others :
  owns s others o → fresh_fd (co_socket env) (snd (close_device s o)) →
  let '(ok, s', o', _) := open_device s o env in
  owns s' others o' ∧ (ok = true ↔ 0 <= s').
Proof.
  intros Ho Hf. unfold open_device. pose proof (close_device_owns s o others Ho) as Hc.
  destruct (close_device s o) as [s0 o0]. destruct Hc as [Hs0 Ho0]. simpl in Hf.
  destruct (Z.ltb_spec (co_socket env) 0) as [Hn | Hp].
  { split; [| split; [done | lia]]. destruct Ho0 as [He Hfr Hb].
    split; [| lia | done]. rewrite decide_False by lia. by rewrite decide_False in He by lia. }
  pose proof (owns_open s0 (co_socket env) others o0 Ho0 Hs0 Hp Hf) as Hop.
  pose proof (close_device_owns _ _ others Hop) as Hc2.
  destruct (co_ioctl_ok env); cbn [negb];
    [destruct (co_bind_ok env); cbn [negb]; [by split; [done | lia] |] |];
    destruct (close_device (co_socket env) (os_open (co_socket env) o0)) as [s1 o1];
    destruct Hc2; (split; [done | split; [done | lia]]).
Qed.

Lemma read_frame_total out em polls received :
  (∃ r, poll_loop polls = Ret r) → ∃ r, read_frame out em polls received = Ret r.
Proof.
  intros [r Hr]. unfold read_frame. rewrite Hr. cbn [mbind exec_bind].
  destruct r as [| [] | |]; try by eexists.
  destruct received as [raw | | m]; try by eexists. destruct (negb _); by eexists.
Qed.

Lemma land_sff z : Z.land z CAN_SFF_MASK = z mod 2048.
Proof. apply (Z.land_ones z 11). lia. Qed.

Lemma standard_id_small z : Z.land (z mod 2048) 0x1FFFFFFF = z mod 2048.
Proof.
  change 0x1FFFFFFF with (Z.ones 29). rewrite Z.land_ones by lia.
  apply Z.mod_small. pose proof (Z.mod_pos_bound z 2048). lia.
Qed.

(** ** Properties *)

(** [parse_sensor_frame] on any frame: extended identifiers and
    identifiers above 11 bits are refused, then every DLC other than 8, each with
    its message and an untouched output; otherwise the eight bytes decode to the
    readings they encode, the battery in units of 100 mV, and the device id is
    the low byte of the identifier. *)
Lemma parse_sensor_frame_spec frame out :
  bytes (can_data frame) → length (can_data frame) = 8%nat →
  if decide (can_extended frame = true ∨ 2047 < Z.land (can_id frame) 0x1FFFFFFF)
  then parse_sensor_frame frame out
       = (false, out, "only standard 11-bit CAN identifiers are supported")
  else if decide (can_dlc frame = 8)
  then ∃ t h gas bat st,
    can_data frame = can_payload t h gas bat st ∧
    is_i16 t ∧ is_u16 h ∧ is_u16 gas ∧ is_u8 bat ∧ is_u8 st ∧
    parse_sensor_frame frame out
    = (true, mk_device_data (can_id frame mod 256) SocketCan (tenth t) (tenth h)
                            gas (100 * bat) st 0, "")
  else parse_sensor_frame frame out = (false, out, "CAN sensor frame DLC must be 8").
Proof.
  intros Hb Hl. destruct frame as [id ext dlc data].
  cbn [can_id can_extended can_dlc can_data] in *. case_decide as Hid.
  - unfold parse_sensor_frame. cbn [can_id can_extended].
    destruct Hid as [-> | Hid]; [done |]. apply Z.ltb_lt in Hid as ->. by rewrite orb_true_r.
  - destruct ext; [tauto |]. case_decide as Hdlc.
    + destruct (can_payload_surj data Hb Hl) as (t & h & gas & bat & st & -> & Hr).
      destruct Hr as (? & ? & ? & ? & ?). exists t, h, gas, bat, st.
      split_and!; try done. apply parse_can_payload; try done.
      apply Z.nlt_ge. intros ?. apply Hid. by right.
    + unfold parse_sensor_frame. cbn [can_id can_extended can_dlc orb].
      destruct (Z.ltb_spec 0x7FF (Z.land id 0x1FFFFFFF)); [tauto |].
      by destruct (Z.eqb_spec dlc 8).
Qed.

