(* ===== verification/CanDevice.v ===== *)
(** * The CAN adapter ([src/device/can_device.cpp])

    One frame of the socket per read, mapped to readings. *)

From S2P Require Import Prelude FrameParser Float64 SensorData DeviceData Posix Can DeviceInterface.

Local Open Scope Z_scope.

(** ** The code *)

Record CanDevice : Type := mk_can {
  can_socket : SocketCanDevice;
  can_status : DeviceStatus;
}.

Definition new_can : CanDevice := mk_can (-1) (default_status SocketCan).

Definition can_record_error (d : CanDevice) : CanDevice :=
  mk_can (can_socket d) (add_errors 1 (can_status d)).

Definition can_start (d : CanDevice) (o : os) (env : can_open_env)
    : bool * CanDevice * os * string :=
  let '(ok, s, o, em) := open_device (can_socket d) o env in
  let d := mk_can s (can_status d) in
  if negb ok then (false, can_record_error d, o, em)
  else (true, mk_can (can_socket d) (set_online true (can_status d)), o, em).

Definition can_stop (d : CanDevice) (o : os) : CanDevice * os :=
  let '(s, o) := close_device (can_socket d) o in
  (mk_can s (set_online false (can_status d)), o).

(** The answers to one [read]: the polls, what [recv] gives, the clock. *)
Record can_env : Type := mk_can_env {
  ce_polls : list poll_result;
  ce_received : recv_can_result;
  ce_now : Z;
}.

Definition can_read (d : CanDevice) (o : os) (env : can_env)
    : exec (DeviceReadResult * CanDevice * os) :=
  '(result, frame, error) ← read_frame default_can_frame "" (ce_polls env) (ce_received env);
  if result =? 0 then Ret (default_read_result, d, o)
  else if result <? 0 then
    let '(d, o) := can_stop (can_record_error d) o in
    Ret (mk_read_result TransportError None error no_stats, d, o)
  else if result =? 2
  then Ret (mk_read_result ProtocolError None error no_stats, can_record_error d, o)
  else
    let '(ok, device_data, error) := parse_sensor_frame frame default_device_data in
    if negb ok
    then Ret (mk_read_result ProtocolError None error no_stats, can_record_error d, o)
    else
      let sensor_data := to_sensor_data device_data in
      Ret (mk_read_result Data (Some sensor_data) "" no_stats,
           mk_can (can_socket d)
             (mk_status (device_id sensor_data) (ds_protocol (can_status d)) true (ce_now env)
                        (ds_error_count (can_status d))), o).

#[export] Instance can_interface : DeviceInterface CanDevice can_open_env can_env := {|
  start := can_start;
  stop := can_stop;
  read := can_read;
  get_device_status := can_status;
|}.

(** ** Facts *)

Definition can_wf (d : CanDevice) : Prop := 0 <= ds_error_count (can_status d) < 2 ^ 64.

Lemma can_stop_law d o others :
  can_wf d → owns (can_socket d) others o →
  let '(d', o') := can_stop d o in
  can_wf d' ∧ owns (can_socket d') others o' ∧ can_socket d' < 0 ∧
  counted 0 (can_status d) (can_status d') ∧ ds_online (can_status d') = false.
Proof.
  intros Hwf Ho. unfold can_stop. pose proof (close_device_owns _ _ _ Ho) as Hc.
  destruct (close_device (can_socket d) o) as [s o']. destruct Hc.
  split_and!; try done. by apply counted_same.
Qed.

Lemma can_start_law d o env others :
  can_wf d → owns (can_socket d) others o →
  fresh_fd (co_socket env) (snd (can_stop d o)) →
  let '(ok, d', o', _) := can_start d o env in
  can_wf d' ∧ owns (can_socket d') others o' ∧ (ok = true ↔ 0 <= can_socket d') ∧
  counted (if ok then 0 else 1) (can_status d) (can_status d') ∧
  (ok = true → ds_online (can_status d') = true).
Proof.
  intros Hwf Ho Hf. unfold can_stop in Hf.
  pose proof (open_device_owns (can_socket d) o env others Ho) as Hop.
  unfold can_start. destruct (close_device (can_socket d) o) as [s0 o0].
  specialize (Hop Hf). destruct (open_device _ _ _) as [[[ok s] o'] em].
  destruct Hop as [Hop Hok]. destruct ok; cbn [negb].
  - split_and!; try done. by apply counted_same.
  - split_and!; try done. apply u64_range.
Qed.

(** Every outcome of one [read]. *)
Inductive can_read_outcome (d : CanDevice) (o : os) (env : can_env) :
    DeviceReadResult * CanDevice * os → Prop :=
  | can_idle : can_read_outcome d o env (default_read_result, d, o)
  | can_lost error :
      can_read_outcome d o env
        (mk_read_result TransportError None error no_stats,
         fst (can_stop (can_record_error d) o), snd (can_stop (can_record_error d) o))
  | can_refused error :
      can_read_outcome d o env
        (mk_read_result ProtocolError None error no_stats, can_record_error d, o)
  | can_data data :
      can_read_outcome d o env
        (mk_read_result Data (Some data) "" no_stats,
         mk_can (can_socket d)
           (mk_status (device_id data) (ds_protocol (can_status d)) true (ce_now env)
                      (ds_error_count (can_status d))), o).

Lemma can_read_cases d o env r : can_read d o env = Ret r → can_read_outcome d o env r.
Proof.
  unfold can_read. destruct (read_frame _ _ _ _) as [[[n f] e] | |]; try discriminate.
  cbn [mbind exec_bind]. destruct (n =? 0); [intros [= <-]; constructor |].
  destruct (n <? 0).
  { rewrite (surjective_pairing (can_stop _ o)). intros [= <-]. constructor. }
  destruct (n =? 2); [intros [= <-]; constructor |].
  destruct (parse_sensor_frame _ _) as [[[] data] e']; cbn [negb];
    [generalize (to_sensor_data data) |]; intros; simplify_eq; constructor.
Qed.

Lemma can_read_law d o env others res d' o' :
  can_wf d → owns (can_socket d) others o → can_read d o env = Ret (res, d', o') →
  can_wf d' ∧ owns (can_socket d') others o' ∧
  counted (errors_reported res) (can_status d) (can_status d') ∧
  (rr_code res = Data ↔ is_Some (rr_data res)) ∧
  if decide (rr_code res = TransportError)
  then can_socket d' < 0 ∧ ds_online (can_status d') = false
  else can_socket d' = can_socket d.
Proof.
  intros Hwf Ho Hr%can_read_cases. remember (res, d', o') as r eqn:Heq.
  destruct Hr as [| e | e | data].
  - injection Heq as <- <- <-. split_and!; try done; [by apply counted_same |].
    by split; [| intros []].
  - injection Heq as <- Hd Ho'. pose proof (can_stop_law (can_record_error d) o others
      (u64_range _) Ho) as Hs.
    destruct (can_stop (can_record_error d) o) as [d1 o1]. simpl in Hd, Ho'. subst.
    destruct Hs as (? & ? & ? & [Hp He] & ?). split_and!; try done; [| by split; [| intros []]].
    split; [done |]. rewrite He. cbn. rewrite Z.add_0_r. apply u64_small, u64_range.
  - injection Heq as <- <- <-. split_and!; try done; [apply u64_range | by split; [| intros []]].
  - injection Heq as <- <- <-. split_and!; try done. by apply counted_same.
Qed.

Lemma can_read_total d o env :
  can_wf d → (∃ r, poll_loop (ce_polls env) = Ret r) → ∃ r, can_read d o env = Ret r.
Proof.
  intros _ Hp. unfold can_read.
  destruct (read_frame_total default_can_frame "" _ (ce_received env) Hp) as [[[n f] e] ->].
  cbn [mbind exec_bind]. destruct (n =? 0); [by eexists |]. destruct (n <? 0).
  { rewrite (surjective_pairing (can_stop _ o)). by eexists. }
  destruct (n =? 2); [by eexists |].
  destruct (parse_sensor_frame f default_device_data) as [[[] data] e']; cbn [negb];
    by eapply ex_intro.
Qed.

Lemma can_read_result d o env res d' o' :
  can_wf d → can_read d o env = Ret (res, d', o') → result_ok (ds_protocol (can_status d)) res.
Proof.
  intros _ Hr%can_read_cases. remember (res, d', o') as r eqn:Heq.
  by destruct Hr; injection Heq as <- _ _.
Qed.

#[export] Instance can_laws : DeviceLaws CanDevice can_open_env can_env := {|
  dev_fd := can_socket;
  dev_wf := can_wf;
  start_fd := co_socket;
  read_ready env := ∃ r, poll_loop (ce_polls env) = Ret r;
  status_range _ Hwf := Hwf;
  start_law := can_start_law;
  stop_law := can_stop_law;
  read_law := can_read_law;
  read_result_ok := can_read_result;
  read_total := can_read_total;
|}.

(** ** Properties *)

(** A frame delivered by the kernel to the CAN adapter. A remote or error
    frame is one protocol error; a standard data frame of eight bytes always becomes
    data, whose readings are those the bytes encode and whose device id, taken over
    as the id in the status, is the low byte of the 11-bit identifier (identifiers
    equal modulo 256 name the same device); any other data frame is one protocol
    error and leaves the socket open. *)
Lemma can_read_frame d o polls raw now :
  poll_loop polls = Ret (PollReady false) →
  bytes (raw_can_data raw) → length (raw_can_data raw) = 8%nat →
  let read := can_read d o (mk_can_env polls (RecvFrame raw) now) in
  let data_frame := Z.land (raw_can_id raw) (Z.lor CAN_RTR_FLAG CAN_ERR_FLAG) = 0 in
  let standard := Z.land (raw_can_id raw) CAN_EFF_FLAG = 0 in
  if decide (data_frame ∧ standard ∧ raw_can_dlc raw = 8)
  then ∃ t h gas bat st,
    raw_can_data raw = can_payload t h gas bat st ∧
    (is_i16 t ∧ is_u16 h ∧ is_u16 gas ∧ is_u8 bat ∧ is_u8 st) ∧
    read = Ret (mk_read_result Data
                  (Some (append_warnings
                     (reading (raw_can_id raw mod 256) 1 t h gas (100 * bat) st 0)
                     (raw_warnings t h gas (100 * bat) st))) "" no_stats,
                mk_can (can_socket d)
                  (mk_status (raw_can_id raw mod 256) (ds_protocol (can_status d)) true now
                             (ds_error_count (can_status d))), o)
  else ∃ error, error ≠ "" ∧
    read = Ret (mk_read_result ProtocolError None error no_stats, can_record_error d, o).
Proof.
  intros Hp Hb Hl read data_frame standard. subst read. unfold can_read, read_frame.
  cbn [ce_polls ce_received]. rewrite Hp. cbn [mbind exec_bind]. subst data_frame standard.
  destruct (Z.eqb_spec (Z.land (raw_can_id raw) (Z.lor CAN_RTR_FLAG CAN_ERR_FLAG)) 0) as [Hd | Hd];
    cbn [negb].
  2:{ rewrite decide_False by tauto. eexists. split; [| reflexivity]. discriminate. }
  rewrite (firstn_all2 (raw_can_data raw)) by lia. cbn [Z.eqb Z.ltb Z.compare].
  destruct (Z.eqb_spec (Z.land (raw_can_id raw) CAN_EFF_FLAG) 0) as [He | He]; cbn [negb].
  2:{ rewrite decide_False by tauto. eexists. split; [| reflexivity]. discriminate. }
  rewrite land_sff. destruct (can_payload_surj _ Hb Hl) as (t & h & gas & bat & st & Hpl & Hr).
  destruct Hr as (Ht & Hh & Hg & Hbat & Hst).
  assert (Z.land (raw_can_id raw mod 2048) 0x1FFFFFFF <= 0x7FF) as Hid.
  { rewrite standard_id_small. pose proof (Z.mod_pos_bound (raw_can_id raw) 2048). lia. }
  destruct (Z.eq_dec (raw_can_dlc raw) 8) as [Hdlc | Hdlc].
  - rewrite decide_True by done. exists t, h, gas, bat, st. split; [done |]. split; [done |].
    rewrite Hpl. cbn [mbind exec_bind Z.eqb Z.ltb Z.compare].
    rewrite (parse_can_payload _ _ _ _ _ _ _ default_device_data Hid Hdlc) by done.
    cbn [negb]. rewrite to_sensor_data_reading by done.
    replace ((raw_can_id raw mod 2048) mod 256) with (raw_can_id raw mod 256).
    2:{ symmetry. apply Z.mod_mod_divide. by exists 8. }
    reflexivity.
  - rewrite decide_False by tauto. unfold parse_sensor_frame.
    cbn [mbind exec_bind Z.eqb Z.ltb Z.compare can_extended can_id can_dlc orb].
    destruct (Z.ltb_spec 0x7FF (Z.land (raw_can_id raw mod 2048) 0x1FFFFFFF)); [lia |].
    destruct (Z.eqb_spec (raw_can_dlc raw) 8); [done |]. cbn [negb].
    eexists. split; [| reflexivity]. discriminate.
Qed.

