(* ===== verification/DeviceManager.v ===== *)
(** * The device manager ([src/device/device_manager.cpp])

    One worker per device that starts it, reads it, hands the outcome to the
    handlers and restarts it after a transport error; the status summary with its
    heartbeat; and the life of the manager. The worker is written against the device
    interface and its laws; [Stopping] follows the stop request of the main thread
    against a running worker, access by access. *)

From stdpp Require Import gmap.
From S2P Require Import Prelude SensorData DeviceData Modbus Posix SerialPort DeviceInterface ModbusDevice.

Local Open Scope Z_scope.

(** ** The code *)

(** What a worker does that others can see. *)
Inductive action : Type :=
  | DataCall (data : SensorData) (p : ProtocolType)
  | ErrorCall (p : ProtocolType) (code : ReadCode) (error : string) (stats : ProtocolErrorStats)
  | StartAttempt (ok : bool)
  | ReadDone (result : DeviceReadResult)
  | StopCall
  | SleepReconnect.

Definition report_error (protocol : ProtocolType) (result : DeviceReadResult) : bool :=
  negb (stats_empty (rr_stats result))
  || bool_decide (rr_code result = ProtocolError)
  || bool_decide (rr_code result = TransportError)
  || (bool_decide (rr_code result = Timeout) && bool_decide (protocol = ModbusRtu)).

Section worker.
Context `{DeviceInterface D SEnv REnv}.
(** Whether the two [std::function] handlers are set. *)
Context (has_data_handler has_error_handler : bool).

(** The first half of the loop body: the device is started unless it is. *)
Definition ensure_started (started : bool) (d : D) (o : os) (env : SEnv)
    : bool * D * os * list action :=
  if started then (true, d, o, [])
  else
    let '(ok, d, o, error) := start d o env in
    if ok then (true, d, o, [StartAttempt true])
    else
      (false, d, o,
       StartAttempt false ::
       (if has_error_handler
        then [ErrorCall (ds_protocol (get_device_status d)) TransportError error no_stats]
        else []) ++ [SleepReconnect]).

(** The handler calls for one result. *)
Definition handle_result (protocol : ProtocolType) (result : DeviceReadResult) : list action :=
  (match rr_code result, rr_data result with
   | Data, Some data => if has_data_handler then [DataCall data protocol] else []
   | _, _ => []
   end) ++
  (if report_error protocol result && has_error_handler
   then [ErrorCall protocol (rr_code result) (rr_error result) (rr_stats result)]
   else []).

(** The second half of the loop body. *)
Definition read_and_report (d : D) (o : os) (env : REnv)
    : exec (bool * D * os * list action) :=
  '(result, d, o) ← read d o env;
  let protocol := ds_protocol (get_device_status d) in
  let calls := ReadDone result :: handle_result protocol result in
  if bool_decide (rr_code result = TransportError)
  then let '(d, o) := stop d o in Ret (false, d, o, calls ++ [StopCall])
  else Ret (true, d, o, calls).

(** One turn of the loop: [running_], and the answers to [start] and [read]. *)
Record loop_turn : Type := mk_loop_turn {
  lt_running : bool;
  lt_start : SEnv;
  lt_read : REnv;
}.

(** [run_device] from the loop test. *)
Fixpoint run_device_loop (turns : list loop_turn) (started : bool) (d : D) (o : os)
    (trace : list action) : exec (D * os * list action) :=
  match turns with
  | [] => OutOfFuel
  | t :: rest =>
      if negb (lt_running t) then
        let '(d, o) := stop d o in Ret (d, o, trace ++ [StopCall])
      else
        let '(started, d, o, acts) := ensure_started started d o (lt_start t) in
        if negb started then run_device_loop rest false d o (trace ++ acts)
        else
          '(started, d, o, acts') ← read_and_report d o (lt_read t);
          run_device_loop rest started d o (trace ++ acts ++ acts')
  end.

Definition run_device (turns : list loop_turn) (d : D) (o : os) : exec (D * os * list action) :=
  run_device_loop turns false d o [].
End worker.

Arguments loop_turn : clear implicits.

(** ** The manager's own state *)

Record DeviceManager (D : Type) : Type := mk_manager {
  dm_reconnect_interval : Z;       (** seconds *)
  dm_heartbeat_timeout : Z;        (** seconds *)
  dm_devices : list D;
  dm_workers : nat;                (** threads started and not joined *)
  dm_running : bool;
  dm_started_at : Z;               (** [started_at_unix_seconds_] *)
}.
Arguments mk_manager {D}.
Arguments dm_reconnect_interval {D}. Arguments dm_heartbeat_timeout {D}. Arguments dm_devices {D}. Arguments dm_workers {D}.
Arguments dm_running {D}. Arguments dm_started_at {D}.

Definition new_manager {D} (reconnect_interval heartbeat_timeout : Z) : DeviceManager D :=
  mk_manager reconnect_interval heartbeat_timeout [] 0 false 0.

Definition dm_add {D} (m : DeviceManager D) (input : D) : DeviceManager D :=
  if dm_running m then m
  else mk_manager (dm_reconnect_interval m) (dm_heartbeat_timeout m) (dm_devices m ++ [input]) (dm_workers m)
                  (dm_running m) (dm_started_at m).

Definition dm_start {D} (m : DeviceManager D) (now : Z) : DeviceManager D :=
  if dm_running m then m
  else mk_manager (dm_reconnect_interval m) (dm_heartbeat_timeout m) (dm_devices m)
                  (dm_workers m + length (dm_devices m)) true now.

(** [stop_device] is the call made on each device; joining waits for the
    workers, whose last action is to stop their device. *)
Definition dm_stop {D} (stop_device : D → D) (m : DeviceManager D) : DeviceManager D :=
  if negb (dm_running m) && (dm_workers m =? 0)%nat then m
  else mk_manager (dm_reconnect_interval m) (dm_heartbeat_timeout m) (stop_device <$> dm_devices m) 0 false
                  (dm_started_at m).

Section statuses.
Context `{DeviceInterface D SEnv REnv}.

(** The status of one device as [statuses] returns it at time [now]. *)
Definition aged_status (heartbeat_timeout started_at now : Z) (s : DeviceStatus) : DeviceStatus :=
  let heartbeat_reference := if negb (ds_last_update s =? 0) then ds_last_update s else started_at in
  if ds_online s && negb (heartbeat_reference =? 0) && (heartbeat_reference <? now)
     && (u64 heartbeat_timeout <? u64 (now - heartbeat_reference))
  then set_online false s
  else s.

Definition statuses (m : DeviceManager D) (now : Z) : list DeviceStatus :=
  (λ d, aged_status (dm_heartbeat_timeout m) (dm_started_at m) now (get_device_status d))
    <$> dm_devices m.

Fixpoint count_online (l : list DeviceStatus) : nat :=
  match l with
  | [] => 0
  | s :: rest => (if ds_online s then 1 else 0) + count_online rest
  end.

Definition online_count (m : DeviceManager D) (now : Z) : nat := count_online (statuses m now).

(** [statuses().size() - online_count()]: the clock is read twice. *)
Definition offline_count (m : DeviceManager D) (now now' : Z) : nat :=
  length (statuses m now) - online_count m now'.
End statuses.

(** ** Reading a trace *)

(** What the error handler of [main] adds to its counter for one call. *)
Definition call_errors (stats : ProtocolErrorStats) : Z :=
  if stats_empty stats then 1 else stats_total stats.

Definition action_errors (a : action) : Z :=
  match a with ErrorCall _ _ _ stats => call_errors stats | _ => 0 end.
Definition reported_errors (acts : list action) : Z := foldr (λ a, Z.add (action_errors a)) 0 acts.

(** The errors the adapters count themselves. *)
Definition counted_errors (a : action) : Z :=
  match a with
  | StartAttempt false => 1
  | ReadDone result => errors_reported result
  | _ => 0
  end.
Definition device_errors (acts : list action) : Z := foldr (λ a, Z.add (counted_errors a)) 0 acts.

(** A read that ended without data, error or message. *)
Definition is_idle (result : DeviceReadResult) : bool :=
  bool_decide (rr_code result = Timeout) && bool_decide (rr_error result = "").
Definition idle_read (a : action) : Z :=
  match a with ReadDone result => if is_idle result then 1 else 0 | _ => 0 end.
Definition idle_reads (acts : list action) : Z := foldr (λ a, Z.add (idle_read a)) 0 acts.

Definition data_call (a : action) : option SensorData :=
  match a with DataCall data _ => Some data | _ => None end.
Definition read_done (a : action) : option DeviceReadResult :=
  match a with ReadDone result => Some result | _ => None end.

(** The order in which the device is used: started before it is read, and not
    started again while it is. The argument and the result tell if it is started. *)
Fixpoint use_order (started : bool) (acts : list action) : option bool :=
  match acts with
  | [] => Some started
  | StartAttempt ok :: rest => if started then None else use_order ok rest
  | ReadDone _ :: rest => if started then use_order true rest else None
  | StopCall :: rest => use_order false rest
  | _ :: rest => use_order started rest
  end.

Lemma sum_app (f : action → Z) (l k : list action) :
  foldr (λ a, Z.add (f a)) 0 (l ++ k) = foldr (λ a, Z.add (f a)) 0 l + foldr (λ a, Z.add (f a)) 0 k.
Proof. induction l as [| a l IH]; cbn [app foldr]; [done | rewrite IH; lia]. Qed.

Lemma use_order_app s l k :
  use_order s (l ++ k) = s' ← use_order s l; use_order s' k.
Proof.
  revert s. induction l as [| a l IH]; intros s; [done |].
  destruct a; cbn [app use_order]; rewrite ?IH; by destruct s.
Qed.

Lemma u64_add_l a b : u64 (u64 a + b) = u64 (a + b).
Proof. apply Zplus_mod_idemp_l. Qed.

Lemma counted_trans m n s1 s2 s3 : counted m s1 s2 → counted n s2 s3 → counted (m + n) s1 s3.
Proof. intros [Hp He] [Hp' He']. split; [congruence |]. rewrite He', He, u64_add_l. f_equal. lia. Qed.

(** *** The handler calls of one result *)

Lemma handle_result_errors p res :
  result_ok p res →
  reported_errors (handle_result true true p res)
  = errors_reported res + (if bool_decide (p = ModbusRtu) then idle_read (ReadDone res) else 0).
Proof.
  intros [Hn Ht]. destruct res as [code data error stats]. cbn [rr_code rr_error rr_stats] in *.
  assert (reported_errors (handle_result true true p (mk_read_result code data error stats))
          = if report_error p (mk_read_result code data error stats) then call_errors stats else 0)
    as ->.
  { unfold handle_result, reported_errors. rewrite sum_app, andb_true_r.
    cbn [rr_code rr_data rr_error rr_stats].
    by destruct code, data, (report_error _ _); cbn [foldr action_errors]; rewrite ?Z.add_0_l, ?Z.add_0_r. }
  unfold report_error, errors_reported, call_errors, idle_read, is_idle.
  cbn [rr_code rr_error rr_stats].
  destruct code.
  - rewrite !orb_false_r. cbn [bool_decide decide decide_rel negb orb andb].
    destruct (stats_empty stats) eqn:He; [apply Z.eqb_eq in He; rewrite He |];
      case_bool_decide; simpl; lia.
  - rewrite Hn by auto. specialize (Ht eq_refl).
    change (stats_empty no_stats) with true.
    rewrite (bool_decide_eq_true_2 (Timeout = Timeout)) by done.
    rewrite (bool_decide_eq_false_2 (Timeout = ProtocolError)) by done.
    rewrite (bool_decide_eq_false_2 (Timeout = TransportError)) by done.
    destruct (decide (error = "")) as [-> | Hne].
    + rewrite (bool_decide_eq_true_2 ("" = "")) by done. by case_bool_decide.
    + rewrite (bool_decide_eq_false_2 (error = "")), (bool_decide_eq_true_2 (p = ModbusRtu)) by auto.
      done.
  - rewrite (bool_decide_eq_true_2 (ProtocolError = ProtocolError)), orb_true_r by done.
    cbn [orb]. destruct (stats_empty stats); case_bool_decide; simpl; lia.
  - rewrite Hn by auto. rewrite (bool_decide_eq_true_2 (TransportError = TransportError)), orb_true_r
      by done.
    rewrite (bool_decide_eq_false_2 (TransportError = Timeout)) by done.
    change (stats_empty no_stats) with true. by destruct (bool_decide (p = ModbusRtu)).
Qed.

(** The handler calls count, read and order nothing themselves. *)
Lemma handle_result_quiet p res :
  (rr_code res = Data ↔ is_Some (rr_data res)) →
  device_errors (handle_result true true p res) = 0 ∧
  idle_reads (handle_result true true p res) = 0 ∧
  omap read_done (handle_result true true p res) = [] ∧
  (∀ s, use_order s (handle_result true true p res) = Some s) ∧
  omap data_call (handle_result true true p res) = option_list (rr_data res).
Proof.
  intros [Hd Hd']. unfold handle_result. destruct (rr_code res), (rr_data res) as [data |];
    try (destruct (Hd eq_refl); discriminate); try discriminate (Hd' (ex_intro _ data eq_refl));
    by destruct (report_error p res).
Qed.

Section facts.
Context `{DeviceLaws D SEnv REnv}.
Implicit Types (d : D) (o : os).

Abbreviation status d := (get_device_status d) (only parsing).
Abbreviation protocol d := (ds_protocol (get_device_status d)) (only parsing).

(** The worker's device is well-formed and the descriptors of the process are its
    own and the [others]. *)
Definition worker_inv (others : gset Z) d o : Prop := dev_wf d ∧ owns (dev_fd d) others o.

(** The kernel does not hand out a descriptor another part of the process holds. *)
Definition fresh_start (others : gset Z) (env : SEnv) : Prop :=
  start_fd env < 0 ∨ start_fd env ∉ others.

(** A handler call names the protocol of the device. *)
Definition calls_of (p : ProtocolType) (a : action) : Prop :=
  match a with DataCall _ q | ErrorCall q _ _ _ => q = p | _ => True end.

Lemma handle_result_calls p res : Forall (calls_of p) (handle_result true true p res).
Proof.
  unfold handle_result. apply Forall_app_2.
  - destruct (rr_code res), (rr_data res); try apply Forall_nil_2. by apply Forall_singleton.
  - destruct (report_error p res && true); [by apply Forall_singleton | apply Forall_nil_2].
Qed.

(** A summary of the actions of one piece of a run. *)
Record summary (started : bool) d (acts : list action) (started' : bool) d' : Prop := mk_summary {
  sum_counted : counted (device_errors acts) (status d) (status d');
  sum_reported : reported_errors acts
                 = device_errors acts + (if bool_decide (protocol d = ModbusRtu)
                                         then idle_reads acts else 0);
  sum_order : use_order started acts = Some started';
  sum_data : omap data_call acts = omap rr_data (omap read_done acts);
  sum_calls : Forall (calls_of (protocol d)) acts;
}.

Lemma summary_trans s1 d1 a1 s2 d2 a2 s3 d3 :
  summary s1 d1 a1 s2 d2 → summary s2 d2 a2 s3 d3 → summary s1 d1 (a1 ++ a2) s3 d3.
Proof.
  intros [C1 R1 O1 D1 F1] [C2 R2 O2 D2 F2]. split.
  - unfold device_errors. rewrite sum_app. by eapply counted_trans.
  - rewrite (counted_protocol _ _ _ C1) in R2.
    unfold reported_errors, device_errors, idle_reads in *. rewrite !sum_app, R1, R2.
    case_bool_decide; lia.
  - by rewrite use_order_app, O1.
  - by rewrite !omap_app, D1, D2.
  - apply Forall_app_2; [done |]. by rewrite (counted_protocol _ _ _ C1) in F2.
Qed.

Lemma stop_worker others d o :
  worker_inv others d o →
  let '(d', o') := stop d o in
  worker_inv others d' o' ∧ dev_fd d' < 0 ∧ online (status d') = false ∧
  open_fds o' = others ∧ ∀ started, summary started d [StopCall] false d'.
Proof.
  intros [Hwf Ho]. pose proof (stop_law d o others Hwf Ho) as Hs.
  destruct (stop d o) as [d' o']. destruct Hs as (? & Hown & Hfd & Hc & ?).
  split_and!; try done.
  - destruct Hown as [Hfds _ _]. by rewrite decide_False in Hfds by lia.
  - intros started. split; try done; [by case_bool_decide | by apply Forall_singleton].
Qed.

Lemma fresh_start_stop others d o env :
  worker_inv others d o → fresh_start others env → fresh_fd (start_fd env) (snd (stop d o)).
Proof.
  intros Hi Hf. pose proof (stop_worker others d o Hi) as Hs. destruct (stop d o) as [d' o'].
  destruct Hs as (_ & _ & _ & Hfds & _). unfold fresh_fd. simpl. by rewrite Hfds.
Qed.

Lemma counted_zero others d o : worker_inv others d o → counted 0 (status d) (status d).
Proof. intros [Hwf _]. apply counted_same; [by apply status_range | done | done]. Qed.

Lemma ensure_started_ok others started d o env :
  worker_inv others d o → fresh_start others env →
  let '(started', d', o', acts) := ensure_started true started d o env in
  worker_inv others d' o' ∧ summary started d acts started' d'.
Proof.
  intros Hi Hf. unfold ensure_started. destruct started.
  { split; [done |]. split; [by eapply counted_zero | | done | done | done]. by case_bool_decide. }
  pose proof (start_law d o env others (proj1 Hi) (proj2 Hi) (fresh_start_stop _ _ _ _ Hi Hf)) as Hs.
  destruct (start d o env) as [[[ok d'] o'] error]. destruct Hs as (? & ? & _ & Hc & _).
  destruct ok; (split; [done |]); split; try done; try (by case_bool_decide).
  - by apply Forall_singleton.
  - repeat (apply Forall_cons_2; [try done; apply Hc |]). apply Forall_nil_2.
Qed.

Lemma read_and_report_ok others d o env started' d' o' acts :
  worker_inv others d o → read_and_report true true d o env = Ret (started', d', o', acts) →
  worker_inv others d' o' ∧ summary true d acts started' d'.
Proof.
  intros [Hwf Ho]. unfold read_and_report.
  destruct (read d o env) as [[[res d1] o1] | |] eqn:Hr; try discriminate. cbn [mbind exec_bind].
  destruct (read_law d o env others res d1 o1 Hwf Ho Hr) as (Hwf1 & Ho1 & Hc & Hd & _).
  pose proof (read_result_ok d o env res d1 o1 Hwf Hr) as Hok.
  assert (summary true d (ReadDone res :: handle_result true true (protocol d1) res) true d1) as Hsum.
  { rewrite (counted_protocol _ _ _ Hc).
    destruct (handle_result_quiet (protocol d) res Hd) as (Hde & Hid & Hrd & Huo & Hdc).
    pose proof (handle_result_errors (protocol d) res Hok) as Hre.
    unfold reported_errors, device_errors, idle_reads in *.
    split; unfold reported_errors, device_errors, idle_reads; cbn [foldr].
    - rewrite Hde, Z.add_0_r. exact Hc.
    - rewrite Hre, Hde, Hid. cbn [action_errors counted_errors]. case_bool_decide; lia.
    - cbn [use_order]. apply Huo.
    - cbn [omap list_omap data_call read_done]. rewrite Hdc, Hrd. by destruct (rr_data res).
    - apply Forall_cons_2; [done | apply handle_result_calls]. }
  case_bool_decide as Hlost; [| by intros [= <- <- <- <-]].
  pose proof (stop_worker others d1 o1 (conj Hwf1 Ho1)) as Hst.
  destruct (stop d1 o1) as [d2 o2]. intros [= <- <- <- <-].
  destruct Hst as (Hi & _ & _ & _ & Hs). split; [done |].
  change (ReadDone res :: handle_result true true (protocol d1) res ++ [StopCall])
    with ((ReadDone res :: handle_result true true (protocol d1) res) ++ [StopCall]).
  eapply summary_trans; [exact Hsum | apply Hs].
Qed.

(** The run of a worker whose turns end. *)
Lemma run_device_loop_ok others turns started d o trace d' o' trace' :
  worker_inv others d o → Forall (λ t, fresh_start others (lt_start t)) turns →
  run_device_loop true true turns started d o trace = Ret (d', o', trace') →
  ∃ acts, trace' = trace ++ acts ∧ worker_inv others d' o' ∧ summary started d acts false d' ∧
          dev_fd d' < 0 ∧ online (status d') = false ∧ open_fds o' = others ∧
          last acts = Some StopCall.
Proof.
  revert started d o trace. induction turns as [| t turns IH]; intros started d o trace Hi Hf Hr;
    [discriminate Hr |].
  apply Forall_cons in Hf as [Hf1 Hf]. cbn [run_device_loop] in Hr.
  destruct (lt_running t); cbn [negb] in Hr.
  - pose proof (ensure_started_ok others started d o (lt_start t) Hi Hf1) as He.
    destruct (ensure_started true started d o (lt_start t)) as [[[st1 d1] o1] a1].
    destruct He as [Hi1 Hs1]. destruct st1; cbn [negb] in Hr.
    + destruct (read_and_report true true d1 o1 (lt_read t)) as [[[[st2 d2] o2] a2] | |] eqn:Hrd;
        try discriminate Hr. cbn [mbind exec_bind] in Hr.
      destruct (read_and_report_ok others _ _ _ _ _ _ _ Hi1 Hrd) as [Hi2 Hs2].
      destruct (IH _ _ _ _ Hi2 Hf Hr) as (a3 & -> & Hi3 & Hs3 & ? & ? & ? & Hl).
      exists ((a1 ++ a2) ++ a3). split_and!; try done.
      * by rewrite !app_assoc.
      * eapply summary_trans; [| exact Hs3]. by eapply summary_trans.
      * by rewrite last_app, Hl.
    + destruct (IH _ _ _ _ Hi1 Hf Hr) as (a2 & -> & Hi2 & Hs2 & ? & ? & ? & Hl).
      exists (a1 ++ a2). split_and!; try done; [by rewrite app_assoc | by eapply summary_trans |].
      by rewrite last_app, Hl.
  - pose proof (stop_worker others d o Hi) as Hst. destruct (stop d o) as [d1 o1].
    injection Hr as <- <- <-. exists [StopCall]. naive_solver.
Qed.

(** A run ends when the stop flag is seen. *)
Lemma run_device_loop_total others turns started d o trace :
  worker_inv others d o →
  Forall (λ t, fresh_start others (lt_start t) ∧ read_ready (lt_read t)) turns →
  Exists (λ t, lt_running t = false) turns →
  ∃ r, run_device_loop true true turns started d o trace = Ret r.
Proof.
  revert started d o trace. induction turns as [| t turns IH]; intros started d o trace Hi Hf Hx;
    [by inversion Hx |].
  apply Forall_cons in Hf as [[Hf1 Hrd] Hf]. cbn [run_device_loop].
  destruct (lt_running t) eqn:Hrun; cbn [negb];
    [| destruct (stop d o); by eexists].
  apply Exists_cons in Hx as [Hx | Hx]; [congruence |].
  pose proof (ensure_started_ok others started d o (lt_start t) Hi Hf1) as He.
  destruct (ensure_started true started d o (lt_start t)) as [[[st1 d1] o1] a1].
  destruct He as [Hi1 _]. destruct st1; cbn [negb]; [| by apply IH].
  assert (∃ r, read_and_report true true d1 o1 (lt_read t) = Ret r) as [[[[st2 d2] o2] a2] Hr].
  { unfold read_and_report. destruct (read_total d1 o1 (lt_read t) (proj1 Hi1) Hrd) as [[[res d2] o2] ->].
    cbn [mbind exec_bind]. case_bool_decide; [destruct (stop d2 o2) |]; by eexists. }
  rewrite Hr. cbn [mbind exec_bind]. apply IH; try done.
  by eapply read_and_report_ok.
Qed.
End facts.

(** *** Statuses *)

(** The time a device was last heard of: its last update, or the start of the
    manager; 0 if there is none. *)
Definition heard {D} (m : DeviceManager D) (s : DeviceStatus) : Z :=
  if decide (ds_last_update s = 0) then dm_started_at m else ds_last_update s.

Definition is_u64 (z : Z) : Prop := 0 <= z < 2 ^ 64.

Lemma aged_status_spec timeout started now s :
  is_u64 timeout → is_u64 started → is_u64 (ds_last_update s) → is_u64 now →
  let ref := if decide (ds_last_update s = 0) then started else ds_last_update s in
  aged_status timeout started now s
  = set_online (ds_online s && (bool_decide (ref = 0) || bool_decide (now <= ref + timeout))) s.
Proof.
  intros Ht Hst Hl Hn ref. unfold is_u64 in *. unfold aged_status.
  replace (if negb (ds_last_update s =? 0) then ds_last_update s else started) with ref.
  2:{ unfold ref. destruct (Z.eqb_spec (ds_last_update s) 0); by case_decide. }
  assert (0 <= ref < 2 ^ 64) as Hr by (unfold ref; by case_decide).
  clearbody ref. destruct s as [id p [] lu ec]; [| done]. cbn [ds_online andb].
  destruct (Z.eqb_spec ref 0) as [-> | Hr0]; cbn [negb andb]; [done |].
  rewrite (bool_decide_eq_false_2 (ref = 0)) by done. cbn [orb].
  destruct (Z.ltb_spec ref now) as [Hlt | Hge]; cbn [andb].
  - rewrite !u64_small by lia.
    destruct (Z.ltb_spec timeout (now - ref)); case_bool_decide; try done; lia.
  - by rewrite bool_decide_eq_true_2 by lia.
Qed.

Lemma count_online_le l : (count_online l <= length l)%nat.
Proof. induction l as [| s l IH]; cbn; [lia |]. destruct (ds_online s); lia. Qed.

(** ** Properties *)

(** C6: What a worker reports is what happened. For every adapter that satisfies
    the device laws and every run of [run_device] that ends: each reading handed out
    by a read reaches the data handler, once and in order, and nothing else does; the
    device is used in order (started before it is read, restarted after a failure);
    and the errors reported to the error handler are those the adapter counted in
    its status, except that for Modbus every idle read, which is not an error, is
    reported as one more. *)
Theorem worker_reports `{DeviceLaws D SEnv REnv} others turns (d : D) o d' o' trace :
  worker_inv others d o → Forall (λ t, fresh_start others (lt_start t)) turns →
  run_device true true turns d o = Ret (d', o', trace) →
  omap data_call trace = delivered (omap read_done trace) ∧
  use_order false trace = Some false ∧
  u64 (ds_error_count (get_device_status d) + reported_errors trace)
  = u64 (ds_error_count (get_device_status d')
         + if bool_decide (ds_protocol (get_device_status d) = ModbusRtu)
           then idle_reads trace else 0).
Proof.
  intros Hi Hf Hr.
  destruct (run_device_loop_ok others turns false d o [] d' o' trace Hi Hf Hr)
    as (acts & -> & _ & [Hc Hre Ho Hd _] & _).
  cbn [app]. split; [done |]. split; [done |].
  destruct Hc as [_ He]. rewrite Hre, He, u64_add_l. f_equal. lia.
Qed.

#[local] Instance no_terminal : TerminalLibrary := mk_terminal_library id (λ _, id) (λ _, id).

Definition sample_start : port_open_env * Z :=
  (mk_port_open 5 (Some (mk_termios 0 0 0 0 0 0 0 0)) true "", 1000).
(** A read before the next poll is due, then a stop. *)
Definition sample_turns : list (loop_turn (port_open_env * Z) modbus_env) :=
  [mk_loop_turn true sample_start (mk_modbus_env 500 None [] 0 [] 0);
   mk_loop_turn false sample_start (mk_modbus_env 500 None [] 0 [] 0)].

Lemma new_modbus_inv : worker_inv ∅ (new_modbus sample_options) os_init.
Proof.
  split; [split; [exact sample_request_wf | reflexivity | split; [discriminate | reflexivity]] |].
  split; [reflexivity | set_solver | reflexivity].
Defined.

Lemma worker_reports_witness :
  ∃ d' o' trace,
    run_device true true sample_turns (new_modbus sample_options) os_init = Ret (d', o', trace) ∧
    omap data_call trace = delivered (omap read_done trace) ∧
    ErrorCall ModbusRtu Timeout "" no_stats ∈ trace ∧
    ds_error_count (mb_status d') = 0 ∧ reported_errors trace = 1.
Proof.
  eexists _, _, _. split; [vm_compute; reflexivity |].
  split_and!; [| vm_compute; set_solver | reflexivity | reflexivity].
  refine (proj1 (worker_reports ∅ sample_turns (new_modbus sample_options) os_init _ _ _
    new_modbus_inv _ _)); [| vm_compute; reflexivity].
  do 2 (apply Forall_cons_2; [right; apply not_elem_of_empty |]). apply Forall_nil_2.
Defined.

(** C39: The status summary. It has one entry per device, in the order they were
    added, unchanged but for the online flag: a device is online when it says so and
    was heard of within the heartbeat timeout, counted from the start of the manager
    if it never sent data (never aged when neither time is known). The online and
    offline counts of one instant add up to the number of devices. *)
Theorem statuses_spec `{DeviceInterface D SEnv REnv} (m : DeviceManager D) now :
  is_u64 (dm_heartbeat_timeout m) → is_u64 (dm_started_at m) → is_u64 now →
  Forall (λ d, is_u64 (ds_last_update (get_device_status d))) (dm_devices m) →
  (∀ i, statuses m now !! i =
        (λ d, let s := get_device_status d in
              set_online (ds_online s && (bool_decide (heard m s = 0) ||
                            bool_decide (now <= heard m s + dm_heartbeat_timeout m))) s)
        <$> dm_devices m !! i) ∧
  (online_count m now + offline_count m now now = length (dm_devices m))%nat.
Proof.
  intros Ht Hs Hn Hl. split.
  - intros i. unfold statuses. rewrite list_lookup_fmap.
    destruct (dm_devices m !! i) as [d |] eqn:Hd; [| done]. cbn [fmap option_fmap option_map].
    rewrite Forall_lookup in Hl. specialize (Hl i d Hd).
    by rewrite (aged_status_spec _ _ _ _ Ht Hs Hl Hn).
  - unfold offline_count, online_count. pose proof (count_online_le (statuses m now)).
    assert (length (statuses m now) = length (dm_devices m)) by apply length_fmap. lia.
Qed.

Definition sample_manager : DeviceManager ModbusDevice :=
  mk_manager 5 5 [new_modbus sample_options; mb_set_status (mk_status 1 ModbusRtu true 90 0)
                                             (new_modbus sample_options)] 0 true 80.

Lemma statuses_spec_witness :
  ds_online <$> statuses sample_manager 95 = [false; true] ∧
  ds_online <$> statuses sample_manager 96 = [false; false] ∧
  (online_count sample_manager 95 + offline_count sample_manager 95 95 = 2)%nat.
Proof.
  split; [reflexivity |]. split; [reflexivity |].
  refine (proj2 (statuses_spec sample_manager 95 _ _ _ _));
    try (split; [discriminate | reflexivity]).
  repeat constructor; discriminate.
Defined.

(** The life of the manager. Devices are added in order until it is started;
    starting creates one worker per device; a second start and an addition while it
    runs change nothing; stopping stops every device, leaves no worker, and can be
    repeated; and the manager can be started again. *)
Lemma manager_lifecycle {D} (stop_device : D → D) reconnect heartbeat ds now now' d :
  let added := foldl dm_add (new_manager reconnect heartbeat) ds in
  let started := dm_start added now in
  let stopped := dm_stop stop_device started in
  dm_devices added = ds ∧
  dm_running started = true ∧ dm_workers started = length ds ∧ dm_started_at started = now ∧
  dm_start started now' = started ∧ dm_add started d = started ∧
  dm_devices stopped = stop_device <$> ds ∧ dm_running stopped = false ∧ dm_workers stopped = 0%nat ∧
  dm_stop stop_device stopped = stopped ∧
  dm_workers (dm_start stopped now') = length ds.
Proof.
  cbn zeta.
  assert (∀ ds (m : DeviceManager D), dm_running m = false →
    foldl dm_add m ds = mk_manager (dm_reconnect_interval m) (dm_heartbeat_timeout m)
                                   (dm_devices m ++ ds) (dm_workers m) false (dm_started_at m)) as Hadd.
  { clear. induction ds as [| x ds IH]; intros m Hr; cbn [foldl].
    - rewrite app_nil_r. destruct m. cbn in *. by subst.
    - unfold dm_add at 2. rewrite Hr, IH by done. cbn. by rewrite <-app_assoc. }
  rewrite (Hadd ds) by done. cbn. rewrite ?length_fmap. by split_and!.
Qed.
