(* ===== verification/Stopping.v ===== *)
(** * Stopping the device manager ([src/device/device_manager.cpp])

    [DeviceManager::stop] clears the flag of the workers and calls [stop] on each device
    while its worker may be starting, reading or stopping it. The descriptor of a device
    ([fd_] of [SerialPort], [socket_fd_] of [SocketCanDevice]) is a plain integer that both
    threads test, close and reset without a lock. Here each access to it and each system
    call is a step of its own; the flag and the status are atomic. The accesses are taken
    one after the other, as the hardware orders them; what a device reads is not followed. *)

From stdpp Require Import gmap relations.
From S2P Require Import Prelude Posix SerialPort.

Local Open Scope Z_scope.

(** ** The code *)

(** Who has opened a descriptor: the device, or another part of the process. *)
Inductive owner : Type := Device | Other.

#[export] Instance owner_eq_dec : EqDecision owner.
Proof. solve_decision. Defined.

(** Where a thread is in [if (fd_ >= 0) { close(fd_); fd_ = -1; }]: at the test, about to
    load the argument, about to make the call on the number it has loaded, at the reset. *)
Inductive closing : Type := AtTest | AtLoad | AtClose (fd : Z) | AtReset.

(** The open descriptors, and the calls of [close] on the device's member, each with the
    owner of the number at that time. *)
Abbreviation descriptors := (gmap Z owner).
Abbreviation close_call := (Z * option owner)%type.

(** A step of the closing sequence, from the member and the descriptors to the new ones,
    with the call it makes, and where it is then, if it has not ended. *)
Inductive close_step (fd : Z) (table : descriptors)
    : closing → Z → descriptors → list close_call → option closing → Prop :=
  | close_skips : fd < 0 → close_step fd table AtTest fd table [] None
  | close_goes : 0 <= fd → close_step fd table AtTest fd table [] (Some AtLoad)
  | close_loads : close_step fd table AtLoad fd table [] (Some (AtClose fd))
  | close_calls v : close_step fd table (AtClose v) fd (delete v table) [(v, table !! v)] (Some AtReset)
  | close_resets : close_step fd table AtReset (-1) table [] None.

(** The calls of the closing sequence on the worker: at the start of an opening, after a
    failure in it, in the [stop] of a failed read, in the [stop] of the manager after it,
    and at the end. *)
Inductive purpose : Type := ForOpen | ForFailure | ForRead | ForRestart | ForExit.

(** Where the worker is in [run_device]. *)
Inductive worker_pc : Type :=
  | WTest (started : bool)             (** [while (running_.load())] *)
  | WClosing (p : purpose) (c : closing)
  | WOpen                              (** [open(...)] or [socket(...)] *)
  | WStore (fd : Z)                    (** its result, not yet in [fd_] *)
  | WSetup                             (** the calls on the new descriptor *)
  | WOnline                            (** [status_.online = true] *)
  | WRead
  | WOffline (p : purpose)             (** [status_.online = false] *)
  | WFinished.

(** Where the main thread is in [DeviceManager::stop]. *)
Inductive main_pc : Type := MIdle | MClosing (c : closing) | MOffline | MJoin | MDone.

Record race : Type := mk_race {
  rc_running : bool;                   (** [running_] *)
  rc_fd : Z;                           (** [fd_] *)
  rc_table : descriptors;
  rc_online : bool;                    (** [status_.online] *)
  rc_closes : list close_call;
  rc_worker : worker_pc;
  rc_main : main_pc;
}.

Definition after_close (p : purpose) : worker_pc :=
  match p with
  | ForOpen => WOpen
  | ForFailure => WTest false
  | ForRead | ForRestart | ForExit => WOffline p
  end.

Definition after_offline (p : purpose) : worker_pc :=
  match p with
  | ForRead => WClosing ForRestart AtTest
  | ForExit => WFinished
  | _ => WTest false
  end.

(** The worker. An opening fails before the call (unsupported speed), in the call, or in
    the calls on the new descriptor; a read leaves the status in any state; a failed one
    has stopped the device or not. *)
Inductive worker_step : race → race → Prop :=
  | worker_goes started fd table on calls m :
      worker_step (mk_race true fd table on calls (WTest started) m)
        (mk_race true fd table on calls (if started : bool then WRead else WClosing ForOpen AtTest) m)
  | worker_exits started fd table on calls m :
      worker_step (mk_race false fd table on calls (WTest started) m)
        (mk_race false fd table on calls (WClosing ForExit AtTest) m)
  | worker_closes run fd table on calls p c m fd' table' call next :
      close_step fd table c fd' table' call next →
      worker_step (mk_race run fd table on calls (WClosing p c) m)
        (mk_race run fd' table' on (calls ++ call)
           (match next with Some c' => WClosing p c' | None => after_close p end) m)
  | worker_refuses run fd table on calls m :
      worker_step (mk_race run fd table on calls WOpen m) (mk_race run fd table on calls (WTest false) m)
  | worker_open_fails run fd table on calls m :
      worker_step (mk_race run fd table on calls WOpen m) (mk_race run fd table on calls (WStore (-1)) m)
  | worker_opens run fd table on calls m v :
      0 <= v → table !! v = None →
      worker_step (mk_race run fd table on calls WOpen m)
        (mk_race run fd (<[v := Device]> table) on calls (WStore v) m)
  | worker_stores run fd table on calls m v :
      worker_step (mk_race run fd table on calls (WStore v) m) (mk_race run v table on calls WSetup m)
  | worker_setup_lost run fd table on calls m :
      fd < 0 →
      worker_step (mk_race run fd table on calls WSetup m) (mk_race run fd table on calls (WTest false) m)
  | worker_setup_fails run fd table on calls m :
      worker_step (mk_race run fd table on calls WSetup m)
        (mk_race run fd table on calls (WClosing ForFailure AtTest) m)
  | worker_setup_done run fd table on calls m :
      worker_step (mk_race run fd table on calls WSetup m) (mk_race run fd table on calls WOnline m)
  | worker_online run fd table on calls m :
      worker_step (mk_race run fd table on calls WOnline m) (mk_race run fd table true calls WRead m)
  | worker_reads run fd table on calls m on' :
      worker_step (mk_race run fd table on calls WRead m) (mk_race run fd table on' calls (WTest true) m)
  | worker_read_fails run fd table on calls m (stopped : bool) :
      worker_step (mk_race run fd table on calls WRead m)
        (mk_race run fd table on calls (WClosing (if stopped then ForRead else ForRestart) AtTest) m)
  | worker_offline run fd table on calls p m :
      worker_step (mk_race run fd table on calls (WOffline p) m)
        (mk_race run fd table false calls (after_offline p) m).

(** The main thread: the flag is cleared, the device stopped, and the worker joined. *)
Inductive main_step : race → race → Prop :=
  | main_requests fd table on calls w :
      main_step (mk_race true fd table on calls w MIdle) (mk_race false fd table on calls w (MClosing AtTest))
  | main_closes run fd table on calls w c fd' table' call next :
      close_step fd table c fd' table' call next →
      main_step (mk_race run fd table on calls w (MClosing c))
        (mk_race run fd' table' on (calls ++ call) w
           (match next with Some c' => MClosing c' | None => MOffline end))
  | main_offline run fd table on calls w :
      main_step (mk_race run fd table on calls w MOffline) (mk_race run fd table false calls w MJoin)
  | main_joins run fd table on calls :
      main_step (mk_race run fd table on calls WFinished MJoin) (mk_race run fd table on calls WFinished MDone).

(** The other parts of the process open and close descriptors of their own; the kernel gives
    a number that is not in use. *)
Inductive others_step : race → race → Prop :=
  | others_open run fd table on calls w m v :
      0 <= v → table !! v = None →
      others_step (mk_race run fd table on calls w m) (mk_race run fd (<[v := Other]> table) on calls w m)
  | others_close run fd table on calls w m v :
      table !! v = Some Other →
      others_step (mk_race run fd table on calls w m) (mk_race run fd (delete v table) on calls w m).

Definition step (s s' : race) : Prop := worker_step s s' ∨ main_step s s' ∨ others_step s s'.

(** The device as the manager starts with it, in a process with other descriptors. *)
Definition race_start (table : descriptors) : race := mk_race true (-1) table false [] (WTest false) MIdle.

(** Closes of a number that was not the device's. *)
Definition stray (call : close_call) : Prop := call.2 ≠ Some Device.
Definition strays (calls : list close_call) : nat := length (filter stray calls).

(** Both threads are past the test of their closing sequences. *)
Definition past_test (c : closing) : Prop := c ≠ AtTest.
Definition overlap (s : race) : Prop :=
  match rc_worker s, rc_main s with
  | WClosing _ c, MClosing c' => past_test c ∧ past_test c'
  | _, _ => False
  end.

(** ** Facts *)

(** Run alone, the closing sequence is [close_port]. *)
Inductive closes_alone : Z → descriptors → closing → Z → descriptors → Prop :=
  | alone_ends fd table c fd' table' call :
      close_step fd table c fd' table' call None → closes_alone fd table c fd' table'
  | alone_more fd table c fd1 table1 call c1 fd' table' :
      close_step fd table c fd1 table1 call (Some c1) → closes_alone fd1 table1 c1 fd' table' →
      closes_alone fd table c fd' table'.

Lemma close_alone fd (table : descriptors) o :
  ∃ table', closes_alone fd table AtTest (if 0 <=? fd then -1 else fd) table' ∧
    fst (close_port fd o) = (if 0 <=? fd then -1 else fd) ∧
    table' = (if 0 <=? fd then delete fd table else table).
Proof.
  unfold close_port. destruct (Z.leb_spec 0 fd) as [Hfd | Hfd].
  - exists (delete fd table). split_and!; [| done | done].
    eapply alone_more; [by apply close_goes |]. eapply alone_more; [apply close_loads |].
    eapply alone_more; [apply close_calls |]. eapply alone_ends, close_resets.
  - exists table. split_and!; [| done | done]. eapply alone_ends. by apply close_skips.
Qed.

Definition device_open (s : race) : Prop := ∃ v, rc_table s !! v = Some Device.

Definition worker_at (s : race) : option closing := match rc_worker s with WClosing _ c => Some c | _ => None end.
Definition main_at (s : race) : option closing := match rc_main s with MClosing c => Some c | _ => None end.

(** The worker is in a start and the member has no new descriptor yet. *)
Definition pre_open (w : worker_pc) : Prop :=
  match w with WOpen | WStore _ | WClosing ForOpen _ => True | _ => False end.

(** The worker has closed the device, or found it closed. *)
Definition closed_pc (w : worker_pc) : Prop :=
  match w with
  | WTest false | WOpen | WStore _ | WOffline _ | WFinished | WClosing ForOpen _ => True
  | _ => False
  end.

(** The worker makes no further call on the number in the member. *)
Definition spent (s : race) : Prop :=
  worker_at s = Some AtReset ∨
  (rc_fd s < 0 ∧ match worker_at s with Some AtLoad | Some (AtClose _) => False | _ => True end).

(** The main thread is before its call of [close]. *)
Definition before_call (m : main_pc) : Prop :=
  match m with MIdle | MClosing AtTest | MClosing AtLoad | MClosing (AtClose _) => True | _ => False end.

(** What a thread that is closing knows of the descriptors. *)
Definition closing_ok (table : descriptors) (c : option closing) : Prop :=
  match c with
  | Some (AtClose v) => ∀ w, table !! w = Some Device → w = v
  | Some AtReset => ∀ w, table !! w ≠ Some Device
  | _ => True
  end.

(** No device of the worker's is left in the table without a name. *)
Definition known (s : race) (v : Z) : Prop := 0 <= v ∧ (rc_fd s = v ∨ rc_worker s = WStore v).

Record race_inv (s : race) : Prop := mk_race_inv {
  ri_member : ∀ v, rc_table s !! v = Some Device → known s v;
  ri_store : ∀ v, rc_worker s = WStore v → v < 0 ∨ rc_table s !! v = Some Device;
  ri_closed : closed_pc (rc_worker s) → rc_fd s < 0;
  ri_worker : closing_ok (rc_table s) (worker_at s);
  ri_main : closing_ok (rc_table s) (main_at s);
  ri_pre_open : pre_open (rc_worker s) → match main_at s with None | Some AtTest => True | _ => False end;
  ri_opening : match rc_worker s with WClosing ForOpen c => c = AtTest | _ => True end;
  ri_running : rc_running s = match rc_main s with MIdle => true | _ => false end;
  ri_call : before_call (rc_main s) → device_open s ∨ spent s;
  ri_strays : (strays (rc_closes s) <= 1)%nat;
  ri_stray : strays (rc_closes s) ≠ 0%nat →
             ¬ before_call (rc_main s) ∧ spent s ∧ ¬ pre_open (rc_worker s);
  ri_finished : rc_worker s = WFinished → rc_online s = false;
  ri_joined : rc_main s = MDone → rc_worker s = WFinished;
}.

Lemma strays_app a b : strays (a ++ b) = (strays a + strays b)%nat.
Proof. unfold strays. by rewrite filter_app, length_app. Qed.

Lemma strays_one v o : strays [(v, o)] = if decide (o = Some Device) then 0%nat else 1%nat.
Proof.
  unfold strays. case_decide; [rewrite filter_cons_False by (unfold stray; naive_solver) |
    rewrite filter_cons_True by (unfold stray; naive_solver)]; done.
Qed.

Lemma delete_device (table : descriptors) v w : delete v table !! w = Some Device → table !! w = Some Device.
Proof. rewrite lookup_delete_Some. naive_solver. Qed.

Lemma insert_other_device (table : descriptors) v w :
  <[v := Other]> table !! w = Some Device → table !! w = Some Device.
Proof. rewrite lookup_insert_Some. naive_solver. Qed.

Lemma race_start_inv table : (∀ v, table !! v ≠ Some Device) → race_inv (race_start table).
Proof.
  intros Ht. split; cbn; try done; try lia.
  - intros v Hv. by destruct (Ht v).
  - intros _. right. by right.
Qed.

(** The steps of the other parts touch neither the device's descriptor nor the threads. *)
Lemma others_race_inv s s' : others_step s s' → race_inv s → race_inv s'.
Proof.
  intros Hst H.
  assert (∀ v, rc_table s' !! v = Some Device ↔ rc_table s !! v = Some Device) as Ht.
  { intros v. destruct Hst; cbn; rewrite ?lookup_insert_Some, ?lookup_delete_Some; [naive_solver congruence |].
    split; [naive_solver |]. intros. split; [congruence | done]. }
  assert (∀ c, closing_ok (rc_table s) c → closing_ok (rc_table s') c) as Hc.
  { intros [[| | |]|]; cbn; try done; intros Hc; intros w Hw; apply Ht in Hw; by eapply Hc. }
  assert (device_open s → device_open s') as Ho by (intros [v Hv]; exists v; by apply Ht).
  destruct H as [H1 H2 H3 H4 H5 H6 H7 H8 H9 H10 H11 H12 H13].
  assert (∀ v, rc_worker s = WStore v → v < 0 ∨ rc_table s' !! v = Some Device) as H2'
    by (intros v Hv; rewrite Ht; by apply H2).
  assert (∀ v, rc_table s' !! v = Some Device → known s v) as H1' by (intros v Hv; by apply H1, Ht).
  clear H1 H2 Ht. apply Hc in H4, H5. clear Hc.
  destruct Hst; split; cbn in *; try done; intros; destruct H9; auto.
Qed.

Lemma closing_ok_delete table v c : closing_ok table c → closing_ok (delete v table) c.
Proof.
  destruct c as [[| | |]|]; cbn; try done; intros Hc w Hw; apply delete_device in Hw; by eapply Hc.
Qed.

Lemma pre_open_closed w : pre_open w → closed_pc w.
Proof. by destruct w as [| p c | | | | | | |]; [| destruct p | | | | | | |]. Qed.

(** Outside a start, the device's descriptor is the member. *)
Lemma member_device s v : race_inv s → ¬ pre_open (rc_worker s) → rc_table s !! v = Some Device → v = rc_fd s.
Proof. intros H Hp Hv. destruct (ri_member _ H v Hv) as (_ & [-> | Hw]); [done |]. rewrite Hw in Hp. by destruct Hp. Qed.

Arguments strays : simpl never.

Ltac race_unfold := unfold known, device_open, spent, worker_at, main_at in *; cbn in *.
Ltac race_inv_fields :=
  match goal with
  | H : race_inv _ |- _ => pose proof H as Hinv; destruct H as [H1 H2 H3 H4 H5 H6 H7 H8 H9 H10 H11 H12 H13]
  end; split; race_unfold; try done; rewrite ?app_nil_r; auto; try tauto.

Lemma main_race_inv s s' : main_step s s' → race_inv s → race_inv s'.
Proof.
  intros Hst H. destruct Hst as [| run fd table on calls w c fd' table' call next Hc | |].
  all: try destruct Hc; race_inv_fields.
  - intros Hp%pre_open_closed. specialize (H3 Hp). lia.
  - intros u. by apply (member_device _ u Hinv).
  - intros u Hu%delete_device. by apply H1.
  - intros u ->. by destruct H6.
  - by apply closing_ok_delete.
  - intros u Hu. pose proof (delete_device _ _ _ Hu) as Hu'. rewrite (H5 _ Hu') in Hu. by rewrite lookup_delete_eq in Hu.
  - rewrite strays_app, strays_one. destruct (decide (strays calls = 0%nat)); [case_decide; lia | tauto].
  - rewrite strays_app, strays_one. intros Hs. split_and!; [by intros [] | | exact H6].
    destruct (decide (strays calls = 0%nat)) as [Hc0 |]; [| tauto].
    destruct (H9 I) as [[u Hu] | Hsp]; [| done]. rewrite (H5 _ Hu) in Hu.
    rewrite Hc0, decide_True in Hs by done. by destruct Hs.
  - intros u Hu. by destruct (H5 u).
  - intros Hs. destruct (H11 Hs) as (Hm & Hsp & Hp). split_and!; [by intros [] | | exact Hp].
    destruct Hsp as [| [_ Hsp]]; [by left | right]. done.
Qed.

Lemma worker_race_inv s s' : worker_step s s' → race_inv s → race_inv s'.
Proof.
  intros Hst H. destruct Hst as [started | | run fd table on calls p c m fd' table' call next Hc | |
    | run fd table on calls m v Hv Hn | | run fd table on calls m Hneg | | | | | | ? ? ? ? ? p].
  all: try destruct Hc as [Hneg | Hpos | | |].
  all: try destruct started; try destruct p; try destruct stopped; race_inv_fields; try by intros ?%H13.
  all: try by intros u Hu; destruct (H1 u Hu) as (? & [-> | [=]]); auto.
  all: try by intros u Hu%delete_device; destruct (H1 u Hu) as (? & [-> | [=]]); auto.
  all: try by apply closing_ok_delete.
  all: try by intros u Hu; apply (member_device _ u Hinv); [by intros [] |].
  all: try by intros u Hu; pose proof (delete_device _ _ _ Hu) as Hu'; rewrite (H4 _ Hu') in Hu;
    rewrite lookup_delete_eq in Hu.
  all: try by intros Hb; destruct (H9 Hb) as [Hd | [[=] | [? []]]]; by left.
  all: try by intros Hb; destruct (H9 Hb) as [Hd | [[=] | [? _]]]; [by left | lia].
  all: try by intros u Hu; destruct (H4 u).
  all: try by intros _; right; right.
  all: try by intros Hs; destruct (H11 Hs) as (Hm & [[=] | [? []]] & Hp).
  all: try by intros Hs; destruct (H11 Hs) as (Hm & [[=] | [? _]] & Hp); lia.
  all: try by intros Hs; destruct (H11 Hs) as (Hm & [? | [? _]] & Hp); (split_and!;
    [done | first [by left | by right | discriminate] | tauto]).
  all: try by destruct m.
  all: try by intros Hs; destruct m; destruct (H11 Hs) as [[] _].
  all: try (assert (strays calls = 0%nat) as Hc0
      by (by destruct (decide (strays calls = 0%nat)) as [| Hs]; [| destruct (H11 Hs) as (_ & [[=] | [? []]] & _)]);
    rewrite strays_app, strays_one, Hc0; try by case_decide; lia).
  all: try (case_decide as Hd; [done |]; intros _; split_and!; [intros Hb | by left | by intros []];
    by destruct (H9 Hb) as [[u Hu] | [[=] | [? []]]]; rewrite <- (H4 _ Hu) in Hd).
  - specialize (H3 I). lia.
  - intros u [= <-]. by left.
  - intros u [[<- _] | [_ Hu]]%lookup_insert_Some; [auto |]. destruct (H1 u Hu) as (Hu0 & [<- | [=]]).
    specialize (H3 I). lia.
  - intros u [= <-]. right. apply lookup_insert_eq.
  - by destruct m as [| [] | | |]; cbn in *; try tauto.
  - intros u Hu. destruct (H1 u Hu) as (Hu0 & [<- | [= <-]]); [specialize (H3 I); lia | auto].
  - intros _. destruct (H2 v eq_refl); [right; by right | left; by eexists].
Qed.

Lemma steps_inv s s' : rtc step s s' → race_inv s → race_inv s'.
Proof.
  induction 1 as [| s1 s2 s3 [Hw | [Hm | Ho]] _ IH]; [done | | |]; intros H; apply IH.
  - by eapply worker_race_inv.
  - by eapply main_race_inv.
  - by eapply others_race_inv.
Qed.

(** Runs in which the threads are never both past the test. *)
Definition calm (s s' : race) : Prop := step s s' ∧ ¬ overlap s ∧ ¬ overlap s'.

(** Then a thread that is about to call [close] finds the device open. *)
Record calm_inv (s : race) : Prop := mk_calm_inv {
  ci_fd : 0 <= rc_fd s → device_open s ∨ worker_at s = Some AtReset ∨ main_at s = Some AtReset;
  ci_worker : match worker_at s with Some AtLoad | Some (AtClose _) => device_open s | _ => True end;
  ci_main : match main_at s with Some AtLoad | Some (AtClose _) => device_open s | _ => True end;
  ci_strays : strays (rc_closes s) = 0%nat;
}.

Lemma calm_start table : calm_inv (race_start table).
Proof. by split; cbn. Qed.

Lemma calm_call table v calls :
  closing_ok table (Some (AtClose v)) → (∃ w, table !! w = Some Device) → strays calls = 0%nat →
  strays (calls ++ [(v, table !! v)]) = 0%nat.
Proof.
  intros Hc [w Hw] Hs. rewrite (Hc _ Hw) in Hw. by rewrite strays_app, strays_one, Hs, decide_True.
Qed.

Ltac calm_fields := split; race_unfold; try done; rewrite ?app_nil_r; auto; try tauto.

Lemma calm_worker s s' : worker_step s s' → ¬ overlap s → ¬ overlap s' → race_inv s → calm_inv s → calm_inv s'.
Proof.
  intros Hst Hq Hq' H [C1 C2 C3 C4]. pose proof (ri_store _ H) as Hstore. pose proof (ri_worker _ H) as Hw. clear H.
  unfold overlap, past_test in *.
  destruct Hst as [started | | run fd table on calls p c m fd' table' call next Hc | |
    | run fd table on calls m v Hv Hn | | run fd table on calls m Hneg | | | | | | ? ? ? ? ? p].
  all: try destruct Hc as [Hneg | Hpos | | |]; try destruct started; try destruct p; calm_fields.
  all: try by intros Hf; destruct (C1 Hf) as [| [[=] |]]; auto.
  all: try by intros Hf; destruct (Hstore v eq_refl); [lia | left; by eexists].
  all: try by intros _; left; exists v; apply lookup_insert_eq.
  all: try by eapply calm_call.
  all: try by destruct m as [| [] | | |]; try done; destruct Hq.
  all: try by destruct (C1 Hpos) as [| [[=] | Hm]]; [done | destruct m as [| c | | |]; simplify_eq; destruct Hq'].
  all: try by destruct m as [| [] | | |]; try done; exists v; apply lookup_insert_eq.
Qed.

Lemma calm_main s s' : main_step s s' → ¬ overlap s → ¬ overlap s' → race_inv s → calm_inv s → calm_inv s'.
Proof.
  intros Hst Hq Hq' H [C1 C2 C3 C4]. pose proof (ri_main _ H) as Hm. clear H. unfold overlap, past_test in *.
  destruct Hst as [| run fd table on calls w c fd' table' call next Hc | |].
  all: try destruct Hc as [Hneg | Hpos | | |]; calm_fields.
  all: try by intros Hf; destruct (C1 Hf) as [| [| [=]]]; auto.
  all: try by eapply calm_call.
  all: try by destruct w as [| ? [] | | | | | | |]; try done; destruct Hq.
  all: try by destruct (C1 Hpos) as [| [Hw | [=]]]; [done | destruct w; simplify_eq; destruct Hq'].
Qed.

Lemma calm_others s s' : others_step s s' → calm_inv s → calm_inv s'.
Proof.
  intros Hst [C1 C2 C3 C4].
  assert (device_open s → device_open s') as Ho.
  { intros [v Hv]. exists v. destruct Hst; cbn in *; [rewrite lookup_insert_ne | rewrite lookup_delete_ne]; congruence. }
  destruct Hst; split; race_unfold; auto.
  all: try by intros Hf; destruct (C1 Hf) as [| [|]]; auto.
  all: try by destruct w as [| ? [] | | | | | | |]; auto.
  all: try by destruct m as [| [] | | |]; auto.
Qed.

Lemma calm_steps table s : (∀ v, table !! v ≠ Some Device) → rtc calm (race_start table) s → race_inv s ∧ calm_inv s.
Proof.
  intros Ht. assert (race_inv (race_start table) ∧ calm_inv (race_start table)) as H0
    by (split; [by apply race_start_inv | apply calm_start]).
  induction 1 as [| s1 s2 s3 (Hst & Hq & Hq') _ IH]; [done |]. destruct H0 as [H C]. apply IH.
  split; [apply (steps_inv s1); [by apply rtc_once | done] |].
  destruct Hst as [Hw | [Hm | Ho]]; [by eapply calm_worker | by eapply calm_main | by eapply calm_others].
Qed.

(** ** The worker after the flag is cleared *)

Definition closing_rank (c : closing) : nat :=
  match c with AtTest => 4 | AtLoad => 3 | AtClose _ => 2 | AtReset => 1 end.

(** The steps the worker has left at most. *)
Definition worker_rank (w : worker_pc) : nat :=
  match w with
  | WFinished => 0
  | WOffline ForExit => 1
  | WClosing ForExit c => 1 + closing_rank c
  | WTest _ => 6
  | WOffline ForRead => 12
  | WOffline _ => 7
  | WClosing ForRestart c => 7 + closing_rank c
  | WClosing ForRead c => 12 + closing_rank c
  | WRead => 17
  | WOnline => 18
  | WClosing ForFailure c => 6 + closing_rank c
  | WSetup => 19
  | WStore _ => 20
  | WOpen => 21
  | WClosing ForOpen c => 21 + closing_rank c
  end.

Lemma worker_rank_bound w : (worker_rank w <= 25)%nat.
Proof. destruct w as [| [] [] | | | | | | [] |]; cbn; lia. Qed.

(** The sequences of steps in which the worker makes [n]. *)
Inductive worker_steps : nat → race → race → Prop :=
  | steps_none s : worker_steps 0 s s
  | steps_own n s s1 s' : worker_step s s1 → worker_steps n s1 s' → worker_steps (S n) s s'
  | steps_other n s s1 s' : main_step s s1 ∨ others_step s s1 → worker_steps n s1 s' → worker_steps n s s'.

Lemma worker_step_rank s s' :
  worker_step s s' → rc_running s = false →
  rc_running s' = false ∧ (worker_rank (rc_worker s') < worker_rank (rc_worker s))%nat.
Proof.
  intros Hst Hr. destruct Hst as [| | ? ? ? ? ? p ? ? ? ? ? ? Hc | | | | | | | | | | ? ? ? ? ? ? stopped | ? ? ? ? ? p];
    cbn in *; try done; (split; [done |]); try lia.
  - destruct Hc; destruct p; cbn; lia.
  - destruct stopped; cbn; lia.
  - destruct p; cbn; lia.
Qed.

Lemma other_step_rank s s' :
  main_step s s' ∨ others_step s s' → rc_running s = false →
  rc_running s' = false ∧ rc_worker s' = rc_worker s.
Proof. by intros [[] | []] Hr; cbn in *. Qed.

Lemma worker_steps_bound n s s' :
  worker_steps n s s' → rc_running s = false → (n <= worker_rank (rc_worker s))%nat.
Proof.
  induction 1 as [| n s s1 s' Hst _ IH | n s s1 s' Hst _ IH]; intros Hr; [lia | |].
  - destruct (worker_step_rank _ _ Hst Hr) as [Hr' Hlt]. specialize (IH Hr'). lia.
  - destruct (other_step_rank _ _ Hst Hr) as [Hr' <-]. by apply IH.
Qed.

Lemma close_goes_on fd table c : ∃ fd' table' call next, close_step fd table c fd' table' call next.
Proof.
  destruct c; [destruct (Z.lt_ge_cases fd 0) | | |]; repeat eexists; try done.
  all: by constructor.
Qed.

(** The worker always has a step; a blocking call is one that has not been made yet. *)
Lemma worker_moves s : rc_worker s ≠ WFinished → ∃ s', worker_step s s'.
Proof.
  destruct s as [run fd table on calls w m]. destruct w as [started | p c | | v | | | | p |]; intros Hn; cbn in *; try done.
  - destruct run; eexists; constructor.
  - destruct (close_goes_on fd table c) as (fd' & table' & call & next & Hc). eexists. by apply worker_closes.
  - eexists. apply worker_open_fails.
  - eexists. apply worker_stores.
  - eexists. apply worker_setup_fails.
  - eexists. apply worker_online.
  - eexists. by apply (worker_reads _ _ _ _ _ _ false).
  - eexists. apply worker_offline.
Qed.

(** The main thread waits in the join only. *)
Lemma main_moves s :
  race_inv s → rc_main s = MDone ∨ (rc_main s = MJoin ∧ rc_worker s ≠ WFinished) ∨ ∃ s', main_step s s'.
Proof.
  intros H. pose proof (ri_running _ H) as Hr. clear H. destruct s as [run fd table on calls w m].
  destruct m as [| c | | |]; cbn in *; subst; auto.
  - right. right. eexists. constructor.
  - right. right. destruct (close_goes_on fd table c) as (fd' & table' & call & next & Hc). eexists. by apply main_closes.
  - right. right. eexists. constructor.
  - destruct w; try by right; left. right. right. eexists. constructor.
Qed.

(** ** A run in which both threads close *)

Lemma free_descriptor (table : descriptors) : ∃ v, 0 <= v ∧ table !! v = None.
Proof.
  set (used := set_map Z.to_nat (dom table) : gset nat). exists (Z.of_nat (fresh used)). split; [lia |].
  apply not_elem_of_dom. intros Hin. apply (is_fresh used). apply elem_of_map. exists (Z.of_nat (fresh used)).
  split; [by rewrite Nat2Z.id | done].
Qed.

Lemma by_worker s s1 s' : worker_step s s1 → rtc step s1 s' → rtc step s s'.
Proof. intros H. apply rtc_l. by left. Qed.

Lemma by_main s s1 s' : main_step s s1 → rtc step s1 s' → rtc step s s'.
Proof. intros H. apply rtc_l. by right; left. Qed.

Lemma by_others s s1 s' : others_step s s1 → rtc step s1 s' → rtc step s s'.
Proof. intros H. apply rtc_l. by right; right. Qed.

(** The device is open and the worker reads. *)
Lemma reaches_read table v :
  0 <= v → table !! v = None →
  rtc step (race_start table) (mk_race true v (<[v := Device]> table) true [] WRead MIdle).
Proof.
  intros Hv Hn. unfold race_start.
  eapply by_worker; [apply worker_goes |]. eapply by_worker; [by apply worker_closes, close_skips |].
  eapply by_worker; [by apply worker_opens |]. eapply by_worker; [apply worker_stores |].
  eapply by_worker; [apply worker_setup_done |]. eapply by_worker; [apply worker_online |]. apply rtc_refl.
Qed.

(** The stop is requested during a read, both threads load the descriptor, the main thread
    closes it, another part of the process is given its number, and the worker closes that. *)
Lemma closes_twice (table : descriptors) v :
  0 <= v → table !! v = None →
  rtc step (race_start table)
    (mk_race false v (delete v (<[v := Other]> (delete v (<[v := Device]> table)))) true
       [(v, Some Device); (v, Some Other)] (WClosing ForExit AtReset) (MClosing AtReset)).
Proof.
  intros Hv Hn. etransitivity; [by apply (reaches_read _ v) |].
  eapply by_main; [apply main_requests |].
  eapply by_worker; [apply (worker_reads _ _ _ _ _ _ true) |]. eapply by_worker; [apply worker_exits |].
  eapply by_worker; [by apply worker_closes, close_goes |]. eapply by_main; [by apply main_closes, close_goes |].
  eapply by_worker; [by apply worker_closes, close_loads |]. eapply by_main; [by apply main_closes, close_loads |].
  eapply by_main; [by apply main_closes, close_calls |].
  eapply by_others; [apply (others_open _ _ _ _ _ _ _ v); [done | apply lookup_delete_eq] |].
  eapply by_worker; [by apply worker_closes, close_calls |].
  rewrite lookup_insert_eq, lookup_insert_eq. apply rtc_refl.
Qed.

(** ** The property *)

(** C19: [DeviceManager::stop] against a running worker, in every interleaving of their
    accesses to the descriptor and of what the rest of the process opens and closes: the
    device never has two open descriptors; while the flag is set, and in every run in which
    the two closing sequences do not overlap, each close is of the device's own descriptor,
    and otherwise at most one is not; once the flag is cleared the worker makes at most 25
    further steps and always has one (a read that blocks is a step not made yet), the main
    thread waits in the join only and returns after the worker, and then the device is
    closed and offline. The overlap is real: there
    is a run in which the second of two closes hits a descriptor of another part. *)
Theorem manager_stop table s :
  (∀ v, table !! v ≠ Some Device) → rtc step (race_start table) s →
  (∀ v w, rc_table s !! v = Some Device → rc_table s !! w = Some Device → v = w) ∧
  (strays (rc_closes s) <= 1)%nat ∧
  (rc_running s = true → strays (rc_closes s) = 0%nat) ∧
  (rtc calm (race_start table) s → strays (rc_closes s) = 0%nat) ∧
  (rc_running s = false →
     (∀ n s', worker_steps n s s' → (n <= 25)%nat) ∧ (rc_worker s ≠ WFinished → ∃ s', worker_step s s')) ∧
  (rc_main s = MDone ∨ (rc_main s = MJoin ∧ rc_worker s ≠ WFinished) ∨ ∃ s', main_step s s') ∧
  (rc_main s = MDone → rc_worker s = WFinished) ∧
  (rc_worker s = WFinished →
     rc_fd s < 0 ∧ rc_online s = false ∧ ∀ v, rc_table s !! v ≠ Some Device) ∧
  (∃ s' v, rtc step (race_start table) s' ∧ (v, Some Other) ∈ rc_closes s').
Proof.
  intros Ht Hs. pose proof (steps_inv _ _ Hs (race_start_inv _ Ht)) as H. split_and!.
  - intros v w Hv Hw. destruct (ri_member _ H v Hv) as (Hv0 & Hv1), (ri_member _ H w Hw) as (Hw0 & Hw1).
    pose proof (ri_closed _ H) as Hc. destruct Hv1 as [<- | Hv1], Hw1 as [<- | Hw1]; [done | | | congruence].
    + rewrite Hw1 in Hc. specialize (Hc I). lia.
    + rewrite Hv1 in Hc. specialize (Hc I). lia.
  - apply H.
  - intros Hr. rewrite (ri_running _ H) in Hr. destruct (decide (strays (rc_closes s) = 0%nat)) as [| Hn]; [done |].
    destruct (ri_stray _ H Hn) as [Hm _].
    destruct (rc_main s); try done; by destruct Hm.
  - intros Hcalm. by apply (calm_steps table s Ht Hcalm).
  - intros Hr. split; [| apply worker_moves]. intros n s' Hn.
    pose proof (worker_steps_bound _ _ _ Hn Hr). pose proof (worker_rank_bound (rc_worker s)). lia.
  - by apply main_moves.
  - apply (ri_joined _ H).
  - intros Hw. pose proof (ri_closed _ H) as Hc. rewrite Hw in Hc. specialize (Hc I).
    split_and!; [done | by apply (ri_finished _ H) |]. intros v Hv.
    destruct (ri_member _ H v Hv) as (Hv0 & [<- | Hx]); [lia | congruence].
  - destruct (free_descriptor table) as (v & Hv & Hn). eexists _, v. split; [by apply (closes_twice table v) |].
    cbn. by right; left.
Qed.

(** Descriptor 3 belongs to the rest of the process and the device is given 4; the run ends
    with two closes of 4. *)
Lemma manager_stop_witness :
  ∃ s, rtc step (race_start {[3 := Other]}) s ∧ rc_closes s = [(4, Some Device); (4, Some Other)] ∧
    strays (rc_closes s) = 1%nat ∧ (strays (rc_closes s) <= 1)%nat ∧
    (∀ n s', worker_steps n s s' → (n <= 25)%nat).
Proof.
  assert ((∀ v, ({[3 := Other]} : descriptors) !! v ≠ Some Device)) as Ht
    by (intros v Hv; by apply lookup_singleton_Some in Hv as [_ [=]]).
  eexists. split; [apply (closes_twice {[3 := Other]} 4); [done | by vm_compute] |].
  edestruct (manager_stop _ _ Ht (closes_twice {[3 := Other]} 4 ltac:(done) ltac:(by vm_compute)))
    as (_ & Hone & _ & _ & Hflag & _).
  split_and!; [done | done | exact Hone | apply Hflag; done].
Defined.
