(* ===== verification/RuntimeMetrics.v ===== *)
(** * Runtime metrics ([src/app/runtime_metrics.cpp])

    The counters of the gateway, updated by any thread, and their text in the
    Prometheus exposition format. *)

From S2P Require Import Prelude Text.

Local Open Scope Z_scope.

(** ** The code *)

(** The atomic members of [RuntimeMetrics]. *)
Inductive counter : Type :=
  | SerialWorkerCount | FramesParsed | FramesInvalid | CrcErrors
  | LengthErrors | MqttPublishSuccess | MqttPublishFailed | TcpPublishSuccess
  | TcpPublishFailed | CacheDepth | CacheEnqueue | CacheFlushAttempt
  | DeviceOnline | DeviceOffline | ProtocolErrors | ModbusErrors
  | CanErrors.

#[export] Instance counter_eq_dec : EqDecision counter.
Proof. solve_decision. Defined.

(** Each member is a 64-bit unsigned integer. *)
Record RuntimeMetrics : Type := mk_metrics {
  started_at_seconds : Z;
  value : counter → Z;
}.

Definition new_metrics (now : Z) : RuntimeMetrics := mk_metrics now (λ _, 0).

(** [store] and [fetch_add] of one member. *)
Definition store (c : counter) (v : Z) (m : RuntimeMetrics) : RuntimeMetrics :=
  mk_metrics (started_at_seconds m) (λ c', if decide (c' = c) then u64 v else value m c').
Definition fetch_add (c : counter) (n : Z) (m : RuntimeMetrics) : RuntimeMetrics :=
  mk_metrics (started_at_seconds m)
             (λ c', if decide (c' = c) then u64 (value m c' + n) else value m c').

Definition uptime_seconds (m : RuntimeMetrics) (now : Z) : Z := u64 (now - started_at_seconds m).

Definition set_serial_worker_count (count : Z) := store SerialWorkerCount count.
Definition record_frames_parsed (count : Z) := fetch_add FramesParsed count.
Definition record_frames_invalid (count : Z) := fetch_add FramesInvalid count.
Definition record_crc_errors (count : Z) := fetch_add CrcErrors count.
Definition record_length_errors (count : Z) := fetch_add LengthErrors count.
Definition record_mqtt_publish_success (count : Z) := fetch_add MqttPublishSuccess count.
Definition record_mqtt_publish_failed (count : Z) := fetch_add MqttPublishFailed count.
Definition record_tcp_publish_success (count : Z) := fetch_add TcpPublishSuccess count.
Definition record_tcp_publish_failed (count : Z) := fetch_add TcpPublishFailed count.
Definition set_cache_depth (depth : Z) := store CacheDepth depth.
Definition record_cache_enqueue (count : Z) := fetch_add CacheEnqueue count.
Definition record_cache_flush_attempt (count : Z) := fetch_add CacheFlushAttempt count.
Definition set_device_counts (online offline : Z) (m : RuntimeMetrics) : RuntimeMetrics :=
  store DeviceOffline offline (store DeviceOnline online m).
Definition record_protocol_error (count : Z) := fetch_add ProtocolErrors count.
Definition record_modbus_error (count : Z) := fetch_add ModbusErrors count.
Definition record_can_error (count : Z) := fetch_add CanErrors count.

Definition write_metric (name type help : string) (v : Z) : string :=
  "# HELP " +:+ name +:+ " " +:+ help +:+ nl
  +:+ "# TYPE " +:+ name +:+ " " +:+ type +:+ nl
  +:+ name +:+ " " +:+ dec v +:+ nl.

Definition render_prometheus (m : RuntimeMetrics) (now : Z) : string :=
  write_metric "iot_gateway_uptime_seconds" "gauge"
    "Seconds since the gateway process initialized runtime metrics." (uptime_seconds m now) +:+
  write_metric "iot_gateway_serial_worker_count" "gauge"
    "Configured serial worker threads." (value m SerialWorkerCount) +:+
  write_metric "iot_gateway_frames_parsed_total" "counter"
    "Protocol frames accepted by the frame parser." (value m FramesParsed) +:+
  write_metric "iot_gateway_frames_invalid_total" "counter"
    "Protocol frames rejected for CRC or length errors." (value m FramesInvalid) +:+
  write_metric "iot_gateway_crc_errors_total" "counter"
    "Frames rejected by CRC16-Modbus validation." (value m CrcErrors) +:+
  write_metric "iot_gateway_length_errors_total" "counter"
    "Frames rejected for an invalid payload length." (value m LengthErrors) +:+
  write_metric "iot_gateway_mqtt_publish_success_total" "counter"
    "MQTT publish attempts acknowledged by the client." (value m MqttPublishSuccess) +:+
  write_metric "iot_gateway_mqtt_publish_failed_total" "counter"
    "MQTT publish attempts that were not accepted by the broker." (value m MqttPublishFailed) +:+
  write_metric "iot_gateway_tcp_publish_success_total" "counter"
    "TCP JSON Lines messages sent successfully." (value m TcpPublishSuccess) +:+
  write_metric "iot_gateway_tcp_publish_failed_total" "counter"
    "TCP JSON Lines send attempts that failed." (value m TcpPublishFailed) +:+
  write_metric "iot_gateway_cache_depth" "gauge"
    "Messages currently retained in the MQTT offline cache." (value m CacheDepth) +:+
  write_metric "iot_gateway_cache_enqueue_total" "counter"
    "Messages appended to the MQTT offline cache." (value m CacheEnqueue) +:+
  write_metric "iot_gateway_cache_flush_attempt_total" "counter"
    "Offline cache replay passes attempted." (value m CacheFlushAttempt) +:+
  write_metric "gateway_device_online_total" "gauge"
    "Devices currently considered online." (value m DeviceOnline) +:+
  write_metric "gateway_device_offline_total" "gauge"
    "Devices currently considered offline." (value m DeviceOffline) +:+
  write_metric "gateway_protocol_error_total" "counter"
    "Input protocol errors reported by device adapters." (value m ProtocolErrors) +:+
  write_metric "gateway_modbus_error_total" "counter"
    "Modbus RTU timeout, transport, and response errors." (value m ModbusErrors) +:+
  write_metric "gateway_can_error_total" "counter"
    "SocketCAN transport and CAN payload errors." (value m CanErrors).

(** ** Reading the exposition format *)

(** A line of the format: a comment, or a name and a value. *)
Definition sample (line : string) : option (string * string) :=
  match line with
  | String c _ => if Ascii.eqb c "#"%char then None else cut " "%char line
  | EmptyString => None
  end.

Definition scrape (text : string) : list (string * string) := omap sample (lines text).

(** A metric name: no space, no new line, not a comment. *)
Definition metric_name (name : string) : bool :=
  match name with
  | String c _ => negb (Ascii.eqb c "#"%char) && lacks " "%char name && lacks nl_char name
  | EmptyString => false
  end.

Lemma scrape_metric name type help v rest :
  metric_name name = true → lacks nl_char help = true → lacks nl_char type = true →
  scrape (write_metric name type help v +:+ rest) = (name, dec v) :: scrape rest.
Proof.
  intros Hn Hh Ht. unfold scrape, write_metric.
  destruct name as [| c name']; [discriminate |]. set (name := String c name') in *.
  unfold metric_name in Hn. fold name in Hn. apply andb_true_iff in Hn as [Hn Hnl].
  apply andb_true_iff in Hn as [Hc Hsp].
  assert (lacks nl_char (dec v) = true) as Hv by by apply lacks_dec.
  rewrite !string_app_assoc.
  replace ("# HELP " +:+ name +:+ " " +:+ help +:+ nl +:+ _)
    with (("# HELP " +:+ name +:+ " " +:+ help) +:+ nl
          +:+ ("# TYPE " +:+ name +:+ " " +:+ type) +:+ nl
          +:+ (name +:+ " " +:+ dec v) +:+ nl +:+ rest) by by rewrite !string_app_assoc.
  rewrite !lines_line by (rewrite !lacks_app, ?Hnl, ?Hh, ?Ht, ?Hv; done).
  cbn [omap list_omap]. change (sample ("# HELP " +:+ _)) with (@None (string * string)).
  change (sample ("# TYPE " +:+ _)) with (@None (string * string)). cbn iota.
  assert (sample (name +:+ " " +:+ dec v) = Some (name, dec v)) as ->; [| done].
  change (" " +:+ dec v) with (String " "%char (dec v)).
  rewrite <-(cut_app " "%char name (dec v) Hsp). unfold name.
  change (String c name' +:+ String " "%char (dec v))
    with (String c (name' +:+ String " "%char (dec v))).
  unfold sample. by destruct (Ascii.eqb c "#"%char).
Qed.

(** ** Updates *)

(** One update of a member by some thread. *)
Inductive update : Type :=
  | Add (c : counter) (n : Z)
  | Set_ (c : counter) (v : Z).

Definition apply_update (m : RuntimeMetrics) (u : update) : RuntimeMetrics :=
  match u with Add c n => fetch_add c n m | Set_ c v => store c v m end.

Definition added_to (c : counter) (u : update) : Z :=
  match u with Add c' n => if decide (c' = c) then n else 0 | Set_ _ _ => 0 end.
Definition total_added (c : counter) (us : list update) : Z :=
  foldr (λ u, Z.add (added_to c u)) 0 us.
Definition stores_to (c : counter) (u : update) : Prop :=
  match u with Set_ c' _ => c' = c | Add _ _ => False end.

Definition metrics_wf (m : RuntimeMetrics) : Prop := ∀ c, 0 <= value m c < 2 ^ 64.

Lemma u64_bound z : 0 <= u64 z < 2 ^ 64.
Proof. apply Z.mod_pos_bound. lia. Qed.

Lemma apply_update_wf m u : metrics_wf m → metrics_wf (apply_update m u).
Proof.
  intros Hm c. destruct u; cbn [apply_update fetch_add store value]; case_decide;
    try apply u64_bound; apply Hm.
Qed.

Lemma updates_wf us m : metrics_wf m → metrics_wf (foldl apply_update m us).
Proof. revert m. induction us as [| u us IH]; intros m Hm; [done |]. by apply IH, apply_update_wf. Qed.

(** Without a store, a counter holds the sum of what was added, modulo 2^64. *)
Lemma updates_value c us m :
  metrics_wf m → Forall (λ u, ¬ stores_to c u) us →
  value (foldl apply_update m us) c = u64 (value m c + total_added c us).
Proof.
  revert m. induction us as [| u us IH]; intros m Hm Hs; cbn [foldl total_added foldr].
  { rewrite Z.add_0_r. symmetry. apply Z.mod_small, Hm. }
  apply Forall_cons in Hs as [Hu Hs]. rewrite IH by (done || by apply apply_update_wf).
  fold (total_added c us). destruct u as [c' n | c' v]; cbn [apply_update fetch_add store value added_to].
  - destruct (decide (c = c')) as [<- | Hne].
    + rewrite decide_True by done. unfold u64, wrap. rewrite Zplus_mod_idemp_l. f_equal. lia.
    + rewrite decide_False by done. f_equal.
  - rewrite decide_False; [done |]. intros ->. by apply Hu.
Qed.

Lemma total_added_perm c us us' : us ≡ₚ us' → total_added c us = total_added c us'.
Proof. unfold total_added. induction 1; cbn [foldr]; lia. Qed.

(** ** Properties *)

(** The exposition text is well-formed: reading it back line by line yields
    every metric once, in order, with the decimal value of its member, and the
    uptime. *)
Lemma render_scrape m now :
  scrape (render_prometheus m now) =
  [("iot_gateway_uptime_seconds", dec (uptime_seconds m now));
   ("iot_gateway_serial_worker_count", dec (value m SerialWorkerCount));
   ("iot_gateway_frames_parsed_total", dec (value m FramesParsed));
   ("iot_gateway_frames_invalid_total", dec (value m FramesInvalid));
   ("iot_gateway_crc_errors_total", dec (value m CrcErrors));
   ("iot_gateway_length_errors_total", dec (value m LengthErrors));
   ("iot_gateway_mqtt_publish_success_total", dec (value m MqttPublishSuccess));
   ("iot_gateway_mqtt_publish_failed_total", dec (value m MqttPublishFailed));
   ("iot_gateway_tcp_publish_success_total", dec (value m TcpPublishSuccess));
   ("iot_gateway_tcp_publish_failed_total", dec (value m TcpPublishFailed));
   ("iot_gateway_cache_depth", dec (value m CacheDepth));
   ("iot_gateway_cache_enqueue_total", dec (value m CacheEnqueue));
   ("iot_gateway_cache_flush_attempt_total", dec (value m CacheFlushAttempt));
   ("gateway_device_online_total", dec (value m DeviceOnline));
   ("gateway_device_offline_total", dec (value m DeviceOffline));
   ("gateway_protocol_error_total", dec (value m ProtocolErrors));
   ("gateway_modbus_error_total", dec (value m ModbusErrors));
   ("gateway_can_error_total", dec (value m CanErrors))].
Proof.
  unfold render_prometheus. rewrite <-(string_app_nil_r (write_metric "gateway_can_error_total" _ _ _)).
  by rewrite !scrape_metric by reflexivity.
Qed.

(** Concurrent updates are never lost. Whatever the order in which the threads'
    updates take effect, a counter to which nothing is stored ends at its initial
    value plus everything added to it, modulo 2^64. *)
Lemma updates_commute m us us' c :
  metrics_wf m → us ≡ₚ us' → Forall (λ u, ¬ stores_to c u) us →
  value (foldl apply_update m us') c = u64 (value m c + total_added c us) ∧
  metrics_wf (foldl apply_update m us').
Proof.
  intros Hm Hp Hs. split; [| by apply updates_wf].
  rewrite (total_added_perm c us us' Hp). apply updates_value; [done |]. by rewrite <-Hp.
Qed.

