(* ===== verification/TcpClient.v ===== *)
(** * The TCP client ([src/tcp/tcp_client.cpp])

    JSON lines over a connection that is opened when needed and closed after a
    failed send. *)

From stdpp Require Import gmap.
From S2P Require Import Prelude Text Posix.

Local Open Scope Z_scope.

(** ** The code *)

(** One address of [getaddrinfo]: the results of [socket] and [connect]. *)
Record candidate : Type := mk_candidate {
  cd_socket : Z;
  cd_connect_ok : bool;
}.

Definition TcpClient : Type := Z.    (** [socket_fd_] *)

Definition is_connected (fd : TcpClient) : bool := 0 <=? fd.

Definition disconnect (fd : TcpClient) (o : os) : TcpClient * os :=
  if negb (is_connected fd) then (fd, o) else (-1, os_close fd o).

(** The [for] loop over the addresses. *)
Fixpoint connect_loop (fd : TcpClient) (o : os) (addresses : list candidate) : TcpClient * os :=
  match addresses with
  | [] => (fd, o)
  | current :: rest =>
      if cd_socket current <? 0 then connect_loop fd o rest
      else
        let o := os_open (cd_socket current) o in
        if cd_connect_ok current then (cd_socket current, o)
        else connect_loop fd (os_close (cd_socket current) o) rest
  end.

(** [addresses]: the result of [getaddrinfo], or its failure. *)
Definition connect_to_server (fd : TcpClient) (o : os) (addresses : option (list candidate))
    : bool * TcpClient * os :=
  if is_connected fd then (true, fd, o)
  else
    match addresses with
    | None => (false, fd, o)
    | Some addresses =>
        let '(fd, o) := connect_loop fd o addresses in
        (is_connected fd, fd, o)
    end.

Definition tcp_retries (e : errno) : bool := match e with EINTR => true | _ => false end.

Definition send_all (data : list Z) (script : list write_result) : exec (bool * list Z) :=
  send_from tcp_retries data 0 [] script.

(** The answers to one [send_json]. *)
Record tcp_env : Type := mk_tcp_env {
  te_addresses : option (list candidate);
  te_sends : list write_result;
}.

(** The last component is what was put on the connection. *)
Definition send_json (fd : TcpClient) (o : os) (env : tcp_env) (json : string)
    : exec (bool * TcpClient * os * list Z) :=
  let '(connected, fd, o) :=
    if is_connected fd then (true, fd, o) else connect_to_server fd o (te_addresses env) in
  if negb connected then Ret (false, fd, o, [])
  else
    let message := bytes_of (json +:+ nl) in
    '(ok, line) ← send_all message (te_sends env);
    if negb ok then let '(fd, o) := disconnect fd o in Ret (false, fd, o, line)
    else Ret (true, fd, o, line).

(** ** Facts *)

Lemma disconnect_owns fd o others :
  owns fd others o → let '(fd', o') := disconnect fd o in fd' < 0 ∧ owns fd' others o'.
Proof.
  intros Ho. unfold disconnect, is_connected. destruct (Z.leb_spec 0 fd); cbn [negb]; [| by split].
  split; [lia |]. by apply owns_close.
Qed.

(** The kernel gives unused descriptors while the addresses are tried. *)
Definition fresh_candidates (others : gset Z) (l : list candidate) : Prop :=
  Forall (λ c, cd_socket c < 0 ∨ cd_socket c ∉ others) l.

Lemma connect_loop_owns fd o others l :
  owns fd others o → fd < 0 → fresh_candidates others l →
  let '(fd', o') := connect_loop fd o l in owns fd' others o'.
Proof.
  intros Ho Hfd Hl. revert o Ho. induction Hl as [| c l Hc _ IH]; intros o Ho; [done |].
  cbn [connect_loop]. destruct (Z.ltb_spec (cd_socket c) 0) as [| Hp]; [by apply IH |].
  assert (owns (cd_socket c) others (os_open (cd_socket c) o)) as Hop.
  { eapply owns_open; try done. destruct Hc as [| Hc]; [by left |]. right.
    destruct Ho as [Hfds _ _]. rewrite decide_False in Hfds by lia. by rewrite Hfds. }
  destruct (cd_connect_ok c); [done |]. apply IH.
  pose proof (owns_close _ _ _ Hop Hp) as Hcl. destruct Hcl as [Hfds Hfr Hb].
  split; [| lia | done]. rewrite decide_False in Hfds by lia. by rewrite decide_False by lia.
Qed.

(** What the peer has received: the streams of the closed connections and of
    the current one. *)
Record tcp_state : Type := mk_tcp_state {
  ts_fd : TcpClient;
  ts_os : os;
  ts_closed : list (list Z);
  ts_current : list Z;
}.

(** The calls on the client, in a process whose other parts hold the descriptors [others]:
    sends, with their result, and [disconnect]. *)
Inductive tcp_call (others : gset Z) : tcp_state → list (string * bool) → tcp_state → Prop :=
  | call_send fd o closed current env json ok fd' o' line :
      (∀ addresses, te_addresses env = Some addresses → fresh_candidates others addresses) →
      send_json fd o env json = Ret (ok, fd', o', line) →
      tcp_call others (mk_tcp_state fd o closed current) [(json, ok)]
        (if is_connected fd' then mk_tcp_state fd' o' closed (current ++ line)
         else mk_tcp_state fd' o' (closed ++ [current ++ line]) [])
  | call_disconnect fd o closed current :
      tcp_call others (mk_tcp_state fd o closed current) []
        (mk_tcp_state (fst (disconnect fd o)) (snd (disconnect fd o)) (closed ++ [current]) []).

Inductive tcp_history (others : gset Z) (s : tcp_state) : list (string * bool) → tcp_state → Prop :=
  | tcp_nil : tcp_history others s [] s
  | tcp_more sends s1 sends' s2 :
      tcp_history others s sends s1 → tcp_call others s1 sends' s2 →
      tcp_history others s (sends ++ sends') s2.

Definition json_line (json : string) : list Z := bytes_of (json +:+ nl).

(** What a send puts on the connection, with its result: the whole line, or a proper
    beginning of it. *)
Definition sent_as (s : string * bool) (l : list Z * bool) : Prop :=
  snd l = snd s ∧
  if snd s then fst l = json_line (fst s)
  else ∃ k, fst l = take k (json_line (fst s)) ∧ (k < length (json_line (fst s)))%nat.

(** The messages whose send succeeded. *)
Definition sent_ok (sends : list (string * bool)) : list string :=
  omap (λ s : string * bool, if snd s then Some (fst s) else None) sends.

Lemma sent_ok_app a b : sent_ok (a ++ b) = sent_ok a ++ sent_ok b.
Proof. apply omap_app. Qed.

(** A finished stream: complete lines and at most the beginning of one more. *)
Definition framed (msgs : list string) (stream : list Z) : Prop :=
  ∃ part, stream = concat (json_line <$> msgs) ++ part ∧
          (part = [] ∨ ∃ json k, part = take k (json_line json) ∧
                                 (k < length (json_line json))%nat).

(** The lines on the connections, in order, are those of the successful sends. *)
Record tcp_inv (sends : list (string * bool)) (s : tcp_state) : Prop := mk_tcp_inv {
  ti_streams : ∃ closed_msgs open_msgs,
    Forall2 framed closed_msgs (ts_closed s) ∧
    ts_current s = concat (json_line <$> open_msgs) ∧
    concat closed_msgs ++ open_msgs = sent_ok sends;
  ti_idle : ts_fd s < 0 → ts_current s = [];
}.

Lemma framed_whole msgs : framed msgs (concat (json_line <$> msgs)).
Proof. exists []. rewrite app_nil_r. split; [done | by left]. Qed.

(** The outcomes of [send_json]. *)
Lemma send_json_cases fd o env json ok fd' o' line :
  send_json fd o env json = Ret (ok, fd', o', line) →
  if ok : bool then line = json_line json ∧ 0 <= fd' ∧ (fd < 0 ∨ fd' = fd)
  else fd' < 0 ∧ (line = [] ∨ ∃ k, line = take k (json_line json) ∧
                                    (k < length (json_line json))%nat).
Proof.
  unfold send_json. set (r := if is_connected fd then _ else _).
  assert (fst (fst r) = is_connected (snd (fst r)) ∧ (fd < 0 ∨ snd (fst r) = fd)) as [Hr Hfd].
  { unfold r, connect_to_server. destruct (is_connected fd) eqn:Hc; [by split; [| right] |].
    unfold is_connected in Hc. split; [| left; lia].
    destruct (te_addresses env) as [l |]; [by destruct (connect_loop fd o l) | done]. }
  destruct r as [[connected fd1] o1]. cbn [fst snd] in *. subst connected.
  destruct (is_connected fd1) eqn:Hc1; unfold is_connected in Hc1; cbn [negb].
  2:{ intros [= <- <- <- <-]. split; [lia | by left]. }
  fold (json_line json). destruct (send_all _ _) as [[sok l] | |] eqn:Hs; try discriminate.
  apply send_from_line in Hs. cbn [mbind exec_bind]. destruct sok; cbn [negb].
  - intros [= <- <- <- <-]. split_and!; [done | lia | done].
  - unfold disconnect, is_connected. rewrite Hc1. cbn [negb].
    intros [= <- <- <- <-]. split; [lia |]. by right.
Qed.

(** A send leaves open exactly the descriptor of the connection, whatever fails. *)
Lemma send_json_owns fd o env json ok fd' o' line others :
  owns fd others o → (∀ addresses, te_addresses env = Some addresses → fresh_candidates others addresses) →
  send_json fd o env json = Ret (ok, fd', o', line) → owns fd' others o'.
Proof.
  intros Ho Hf. unfold send_json. set (r := if is_connected fd then _ else _).
  assert (owns (snd (fst r)) others (snd r)) as Hr.
  { unfold r, connect_to_server. destruct (is_connected fd) eqn:Hc; [done |].
    destruct (te_addresses env) as [l |] eqn:Hl; [| done].
    pose proof (connect_loop_owns fd o others l Ho) as Hloop. unfold is_connected in Hc.
    destruct (connect_loop fd o l). apply Hloop; [lia | by apply Hf]. }
  destruct r as [[connected fd1] o1]. cbn [fst snd] in Hr. destruct connected; cbn [negb]; [| by intros [= <- <- <- <-]].
  destruct (send_all _ _) as [[sok l] | |]; try discriminate. cbn [mbind exec_bind].
  destruct sok; cbn [negb]; [by intros [= <- <- <- <-] |].
  pose proof (disconnect_owns fd1 o1 others Hr) as Hd. destruct (disconnect fd1 o1). destruct Hd as [_ Hd].
  by intros [= <- <- <- <-].
Qed.

Lemma tcp_call_owns others s sends s' :
  owns (ts_fd s) others (ts_os s) → tcp_call others s sends s' → owns (ts_fd s') others (ts_os s').
Proof.
  intros Ho Hcall. destruct Hcall as [fd o closed current env json ok fd' o' line Hf Hs | fd o closed current];
    cbn [ts_fd ts_os] in *.
  - pose proof (send_json_owns _ _ _ _ _ _ _ _ others Ho Hf Hs). by destruct (is_connected fd').
  - pose proof (disconnect_owns fd o others Ho) as Hd. by destruct (disconnect fd o), Hd.
Qed.

Lemma json_line_nonempty json : (0 < length (json_line json))%nat.
Proof. destruct json; apply Nat.lt_0_succ. Qed.

Lemma send_json_sent fd o env json ok fd' o' line :
  send_json fd o env json = Ret (ok, fd', o', line) → sent_as (json, ok) (line, ok).
Proof.
  intros Hs%send_json_cases. split; [done |]. destruct ok; cbn [fst snd]; [apply Hs |].
  destruct Hs as [_ [-> | Hk]]; [exists 0%nat; split; [done | apply json_line_nonempty] | done].
Qed.

Lemma tcp_call_inv others sends s sends' s' :
  tcp_inv sends s → tcp_call others s sends' s' → tcp_inv (sends ++ sends') s'.
Proof.
  intros [(cm & om & Hcl & Hcur & Hall) Hidle] Hcall.
  destruct Hcall as [fd o closed current env json ok fd' o' line _ Hs | fd o closed current];
    cbn [ts_closed ts_current ts_fd] in *.
  - apply send_json_cases in Hs. unfold is_connected.
    destruct ok.
    + destruct Hs as (-> & Hfd' & _). rewrite (proj2 (Z.leb_le 0 fd') Hfd').
      split; [| cbn; lia]. exists cm, (om ++ [json]). rewrite sent_ok_app, <-Hall. cbn.
      split_and!; [done | | by rewrite app_assoc].
      rewrite Hcur, fmap_app, concat_app. cbn. by rewrite app_nil_r.
    + destruct Hs as [Hfd' Hline]. destruct (Z.leb_spec 0 fd'); [lia |].
      split; [| done]. exists (cm ++ [om]), []. rewrite sent_ok_app, <-Hall. cbn.
      rewrite !app_nil_r, concat_app. cbn. rewrite app_nil_r. split_and!; [| done | done].
      apply Forall2_app; [done |]. constructor; [| done]. exists line. rewrite Hcur. split; [done |].
      destruct Hline as [-> | (k & -> & Hk)]; [by left | right; by exists json, k].
  - split; [| done]. rewrite app_nil_r. exists (cm ++ [om]), []. cbn.
    rewrite app_nil_r, concat_app. cbn. rewrite app_nil_r. split_and!; [| done | done].
    apply Forall2_app; [done |]. constructor; [| done]. rewrite Hcur. apply framed_whole.
Qed.

(** ** Properties *)

(** C20: The receiver of a connection never sees a message glued to another. Over any
    sequence of sends and disconnections from a new client, whatever addresses the look-up
    gives and whichever of them refuse: the successful sends are, in order, the lines on
    the successive connections; the current connection holds complete lines only, and
    every finished one complete lines followed by at most a proper beginning of one line
    that was reported as failed. And no descriptor leaks: besides those of the other parts
    of the process, exactly the one of the current connection is open, and none is closed
    twice. *)
Theorem tcp_lines others o sends s :
  owns (-1) others o → tcp_history others (mk_tcp_state (-1) o [] []) sends s →
  (∃ closed_msgs open_msgs,
     concat closed_msgs ++ open_msgs = sent_ok sends ∧
     Forall2 framed closed_msgs (ts_closed s) ∧
     ts_current s = concat (json_line <$> open_msgs)) ∧
  open_fds (ts_os s) = (if is_connected (ts_fd s) then {[ts_fd s]} ∪ others else others) ∧
  (is_connected (ts_fd s) = true → ts_fd s ∉ others) ∧
  bad_close (ts_os s) = false.
Proof.
  intros Ho Hh. assert (tcp_inv sends s ∧ owns (ts_fd s) others (ts_os s)) as [[(cm & om & ? & ? & ?) _] [Hfds Hfr Hb]].
  { induction Hh as [| sends s1 sends' s2 Hh [IH IHo] Hcall].
    - split; [| exact Ho]. split; [| done]. by exists [], [].
    - split; [by eapply tcp_call_inv | by eapply tcp_call_owns]. }
  unfold is_connected. destruct (Z.leb_spec 0 (ts_fd s)).
  - rewrite decide_True in Hfds by done. split_and!; [by exists cm, om | done | by intros _; apply Hfr | done].
  - rewrite decide_False in Hfds by lia. split_and!; [by exists cm, om | done | done | done].
Qed.

(** Of two addresses the first one refuses; the second send fails half way. *)
Lemma tcp_lines_witness :
  let env1 := mk_tcp_env (Some [mk_candidate (-1) false; mk_candidate 6 false; mk_candidate 7 true])
                [Wrote 2; WriteFailed EINTR; Wrote 1] in
  let env2 := mk_tcp_env None [Wrote 1; Wrote 0] in
  let o1 := os_open 7 (os_close 6 (os_open 6 os_init)) in
  let s := mk_tcp_state (-1) (os_close 7 o1) [bytes_of ("{}" +:+ nl +:+ "[")] [] in
  tcp_history ∅ (mk_tcp_state (-1) os_init [] []) [("{}", true); ("[]", false)] s ∧
  (∃ closed_msgs open_msgs,
    concat closed_msgs ++ open_msgs = ["{}"] ∧ Forall2 framed closed_msgs (ts_closed s) ∧
    ts_current s = concat (json_line <$> open_msgs)) ∧
  open_fds (ts_os s) = ∅.
Proof.
  intros env1 env2 o1 s.
  assert (tcp_history ∅ (mk_tcp_state (-1) os_init [] []) [("{}", true); ("[]", false)] s) as Hh.
  { apply (tcp_more _ _ [("{}", true)] (mk_tcp_state 7 o1 [] (bytes_of ("{}" +:+ nl))) [("[]", false)]).
    - apply (tcp_more _ _ [] (mk_tcp_state (-1) os_init [] []) [("{}", true)]); [apply tcp_nil |].
      apply (call_send ∅ (-1) os_init [] [] env1 "{}" true 7 o1 (bytes_of ("{}" +:+ nl))); [| reflexivity].
      intros l [= <-]. repeat (apply Forall_cons_2; [right; apply not_elem_of_empty |]). apply Forall_nil_2.
    - apply (call_send ∅ 7 o1 [] (bytes_of ("{}" +:+ nl)) env2 "[]" false (-1) (os_close 7 o1) (bytes_of "["));
        [discriminate | reflexivity]. }
  split; [exact Hh |].
  destruct (tcp_lines ∅ os_init [("{}", true); ("[]", false)] s) as (Hl & Hfds & _).
  - split; [reflexivity | intros Hz; contradiction Hz; reflexivity | reflexivity].
  - exact Hh.
  - exact (conj Hl Hfds).
Defined.
