(* ===== verification/MessageCache.v ===== *)
(** * The offline cache interface ([src/cache/message_cache.h])

    A queue of messages on stable storage, as the type class the reliable
    publisher is written against, with the laws of a first-in first-out queue. The
    environment of a call says how the file system or the database answers. *)

From S2P Require Import Prelude.

Record CachedMessage : Type := mk_message {
  msg_topic : string;
  msg_payload : string;
}.

#[export] Instance message_eq_dec : EqDecision CachedMessage.
Proof. solve_decision. Defined.

Class MessageCache (C AEnv LEnv REnv : Type) : Type := {
  append : C → AEnv → string → string → bool * C;
  load_all : C → LEnv → list CachedMessage;
  remove_first : C → REnv → nat → bool * C;
}.

(** [benign] environments exclude the faults a cache does not survive; each
    implementation says which. *)
Class CacheLaws (C AEnv LEnv REnv : Type) `{!MessageCache C AEnv LEnv REnv} : Type := {
  cache_ok : C → Prop;
  cached : C → list CachedMessage;
  storable : CachedMessage → Prop;
  append_benign : AEnv → Prop;
  load_benign : LEnv → Prop;
  remove_benign : REnv → Prop;
  append_law c env m :
    cache_ok c → append_benign env → storable m →
    let '(ok, c') := append c env (msg_topic m) (msg_payload m) in
    cache_ok c' ∧ cached c' = (if ok : bool then cached c ++ [m] else cached c);
  load_law c env : cache_ok c → load_benign env → load_all c env = cached c;
  (** Even a failing load only misses messages, it makes none up. *)
  load_prefix c env : cache_ok c → load_all c env `prefix_of` cached c;
  remove_law c env n :
    cache_ok c → remove_benign env →
    let '(ok, c') := remove_first c env n in
    cache_ok c' ∧ cached c' = (if ok : bool then drop n (cached c) else cached c);
}.
