(* ===== verification/FileCache.v ===== *)
(** * The cache in a text file ([src/cache/file_cache.cpp])

    One line per message, the topic and the payload separated by a tabulation.
    Appending writes at the end of the file; removing rewrites the remaining
    messages to a temporary file that replaces the cache. *)

From stdpp Require Import gmap.
From S2P Require Import Prelude Text MessageCache.

(** ** The file system *)

(** The contents of the files, by path. *)
Abbreviation file_system := (gmap string string).

Inductive fs_op : Type :=
  | OpenAppend (path : string)                  (** creates the file if needed *)
  | OpenTruncate (path : string)
  | WriteTo (path : string) (text : string)     (** at the end of the file *)
  | Rename (old new : string)                   (** replaces [new] in one step *)
  | Remove (path : string).

Definition contents_of (path : string) (fs : file_system) : string := default "" (fs !! path).

Definition apply_op (fs : file_system) (op : fs_op) : file_system :=
  match op with
  | OpenAppend path => <[path := contents_of path fs]> fs
  | OpenTruncate path => <[path := ""]> fs
  | WriteTo path text => <[path := contents_of path fs +:+ text]> fs
  | Rename old new => <[new := contents_of old fs]> (delete old fs)
  | Remove path => delete path fs
  end.

Definition apply_ops (fs : file_system) (ops : list fs_op) : file_system := foldl apply_op fs ops.

(** ** The code *)

Definition contains_separator (text : string) : bool :=
  negb (lacks tab_char text) || negb (lacks nl_char text) || negb (lacks cr_char text).

(** The text of one message. *)
Definition message_line (topic payload : string) : string := topic +:+ tab +:+ payload +:+ nl.

(** How the system answers to [append]: whether the parent directory exists or was
    created, whether the file was opened, and after how many characters the write
    failed, if it did. *)
Record append_env : Type := mk_append_env {
  ae_parent_ok : bool;
  ae_open_ok : bool;
  ae_write_fails : option nat;
}.

(** The result and the operations on the file system, in order. *)
Definition fc_append (path : string) (env : append_env) (topic payload : string)
    : bool * list fs_op :=
  if contains_separator topic || contains_separator payload then (false, [])
  else if negb (ae_parent_ok env) then (false, [])
  else if negb (ae_open_ok env) then (false, [])
  else
    match ae_write_fails env with
    | None => (true, [OpenAppend path; WriteTo path (message_line topic payload)])
    | Some n =>
        (false, [OpenAppend path; WriteTo path (String.substring 0 n (message_line topic payload))])
    end.

(** The [while (std::getline(...))] loop of [load_all]. *)
Fixpoint load_lines (l : list string) : list CachedMessage :=
  match l with
  | [] => []
  | line :: rest =>
      match cut tab_char line with
      | None => load_lines rest        (* skip malformed cache line *)
      | Some (topic, payload) => mk_message topic payload :: load_lines rest
      end
  end.

(** [open_ok]: whether the file, if it exists, can be opened. *)
Definition fc_load_all (path : string) (open_ok : bool) (fs : file_system) : list CachedMessage :=
  match fs !! path with
  | Some text => if open_ok then load_lines (lines text) else []
  | None => []
  end.

Record replace_env : Type := mk_replace_env {
  re_parent_ok : bool;
  re_open_ok : bool;
  re_write_fails : option nat;
  re_rename_ok : bool;
}.

Definition has_separator (m : CachedMessage) : bool :=
  contains_separator (msg_topic m) || contains_separator (msg_payload m).

Fixpoint render_messages (messages : list CachedMessage) : string :=
  match messages with
  | [] => ""
  | m :: rest => message_line (msg_topic m) (msg_payload m) +:+ render_messages rest
  end.

Definition fc_replace_all (path : string) (env : replace_env) (messages : list CachedMessage)
    : bool * list fs_op :=
  if existsb has_separator messages then (false, [])
  else if negb (re_parent_ok env) then (false, [])
  else
    let temporary_path := path +:+ ".tmp" in
    if negb (re_open_ok env) then (false, [])
    else
      match re_write_fails env with
      | Some n =>
          (false, [OpenTruncate temporary_path;
                   WriteTo temporary_path (String.substring 0 n (render_messages messages))])
      | None =>
          let written := [OpenTruncate temporary_path;
                          WriteTo temporary_path (render_messages messages)] in
          if re_rename_ok env then (true, written ++ [Rename temporary_path path])
          else (false, written ++ [Remove temporary_path])
      end.

(** The first component of the environment is for the load. *)
Definition fc_remove_first (path : string) (env : bool * replace_env) (count : nat)
    (fs : file_system) : bool * list fs_op :=
  if (count =? 0)%nat then (true, [])
  else
    let messages := fc_load_all path (fst env) fs in
    if (length messages <=? count)%nat then fc_replace_all path (snd env) []
    else fc_replace_all path (snd env) (drop count messages).

(** The cache object: the path and the file system it works on. *)
Record FileCache : Type := mk_file_cache {
  fc_path : string;
  fc_fs : file_system;
}.

Definition run_ops (c : FileCache) (r : bool * list fs_op) : bool * FileCache :=
  (fst r, mk_file_cache (fc_path c) (apply_ops (fc_fs c) (snd r))).

#[export] Instance file_cache : MessageCache FileCache append_env bool (bool * replace_env) := {|
  append c env topic payload := run_ops c (fc_append (fc_path c) env topic payload);
  load_all c env := fc_load_all (fc_path c) env (fc_fs c);
  remove_first c env n := run_ops c (fc_remove_first (fc_path c) env n (fc_fs c));
|}.

(** ** Facts *)

Lemma separator_free text :
  contains_separator text = false →
  lacks tab_char text = true ∧ lacks nl_char text = true ∧ lacks cr_char text = true.
Proof.
  unfold contains_separator.
  destruct (lacks tab_char text), (lacks nl_char text), (lacks cr_char text); done.
Qed.

Definition clean (m : CachedMessage) : Prop := has_separator m = false.

Lemma load_render messages rest :
  Forall clean messages →
  load_lines (lines (render_messages messages +:+ rest)) = messages ++ load_lines (lines rest).
Proof.
  induction messages as [| [t p] messages IH]; intros Hc; [done |].
  apply Forall_cons in Hc as [Hm Hc]. unfold clean, has_separator in Hm. cbn in Hm.
  apply orb_false_iff in Hm as [Ht Hp].
  apply separator_free in Ht as (Htt & Htn & _). apply separator_free in Hp as (_ & Hpn & _).
  cbn [render_messages msg_topic msg_payload]. unfold message_line.
  replace ((t +:+ tab +:+ p +:+ nl) +:+ render_messages messages)
    with ((t +:+ tab +:+ p) +:+ nl +:+ render_messages messages) by by rewrite !string_app_assoc.
  rewrite !string_app_assoc.
  replace (t +:+ tab +:+ p +:+ nl +:+ render_messages messages +:+ rest)
    with ((t +:+ tab +:+ p) +:+ nl +:+ (render_messages messages +:+ rest))
    by by rewrite !string_app_assoc.
  rewrite lines_line by (rewrite !lacks_app, Htn, Hpn; done).
  cbn [load_lines]. change (t +:+ tab +:+ p) with (t +:+ String tab_char p).
  rewrite (cut_app tab_char t p Htt). cbn [app]. by rewrite IH.
Qed.

Lemma load_messages messages :
  Forall clean messages → load_lines (lines (render_messages messages)) = messages.
Proof.
  intros Hc. rewrite <-(string_app_nil_r (render_messages messages)), load_render by done.
  apply app_nil_r.
Qed.

Lemma render_app m1 m2 : render_messages (m1 ++ m2) = render_messages m1 +:+ render_messages m2.
Proof.
  induction m1 as [| m m1 IH]; [done |]. cbn [app render_messages].
  by rewrite IH, string_app_assoc.
Qed.

(** The file holds the messages [ms], one complete line each. *)
Definition holds (ms : list CachedMessage) (path : string) (fs : file_system) : Prop :=
  contents_of path fs = render_messages ms ∧ Forall clean ms.

Definition fc_messages (c : FileCache) : list CachedMessage :=
  load_lines (lines (contents_of (fc_path c) (fc_fs c))).

Definition fc_ok (c : FileCache) : Prop := ∃ ms, holds ms (fc_path c) (fc_fs c).

Lemma holds_messages ms c : holds ms (fc_path c) (fc_fs c) → fc_messages c = ms.
Proof. intros [Ht Hc]. unfold fc_messages. rewrite Ht. by apply load_messages. Qed.

Lemma fc_ok_messages c : fc_ok c → holds (fc_messages c) (fc_path c) (fc_fs c).
Proof. intros [ms Hh]. by rewrite (holds_messages ms c Hh). Qed.

Lemma fc_load_open path fs :
  fc_load_all path true fs = load_lines (lines (contents_of path fs)).
Proof. unfold fc_load_all, contents_of. by destruct (fs !! path). Qed.

Lemma tmp_ne path : path +:+ ".tmp" ≠ path.
Proof.
  induction path as [| c path IH]; [discriminate |].
  change (String c path +:+ ".tmp") with (String c (path +:+ ".tmp")). congruence.
Qed.

Lemma contents_insert path text fs : contents_of path (<[path := text]> fs) = text.
Proof. unfold contents_of. by rewrite lookup_insert_eq. Qed.

Lemma contents_insert_ne path p text fs :
  p ≠ path → contents_of path (<[p := text]> fs) = contents_of path fs.
Proof. intros Hne. unfold contents_of. by rewrite lookup_insert_ne. Qed.

Lemma contents_delete_ne path p fs : p ≠ path → contents_of path (delete p fs) = contents_of path fs.
Proof. intros Hne. unfold contents_of. by rewrite lookup_delete_ne. Qed.

(** An operation on the scratch file [p]. *)
Definition on_scratch (p : string) (op : fs_op) : Prop :=
  match op with
  | OpenTruncate q | Remove q | WriteTo q _ => q = p
  | OpenAppend _ | Rename _ _ => False
  end.

Lemma scratch_keeps p path ops fs :
  p ≠ path → Forall (on_scratch p) ops →
  contents_of path (apply_ops fs ops) = contents_of path fs.
Proof.
  intros Hne Hops. revert fs. induction Hops as [| op ops Hop _ IH]; intros fs; [done |].
  cbn [apply_ops foldl]. fold (apply_ops (apply_op fs op) ops). rewrite IH.
  destruct op; cbn in Hop; subst; try done;
    by (apply contents_insert_ne || apply contents_delete_ne).
Qed.

Lemma all_clean messages : existsb has_separator messages = false ↔ Forall clean messages.
Proof.
  unfold clean. induction messages as [| m messages IH]; cbn [existsb]; [done |].
  rewrite orb_false_iff, Forall_cons. by rewrite IH.
Qed.

(** The operations of [replace_all]: those of a failure stay on the scratch file;
    those of a success end with the rename of a complete scratch file. *)
Lemma replace_all_shape path env messages fs :
  let tmp := path +:+ ".tmp" in
  let '(ok, ops) := fc_replace_all path env messages in
  if ok then Forall clean messages ∧
             ∃ w, ops = w ++ [Rename tmp path] ∧ Forall (on_scratch tmp) w ∧
                  contents_of tmp (apply_ops fs w) = render_messages messages
  else Forall (on_scratch tmp) ops.
Proof.
  cbn zeta. unfold fc_replace_all. destruct (existsb has_separator messages) eqn:Hs; [by constructor |].
  apply all_clean in Hs. destruct (re_parent_ok env); [| by constructor].
  destruct (re_open_ok env); [| by constructor]. cbn [negb].
  destruct (re_write_fails env); [by repeat constructor |].
  destruct (re_rename_ok env); [| by repeat constructor].
  split; [done |]. eexists. split; [reflexivity |]. split; [by repeat constructor |].
  cbn [apply_ops foldl apply_op]. by rewrite !contents_insert.
Qed.

Lemma apply_ops_app fs l k : apply_ops fs (l ++ k) = apply_ops (apply_ops fs l) k.
Proof. apply foldl_app. Qed.

Lemma replace_all_contents path env messages fs :
  let '(ok, ops) := fc_replace_all path env messages in
  contents_of path (apply_ops fs ops)
  = (if ok : bool then render_messages messages else contents_of path fs).
Proof.
  pose proof (replace_all_shape path env messages fs) as Hs. cbn zeta in Hs.
  destruct (fc_replace_all path env messages) as [[] ops].
  - destruct Hs as (_ & w & -> & _ & Hw). rewrite apply_ops_app. cbn [apply_ops foldl apply_op].
    by rewrite contents_insert.
  - apply (scratch_keeps _ _ _ _ (tmp_ne path) Hs).
Qed.

Lemma replace_all_crash path env messages fs before after :
  snd (fc_replace_all path env messages) = before ++ after →
  contents_of path (apply_ops fs before) = contents_of path fs ∨
  contents_of path (apply_ops fs before) = render_messages messages.
Proof.
  pose proof (replace_all_shape path env messages fs) as Hs.
  pose proof (replace_all_contents path env messages fs) as Hc. cbn zeta in Hs.
  destruct (fc_replace_all path env messages) as [[] ops]; cbn [snd]; intros ->.
  - destruct Hs as (_ & w & He & Hw & _).
    destruct (decide (after = [])) as [-> | Hne].
    + right. by rewrite app_nil_r in Hc.
    + left. destruct (exists_last Hne) as (after' & x & ->). rewrite app_assoc in He.
      apply app_inj_2 in He as [<- _]; [| done].
      apply (scratch_keeps _ _ _ _ (tmp_ne path)). by apply Forall_app in Hw as [? _].
  - left. apply (scratch_keeps _ _ _ _ (tmp_ne path)). by apply Forall_app in Hs as [? _].
Qed.

Lemma append_contents path env topic payload fs :
  ae_write_fails env = None →
  let '(ok, ops) := fc_append path env topic payload in
  contents_of path (apply_ops fs ops)
  = (if ok : bool then contents_of path fs +:+ message_line topic payload else contents_of path fs) ∧
  (ok = true → clean (mk_message topic payload)).
Proof.
  intros Hw. unfold fc_append, clean, has_separator. cbn [msg_topic msg_payload].
  destruct (contains_separator topic || contains_separator payload); [done |].
  destruct (ae_parent_ok env); [| done]. destruct (ae_open_ok env); [| done]. cbn [negb].
  rewrite Hw. split; [| done]. cbn [apply_ops foldl apply_op]. by rewrite !contents_insert.
Qed.

Lemma fc_append_law c env m :
  fc_ok c → ae_write_fails env = None →
  let '(ok, c') := append c env (msg_topic m) (msg_payload m) in
  fc_ok c' ∧ fc_messages c' = (if ok : bool then fc_messages c ++ [m] else fc_messages c).
Proof.
  intros Hc%fc_ok_messages Hw. cbn [append file_cache]. unfold run_ops.
  pose proof (append_contents (fc_path c) env (msg_topic m) (msg_payload m) (fc_fs c) Hw) as Ha.
  destruct (fc_append _ _ _ _) as [[] ops]; cbn [fst snd]; destruct Ha as [Ha Hcl].
  - assert (holds (fc_messages c ++ [m]) (fc_path c) (apply_ops (fc_fs c) ops)) as Hh.
    { destruct Hc as [Ht Hc]. split; [| apply Forall_app_2; [done |]].
      - rewrite Ha, Ht, render_app. cbn [render_messages]. by rewrite string_app_nil_r.
      - apply Forall_cons_2; [| done]. specialize (Hcl eq_refl). by destruct m. }
    split; [by eexists |]. by apply (holds_messages _ (mk_file_cache _ _)).
  - assert (holds (fc_messages c) (fc_path c) (apply_ops (fc_fs c) ops)) as Hh.
    { split; [| apply Hc]. rewrite Ha. apply Hc. }
    split; [by eexists |]. by apply (holds_messages _ (mk_file_cache _ _)).
Qed.

Lemma remove_as_replace path env n fs :
  fst env = true → n ≠ 0%nat →
  fc_remove_first path env n fs
  = fc_replace_all path (snd env) (drop n (load_lines (lines (contents_of path fs)))).
Proof.
  intros He Hn. unfold fc_remove_first. rewrite He, fc_load_open.
  destruct (Nat.eqb_spec n 0); [done |].
  destruct (Nat.leb_spec (length (load_lines (lines (contents_of path fs)))) n); [| done].
  by rewrite drop_ge.
Qed.

Lemma fc_remove_law c env n :
  fc_ok c → fst env = true →
  let '(ok, c') := remove_first c env n in
  fc_ok c' ∧ fc_messages c' = (if ok : bool then drop n (fc_messages c) else fc_messages c).
Proof.
  intros Hc Henv. cbn [remove_first file_cache]. unfold run_ops.
  destruct (decide (n = 0%nat)) as [-> | Hn]; [by destruct c |].
  rewrite remove_as_replace by done. fold (fc_messages c).
  pose proof (fc_ok_messages c Hc) as [Ht Hcl].
  pose proof (replace_all_contents (fc_path c) (snd env) (drop n (fc_messages c)) (fc_fs c)) as Hr.
  destruct (fc_replace_all _ _ _) as [[] ops]; cbn [fst snd].
  - assert (holds (drop n (fc_messages c)) (fc_path c) (apply_ops (fc_fs c) ops)) as Hh
      by (split; [done | by apply Forall_drop]).
    split; [by eexists |]. by apply (holds_messages _ (mk_file_cache _ _)).
  - assert (holds (fc_messages c) (fc_path c) (apply_ops (fc_fs c) ops)) as Hh
      by (split; [by rewrite Hr | done]).
    split; [by eexists |]. by apply (holds_messages _ (mk_file_cache _ _)).
Qed.

Lemma fc_load_law c env : fc_ok c → env = true → load_all c env = fc_messages c.
Proof. intros _ ->. apply fc_load_open. Qed.

Lemma fc_load_prefix c env : fc_ok c → load_all c env `prefix_of` fc_messages c.
Proof.
  intros _. destruct env; [cbn; by rewrite fc_load_open |].
  cbn. unfold fc_load_all. destruct (fc_fs c !! fc_path c); apply prefix_nil.
Qed.

(** Benign: a write is all or nothing, and the file can be opened for reading. *)
#[export] Instance file_cache_laws : CacheLaws FileCache append_env bool (bool * replace_env) := {|
  cache_ok := fc_ok;
  cached := fc_messages;
  storable _ := True;
  append_benign env := ae_write_fails env = None;
  load_benign env := env = true;
  remove_benign env := fst env = true;
  append_law c env m Hc He _ := fc_append_law c env m Hc He;
  load_law := fc_load_law;
  load_prefix := fc_load_prefix;
  remove_law := fc_remove_law;
|}.

(** ** Properties *)

(** C14: The file cache is a first-in first-out queue. From a file of complete lines
    and without torn writes or unreadable files: an append succeeds exactly for a
    message without separators when the directory and the file can be opened, and
    adds the message at the end; a load gives the messages in order; a removal drops
    the oldest ones or, if it fails, none; and the file stays one of complete lines. *)
Theorem file_cache_queue c m aenv renv n :
  fc_ok c → ae_write_fails aenv = None → fst renv = true →
  (let '(ok, c') := append c aenv (msg_topic m) (msg_payload m) in
   ok = negb (has_separator m) && ae_parent_ok aenv && ae_open_ok aenv ∧ fc_ok c' ∧
   load_all c' true = load_all c true ++ (if ok then [m] else [])) ∧
  (let '(ok, c') := remove_first c renv n in
   fc_ok c' ∧ load_all c' true = if ok then drop n (load_all c true) else load_all c true).
Proof.
  intros Hc Ha Hr. split.
  - pose proof (fc_append_law c aenv m Hc Ha) as Hl.
    destruct (append c aenv _ _) as [ok c'] eqn:He. destruct Hl as [Hok Hm].
    rewrite (fc_load_law c' true), (fc_load_law c true) by done. split; [| split; [done |]].
    + cbn in He. unfold run_ops, fc_append in He. unfold has_separator.
      destruct (_ || _); [by injection He as <- _ |].
      destruct (ae_parent_ok aenv); [| by injection He as <- _].
      destruct (ae_open_ok aenv); [| by injection He as <- _].
      cbn in He. rewrite Ha in He. by injection He as <- _.
    + rewrite Hm. destruct ok; [done | by rewrite app_nil_r].
  - pose proof (fc_remove_law c renv n Hc Hr) as Hl. destruct (remove_first c renv n) as [ok c'].
    destruct Hl as [Hok Hm]. by rewrite (fc_load_law c' true), (fc_load_law c true).
Qed.

Definition sample_cache : FileCache :=
  mk_file_cache "cache.txt"
    (apply_ops ∅ [OpenAppend "cache.txt"; WriteTo "cache.txt" (message_line "s/1" "a");
                  WriteTo "cache.txt" (message_line "s/2" "b")]).

Lemma sample_cache_ok : fc_ok sample_cache.
Proof. exists [mk_message "s/1" "a"; mk_message "s/2" "b"]. split; [reflexivity |]. by repeat constructor. Defined.

Lemma file_cache_queue_witness :
  let r := append sample_cache (mk_append_env true true None) "s/3" "c" in
  fst r = true ∧
  load_all (snd r) true = [mk_message "s/1" "a"; mk_message "s/2" "b"; mk_message "s/3" "c"].
Proof.
  intros r. pose proof (proj1 (file_cache_queue sample_cache (mk_message "s/3" "c")
    (mk_append_env true true None) (true, mk_replace_env true true None true) 1
    sample_cache_ok eq_refl eq_refl)) as Hq.
  destruct Hq as (H1 & _ & H2). split; [exact H1 |].
  refine (eq_trans H2 _). vm_compute. reflexivity.
Defined.

(** Removing is atomic. If the process dies anywhere between the file system
    operations of a removal, the next load finds either all the messages or exactly
    those that were to remain. *)
Lemma remove_first_crash c renv n before after :
  fc_ok c → fst renv = true →
  snd (fc_remove_first (fc_path c) renv n (fc_fs c)) = before ++ after →
  let c' := mk_file_cache (fc_path c) (apply_ops (fc_fs c) before) in
  load_all c' true = load_all c true ∨ load_all c' true = drop n (load_all c true).
Proof.
  intros Hc Hr Hops c'. pose proof (fc_ok_messages c Hc) as [Ht Hcl].
  rewrite (fc_load_law c true) by done. cbn [load_all file_cache]. rewrite fc_load_open.
  destruct (decide (n = 0%nat)) as [-> | Hn].
  { destruct before; [| discriminate]. by left. }
  rewrite remove_as_replace in Hops by done. fold (fc_messages c) in Hops.
  cbn [fc_path fc_fs c'].
  destruct (replace_all_crash _ _ _ (fc_fs c) _ _ Hops) as [-> | ->]; [by left | right].
  apply load_messages. by apply Forall_drop.
Qed.

Lemma substring_prefix s t : String.substring 0 (String.length s) (s +:+ t) = s.
Proof.
  induction s as [| c s IH]; [by destruct t |].
  change (String c s +:+ t) with (String c (s +:+ t)). cbn [String.length String.substring].
  by rewrite IH.
Qed.

(** C40: The two faults the file cache does not survive. If the file cannot be opened
    for reading while messages are removed, the removal succeeds and erases every
    message; and if a failing append leaves a torn line behind, the next message that
    is appended with success is swallowed by that line and is not loaded as itself. *)
Theorem file_cache_faults c env n t1 p1 p1' m2 aenv :
  fc_ok c →
  (fst env = false → n ≠ 0%nat → re_parent_ok (snd env) = true → re_open_ok (snd env) = true →
   re_write_fails (snd env) = None → re_rename_ok (snd env) = true →
   let '(ok, c') := remove_first c env n in ok = true ∧ load_all c' true = []) ∧
  (clean (mk_message t1 (p1 +:+ p1')) → clean m2 → ae_parent_ok aenv = true →
   ae_open_ok aenv = true → ae_write_fails aenv = None →
   let torn := mk_append_env true true (Some (String.length (t1 +:+ tab +:+ p1))) in
   let '(ok1, c1) := append c torn t1 (p1 +:+ p1') in
   let '(ok2, c2) := append c1 aenv (msg_topic m2) (msg_payload m2) in
   ok1 = false ∧ ok2 = true ∧
   load_all c2 true
   = load_all c true ++ [mk_message t1 (p1 +:+ msg_topic m2 +:+ tab +:+ msg_payload m2)]).
Proof.
  intros Hc. split.
  - destruct env as [lo [pa op wr rn]]. cbn [fst snd re_parent_ok re_open_ok re_write_fails re_rename_ok].
    intros -> Hn -> -> -> ->. cbn [remove_first file_cache]. unfold run_ops, fc_remove_first.
    destruct (Nat.eqb_spec n 0); [done |]. cbn [fst snd].
    replace (fc_load_all (fc_path c) false (fc_fs c)) with (@nil CachedMessage)
      by by unfold fc_load_all; destruct (fc_fs c !! fc_path c).
    cbn. split; [done |]. rewrite fc_load_open. rewrite !contents_insert. done.
  - intros Hcl1 Hcl2 Hpa Hop Hw. cbn zeta. pose proof (fc_ok_messages c Hc) as [Ht Hcl].
    unfold clean, has_separator in Hcl1, Hcl2. cbn [msg_topic msg_payload] in Hcl1.
    cbn [append file_cache]. unfold run_ops, fc_append. rewrite Hcl1, Hcl2.
    cbn [negb ae_parent_ok ae_open_ok ae_write_fails fst snd fc_path fc_fs].
    rewrite Hpa, Hop, Hw. cbn [negb fst snd]. split; [done |]. split; [done |].
    cbn [load_all file_cache fc_path fc_fs]. rewrite !fc_load_open. fold (fc_messages c).
    cbn [apply_ops foldl apply_op]. rewrite !contents_insert, Ht.
    unfold message_line at 1.
    replace (t1 +:+ tab +:+ (p1 +:+ p1') +:+ nl) with ((t1 +:+ tab +:+ p1) +:+ (p1' +:+ nl))
      by by rewrite !string_app_assoc.
    rewrite substring_prefix, string_app_assoc, load_render by done. f_equal.
    apply orb_false_iff in Hcl1 as [Ht1 Hp1]. apply orb_false_iff in Hcl2 as [Ht2 Hp2].
    apply separator_free in Ht1 as (Ht1 & Hn1 & _), Hp1 as (_ & Hp1 & _),
      Ht2 as (_ & Hn2 & _), Hp2 as (_ & Hp2 & _).
    rewrite lacks_app in Hp1. apply andb_true_iff in Hp1 as [Hp1 _].
    replace ((t1 +:+ tab +:+ p1) +:+ message_line (msg_topic m2) (msg_payload m2))
      with ((t1 +:+ tab +:+ p1 +:+ msg_topic m2 +:+ tab +:+ msg_payload m2) +:+ nl +:+ "")
      by by (unfold message_line; rewrite !string_app_assoc, string_app_nil_r).
    rewrite lines_line by (rewrite !lacks_app, Hn1, Hp1, Hn2, Hp2; done).
    cbn [load_lines lines].
    change (t1 +:+ tab +:+ p1 +:+ msg_topic m2 +:+ tab +:+ msg_payload m2)
      with (t1 +:+ String tab_char (p1 +:+ msg_topic m2 +:+ tab +:+ msg_payload m2)).
    by rewrite (cut_app tab_char t1 _ Ht1).
Qed.

Lemma file_cache_faults_witness :
  let r := remove_first sample_cache (false, mk_replace_env true true None true) 1 in
  fst r = true ∧ load_all sample_cache true = [mk_message "s/1" "a"; mk_message "s/2" "b"] ∧
  load_all (snd r) true = [].
Proof.
  intros r.
  pose proof (proj1 (file_cache_faults sample_cache (false, mk_replace_env true true None true) 1
    "s/3" "a" "b" (mk_message "s/4" "c") (mk_append_env true true None) sample_cache_ok)
    eq_refl ltac:(discriminate) eq_refl eq_refl eq_refl eq_refl) as Hf.
  destruct Hf as [H1 H2]. split; [exact H1 |]. split; [vm_compute; reflexivity | exact H2].
Defined.
