(* ===== verification/Sql.v ===== *)
(** * The fragment of SQL the cache uses

    The SQLite library is not part of the repository. What its documentation says of the
    statements [src/cache/sqlite_cache.cpp] runs is stated here of the texts of the
    statements: a parser of a fragment of SQL, what each statement of the fragment does
    to a database, and the laws of the library's calls, which say that a call on a text
    does what the text says. An interpreter of the fragment satisfies the laws. *)

From stdpp Require Import gmap sorting.
From S2P Require Import Prelude Text.

Local Open Scope Z_scope.

(** ** Syntax *)

(** The tokens of a text: words, and other characters that are not white space, each by
    itself; [word] is the word read so far. *)
Definition is_word_char (c : ascii) : bool :=
  let n := Ascii.nat_of_ascii c in
  ((48 <=? n) && (n <=? 57) || (65 <=? n) && (n <=? 90) || (97 <=? n) && (n <=? 122) || (n =? 95))%nat.
Definition is_space (c : ascii) : bool := (Ascii.nat_of_ascii c <=? 32)%nat.

Definition end_word (word : string) : list string := if String.eqb word "" then [] else [word].

Fixpoint tokens_from (word s : string) : list string :=
  match s with
  | EmptyString => end_word word
  | String c r =>
      if is_word_char c then tokens_from (word +:+ String c "") r
      else end_word word ++ (if is_space c then [] else [String c ""]) ++ tokens_from "" r
  end.

Definition tokens : string → list string := tokens_from "".

Record column : Type := mk_column {
  cl_name : string;
  cl_type : string;
  cl_primary : bool;                   (** [PRIMARY KEY] *)
  cl_autoincrement : bool;
  cl_not_null : bool;
  cl_default : option string;
}.

Inductive direction : Type := Ascending | Descending.

Record select : Type := mk_select {
  sl_columns : list string;
  sl_table : string;
  sl_order : option (string * direction);
  sl_limit : bool;                     (** [LIMIT ?] *)
}.

Inductive statement : Type :=
  | Pragma (name value : string)
  | CreateTable (name : string) (columns : list column)    (** [IF NOT EXISTS] *)
  | Insert (table : string) (columns : list string)        (** [VALUES(?, ..., ?)] *)
  | Select (q : select)
  | Delete (table : string) (among : option (string * select)).   (** [WHERE column IN (...)] *)

(** The tokens after the given ones. *)
Fixpoint expect (words ts : list string) : option (list string) :=
  match words, ts with
  | [], _ => Some ts
  | w :: words, t :: ts => if String.eqb w t then expect words ts else None
  | _ :: _, [] => None
  end.

Definition is_name (t : string) : bool := match t with String c _ => is_word_char c | _ => false end.
Definition is_parameter (t : string) : bool := String.eqb t "?".

(** Tokens with [p], separated by commas. *)
Fixpoint items (p : string → bool) (ts : list string) : option (list string * list string) :=
  match ts with
  | [] => None
  | x :: rest =>
      if p x then
        match rest with
        | comma :: rest' =>
            if String.eqb comma "," then '(xs, ts) ← items p rest'; Some (x :: xs, ts)
            else Some ([x], rest)
        | [] => Some ([x], [])
        end
      else None
  end.

Definition name (ts : list string) : option (string * list string) :=
  match ts with x :: rest => if is_name x then Some (x, rest) else None | [] => None end.

Definition order_by (ts : list string) : option (option (string * direction) * list string) :=
  match expect ["ORDER"; "BY"] ts with
  | None => Some (None, ts)
  | Some ts =>
      '(c, ts) ← name ts;
      match expect ["DESC"] ts, expect ["ASC"] ts with
      | Some ts, _ => Some (Some (c, Descending), ts)
      | None, Some ts => Some (Some (c, Ascending), ts)
      | None, None => Some (Some (c, Ascending), ts)
      end
  end.

Definition parse_select (ts : list string) : option (select * list string) :=
  ts ← expect ["SELECT"] ts;
  '(columns, ts) ← items is_name ts;
  ts ← expect ["FROM"] ts;
  '(table, ts) ← name ts;
  '(order, ts) ← order_by ts;
  match expect ["LIMIT"; "?"] ts with
  | Some ts => Some (mk_select columns table order true, ts)
  | None => Some (mk_select columns table order false, ts)
  end.

(** The constraints of a column, in any order. *)
Fixpoint constraints (c : column) (ts : list string) : column * list string :=
  let '(mk_column n t p a nn d) := c in
  match ts with
  | [] => (c, ts)
  | w :: rest =>
      if String.eqb w "AUTOINCREMENT" then constraints (mk_column n t p true nn d) rest
      else match rest with
           | [] => (c, ts)
           | v :: rest =>
               if String.eqb w "PRIMARY" && String.eqb v "KEY" then constraints (mk_column n t true a nn d) rest
               else if String.eqb w "NOT" && String.eqb v "NULL" then constraints (mk_column n t p a true d) rest
               else if String.eqb w "DEFAULT" then constraints (mk_column n t p a nn (Some v)) rest
               else (c, ts)
           end
  end.

Fixpoint column_list (fuel : nat) (ts : list string) : option (list column * list string) :=
  match fuel with
  | O => None
  | S fuel =>
      '(n, ts) ← name ts;
      '(type, ts) ← name ts;
      let '(c, ts) := constraints (mk_column n type false false false None) ts in
      match expect [","] ts with
      | Some ts => '(cs, ts) ← column_list fuel ts; Some (c :: cs, ts)
      | None => Some ([c], ts)
      end
  end.

(** The statement is the whole text. *)
Definition whole {A} (r : option (A * list string)) : option A :=
  match r with Some (x, []) => Some x | _ => None end.

Definition parse_pragma (ts : list string) : option (statement * list string) :=
  ts ← expect ["PRAGMA"] ts;
  '(n, ts) ← name ts;
  ts ← expect ["="] ts;
  '(v, ts) ← name ts;
  Some (Pragma n v, ts).

Definition parse_create (ts : list string) : option (statement * list string) :=
  ts ← expect ["CREATE"; "TABLE"; "IF"; "NOT"; "EXISTS"] ts;
  '(n, ts) ← name ts;
  ts ← expect ["("] ts;
  '(cs, ts) ← column_list (length ts) ts;
  ts ← expect [")"] ts;
  Some (CreateTable n cs, ts).

Definition parse_insert (ts : list string) : option (statement * list string) :=
  ts ← expect ["INSERT"; "INTO"] ts;
  '(n, ts) ← name ts;
  ts ← expect ["("] ts;
  '(cs, ts) ← items is_name ts;
  ts ← expect [")"; "VALUES"; "("] ts;
  '(ps, ts) ← items is_parameter ts;
  ts ← expect [")"] ts;
  if (length ps =? length cs)%nat then Some (Insert n cs, ts) else None.

Definition parse_delete (ts : list string) : option (statement * list string) :=
  ts ← expect ["DELETE"; "FROM"] ts;
  '(n, ts) ← name ts;
  match expect ["WHERE"] ts with
  | None => Some (Delete n None, ts)
  | Some ts =>
      '(c, ts) ← name ts;
      ts ← expect ["IN"; "("] ts;
      '(q, ts) ← parse_select ts;
      ts ← expect [")"] ts;
      Some (Delete n (Some (c, q)), ts)
  end.

Definition parse_sql (sql : string) : option statement :=
  let ts := tokens sql in
  match whole (parse_pragma ts), whole (parse_create ts), whole (parse_insert ts),
        whole (parse_delete ts), whole (parse_select ts) with
  | Some st, _, _, _, _ | None, Some st, _, _, _ | None, None, Some st, _, _
  | None, None, None, Some st, _ => Some st
  | None, None, None, None, Some q => Some (Select q)
  | None, None, None, None, None => None
  end.

(** ** Meaning *)

Inductive sql_value : Type := SqlNull | SqlText (s : string) | SqlInt (n : Z).

#[export] Instance sql_value_eq_dec : EqDecision sql_value.
Proof. solve_decision. Defined.
#[export] Instance sql_value_inhabited : Inhabited sql_value := populate SqlNull.

(** A row maps the names of the columns to values. The rows of a table are in no
    particular order; [tb_sequence] is the largest identifier [AUTOINCREMENT] has given. *)
Abbreviation row := (gmap string sql_value).

Record table : Type := mk_table {
  tb_columns : list column;
  tb_sequence : Z;
  tb_rows : list row;
}.

Abbreviation database := (gmap string table).

(** The values bound to the parameters, counted from 1; the others are null. *)
Abbreviation bindings := (gmap nat sql_value).

(** [r1] may come before [r2]. Of the order of values that are not integers nothing is
    said. *)
Definition may_precede (order : option (string * direction)) (r1 r2 : row) : Prop :=
  match order with
  | None => True
  | Some (c, way) =>
      match r1 !! c, r2 !! c with
      | Some (SqlInt a), Some (SqlInt b) =>
          match way with Ascending => a <= b | Descending => b <= a end
      | _, _ => True
      end
  end.

(** The first rows, as many as the parameter says; all for a negative number. *)
Definition limited (limit : bool) (v : sql_value) (rows rows' : list row) : Prop :=
  if limit then
    match v with
    | SqlInt n => rows' = if n <? 0 then rows else take (Z.to_nat n) rows
    | _ => True
    end
  else rows' = rows.

Definition project (columns : list string) (r : row) : list sql_value := (λ c, r !!! c) <$> columns.

(** The rows of an answer: those of the table, in the order asked for, or in any order if
    none is, and the first of them. *)
Definition answers (q : select) (bs : bindings) (db : database) (answer : list (list sql_value)) : Prop :=
  ∃ t sorted rows,
    db !! sl_table q = Some t ∧ sorted ≡ₚ tb_rows t ∧ StronglySorted (may_precede (sl_order q)) sorted ∧
    limited (sl_limit q) (bs !!! 1%nat) sorted rows ∧
    answer = project (sl_columns q) <$> rows.

(** A value stored in a column: a [TEXT] column makes a text of a number; what another
    one does with a text is not said. *)
Definition stored (c : column) (v v' : sql_value) : Prop :=
  if String.eqb (cl_type c) "TEXT"
  then v' = match v with SqlInt n => SqlText (dec n) | _ => v end
  else match v with SqlText _ => True | _ => v' = v end.

(** A cell of a new row: the parameter in the place of the column, the identifier of the
    row in the primary key, a default, or null. *)
Definition new_cell (columns : list string) (bs : bindings) (id : Z) (r : row) (c : column) : Prop :=
  ∃ v, r !! cl_name c = Some v ∧ (cl_not_null c = true → v ≠ SqlNull) ∧
    match list_find (λ n, n = cl_name c) columns with
    | Some (i, _) => stored c (bs !!! S i) v
    | None =>
        if cl_primary c then v = SqlInt id
        else match cl_default c with Some _ => True | None => v = SqlNull end
    end.

Definition inserted (t : table) (columns : list string) (bs : bindings) (t' : table) : Prop :=
  ∃ r id,
    tb_columns t' = tb_columns t ∧ tb_rows t' ≡ₚ r :: tb_rows t ∧
    Forall (new_cell columns bs id r) (tb_columns t) ∧
    Forall (λ c, cl_autoincrement c = true → cl_name c ∉ columns →
                 tb_sequence t < id ∧ tb_sequence t' = id) (tb_columns t).

(** What a statement that succeeds does. *)
Definition executes (st : statement) (bs : bindings) (db db' : database) : Prop :=
  match st with
  | Pragma _ _ | Select _ => db' = db
  | CreateTable n cs => db' = match db !! n with Some _ => db | None => <[n := mk_table cs 0 []]> db end
  | Insert n cs => ∃ t t', db !! n = Some t ∧ inserted t cs bs t' ∧ db' = <[n := t']> db
  | Delete n among => ∃ t t',
      db !! n = Some t ∧ db' = <[n := t']> db ∧
      tb_columns t' = tb_columns t ∧ tb_sequence t' = tb_sequence t ∧
      match among with
      | None => tb_rows t' = []
      | Some (c, q) => ∃ answer, answers q bs db answer ∧
          tb_rows t' ≡ₚ filter (λ r : row, [r !!! c] ∉ answer) (tb_rows t)
      end
  end.

(** ** The library *)

(** [E] decides which calls fail. A statement is executed by stepping it to its end: the
    result tells if the last step was [SQLITE_DONE]. *)
Class Sqlite (DB E : Type) : Type := {
  sql_prepare : E → DB → string → bool;
  sql_bind : E → DB → nat → sql_value → bool;
  sql_exec : E → DB → string → bindings → bool * DB;
  sql_query : E → DB → string → bool * list (list sql_value);
  sql_errmsg : E → DB → string;
}.

(** A call on a text of the fragment does what the text says, or fails and changes
    nothing. *)
Class SqliteLaws (DB E : Type) `{!Sqlite DB E} : Type := {
  contents : DB → database;
  exec_law env db sql st bs :
    parse_sql sql = Some st →
    let '(ok, db') := sql_exec env db sql bs in
    if ok : bool then executes st bs (contents db) (contents db') else contents db' = contents db;
  query_law env db sql q :
    parse_sql sql = Some (Select q) → fst (sql_query env db sql) = true →
    answers q ∅ (contents db) (snd (sql_query env db sql));
}.

(** ** An interpreter *)

Definition key (c : string) (r : row) : Z := match r !! c with Some (SqlInt n) => n | _ => 0 end.
Definition has_key (c : string) (r : row) : bool := match r !! c with Some (SqlInt _) => true | _ => false end.

Definition key_le (c : string) (way : direction) (r1 r2 : row) : Prop :=
  match way with Ascending => key c r1 <= key c r2 | Descending => key c r2 <= key c r1 end.

#[export] Instance key_le_dec c way : RelDecision (key_le c way).
Proof. intros r1 r2. unfold key_le. destruct way; apply _. Defined.
#[export] Instance key_le_trans c way : Transitive (key_le c way).
Proof. intros r1 r2 r3. unfold key_le. destruct way; lia. Qed.
#[export] Instance key_le_total c way : Total (key_le c way).
Proof. intros r1 r2. unfold key_le. destruct way; lia. Qed.

Definition sort_rows (order : option (string * direction)) (rows : list row) : option (list row) :=
  match order with
  | None => Some rows
  | Some (c, way) => if forallb (has_key c) rows then Some (merge_sort (key_le c way) rows) else None
  end.

Definition limit_rows (limit : bool) (v : sql_value) (rows : list row) : option (list row) :=
  if limit then
    match v with
    | SqlInt n => Some (if n <? 0 then rows else take (Z.to_nat n) rows)
    | _ => None
    end
  else Some rows.

Definition answer_of (q : select) (bs : bindings) (db : database) : option (list (list sql_value)) :=
  t ← db !! sl_table q;
  sorted ← sort_rows (sl_order q) (tb_rows t);
  rows ← limit_rows (sl_limit q) (bs !!! 1%nat) sorted;
  Some (fmap (M:=list) (project (sl_columns q)) rows).

Definition cell_of (columns : list string) (bs : bindings) (id : Z) (c : column) : option sql_value :=
  v ← match list_find (λ n, n = cl_name c) columns with
      | Some (i, _) =>
          match bs !!! S i with
          | SqlInt n => Some (if String.eqb (cl_type c) "TEXT" then SqlText (dec n) else SqlInt n)
          | v => Some v
          end
      | None => Some (if cl_primary c then SqlInt id
                      else match cl_default c with Some _ => SqlText "1970-01-01 00:00:00" | None => SqlNull end)
      end;
  if cl_not_null c && bool_decide (v = SqlNull) then None else Some v.

Definition run_statement (st : statement) (bs : bindings) (db : database) : option database :=
  match st with
  | Pragma _ _ | Select _ => Some db
  | CreateTable n cs => Some (match db !! n with Some _ => db | None => <[n := mk_table cs 0 []]> db end)
  | Insert n cs =>
      t ← db !! n;
      let id := tb_sequence t + 1 in
      if bool_decide (NoDup (cl_name <$> tb_columns t)) then
        values ← mapM (cell_of cs bs id) (tb_columns t);
        Some (<[n := mk_table (tb_columns t) id
                       (list_to_map (zip (cl_name <$> tb_columns t) values) :: tb_rows t)]> db)
      else None
  | Delete n None => t ← db !! n; Some (<[n := mk_table (tb_columns t) (tb_sequence t) []]> db)
  | Delete n (Some (c, q)) =>
      t ← db !! n;
      answer ← answer_of q bs db;
      Some (<[n := mk_table (tb_columns t) (tb_sequence t)
                     (filter (λ r : row, [r !!! c] ∉ answer) (tb_rows t))]> db)
  end.

(** With [true] every call does what the text says, with [false] it fails. *)
#[export] Instance interpreter : Sqlite database bool := {|
  sql_prepare e _ _ := e;
  sql_bind e _ _ _ := e;
  sql_exec e db sql bs :=
    match (if e then st ← parse_sql sql; run_statement st bs db else None) with
    | Some db' => (true, db')
    | None => (false, db)
    end;
  sql_query e db sql :=
    match (if e then parse_sql sql else None) with
    | Some (Select q) => match answer_of q ∅ db with Some answer => (true, answer) | None => (false, []) end
    | _ => (false, [])
    end;
  sql_errmsg _ _ := "disk I/O error";
|}.

Lemma key_may_precede c way r1 r2 : key_le c way r1 r2 → may_precede (Some (c, way)) r1 r2.
Proof.
  unfold key_le, key, may_precede. destruct (r1 !! c) as [[] |], (r2 !! c) as [[] |]; done.
Qed.

Lemma sorted_impl {A} (R R' : A → A → Prop) l :
  (∀ x y, R x y → R' x y) → StronglySorted R l → StronglySorted R' l.
Proof.
  intros Hi. induction 1 as [| x l _ IH Hl]; constructor; [done |].
  eapply Forall_impl; [exact Hl |]. apply Hi.
Qed.

Lemma answer_of_answers q bs db answer : answer_of q bs db = Some answer → answers q bs db answer.
Proof.
  unfold answer_of. intros (t & Ht & (sorted & Hs & (rows & Hr & [= <-])%bind_Some)%bind_Some)%bind_Some.
  exists t, sorted, rows. split; [done |].
  assert (sorted ≡ₚ tb_rows t ∧ StronglySorted (may_precede (sl_order q)) sorted) as [Hp Hss].
  { unfold sort_rows in Hs. destruct (sl_order q) as [[c way] |].
    - destruct (forallb _ _); [| done]. injection Hs as <-.
      split; [apply merge_sort_Permutation |].
      apply (sorted_impl (key_le c way)); [by intros; apply key_may_precede |].
      apply StronglySorted_merge_sort; apply _.
    - injection Hs as <-. split; [done |]. clear. induction (tb_rows t) as [| r l IH]; constructor; [done |].
      by apply Forall_true. }
  split; [done |]. split; [done |]. split; [| done]. unfold limited, limit_rows in *.
  destruct (sl_limit q); [destruct (bs !!! 1%nat) as [| | n]; try done |]; by injection Hr as <-.
Qed.

Lemma cell_of_new cs bs id r c v :
  cell_of cs bs id c = Some v → r !! cl_name c = Some v → new_cell cs bs id r c.
Proof.
  intros (v' & Hv & Hn)%bind_Some Hr. exists v.
  assert (v' = v ∧ (cl_not_null c = true → v ≠ SqlNull)) as [-> Hnn].
  { destruct (cl_not_null c); cbn [andb] in Hn; [| by injection Hn].
    case_bool_decide; [done |]. by injection Hn as ->. }
  split; [done |]. split; [done |].
  destruct (list_find _ cs) as [[i n] |].
  - unfold stored. destruct (bs !!! S i), (String.eqb (cl_type c) "TEXT"); by injection Hv as <-.
  - destruct (cl_primary c); [by injection Hv | destruct (cl_default c); [done | by injection Hv]].
Qed.

Lemma run_insert n cs bs db db' :
  run_statement (Insert n cs) bs db = Some db' → executes (Insert n cs) bs db db'.
Proof.
  cbn [run_statement executes]. intros (t & Ht & Hrun)%bind_Some. revert Hrun.
  case_bool_decide as Hnd; [| done]. intros (values & Hv & [= <-])%bind_Some.
  eexists t, _. split; [done |]. split; [| done].
  exists (list_to_map (zip (cl_name <$> tb_columns t) values)), (tb_sequence t + 1).
  cbn [tb_columns tb_rows tb_sequence]. split_and!; [done | done | |].
  - apply Forall_forall. intros c Hc. apply mapM_Some in Hv.
    apply list_elem_of_lookup in Hc as [i Hi].
    destruct (Forall2_lookup_l _ _ _ _ _ Hv Hi) as (v & Hi' & Hcell).
    eapply cell_of_new; [exact Hcell |]. apply elem_of_list_to_map_1.
    + rewrite fst_zip; [done |]. rewrite length_fmap. by rewrite (Forall2_length _ _ _ Hv).
    + apply list_elem_of_lookup. exists i. rewrite lookup_zip_with, list_lookup_fmap, Hi. cbn. by rewrite Hi'.
  - apply Forall_true. intros c _ _. split; [lia | done].
Qed.

Lemma run_statement_executes st bs db db' : run_statement st bs db = Some db' → executes st bs db db'.
Proof.
  destruct st as [| n cs | n cs | q | n [[c q] |]].
  - by intros [= <-].
  - by intros [= <-].
  - apply run_insert.
  - by intros [= <-].
  - cbn. intros (t & Ht & (answer & Ha & [= <-])%bind_Some)%bind_Some.
    eexists t, _. split_and!; try done. exists answer. split; [by apply answer_of_answers | done].
  - cbn. intros (t & Ht & [= <-])%bind_Some. by eexists t, _.
Qed.

Lemma interpreter_exec env db sql st bs :
  parse_sql sql = Some st →
  let '(ok, db') := sql_exec env db sql bs in
  if ok : bool then executes st bs db db' else db' = db.
Proof.
  intros Hp. cbn [sql_exec interpreter]. rewrite Hp. destruct env; [| done]. cbn [mbind option_bind].
  destruct (run_statement st bs db) as [db' |] eqn:Hr; [| done]. by apply run_statement_executes.
Qed.

Lemma interpreter_query env db sql q :
  parse_sql sql = Some (Select q) → fst (sql_query env db sql) = true →
  answers q ∅ db (snd (sql_query env db sql)).
Proof.
  intros Hp. cbn [sql_query interpreter]. rewrite Hp. destruct env; [| done].
  destruct (answer_of q ∅ db) as [answer |] eqn:Ha; [| done]. intros _. by apply answer_of_answers.
Qed.

#[export] Instance interpreter_laws : SqliteLaws database bool := {|
  contents db := db;
  exec_law := interpreter_exec;
  query_law := interpreter_query;
|}.
