(* ===== verification/SqliteCache.v ===== *)
(** * The cache in an SQLite database ([src/cache/sqlite_cache.cpp])

    The SQLite library is not part of the repository: its calls are parameters, and
    [Sql] says what they do on the text of a statement. That the statements the code
    runs make the table a first-in first-out queue, and keep it one, is proved from
    their texts. *)

From stdpp Require Import gmap sorting.
From S2P Require Import Prelude Text MessageCache Sql.

Local Open Scope Z_scope.

(** ** The code *)

(** The statements, as the code writes them. *)
Definition journal_sql : string := "PRAGMA journal_mode=WAL".
Definition synchronous_sql : string := "PRAGMA synchronous=FULL".
Definition create_table_sql : string := "
CREATE TABLE IF NOT EXISTS pending_messages (
    id INTEGER PRIMARY KEY AUTOINCREMENT,
    topic TEXT NOT NULL,
    payload TEXT NOT NULL,
    created_at TEXT NOT NULL DEFAULT CURRENT_TIMESTAMP
)
".
Definition insert_sql : string := "INSERT INTO pending_messages(topic, payload) " +:+ "VALUES(?, ?)".
Definition select_sql : string := "SELECT topic, payload " +:+ "FROM pending_messages ORDER BY id".
Definition delete_sql : string := "
DELETE FROM pending_messages
WHERE id IN (
    SELECT id FROM pending_messages
    ORDER BY id
    LIMIT ?
)
".

(** [std::numeric_limits<int>::max()] *)
Definition int_max : Z := 2147483647.

(** A [const char*] taken as a [std::string]: up to the first null character. *)
Fixpoint c_str (s : string) : string :=
  match s with
  | EmptyString => EmptyString
  | String c r => if Ascii.eqb c (Ascii.ascii_of_nat 0) then EmptyString else String c (c_str r)
  end.

(** [sqlite3_column_text] of a column of the current row, and the text taken from it. *)
Definition column_text (row : list sql_value) (column : nat) : string :=
  match row !! column with
  | Some (SqlText s) => c_str s
  | Some (SqlInt n) => dec n
  | Some SqlNull | None => ""
  end.

Record SqliteCache (DB : Type) : Type := mk_sqlite_cache {
  sq_database : DB;
  sq_ready : bool;
  sq_error : string;
}.
Arguments mk_sqlite_cache {DB}.
Arguments sq_database {DB}. Arguments sq_ready {DB}. Arguments sq_error {DB}.

Section code.
Context `{Sqlite DB E}.

Definition set_error (message : string) (c : SqliteCache DB) : SqliteCache DB :=
  mk_sqlite_cache (sq_database c) (sq_ready c) message.
Definition set_database (db : DB) (c : SqliteCache DB) : SqliteCache DB :=
  mk_sqlite_cache db (sq_ready c) (sq_error c).

(** [execute], with the message of [sqlite3_exec] taken from [sql_errmsg]. *)
Definition execute (env : E) (sql : string) (c : SqliteCache DB) : bool * SqliteCache DB :=
  let '(ok, db) := sql_exec env (sq_database c) sql ∅ in
  let c := set_database db c in
  if ok then (true, c) else (false, set_error ("SQLite command failed: " +:+ sql_errmsg env db) c).

(** [parent]: the failure to create the directory, if any. [opened]: the result of
    [sqlite3_open_v2]. *)
Definition initialize (env : E) (parent : option string) (opened : bool) (c : SqliteCache DB)
    : bool * SqliteCache DB :=
  match parent with
  | Some message => (false, set_error ("create cache directory failed: " +:+ message) c)
  | None =>
      if negb opened
      then (false, set_error ("open SQLite cache failed: " +:+ sql_errmsg env (sq_database c)) c)
      else
        let '(ok, c) := execute env journal_sql c in
        if negb ok then (false, c)
        else
          let '(ok, c) := execute env synchronous_sql c in
          if negb ok then (false, c) else execute env create_table_sql c
  end.

(** The constructor. Members are initialised in the order of their declaration:
    [ready_] calls [initialize], and [error_message_] is only constructed
    after it. *)
Definition new_sqlite_cache (env : E) (parent : option string) (opened : bool) (db : DB)
    : SqliteCache DB :=
  let '(ready, c) := initialize env parent opened (mk_sqlite_cache db false "") in
  mk_sqlite_cache (sq_database c) ready "".

Definition sq_append (c : SqliteCache DB) (env : E) (topic payload : string)
    : bool * SqliteCache DB :=
  if negb (sq_ready c) then (false, c)
  else
    let db := sq_database c in
    if negb (sql_prepare env db insert_sql)
    then (false, set_error ("prepare cache insert failed: " +:+ sql_errmsg env db) c)
    else
      let topic_result := sql_bind env db 1 (SqlText topic) in
      let payload_result := sql_bind env db 2 (SqlText payload) in
      if topic_result && payload_result then
        let '(success, db) := sql_exec env db insert_sql (<[1%nat := SqlText topic]> (<[2%nat := SqlText payload]> ∅)) in
        let c := set_database db c in
        if success then (true, c)
        else (false, set_error ("insert cache message failed: " +:+ sql_errmsg env db) c)
      else (false, set_error ("insert cache message failed: " +:+ sql_errmsg env db) c).

(** The messages and the cache, whose error message is mutable. *)
Definition sq_load_all (c : SqliteCache DB) (env : E) : list CachedMessage * SqliteCache DB :=
  if negb (sq_ready c) then ([], c)
  else
    let db := sq_database c in
    if negb (sql_prepare env db select_sql)
    then ([], set_error ("prepare cache query failed: " +:+ sql_errmsg env db) c)
    else
      let '(done, rows) := sql_query env db select_sql in
      let messages := (λ row, mk_message (column_text row 0) (column_text row 1)) <$> rows in
      if done then (messages, c)
      else ([], set_error ("query cache messages failed: " +:+ sql_errmsg env db) c).

Definition sq_remove_first (c : SqliteCache DB) (env : E) (count : nat)
    : bool * SqliteCache DB :=
  if negb (sq_ready c) || (count =? 0)%nat then (sq_ready c, c)
  else if int_max <? Z.of_nat count then (false, set_error "cache removal count is too large" c)
  else
    let db := sq_database c in
    if negb (sql_prepare env db delete_sql)
    then (false, set_error ("prepare cache removal failed: " +:+ sql_errmsg env db) c)
    else if sql_bind env db 1 (SqlInt (Z.of_nat count)) then
      let '(success, db) := sql_exec env db delete_sql {[1%nat := SqlInt (Z.of_nat count)]} in
      let c := set_database db c in
      if success then (true, c)
      else (false, set_error ("remove cached messages failed: " +:+ sql_errmsg env db) c)
    else (false, set_error ("remove cached messages failed: " +:+ sql_errmsg env db) c).

#[export] Instance sqlite_cache : MessageCache (SqliteCache DB) E E E := {|
  append := sq_append;
  load_all c env := fst (sq_load_all c env);
  remove_first := sq_remove_first;
|}.
End code.

(** ** The table as a queue *)

(** The columns the code expects. *)
Definition pending_columns : list column :=
  [mk_column "id" "INTEGER" true true false None; mk_column "topic" "TEXT" false false true None;
   mk_column "payload" "TEXT" false false true None;
   mk_column "created_at" "TEXT" false false true (Some "CURRENT_TIMESTAMP")].

(** The messages in the rows, the smallest identifier first. *)
Definition older (r1 r2 : row) : Prop := key "id" r1 <= key "id" r2.
#[export] Instance older_dec : RelDecision older.
Proof. intros r1 r2. unfold older. apply _. Defined.
#[export] Instance older_trans : Transitive older.
Proof. intros r1 r2 r3. unfold older. lia. Qed.
#[export] Instance older_total : Total older.
Proof. intros r1 r2. unfold older. lia. Qed.

Definition row_text (r : row) (c : string) : string := match r !! c with Some (SqlText s) => s | _ => "" end.
Definition row_message (r : row) : CachedMessage := mk_message (row_text r "topic") (row_text r "payload").

Definition by_age (rows : list row) : list row := merge_sort older rows.
Definition table_messages (t : table) : list CachedMessage := row_message <$> by_age (tb_rows t).

(** A row of the table: an identifier that has been given, and the two texts. *)
Definition row_ok (sequence : Z) (r : row) : Prop :=
  (∃ id, r !! "id" = Some (SqlInt id) ∧ id <= sequence) ∧
  (∃ s, r !! "topic" = Some (SqlText s)) ∧ ∃ s, r !! "payload" = Some (SqlText s).

Record pending_ok (t : table) : Prop := mk_pending_ok {
  pd_columns : tb_columns t = pending_columns;
  pd_rows : Forall (row_ok (tb_sequence t)) (tb_rows t);
  pd_ids : NoDup (key "id" <$> tb_rows t);
}.

(** What the texts say. *)
Lemma create_parses : parse_sql create_table_sql = Some (CreateTable "pending_messages" pending_columns).
Proof. by vm_compute. Qed.

Lemma insert_parses : parse_sql insert_sql = Some (Insert "pending_messages" ["topic"; "payload"]).
Proof. by vm_compute. Qed.

Definition all_messages : select :=
  mk_select ["topic"; "payload"] "pending_messages" (Some ("id", Ascending)) false.
Definition first_ids : select := mk_select ["id"] "pending_messages" (Some ("id", Ascending)) true.

Lemma select_parses : parse_sql select_sql = Some (Select all_messages).
Proof. by vm_compute. Qed.

Lemma delete_parses : parse_sql delete_sql = Some (Delete "pending_messages" (Some ("id", first_ids))).
Proof. by vm_compute. Qed.

(** Rows in the order of their identifiers are the rows by age. *)
Lemma by_age_unique rows sorted :
  NoDup (key "id" <$> rows) → sorted ≡ₚ rows → StronglySorted older sorted → sorted = by_age rows.
Proof.
  intros Hnd Hp Hs. eapply (StronglySorted_unique_strong older); [| done | apply StronglySorted_merge_sort; apply _
    | by unfold by_age; rewrite merge_sort_Permutation].
  intros r1 r2 H1 H2 H12 H21. rewrite Hp in H1. unfold by_age in H2. rewrite merge_sort_Permutation in H2.
  apply list_elem_of_lookup in H1 as [i Hi]. apply list_elem_of_lookup in H2 as [j Hj].
  assert (i = j) as ->; [| congruence].
  eapply (NoDup_lookup (key "id" <$> rows)); [done | by rewrite list_lookup_fmap, Hi | rewrite list_lookup_fmap, Hj].
  unfold older in *. cbn. f_equal. lia.
Qed.

Lemma by_age_perm rows : by_age rows ≡ₚ rows.
Proof. apply merge_sort_Permutation. Qed.

Lemma by_age_sorted rows : StronglySorted older (by_age rows).
Proof. apply StronglySorted_merge_sort; apply _. Qed.

Lemma row_ok_key sequence r : row_ok sequence r → r !! "id" = Some (SqlInt (key "id" r)) ∧ key "id" r <= sequence.
Proof. intros [(id & Hid & Hle) _]. unfold key. by rewrite Hid. Qed.

(** An answer in the order of the identifiers lists the rows by age. *)
Lemma ordered_older t sorted :
  pending_ok t → sorted ≡ₚ tb_rows t → StronglySorted (may_precede (Some ("id", Ascending))) sorted →
  sorted = by_age (tb_rows t).
Proof.
  intros [_ Hr Hnd] Hp Hs. apply by_age_unique; [done | done |].
  rewrite <-Hp in Hr. clear Hp. induction Hs as [| r l _ IH Hl]; [constructor |].
  apply Forall_cons in Hr as [Hr1 Hr]. constructor; [by apply IH |].
  apply Forall_forall. intros r' Hr'. rewrite Forall_forall in Hl, Hr. specialize (Hl r' Hr').
  unfold may_precede in Hl. destruct (row_ok_key _ _ Hr1) as [E1 _], (row_ok_key _ _ (Hr r' Hr')) as [E2 _].
  by rewrite E1, E2 in Hl.
Qed.

Lemma filter_all {A} (P : A → Prop) `{∀ x, Decision (P x)} (l : list A) : (∀ x, x ∈ l → P x) → filter P l = l.
Proof.
  induction l as [| x l IH]; intros Hl; [done |].
  rewrite filter_cons_True by (apply Hl; by left). f_equal. apply IH. intros y Hy. apply Hl. by right.
Qed.

Lemma filter_none {A} (P : A → Prop) `{∀ x, Decision (P x)} (l : list A) : (∀ x, x ∈ l → ¬ P x) → filter P l = [].
Proof.
  induction l as [| x l IH]; intros Hl; [done |].
  rewrite filter_cons_False by (apply Hl; by left). apply IH. intros y Hy. apply Hl. by right.
Qed.

(** *** The statements on the table *)

Lemma insert_appends t t' topic payload :
  pending_ok t →
  inserted t ["topic"; "payload"] (<[1%nat := SqlText topic]> (<[2%nat := SqlText payload]> ∅)) t' →
  pending_ok t' ∧ table_messages t' = table_messages t ++ [mk_message topic payload].
Proof.
  intros Hok (r & id & Hc & Hp & Hcells & Hid). pose proof Hok as [Hcols Hr Hnd]. rewrite Hcols in Hcells, Hid.
  apply Forall_cons in Hcells as [(v1 & E1 & _ & H1) Hcells].
  apply Forall_cons in Hcells as [(v2 & E2 & _ & H2) Hcells].
  apply Forall_cons in Hcells as [(v3 & E3 & _ & H3) _].
  apply Forall_cons in Hid as [Hid _]. destruct (Hid eq_refl ltac:(set_solver)) as [Hlt Hseq].
  change (v1 = SqlInt id) in H1. change (v2 = SqlText topic) in H2. change (v3 = SqlText payload) in H3.
  cbn [cl_name] in E1, E2, E3. subst v1 v2 v3.
  assert (key "id" r = id) as Hk by (unfold key; by rewrite E1).
  assert (Forall (row_ok (tb_sequence t')) (r :: tb_rows t)) as Hr'.
  { rewrite Hseq. apply Forall_cons_2; [split; [by exists id | split; by eexists] |].
    eapply Forall_impl; [exact Hr |]. intros r' [(n & Hn & Hle) Ht]. split; [exists n; split; [done | lia] | done]. }
  assert (id ∉ (key "id" <$> tb_rows t)) as Hfresh.
  { intros (r' & -> & Hin)%list_elem_of_fmap. rewrite Forall_forall in Hr.
    destruct (row_ok_key _ _ (Hr r' Hin)). lia. }
  assert (NoDup (key "id" <$> tb_rows t')) as Hnd'.
  { rewrite Hp. cbn [fmap list_fmap]. rewrite Hk. by constructor. }
  split; [split; [by rewrite Hc | by rewrite Hp | done] |]. unfold table_messages.
  assert (by_age (tb_rows t) ++ [r] = by_age (tb_rows t')) as <-.
  { apply by_age_unique; [done | rewrite by_age_perm, Hp; by rewrite (comm (++)) |].
    apply StronglySorted_app_2; [| apply by_age_sorted | by repeat constructor].
    intros r1 r2 Hin ->%list_elem_of_singleton. rewrite by_age_perm in Hin. rewrite Forall_forall in Hr.
    destruct (row_ok_key _ _ (Hr r1 Hin)). unfold older. lia. }
  rewrite fmap_app. cbn [fmap list_fmap]. unfold row_message, row_text at 3 4. by rewrite E2, E3.
Qed.

Lemma delete_drops db t t' n answer :
  pending_ok t → db !! "pending_messages" = Some t →
  answers first_ids {[1%nat := SqlInt (Z.of_nat n)]} db answer →
  tb_columns t' = tb_columns t → tb_sequence t' = tb_sequence t →
  tb_rows t' ≡ₚ filter (λ r : row, [r !!! "id"] ∉ answer) (tb_rows t) →
  pending_ok t' ∧ table_messages t' = drop n (table_messages t).
Proof.
  intros Hok Ht (t1 & sorted & rows & Ht1 & Hp & Hs & Hl & ->) Hc Hseq Hrows.
  cbn [sl_table first_ids sl_order sl_limit sl_columns] in *. rewrite Ht in Ht1. injection Ht1 as <-.
  apply (ordered_older t sorted Hok Hp) in Hs as ->. pose proof Hok as [Hcols Hr Hnd].
  unfold limited in Hl. rewrite lookup_total_singleton, decide_True in Hl by done.
  destruct (Z.ltb_spec (Z.of_nat n) 0) as [| _]; [lia |]. rewrite Nat2Z.id in Hl. subst rows.
  set (sorted := by_age (tb_rows t)) in *.
  assert (Forall (row_ok (tb_sequence t)) sorted) as Hrs by by rewrite Hp.
  assert (NoDup (key "id" <$> sorted)) as Hnds by by rewrite Hp.
  assert (∀ r, r ∈ sorted → ([r !!! "id"] ∈ project ["id"] <$> take n sorted) ↔ r ∈ take n sorted) as Hin.
  { intros r Hrin. split; [| intros Hr'; apply list_elem_of_fmap; by exists r].
    intros (r' & He & Hr')%list_elem_of_fmap. cbn in He. injection He as He.
    assert (r' ∈ sorted) as Hr's by (rewrite <-(take_drop n sorted); apply elem_of_app; by left).
    rewrite Forall_forall in Hrs.
    destruct (row_ok_key _ _ (Hrs r Hrin)) as [K1 _], (row_ok_key _ _ (Hrs r' Hr's)) as [K2 _].
    rewrite !lookup_total_alt, K1, K2 in He. cbn in He. injection He as He.
    apply list_elem_of_lookup in Hrin as [i Hi]. apply list_elem_of_lookup in Hr's as [j Hj].
    assert (i = j) as ->; [| congruence].
    eapply (NoDup_lookup (key "id" <$> sorted)); [done | by rewrite list_lookup_fmap, Hi |].
    rewrite list_lookup_fmap, Hj. cbn. by rewrite He. }
  assert (filter (λ r : row, [r !!! "id"] ∉ project ["id"] <$> take n sorted) sorted = drop n sorted) as Hfilter.
  { transitivity (filter (λ r : row, [r !!! "id"] ∉ project ["id"] <$> take n sorted) (take n sorted ++ drop n sorted));
      [by rewrite take_drop |]. rewrite filter_app.
    apply NoDup_fmap_1 in Hnds. rewrite <-(take_drop n sorted) in Hnds. apply NoDup_app in Hnds as (_ & Hdisj & _).
    rewrite filter_none, filter_all; [done | |].
    - intros r Hrd Hbad. apply Hin in Hbad; [by apply (Hdisj r) |].
      rewrite <-(take_drop n sorted). apply elem_of_app. by right.
    - intros r Hrt Hbad. apply Hbad, Hin; [| done]. rewrite <-(take_drop n sorted). apply elem_of_app. by left. }
  assert (tb_rows t' ≡ₚ drop n sorted) as Hrows'.
  { rewrite Hrows, <-Hfilter. by rewrite Hp. }
  assert (NoDup (key "id" <$> tb_rows t')) as Hnd'.
  { rewrite Hrows', fmap_drop. rewrite <-(take_drop n (key "id" <$> sorted)) in Hnds.
    by apply NoDup_app in Hnds as (_ & _ & ?). }
  split; [split; [by rewrite Hc | rewrite Hrows', Hseq; by apply Forall_drop | done] |].
  unfold table_messages. rewrite <-fmap_drop. f_equal. symmetry. apply by_age_unique; [done | done |].
  pose proof (by_age_sorted (tb_rows t)) as Hsort. fold sorted in Hsort.
  rewrite <-(take_drop n sorted) in Hsort. by apply StronglySorted_app_1_r in Hsort.
Qed.

Lemma query_lists db t answer :
  pending_ok t → db !! "pending_messages" = Some t → answers all_messages ∅ db answer →
  answer = project ["topic"; "payload"] <$> by_age (tb_rows t).
Proof.
  intros Hok Ht (t1 & sorted & rows & Ht1 & Hp & Hs & Hl & ->).
  cbn [sl_table all_messages sl_order sl_limit sl_columns limited] in *. subst rows.
  rewrite Ht in Ht1. injection Ht1 as <-. by apply (ordered_older t sorted Hok Hp) in Hs as ->.
Qed.

(** ** Facts *)

Definition null_free (s : string) : Prop := lacks (Ascii.ascii_of_nat 0) s = true.
Definition message_null_free (m : CachedMessage) : Prop :=
  null_free (msg_topic m) ∧ null_free (msg_payload m).

Lemma c_str_id s : null_free s → c_str s = s.
Proof.
  unfold null_free, lacks. induction s as [| c s IH]; [done |]. cbn [all_chars c_str].
  destruct (Ascii.eqb c _); [discriminate |]. cbn [negb andb]. intros Hs. by rewrite IH.
Qed.

Section facts.
Context `{SqliteLaws DB E}.
Implicit Types (c : SqliteCache DB).

Definition pending (db : DB) : option table := contents db !! "pending_messages".

Definition db_messages (db : DB) : list CachedMessage := from_option table_messages [] (pending db).

Definition sq_messages c : list CachedMessage := db_messages (sq_database c).

Definition sq_ok c : Prop :=
  sq_ready c = true ∧ (∃ t, pending (sq_database c) = Some t ∧ pending_ok t) ∧
  Forall message_null_free (sq_messages c).

(** A statement that failed. *)
Lemma sq_same c c' :
  sq_ok c → sq_ready c' = sq_ready c → contents (sq_database c') = contents (sq_database c) →
  sq_ok c' ∧ sq_messages c' = sq_messages c.
Proof.
  intros Hok Hr Hc. unfold sq_ok, sq_messages, db_messages, pending in *. by rewrite Hr, Hc.
Qed.

Lemma sq_append_law c env m :
  sq_ok c → message_null_free m →
  let '(ok, c') := sq_append c env (msg_topic m) (msg_payload m) in
  sq_ok c' ∧ sq_messages c' = (if ok : bool then sq_messages c ++ [m] else sq_messages c).
Proof.
  intros Hok Hm. pose proof Hok as (Hr & (t & Ht & Htok) & Hn). unfold sq_append. rewrite Hr. cbn [negb].
  destruct (sql_prepare env _ _); [cbn [negb] | by apply sq_same].
  destruct (sql_bind env _ _ _ && sql_bind env _ _ _); [| by apply sq_same].
  match goal with |- context [sql_exec ?e ?db ?sql ?bs] =>
    pose proof (exec_law e db sql _ bs insert_parses) as Hi end.
  destruct (sql_exec env _ _ _) as [[] db]; [| by apply sq_same].
  destruct Hi as (t1 & t' & Ht1 & Hins & Hdb).
  unfold pending in Ht. rewrite Ht in Ht1. injection Ht1 as <-.
  destruct (insert_appends t t' _ _ Htok Hins) as [Htok' Hmsgs].
  assert (mk_message (msg_topic m) (msg_payload m) = m) as Heta by by destruct m. rewrite Heta in Hmsgs.
  assert (sq_messages (set_database db c) = sq_messages c ++ [m]) as Hall.
  { unfold sq_messages, db_messages, pending, set_database. cbn [sq_database].
    rewrite Hdb, lookup_insert_eq, Ht. exact Hmsgs. }
  split; [| exact Hall]. split; [done |]. split; [| rewrite Hall; by apply Forall_app_2, Forall_cons_2].
  exists t'. split; [| done]. unfold pending, set_database. cbn [sq_database]. by rewrite Hdb, lookup_insert_eq.
Qed.

Lemma sq_remove_law c env n :
  sq_ok c →
  let '(ok, c') := sq_remove_first c env n in
  sq_ok c' ∧ sq_messages c' = (if ok : bool then drop n (sq_messages c) else sq_messages c).
Proof.
  intros Hok. pose proof Hok as (Hr & (t & Ht & Htok) & Hn). unfold sq_remove_first. rewrite Hr. cbn [negb orb].
  destruct (Nat.eqb_spec n 0) as [-> | Hn0]; [done |]. destruct (int_max <? Z.of_nat n); [by apply sq_same |].
  destruct (sql_prepare env _ _); [cbn [negb] | by apply sq_same].
  destruct (sql_bind env _ _ _); [| by apply sq_same].
  match goal with |- context [sql_exec ?e ?db ?sql ?bs] =>
    pose proof (exec_law e db sql _ bs delete_parses) as Hd end.
  destruct (sql_exec env _ _ _) as [[] db]; [| by apply sq_same].
  destruct Hd as (t1 & t' & Ht1 & Hdb & Hc & Hseq & answer & Ha & Hrows).
  unfold pending in Ht. rewrite Ht in Ht1. injection Ht1 as <-.
  destruct (delete_drops _ t t' n answer Htok Ht Ha Hc Hseq Hrows) as [Htok' Hmsgs].
  assert (sq_messages (set_database db c) = drop n (sq_messages c)) as Hall.
  { unfold sq_messages, db_messages, pending, set_database. cbn [sq_database].
    rewrite Hdb, lookup_insert_eq, Ht. exact Hmsgs. }
  split; [| exact Hall]. split; [done |]. split; [| rewrite Hall; by apply Forall_drop].
  exists t'. split; [| done]. unfold pending, set_database. cbn [sq_database]. by rewrite Hdb, lookup_insert_eq.
Qed.

(** The query of a database that has the table succeeds. *)
Definition query_succeeds (env : E) : Prop :=
  ∀ (db : DB) t, pending db = Some t → pending_ok t →
    sql_prepare env db select_sql = true ∧ fst (sql_query env db select_sql) = true.

(** The texts of a row, read as the code reads them. *)
Lemma row_columns sequence r :
  row_ok sequence r → message_null_free (row_message r) →
  mk_message (column_text (project ["topic"; "payload"] r) 0) (column_text (project ["topic"; "payload"] r) 1)
  = row_message r.
Proof.
  intros (_ & [t Ht] & [p Hp]) [Hnt Hnp]. unfold row_message, row_text, column_text, project in *.
  cbn [msg_topic msg_payload] in *. rewrite Ht in *. rewrite Hp in *.
  cbn [fmap list_fmap lookup list_lookup]. rewrite !lookup_total_alt, Ht, Hp. cbn. by rewrite !c_str_id.
Qed.

Lemma sq_load_rows c env :
  sq_ok c → sql_prepare env (sq_database c) select_sql = true →
  fst (sql_query env (sq_database c) select_sql) = true →
  sq_load_all c env = (sq_messages c, c).
Proof.
  intros (Hr & (t & Ht & Htok) & Hn) Hp Hq. unfold sq_load_all. rewrite Hr, Hp. cbn [negb].
  pose proof (query_law env (sq_database c) select_sql _ select_parses Hq) as Ha.
  destruct (sql_query env _ _) as [ok rows]. cbn [fst snd] in *. subst ok.
  apply (query_lists _ t) in Ha as ->; [| done | exact Ht]. f_equal.
  unfold sq_messages, db_messages in *. rewrite Ht in *. cbn [from_option] in *. unfold table_messages in *.
  rewrite <-list_fmap_compose. apply list_fmap_ext. intros i r Hi. cbn.
  rewrite Forall_fmap, Forall_lookup in Hn. apply (row_columns (tb_sequence t)); [| by apply (Hn i r)].
  destruct Htok as [_ Hrows _]. rewrite <-by_age_perm in Hrows. by apply (Forall_lookup_1 _ _ _ _ Hrows Hi).
Qed.

Lemma sq_load_ok c env : sq_ok c → query_succeeds env → fst (sq_load_all c env) = sq_messages c.
Proof.
  intros Hok He. pose proof Hok as (_ & (t & Ht & Htok) & _). destruct (He _ t Ht Htok). by rewrite sq_load_rows.
Qed.

Lemma sq_load_cases c env : sq_ok c → fst (sq_load_all c env) ∈ [[]; sq_messages c].
Proof.
  intros Hok. destruct (sql_prepare env (sq_database c) select_sql) eqn:Hp;
    [destruct (fst (sql_query env (sq_database c) select_sql)) eqn:Hq |].
  - rewrite sq_load_rows by done. by right; left.
  - unfold sq_load_all. rewrite (proj1 Hok), Hp. cbn [negb].
    destruct (sql_query env _ _) as [ok rows]. cbn [fst] in Hq. subst ok. by left.
  - unfold sq_load_all. rewrite (proj1 Hok), Hp. by left.
Qed.

Lemma sq_load_prefix c env : sq_ok c → fst (sq_load_all c env) `prefix_of` sq_messages c.
Proof.
  intros Hok. pose proof (sq_load_cases c env Hok) as Hl. rewrite !elem_of_cons, elem_of_nil in Hl.
  destruct Hl as [-> | [-> | []]]; [apply prefix_nil | done].
Qed.

(** Every environment is benign for the database; a load must succeed to be
    complete. *)
#[export] Instance sqlite_cache_laws : CacheLaws (SqliteCache DB) E E E := {|
  cache_ok := sq_ok;
  cached := sq_messages;
  storable := message_null_free;
  append_benign _ := True;
  load_benign := query_succeeds;
  remove_benign _ := True;
  append_law c env m Hc _ Hm := sq_append_law c env m Hc Hm;
  load_law := sq_load_ok;
  load_prefix := sq_load_prefix;
  remove_law c env n Hc _ := sq_remove_law c env n Hc;
|}.

(** *** Opening *)

Lemma execute_ok env sql st c :
  parse_sql sql = Some st →
  let '(ok, c') := execute env sql c in
  sq_error c' = (if ok : bool then sq_error c else sq_error c') ∧
  if ok then executes st ∅ (contents (sq_database c)) (contents (sq_database c')) else True.
Proof.
  intros Hp. unfold execute. pose proof (exec_law env (sq_database c) sql st ∅ Hp) as Hl.
  destruct (sql_exec env _ _ _) as [[] db]; by split.
Qed.

(** A set-up that succeeds leaves the table there was, or an empty one. *)
Lemma initialize_table env parent opened c c' :
  initialize env parent opened c = (true, c') →
  pending (sq_database c')
  = Some (default (mk_table pending_columns 0 []) (pending (sq_database c))).
Proof.
  unfold initialize, pending. destruct parent; [done |]. destruct opened; [cbn [negb] | done].
  assert (parse_sql journal_sql = Some (Pragma "journal_mode" "WAL")) as P1 by by vm_compute.
  assert (parse_sql synchronous_sql = Some (Pragma "synchronous" "FULL")) as P2 by by vm_compute.
  pose proof (execute_ok env journal_sql _ c P1) as H1.
  destruct (execute env journal_sql c) as [[] c1]; cbn [negb]; [| done]. destruct H1 as [_ H1].
  pose proof (execute_ok env synchronous_sql _ c1 P2) as H2.
  destruct (execute env synchronous_sql c1) as [[] c2]; cbn [negb]; [| done]. destruct H2 as [_ H2].
  pose proof (execute_ok env create_table_sql _ c2 create_parses) as H3. intros He. rewrite He in H3.
  destruct H3 as [_ H3]. cbn [executes] in H1, H2, H3. rewrite H3, H2, H1.
  destruct (contents (sq_database c) !! "pending_messages") as [t |] eqn:Ht; [exact Ht |].
  by rewrite lookup_insert_eq.
Qed.

Lemma empty_table_ok : pending_ok (mk_table pending_columns 0 []).
Proof. split; [done | apply Forall_nil_2 | apply NoDup_nil_2]. Qed.
End facts.

(** ** Properties *)

(** C15: The database cache is a persistent first-in first-out queue. Opening it on a
    database without the table, or with one whose rows it wrote, either makes it ready with
    the messages of the rows, in the order of their identifiers, or makes every call fail;
    once ready, and whichever statements fail, an append adds its message at the end or
    changes nothing, a removal drops the oldest ones or changes nothing, and a load gives
    the messages in order or none. This follows from the texts of the statements and what
    SQL says of them: rows have no order of their own. The error message of a failed
    opening is lost. *)
Theorem sqlite_cache_queue `{SqliteLaws DB E} env parent opened (db : DB) :
  let c := new_sqlite_cache env parent opened db in
  (from_option pending_ok True (pending db) → Forall message_null_free (db_messages db) →
   sq_ready c = true → sq_ok c ∧ sq_messages c = db_messages db) ∧
  (sq_ready c = false → sq_error c = "" ∧ ∀ env t p n,
     fst (append c env t p) = false ∧ load_all c env = [] ∧ fst (remove_first c env n) = false) ∧
  ∀ c m n env env', sq_ok c → message_null_free m → query_succeeds (DB := DB) env' →
    (let '(ok, c') := append c env (msg_topic m) (msg_payload m) in
     sq_ok c' ∧ load_all c' env' = load_all c env' ++ (if ok : bool then [m] else [])) ∧
    (let '(ok, c') := remove_first c env n in
     sq_ok c' ∧ load_all c' env' = if ok : bool then drop n (load_all c env') else load_all c env') ∧
    load_all c env ∈ [[]; sq_messages c].
Proof.
  cbn zeta. split_and!.
  - intros Hp Hn Hr. unfold new_sqlite_cache in *.
    pose proof (initialize_table env parent opened (mk_sqlite_cache db false "")) as Ht.
    destruct (initialize _ _ _ _) as [ready c]. cbn [sq_database sq_ready] in *. subst ready.
    specialize (Ht c eq_refl). cbn [sq_database] in Ht.
    assert (sq_messages (mk_sqlite_cache (sq_database c) true "") = db_messages db) as Hm.
    { unfold sq_messages, db_messages. cbn [sq_database]. rewrite Ht. by destruct (pending db). }
    split; [| done]. split; [done |]. rewrite Hm. split; [| done]. cbn [sq_database]. rewrite Ht.
    destruct (pending db) as [t |]; eexists; (split; [done |]); [done | apply empty_table_ok].
  - intros Hr. split; [unfold new_sqlite_cache; by destruct (initialize _ _ _ _) |].
    intros env' t p n. cbn [append load_all remove_first sqlite_cache].
    unfold sq_append, sq_load_all, sq_remove_first. rewrite Hr. by split_and!.
  - intros c m n e e' Hok Hm He. split_and!.
    + pose proof (sq_append_law c e m Hok Hm) as Ha. cbn [append load_all sqlite_cache].
      destruct (sq_append c e _ _) as [ok c']. destruct Ha as [Hok' Ha]. split; [done |].
      rewrite !sq_load_ok, Ha by done. destruct ok; [done | by rewrite app_nil_r].
    + pose proof (sq_remove_law c e n Hok) as Hr. cbn [remove_first load_all sqlite_cache].
      destruct (sq_remove_first c e n) as [ok c']. destruct Hr as [Hok' Hr]. split; [done |].
      by rewrite !sq_load_ok by done.
    + by apply sq_load_cases.
Qed.

(** The interpreter answers the query of every such table. *)
Lemma interpreter_query_succeeds : query_succeeds (DB:=database) true.
Proof.
  intros db t Ht Htok. split; [done |]. cbn [sql_query interpreter]. rewrite select_parses.
  unfold answer_of. cbn [sl_table all_messages sl_order]. unfold pending in Ht. cbn [contents interpreter_laws] in Ht.
  rewrite Ht. cbn [mbind option_bind sort_rows].
  assert (forallb (has_key "id") (tb_rows t) = true) as ->; [| done].
  apply forallb_forall. intros r Hr%list_elem_of_In. destruct Htok as [_ Hrows _]. rewrite Forall_forall in Hrows.
  destruct (row_ok_key _ _ (Hrows r Hr)) as [Hid _]. unfold has_key. by rewrite Hid.
Qed.

(** An empty database, opened and run by the interpreter: two messages are appended, and
    the first one is removed. *)
Definition opened_cache : SqliteCache database := new_sqlite_cache true None true ∅.
Definition one_message : SqliteCache database := snd (sq_append opened_cache true "s/1" "a").
Definition two_messages : SqliteCache database := snd (sq_append one_message true "s/2" "b").
Definition second_message : SqliteCache database := snd (sq_remove_first two_messages true 1).

Lemma sqlite_cache_queue_witness :
  load_all two_messages true = [mk_message "s/1" "a"; mk_message "s/2" "b"] ∧
  load_all second_message true = [mk_message "s/2" "b"].
Proof.
  destruct (sqlite_cache_queue (DB:=database) true None true ∅) as (Hopen & _ & Hq).
  destruct (Hopen I (Forall_nil_2 _) ltac:(vm_compute; reflexivity)) as [Hok Hnone].
  pose proof interpreter_query_succeeds as He.
  destruct (Hq opened_cache (mk_message "s/1" "a") 0%nat true true Hok (conj eq_refl eq_refl) He) as [H1 _].
  change (append opened_cache true _ _) with (sq_append opened_cache true "s/1" "a") in H1.
  assert (load_all opened_cache true = []) as H0 by (vm_compute; reflexivity).
  assert (sq_append opened_cache true "s/1" "a" = (true, one_message)) as E1 by (vm_compute; reflexivity).
  rewrite E1, H0 in H1. destruct H1 as [Hok1 H1].
  destruct (Hq one_message (mk_message "s/2" "b") 0%nat true true Hok1 (conj eq_refl eq_refl) He) as [H2 _].
  change (append one_message true _ _) with (sq_append one_message true "s/2" "b") in H2.
  assert (sq_append one_message true "s/2" "b" = (true, two_messages)) as E2 by (vm_compute; reflexivity).
  rewrite E2, H1 in H2. destruct H2 as [Hok2 H2].
  destruct (Hq two_messages (mk_message "s/2" "b") 1%nat true true Hok2 (conj eq_refl eq_refl) He) as (_ & H3 & _).
  change (remove_first two_messages true 1) with (sq_remove_first two_messages true 1) in H3.
  assert (sq_remove_first two_messages true 1 = (true, second_message)) as E3 by (vm_compute; reflexivity).
  rewrite E3, H2 in H3. destruct H3 as [_ H3].
  split; [exact H2 | exact H3].
Defined.
