(* ===== verification/ReliablePublisher.v ===== *)
(** * Publishing with an offline cache ([src/mqtt/reliable_publisher.cpp])

    A message the broker does not acknowledge goes to the cache; the cache is
    replayed in order later. Written against the cache interface, so that the
    guarantees hold for every cache that satisfies the queue laws. The mutex of the
    publisher makes each operation one step. *)

From S2P Require Import Prelude Text RuntimeMetrics MessageCache FileCache.

(** ** The code *)

Inductive PublishStatus : Type := Published | Deferred | Failed.

#[export] Instance publish_status_eq_dec : EqDecision PublishStatus.
Proof. solve_decision. Defined.

Definition publish_status_text (s : PublishStatus) : string :=
  match s with
  | Published => "published"
  | Deferred => "deferred"
  | Failed => "failed"
  end.

(** What the publisher needs of the MQTT client: [true] when the broker
    acknowledged the message. *)
Class MqttPublish (M E : Type) : Type := {
  mqtt_publish : M → E → string → string → bool * M;
}.

(** A message given to the MQTT client, and whether it was acknowledged. *)
Definition attempt : Type := CachedMessage * bool.

Section code.
Context `{MqttPublish M E} `{MessageCache C AEnv LEnv REnv}.
(** [runtime_metrics_ != nullptr] *)
Context (has_metrics : bool).

Definition note (u : update) : list update := if has_metrics then [u] else [].

(** The constructor sets the depth to what the cache already holds. *)
Definition rp_create (c : C) (env : LEnv) : list update :=
  note (Set_ CacheDepth (Z.of_nat (length (load_all c env)))).

(** How the broker and the cache answer during [publish]. *)
Record publish_env : Type := mk_publish_env {
  pe_mqtt : E;
  pe_append : AEnv;
  pe_load : LEnv;
}.

(** The result, the client and the cache, the attempt and the metric updates. *)
Definition rp_publish (m : M) (c : C) (env : publish_env) (topic payload : string)
    : PublishStatus * (M * C) * list attempt * list update :=
  let '(acked, m) := mqtt_publish m (pe_mqtt env) topic payload in
  let attempts := [(mk_message topic payload, acked)] in
  if acked : bool then (Published, (m, c), attempts, note (Add MqttPublishSuccess 1))
  else
    let failed := note (Add MqttPublishFailed 1) in
    let '(ok, c) := append c (pe_append env) topic payload in
    if ok : bool
    then (Deferred, (m, c), attempts,
          failed ++ note (Add CacheEnqueue 1)
          ++ note (Set_ CacheDepth (Z.of_nat (length (load_all c (pe_load env))))))
    else (Failed, (m, c), attempts, failed).

(** The [for] loop of [flush_cache] over the loaded messages; [n] is
    [published_count]. *)
Fixpoint rp_replay (messages : list CachedMessage) (m : M) (env : nat → E) (n : nat)
    : nat * M * list attempt * list update :=
  match messages with
  | [] => (n, m, [], [])
  | message :: rest =>
      let '(acked, m) := mqtt_publish m (env n) (msg_topic message) (msg_payload message) in
      if negb acked then (n, m, [(message, false)], note (Add MqttPublishFailed 1))
      else
        let '(k, m, attempts, updates) := rp_replay rest m env (S n) in
        (k, m, (message, true) :: attempts, note (Add MqttPublishSuccess 1) ++ updates)
  end.

Record flush_env : Type := mk_flush_env {
  fe_load : LEnv;
  fe_mqtt : nat → E;
  fe_remove : REnv;
}.

Definition rp_flush_cache (m : M) (c : C) (env : flush_env)
    : nat * (M * C) * list attempt * list update :=
  let messages := load_all c (fe_load env) in
  let begin_updates := note (Add CacheFlushAttempt 1)
                       ++ note (Set_ CacheDepth (Z.of_nat (length messages))) in
  match messages with
  | [] => (0%nat, (m, c), [], begin_updates)
  | _ :: _ =>
      let '(count, m, attempts, updates) := rp_replay messages m (fe_mqtt env) 0 in
      if (count =? 0)%nat then (0%nat, (m, c), attempts, begin_updates ++ updates)
      else
        let '(ok, c) := remove_first c (fe_remove env) count in
        if negb ok then (count, (m, c), attempts, begin_updates ++ updates)
        else (count, (m, c), attempts,
              begin_updates ++ updates
              ++ note (Set_ CacheDepth (Z.of_nat (length messages - count))))
  end.
End code.

Arguments publish_env : clear implicits.
Arguments flush_env : clear implicits.

(** ** Facts *)

(** The messages the broker acknowledged, in order. *)
Definition acked (attempts : list attempt) : list CachedMessage :=
  omap (λ a : attempt, if snd a then Some (fst a) else None) attempts.

Lemma acked_app a b : acked (a ++ b) = acked a ++ acked b.
Proof. apply omap_app. Qed.

Section facts.
Context `{MqttPublish M E} `{CacheLaws C AEnv LEnv REnv}.
Implicit Types (m : M) (c : C).

(** The loop acknowledges a prefix and stops at the first message that fails. *)
Lemma replay_ok hm messages m env n :
  let '(k, m', attempts, updates) := rp_replay hm messages m env n in
  ∃ j, k = (n + j)%nat ∧ (j <= length messages)%nat ∧
    attempts = ((λ x, (x, true)) <$> take j messages)
               ++ ((λ x, (x, false)) <$> take 1 (drop j messages)) ∧
    acked attempts = take j messages ∧
    total_added MqttPublishSuccess updates = (if hm then Z.of_nat j else 0%Z) ∧
    Forall (λ u, ¬ stores_to CacheDepth u) updates.
Proof.
  revert m n. induction messages as [| x messages IH]; intros m n; cbn [rp_replay].
  { exists 0%nat. rewrite Nat.add_0_r. split_and!; try done. by destruct hm. }
  destruct (mqtt_publish m (env n) _ _) as [[] m1]; cbn [negb].
  - specialize (IH m1 (S n)). destruct (rp_replay hm messages m1 env (S n)) as [[[k m2] at1] us1].
    destruct IH as (j & -> & Hj & Ha & Hack & Ht & Hs). exists (S j). split_and!.
    + lia.
    + simpl. lia.
    + by rewrite Ha.
    + unfold acked in *. cbn. by rewrite Hack.
    + destruct hm; cbn [note app total_added foldr] in *; [| done].
      fold (total_added MqttPublishSuccess us1). rewrite Ht.
      cbn [added_to]. rewrite decide_True by done. lia.
    + destruct hm; cbn [note app]; [| done]. apply Forall_cons_2; [intros [] | done].
  - exists 0%nat. rewrite Nat.add_0_r. cbn [take drop fmap list_fmap app].
    split_and!; try done; try (cbn; lia); destruct hm; try done.
    apply Forall_cons_2; [intros [] | done].
Qed.

(** One call on the publisher: the outcome of a publication, if it is one, and
    the attempts it made. *)
Inductive rp_call : M * C → list (CachedMessage * PublishStatus) → list attempt → M * C → Prop :=
  | call_publish m c env x r s' attempts us :
      append_benign (pe_append env) → storable x →
      rp_publish true m c env (msg_topic x) (msg_payload x) = (r, s', attempts, us) →
      rp_call (m, c) [(x, r)] attempts s'
  | call_flush m c env k s' attempts us :
      remove_benign (fe_remove env) →
      rp_flush_cache true m c env = (k, s', attempts, us) →
      rp_call (m, c) [] attempts s'.

(** Any sequence of calls. *)
Inductive rp_history (s : M * C) :
    list (CachedMessage * PublishStatus) → list attempt → M * C → Prop :=
  | history_nil : rp_history s [] [] s
  | history_call outs attempts s1 outs' attempts' s2 :
      rp_history s outs attempts s1 → rp_call s1 outs' attempts' s2 →
      rp_history s (outs ++ outs') (attempts ++ attempts') s2.

Definition with_status (r : PublishStatus) (outs : list (CachedMessage * PublishStatus))
    : list CachedMessage :=
  omap (λ o : CachedMessage * PublishStatus, if decide (snd o = r) then Some (fst o) else None) outs.

Lemma with_status_app r o1 o2 : with_status r (o1 ++ o2) = with_status r o1 ++ with_status r o2.
Proof. apply omap_app. Qed.

(** The queue before with what was deferred is what was removed followed by the
    queue after, and what was removed was acknowledged, in order. *)
Definition queue_flow (c : C) (deferred : list CachedMessage) (attempts : list attempt) (c' : C)
    : Prop :=
  ∃ removed, cached c ++ deferred = removed ++ cached c' ∧ removed `sublist_of` acked attempts.

Lemma queue_flow_same c c' deferred attempts :
  cached c' = cached c ++ deferred → queue_flow c deferred attempts c'.
Proof. intros He. exists []. split; [by rewrite He | apply sublist_nil_l]. Qed.

Lemma queue_flow_trans c1 d1 a1 c2 d2 a2 c3 :
  queue_flow c1 d1 a1 c2 → queue_flow c2 d2 a2 c3 → queue_flow c1 (d1 ++ d2) (a1 ++ a2) c3.
Proof.
  intros (r1 & Hq1 & Hs1) (r2 & Hq2 & Hs2). exists (r1 ++ r2).
  rewrite app_assoc, Hq1, <-!app_assoc, Hq2. split; [done |].
  rewrite acked_app. by apply sublist_app.
Qed.

Lemma rp_publish_ok m c env x :
  cache_ok c → append_benign (pe_append env) → storable x →
  let '(r, (m', c'), attempts, _) := rp_publish true m c env (msg_topic x) (msg_payload x) in
  cache_ok c' ∧ attempts = [(x, bool_decide (r = Published))] ∧
  cached c' = cached c ++ (if decide (r = Deferred) then [x] else []).
Proof.
  intros Hok Hb Hx. unfold rp_publish.
  replace (mk_message (msg_topic x) (msg_payload x)) with x by by destruct x.
  destruct (mqtt_publish m (pe_mqtt env) _ _) as [[] m1].
  - split_and!; [done | done | by rewrite app_nil_r].
  - pose proof (append_law c (pe_append env) x Hok Hb Hx) as Hl.
    destruct (append c (pe_append env) _ _) as [[] c1]; destruct Hl as [Hok1 Hc1];
      (split_and!; [done | done |]); cbn; [done | by rewrite app_nil_r].
Qed.

(** The cache after a flush that [k] messages were acknowledged in: they have been removed,
    by one call of [remove_first] with their number, unless that call failed. *)
Definition flushed (env : flush_env E LEnv REnv) c (k : nat) c' : Prop :=
  if decide (k = 0%nat) then c' = c
  else c' = snd (remove_first c (fe_remove env) k) ∧
       cached c' = (if fst (remove_first c (fe_remove env) k) then drop k (cached c) else cached c).

Lemma rp_flush_ok m c env :
  cache_ok c → remove_benign (fe_remove env) →
  let loaded := load_all c (fe_load env) in
  let '(k, (m', c'), attempts, _) := rp_flush_cache true m c env in
  cache_ok c' ∧ queue_flow c [] attempts c' ∧
  (k <= length loaded)%nat ∧
  attempts = ((λ x, (x, true)) <$> take k loaded) ++ ((λ x, (x, false)) <$> take 1 (drop k loaded)) ∧
  acked attempts = take k loaded ∧ flushed env c k c'.
Proof.
  intros Hok Hb loaded. unfold rp_flush_cache, flushed. fold loaded.
  destruct (load_prefix c (fe_load env) Hok) as [rest Hrest]. fold loaded in Hrest.
  destruct loaded as [| y messages].
  { split_and!; [done | apply queue_flow_same; by rewrite app_nil_r | done..]. }
  pose proof (replay_ok true (y :: messages) m (fe_mqtt env) 0) as Hr.
  destruct (rp_replay true (y :: messages) m (fe_mqtt env) 0) as [[[n m1] at1] us1].
  destruct Hr as (j & -> & Hj & Hat & Hack & _). rewrite Nat.add_0_l.
  destruct (Nat.eqb_spec j 0) as [-> | Hj0].
  { split_and!; [done | apply queue_flow_same; by rewrite app_nil_r | lia | done..]. }
  pose proof (remove_law c (fe_remove env) j Hok Hb) as Hl.
  destruct (remove_first c (fe_remove env) j) as [[] c1] eqn:Hrem; destruct Hl as [Hok1 Hc1];
    cbn [negb]; rewrite decide_False, Hrem by done; (split; [done | split; [| by split_and!]]).
  - exists (take j (cached c)). rewrite Hc1, app_nil_r, take_drop. split; [done |].
    by rewrite Hack, Hrest, take_app_le.
  - apply queue_flow_same. by rewrite Hc1, app_nil_r.
Qed.

(** What a call adds to the queue, and what it removes from it. *)
Lemma rp_call_ok m c outs attempts m' c' :
  rp_call (m, c) outs attempts (m', c') → cache_ok c →
  cache_ok c' ∧ (∀ x, (x, Published) ∈ outs → (x, true) ∈ attempts) ∧
  queue_flow c (with_status Deferred outs) attempts c'.
Proof.
  intros Hcall Hok. inversion Hcall as [? ? env x r ? ? us Hb Hx Hp | ? ? env k ? ? us Hb Hf]; subst.
  - pose proof (rp_publish_ok m c env x Hok Hb Hx) as Hpo. rewrite Hp in Hpo.
    destruct Hpo as (Hok' & -> & Hc'). split_and!; [done | |].
    + intros y Hy%list_elem_of_singleton. injection Hy as -> <-. apply list_elem_of_singleton.
      by rewrite bool_decide_eq_true_2.
    + apply queue_flow_same. rewrite Hc'. cbn. by case_decide.
  - pose proof (rp_flush_ok m c env Hok Hb) as Hfo. rewrite Hf in Hfo.
    destruct Hfo as (Hok' & Hq & _). split_and!; try done.
    intros y Hy. by apply elem_of_nil in Hy.
Qed.

(** The depth gauge and the contents of the cache agree. *)
Definition depth_exact (mt : RuntimeMetrics) (c : C) : Prop :=
  value mt CacheDepth = u64 (Z.of_nat (length (cached c))).

Lemma value_store mt ct v us :
  Forall (λ u, ¬ stores_to ct u) us → total_added ct us = 0%Z → metrics_wf mt →
  value (foldl apply_update (store ct v mt) us) ct = u64 v.
Proof.
  intros Hs Ht Hm. rewrite updates_value; [| by apply (apply_update_wf mt (Set_ ct v)) | done].
  rewrite Ht, Z.add_0_r. cbn [store value]. rewrite decide_True by done.
  apply Z.mod_mod. lia.
Qed.

Lemma replay_no_depth messages m env n :
  total_added CacheDepth (rp_replay true messages m env n).2 = 0%Z.
Proof.
  revert m n. induction messages as [| x messages IH]; intros m n; [done |]. cbn [rp_replay].
  destruct (mqtt_publish m (env n) _ _) as [[] m1]; [| done]. cbn [negb].
  specialize (IH m1 (S n)). destruct (rp_replay true messages m1 env (S n)) as [[[k m2] a] us].
  cbn in *. by rewrite IH.
Qed.

Lemma publish_depth m c env x mt :
  cache_ok c → append_benign (pe_append env) → load_benign (pe_load env) → storable x →
  metrics_wf mt → depth_exact mt c →
  let '(_, (_, c'), _, us) := rp_publish true m c env (msg_topic x) (msg_payload x) in
  depth_exact (foldl apply_update mt us) c'.
Proof.
  intros Hok Hb Hl Hx Hm Hd. unfold rp_publish, depth_exact in *.
  destruct (mqtt_publish m (pe_mqtt env) _ _) as [[] m1]; [exact Hd |].
  pose proof (append_law c (pe_append env) x Hok Hb Hx) as Ha.
  destruct (append c (pe_append env) _ _) as [[] c1]; destruct Ha as [Hok1 Hc1].
  - cbn [note app foldl apply_update]. rewrite (load_law c1 _ Hok1 Hl).
    cbn [store value]. by rewrite decide_True.
  - cbn. by rewrite Hc1.
Qed.

Lemma flush_depth m c env mt :
  cache_ok c → load_benign (fe_load env) → remove_benign (fe_remove env) → metrics_wf mt →
  let '(_, (_, c'), _, us) := rp_flush_cache true m c env in
  depth_exact (foldl apply_update mt us) c'.
Proof.
  intros Hok Hl Hb Hm. unfold rp_flush_cache, depth_exact. rewrite (load_law c _ Hok Hl).
  destruct (cached c) as [| y messages] eqn:Hcc.
  { cbn. by rewrite Hcc. }
  pose proof (replay_ok true (y :: messages) m (fe_mqtt env) 0) as Hr.
  pose proof (replay_no_depth (y :: messages) m (fe_mqtt env) 0) as Hz.
  destruct (rp_replay true (y :: messages) m (fe_mqtt env) 0) as [[[n m1] at1] us1].
  destruct Hr as (j & -> & Hj & _ & _ & _ & Hs). rewrite Nat.add_0_l. cbn [snd] in Hz.
  set (mt1 := apply_update mt (Add CacheFlushAttempt 1)).
  assert (metrics_wf mt1) as Hm1 by by apply apply_update_wf.
  assert (∀ us, value (foldl apply_update mt
    ((note true (Add CacheFlushAttempt 1) ++
      note true (Set_ CacheDepth (Z.of_nat (length (y :: messages))))) ++ us)) CacheDepth
    = value (foldl apply_update (store CacheDepth (Z.of_nat (length (y :: messages))) mt1) us)
            CacheDepth) as Hbegin by done.
  destruct (Nat.eqb_spec j 0) as [-> | Hj0].
  { rewrite Hbegin, value_store by done. by rewrite Hcc. }
  pose proof (remove_law c (fe_remove env) j Hok Hb) as Hrl.
  destruct (remove_first c (fe_remove env) j) as [[] c1]; destruct Hrl as [Hok1 Hc1]; cbn [negb].
  - rewrite Hbegin, foldl_app. cbn [note foldl apply_update store value].
    rewrite decide_True by done. by rewrite Hc1, Hcc, length_drop.
  - rewrite Hbegin, value_store by done. by rewrite Hc1, Hcc.
Qed.
End facts.

(** ** Properties *)

(** C5: At-least-once delivery, in order. Over any sequence of publications and
    flushes, whatever the broker and a benign cache answer: every message reported as
    published was acknowledged; and the messages the cache held at the start followed
    by those reported as deferred, in order, are exactly messages the broker has
    acknowledged, in that order, followed by the messages still in the cache. No
    message is dropped, reordered in the queue or reported without its fate. *)
Theorem no_message_lost `{MqttPublish M E} `{CacheLaws C AEnv LEnv REnv}
    (m : M) (c : C) outs attempts m' c' :
  cache_ok c → rp_history (m, c) outs attempts (m', c') →
  cache_ok c' ∧
  (∀ x, (x, Published) ∈ outs → (x, true) ∈ attempts) ∧
  ∃ removed, cached c ++ with_status Deferred outs = removed ++ cached c' ∧
             removed `sublist_of` acked attempts.
Proof.
  intros Hok Hh. remember (m', c') as s eqn:Hs. revert m' c' Hs.
  induction Hh as [| outs attempts [m1 c1] outs' attempts' s2 Hh IH Hcall]; intros m' c' Hs.
  { injection Hs as <- <-. split_and!; [done | |].
    - intros x Hx. by apply elem_of_nil in Hx.
    - exists []. cbn. by rewrite app_nil_r. }
  subst s2. destruct (IH m1 c1 eq_refl) as (Hok1 & Hp1 & r1 & Hq1 & Hs1).
  destruct (rp_call_ok _ _ _ _ _ _ Hcall Hok1) as (Hok2 & Hp2 & r2 & Hq2 & Hs2).
  split_and!; [done | |].
  - intros x [Hx | Hx]%elem_of_app; apply elem_of_app; [left | right]; auto.
  - exists (r1 ++ r2). rewrite with_status_app, app_assoc, Hq1, <-!app_assoc, Hq2.
    split; [done |]. rewrite acked_app. by apply sublist_app.
Qed.

#[local] Instance scripted_broker : MqttPublish unit bool :=
  {| mqtt_publish m e _ _ := (e, m) |}.

Definition up_then_down : nat → bool := λ n, (n =? 0)%nat.
Definition file_ok : append_env := mk_append_env true true None.
Definition replace_ok : bool * replace_env := (true, mk_replace_env true true None true).

(** Publish while the broker is down, then replay until it fails again. *)
Lemma no_message_lost_witness :
  let x := mk_message "s/9" "z" in
  let c1 := snd (append sample_cache file_ok "s/9" "z") in
  let c2 := snd (remove_first c1 replace_ok 1) in
  let attempts := [(x, false); (mk_message "s/1" "a", true); (mk_message "s/2" "b", false)] in
  rp_history (tt, sample_cache) [(x, Deferred)] attempts (tt, c2) ∧
  cached c2 = [mk_message "s/2" "b"; x] ∧
  ∃ removed, cached sample_cache ++ [x] = removed ++ cached c2 ∧
             removed `sublist_of` acked attempts.
Proof.
  intros x c1 c2 attempts.
  assert (rp_history (tt, sample_cache) [(x, Deferred)] attempts (tt, c2)) as Hh.
  { apply (history_call _ [(x, Deferred)] [(x, false)] (tt, c1) [] (drop 1 attempts)).
    - apply (history_call _ [] [] (tt, sample_cache) [(x, Deferred)] [(x, false)]);
        [apply history_nil |].
      by apply (call_publish tt sample_cache (mk_publish_env false file_ok true) x Deferred
        (tt, c1) _ [Add MqttPublishFailed 1; Add CacheEnqueue 1; Set_ CacheDepth 3]).
    - apply (call_flush tt c1 (mk_flush_env true up_then_down replace_ok) 1 _ _
        [Add CacheFlushAttempt 1; Set_ CacheDepth 3; Add MqttPublishSuccess 1;
         Add MqttPublishFailed 1; Set_ CacheDepth 2]); vm_compute; reflexivity. }
  split; [exact Hh |]. split; [vm_compute; reflexivity |].
  exact (proj2 (proj2 (no_message_lost tt sample_cache _ _ _ _ sample_cache_ok Hh))).
Defined.

(** C23: What a flush does, and the depth gauge. With a cache that can be read: a flush
    publishes the queued messages in order until one is not acknowledged and returns
    how many were; every message before the last one attempted was acknowledged, and if
    one was not, the flush stopped there; exactly the acknowledged ones are removed, by
    one call on the cache, and the queue is left as it was only if there are none or that
    call fails; and after a flush or a publication the depth gauge
    is the number of messages in the cache. *)
Theorem flush_cache_spec `{MqttPublish M E} `{CacheLaws C AEnv LEnv REnv}
    (m : M) (c : C) env mt :
  cache_ok c → load_benign (fe_load env) → remove_benign (fe_remove env) → metrics_wf mt →
  let '(k, (_, c'), attempts, us) := rp_flush_cache true m c env in
  (k <= length (cached c))%nat ∧
  attempts = ((λ x, (x, true)) <$> take k (cached c))
             ++ ((λ x, (x, false)) <$> take 1 (drop k (cached c))) ∧
  acked attempts = take k (cached c) ∧
  (k = 0%nat → c' = c) ∧
  (k ≠ 0%nat → c' = snd (remove_first c (fe_remove env) k) ∧
     cached c' = (if fst (remove_first c (fe_remove env) k) then drop k (cached c) else cached c)) ∧
  depth_exact (foldl apply_update mt us) c' ∧
  (∀ penv x, append_benign (pe_append penv) → load_benign (pe_load penv) → storable x →
     let '(r, (_, c2), attempts2, us2) :=
       rp_publish true m c' penv (msg_topic x) (msg_payload x) in
     attempts2 = [(x, bool_decide (r = Published))] ∧
     cached c2 = cached c' ++ (if decide (r = Deferred) then [x] else []) ∧
     depth_exact (foldl apply_update mt (us ++ us2)) c2).
Proof.
  intros Hok Hl Hb Hm. pose proof (rp_flush_ok m c env Hok Hb) as Hf.
  pose proof (flush_depth m c env mt Hok Hl Hb Hm) as Hd.
  rewrite (load_law c _ Hok Hl) in Hf. unfold flushed in Hf.
  destruct (rp_flush_cache true m c env) as [[[k [m1 c1]] at1] us1].
  destruct Hf as (Hok1 & _ & Hk & Hat & Hack & Hc1).
  split_and!; [done | done | done | intros ?; by rewrite decide_True in Hc1 | intros ?; by rewrite decide_False in Hc1 | done |].
  intros penv x Hab Hlb Hx.
  pose proof (rp_publish_ok m c1 penv x Hok1 Hab Hx) as Hp.
  pose proof (publish_depth m c1 penv x _ Hok1 Hab Hlb Hx (updates_wf us1 mt Hm) Hd) as Hpd.
  destruct (rp_publish true m c1 penv _ _) as [[[r [m2 c2]] at2] us2].
  destruct Hp as (_ & ? & ?). rewrite foldl_app. by split_and!.
Qed.

(** The broker acknowledges the first of two messages: it is removed. *)
Lemma flush_cache_spec_witness :
  let env := mk_flush_env true up_then_down replace_ok in
  let '(k, (_, c'), attempts, us) := rp_flush_cache true tt sample_cache env in
  k = 1%nat ∧ acked attempts = take k (cached sample_cache) ∧
  cached c' = (if fst (remove_first sample_cache replace_ok 1)
               then drop 1 (cached sample_cache) else cached sample_cache) ∧
  depth_exact (foldl apply_update (new_metrics 0) us) c'.
Proof.
  intros env. pose proof (flush_cache_spec tt sample_cache env (new_metrics 0) sample_cache_ok
    eq_refl eq_refl ltac:(intros c; split; [discriminate | reflexivity])) as Hf.
  revert Hf. assert ((rp_flush_cache true tt sample_cache env).1.1.1 = 1%nat) as Hk
    by (vm_compute; reflexivity).
  revert Hk. generalize (rp_flush_cache true tt sample_cache env).
  intros [[[k [m' c']] at1] us] Hk (_ & _ & H1 & _ & H3 & H2 & _). cbn [fst] in Hk. subst k.
  destruct (H3 ltac:(discriminate)) as [_ H4].
  split; [reflexivity |]. exact (conj H1 (conj H4 H2)).
Defined.
