(* ===== verification/MqttClient.v ===== *)
(** * The MQTT client ([src/mqtt/mqtt_client.cpp])

    The set-up of the connection through the mosquitto library, whose results are
    inputs of the model, the callbacks of its network thread, and a publication that
    waits for the acknowledgment of its own message. *)

From stdpp Require Import gmap.
From S2P Require Import Prelude ReliablePublisher.

Local Open Scope Z_scope.

(** ** The code *)

Record MqttClientOptions : Type := mk_mqtt_options {
  username : string;
  password : string;
  tls_enabled : bool;
  ca_file : string;
  certificate_file : string;
  private_key_file : string;
  tls_insecure : bool;
}.

Definition default_mqtt_options : MqttClientOptions := mk_mqtt_options "" "" false "" "" "" false.

(** The calls on the library, with their arguments. *)
Inductive lib_call : Type :=
  | LibInit
  | ClientNew
  | UsernamePwSet (username : string) (password : option string)
  | TlsSet (ca_file : string) (certificate_file private_key_file : option string)
  | TlsInsecureSet (insecure : bool)
  | CallbacksSet
  | ReconnectDelaySet (delay max_delay : Z) (exponential : bool)
  | ConnectAsync (host : string) (port keepalive : Z)
  | LoopStart
  | Disconnect
  | LoopStop (force : bool)
  | ClientDestroy
  | LibCleanup.

#[export] Instance lib_call_eq_dec : EqDecision lib_call.
Proof. solve_decision. Defined.

(** An empty string is passed as a null pointer. *)
Definition nullable (s : string) : option string := if bool_decide (s = "") then None else Some s.

(** [configure_security]: its calls, each made only if the ones before succeeded. *)
Definition configure_security (options : MqttClientOptions) : list lib_call :=
  (if bool_decide (username options = "") then []
   else [UsernamePwSet (username options) (nullable (password options))]) ++
  (if negb (tls_enabled options) then []
   else [TlsSet (ca_file options) (nullable (certificate_file options))
                (nullable (private_key_file options));
         TlsInsecureSet (tls_insecure options)]).

(** Makes calls until one fails: whether all succeeded, and the calls that did.
    [env] tells which calls return [MOSQ_ERR_SUCCESS] (or a client). *)
Fixpoint run_calls (env : lib_call → bool) (calls : list lib_call) : bool * list lib_call :=
  match calls with
  | [] => (true, [])
  | c :: rest =>
      if env c then let '(ok, made) := run_calls env rest in (ok, c :: made) else (false, [])
  end.

Definition initialize_calls (host : string) (port : Z) (options : MqttClientOptions)
    : list lib_call :=
  [LibInit; ClientNew] ++ configure_security options ++
  [CallbacksSet; ReconnectDelaySet 1 30 true; ConnectAsync host port 60; LoopStart].

Record MqttClient : Type := mk_mqtt {
  client : bool;                   (** [client_ != nullptr] *)
  library_initialized : bool;
  network_loop_started : bool;
  connected : bool;
  acknowledged_message_ids : gset Z;
}.

(** The constructor: [initialize], whose result it ignores. *)
Definition new_mqtt (env : lib_call → bool) (host : string) (port : Z)
    (options : MqttClientOptions) : MqttClient * list lib_call :=
  let '(_, made) := run_calls env (initialize_calls host port options) in
  (mk_mqtt (bool_decide (ClientNew ∈ made)) (bool_decide (LibInit ∈ made))
           (bool_decide (LoopStart ∈ made)) false ∅, made).

(** The destructor. *)
Definition destroy_mqtt (m : MqttClient) : list lib_call :=
  (if client m
   then (if network_loop_started m then [Disconnect; LoopStop true] else []) ++ [ClientDestroy]
   else []) ++
  (if library_initialized m then [LibCleanup] else []).

Definition set_connected (b : bool) (m : MqttClient) : MqttClient :=
  mk_mqtt (client m) (library_initialized m) (network_loop_started m) b
          (acknowledged_message_ids m).
Definition set_acknowledged (ids : gset Z) (m : MqttClient) : MqttClient :=
  mk_mqtt (client m) (library_initialized m) (network_loop_started m) (connected m) ids.

(** The callbacks of the network thread. *)
Definition on_connect (result_code : Z) (m : MqttClient) : MqttClient :=
  set_connected (result_code =? 0) m.
Definition on_disconnect (result_code : Z) (m : MqttClient) : MqttClient := set_connected false m.
Definition on_publish (message_id : Z) (m : MqttClient) : MqttClient :=
  set_acknowledged ({[message_id]} ∪ acknowledged_message_ids m) m.

(** What can happen from the moment a publication is handed over. The callbacks
    change the state at any time ([on_publish] under the mutex, so only while the
    publishing thread waits); [Wake] is the publishing thread testing its predicate:
    first before it blocks, then after each notification that reaches it and after a
    spurious wake-up. [on_connect] notifies nobody, and a notification of
    [on_disconnect], sent without the mutex, may be missed. *)
Inductive wait_event : Type :=
  | OnConnect (result_code : Z)
  | OnDisconnect (result_code : Z)
  | OnPublish (message_id : Z)
  | Wake
  | Elapsed.                       (** [publish_timeout_] has passed *)

(** [acknowledgment_condition_.wait_for] with its predicate. *)
Fixpoint wait_for (message_id : Z) (m : MqttClient) (events : list wait_event) : exec MqttClient :=
  match events with
  | [] => OutOfFuel
  | Elapsed :: _ => Ret m
  | Wake :: rest =>
      if negb (connected m) || bool_decide (message_id ∈ acknowledged_message_ids m) then Ret m
      else wait_for message_id m rest
  | OnConnect rc :: rest => wait_for message_id (on_connect rc m) rest
  | OnDisconnect rc :: rest => wait_for message_id (on_disconnect rc m) rest
  | OnPublish id :: rest => wait_for message_id (on_publish id m) rest
  end.

(** The answers to one publication: whether [mosquitto_publish] succeeds, the
    identifier it gives, and what happens next. *)
Record mqtt_env : Type := mk_mqtt_env {
  mq_publish_ok : bool;
  mq_message_id : Z;
  mq_events : list wait_event;
}.

Definition INT_MAX : Z := 2147483647.

(** A call of [mosquitto_publish]. *)
Record mqtt_message : Type := mk_mqtt_message {
  mm_topic : string;
  mm_payload : string;
  mm_qos : Z;
  mm_retain : bool;
}.

(** The result, the client and the message given to the library, if any. *)
Definition publish (m : MqttClient) (env : mqtt_env) (topic payload : string)
    : exec (bool * MqttClient * option mqtt_message) :=
  if negb (client m) || negb (connected m) then Ret (false, m, None)
  else if INT_MAX <? Z.of_nat (String.length payload) then Ret (false, m, None)
  else
    let m := set_acknowledged ∅ m in
    let message := Some (mk_mqtt_message topic payload 1 false) in
    if negb (mq_publish_ok env) then Ret (false, m, message)
    else
      m ← wait_for (mq_message_id env) m (mq_events env);
      if bool_decide (mq_message_id env ∈ acknowledged_message_ids m)
      then Ret (true, set_acknowledged (acknowledged_message_ids m ∖ {[mq_message_id env]}) m,
                message)
      else Ret (false, m, message).

(** ** Facts *)

(** The acknowledgment of [id] comes before the time is over and before the thread
    wakes up to find the connection lost; [conn] is whether it is up. *)
Fixpoint acked_in_time (id : Z) (conn : bool) (events : list wait_event) : bool :=
  match events with
  | OnPublish i :: rest => bool_decide (i = id) || acked_in_time id conn rest
  | OnConnect rc :: rest => acked_in_time id (rc =? 0) rest
  | OnDisconnect _ :: rest => acked_in_time id false rest
  | Wake :: rest => conn && acked_in_time id conn rest
  | Elapsed :: _ | [] => false
  end.

Lemma wait_for_keeps id m events m' :
  id ∈ acknowledged_message_ids m → wait_for id m events = Ret m' →
  id ∈ acknowledged_message_ids m'.
Proof.
  revert m. induction events as [| e events IH]; intros m Hid Hw; [discriminate Hw |].
  destruct e as [rc | rc | i | |]; cbn [wait_for] in Hw.
  - by eapply IH, Hw.
  - by eapply IH, Hw.
  - eapply IH, Hw. cbn. set_solver.
  - destruct (negb _ || _); [by injection Hw as <- | by eapply IH, Hw].
  - by injection Hw as <-.
Qed.

Lemma wait_for_ok id m events m' :
  id ∉ acknowledged_message_ids m → wait_for id m events = Ret m' →
  bool_decide (id ∈ acknowledged_message_ids m') = acked_in_time id (connected m) events.
Proof.
  revert m. induction events as [| e events IH]; intros m Hid Hw; [discriminate Hw |].
  destruct e as [rc | rc | i | |]; cbn [wait_for acked_in_time] in *.
  - exact (IH (on_connect rc m) Hid Hw).
  - exact (IH (on_disconnect rc m) Hid Hw).
  - destruct (decide (i = id)) as [-> | Hi].
    + rewrite (bool_decide_eq_true_2 (id = id)) by done. apply bool_decide_eq_true_2.
      eapply wait_for_keeps, Hw. cbn. set_solver.
    + rewrite (bool_decide_eq_false_2 (i = id)) by done.
      eapply (IH (on_publish i m)); [cbn; set_solver | done].
  - rewrite (bool_decide_eq_false_2 (id ∈ acknowledged_message_ids m)), orb_false_r in Hw by done.
    destruct (connected m) eqn:Hc; cbn [negb andb] in *; [by rewrite (IH _ Hid Hw), Hc |].
    injection Hw as <-. by apply bool_decide_eq_false_2.
  - injection Hw as <-. by apply bool_decide_eq_false_2.
Qed.

Lemma wait_for_ends id m events : Elapsed ∈ events → ∃ m', wait_for id m events = Ret m'.
Proof.
  revert m. induction events as [| e events IH]; intros m He; [by apply elem_of_nil in He |].
  cbn [wait_for]. destruct e;
    try (apply IH; by apply elem_of_cons in He as [He | He]; [discriminate |]); [| by eexists].
  destruct (negb (connected m) || _); [by eexists |].
  apply IH. by apply elem_of_cons in He as [He | He].
Qed.

Lemma run_calls_prefix env calls : snd (run_calls env calls) `prefix_of` calls.
Proof.
  induction calls as [| c calls IH]; cbn [run_calls]; [done |].
  destruct (env c); [| apply prefix_nil]. destruct (run_calls env calls). by apply prefix_cons.
Qed.

(** If the last call was made, all were, and all succeeded. *)
Lemma run_calls_last env calls c :
  c ∉ calls → c ∈ snd (run_calls env (calls ++ [c])) →
  snd (run_calls env (calls ++ [c])) = calls ++ [c] ∧ Forall (λ c, env c = true) calls.
Proof.
  induction calls as [| x calls IH]; intros Hn Hin; cbn [app run_calls] in *.
  - destruct (env c); [done | by apply elem_of_nil in Hin].
  - destruct (env x) eqn:Hx; [| by apply elem_of_nil in Hin].
    destruct (run_calls env (calls ++ [c])) as [ok made]. cbn [snd] in *.
    apply not_elem_of_cons in Hn as [Hne Hn].
    apply elem_of_cons in Hin as [-> | Hin]; [done |].
    destruct (IH Hn Hin) as [-> Hf]. split; [done |]. by apply Forall_cons_2.
Qed.

(** ** Properties *)

(** C22: A publication succeeds exactly when the broker acknowledges it. It is refused
    without a call to the library when there is no client, no connection, or the
    payload is too long; otherwise the message is handed over once, with quality of
    service 1 and not retained, and the result is true exactly when the call succeeded
    and the acknowledgment of this very message arrives within the time allowed and
    before the thread wakes up to a lost connection; acknowledgments of earlier
    messages do not count. The wait ends when its time is over at the latest. *)
Theorem publish_acknowledged m env topic payload :
  let refused := negb (client m) || negb (connected m)
                 || (INT_MAX <? Z.of_nat (String.length payload)) in
  (∀ ok m' message, publish m env topic payload = Ret (ok, m', message) →
     ok = negb refused && mq_publish_ok env && acked_in_time (mq_message_id env) true (mq_events env) ∧
     message = (if refused then None else Some (mk_mqtt_message topic payload 1 false)) ∧
     (ok = true → mq_message_id env ∉ acknowledged_message_ids m')) ∧
  (Elapsed ∈ mq_events env → ∃ r, publish m env topic payload = Ret r).
Proof.
  cbn zeta. unfold publish. split.
  - intros ok m' message.
    destruct (client m), (connected m) eqn:Hc; cbn [negb orb]; try by intros [= <- <- <-].
    destruct (INT_MAX <? _); [by intros [= <- <- <-] |].
    destruct (mq_publish_ok env); cbn [negb andb]; [| by intros [= <- <- <-]].
    destruct (wait_for _ _ _) as [m1 | |] eqn:Hw; try discriminate. cbn [mbind exec_bind].
    apply wait_for_ok in Hw; [| apply not_elem_of_empty]. cbn in Hw. rewrite Hc in Hw. rewrite <-Hw.
    case_bool_decide; intros [= <- <- <-]; split_and!; try done. intros _. cbn. set_solver.
  - intros He. destruct (negb (client m) || _); [by eexists |]. destruct (INT_MAX <? _); [by eexists |].
    destruct (negb _); [by eexists |].
    destruct (wait_for_ends (mq_message_id env) (set_acknowledged ∅ m) _ He) as [m' ->].
    cbn [mbind exec_bind]. case_bool_decide; by eexists.
Qed.

Lemma publish_acknowledged_witness :
  let m := mk_mqtt true true true true {[9]} in
  let env := mk_mqtt_env true 4 [Wake; OnPublish 3; Wake; OnPublish 4; Elapsed] in
  (∃ r, publish m env "s/1/data" "{}" = Ret r) ∧
  ∀ ok m' message, publish m env "s/1/data" "{}" = Ret (ok, m', message) → ok = true.
Proof.
  intros m env. destruct (publish_acknowledged m env "s/1/data" "{}") as [Hp Ht]. split.
  - apply Ht. cbn. do 4 (apply elem_of_cons; right). by left.
  - intros ok m' message Hr. destruct (Hp ok m' message Hr) as (-> & _). reflexivity.
Defined.

(** C31: The connection is never set up with less security than configured, and the
    library's resources are balanced. The network thread is started only after every
    earlier step succeeded, so with TLS enabled only after the certificates and the
    host name policy were accepted, and with a user name only after the credentials
    were; and the destructor stops the thread, destroys the client and cleans the
    library up exactly when the constructor got each of them, in that order. *)
Theorem secure_setup env host port options :
  let '(m, made) := new_mqtt env host port options in
  made `prefix_of` initialize_calls host port options ∧
  (network_loop_started m = true →
     made = initialize_calls host port options ∧
     (tls_enabled options = true →
        TlsSet (ca_file options) (nullable (certificate_file options))
               (nullable (private_key_file options)) ∈ made ∧
        TlsInsecureSet (tls_insecure options) ∈ made) ∧
     (username options ≠ "" →
        UsernamePwSet (username options) (nullable (password options)) ∈ made) ∧
     Forall (λ c, c = LoopStart ∨ env c = true) made) ∧
  destroy_mqtt m =
    (if decide (LoopStart ∈ made) then [Disconnect; LoopStop true] else []) ++
    (if decide (ClientNew ∈ made) then [ClientDestroy] else []) ++
    (if decide (LibInit ∈ made) then [LibCleanup] else []).
Proof.
  unfold new_mqtt. pose proof (run_calls_prefix env (initialize_calls host port options)) as Hpre.
  set (early := [LibInit; ClientNew] ++ configure_security options ++
                [CallbacksSet; ReconnectDelaySet 1 30 true; ConnectAsync host port 60]).
  assert (initialize_calls host port options = early ++ [LoopStart]) as He.
  { unfold initialize_calls, early. by rewrite <-!app_assoc. }
  assert (LoopStart ∉ early) as Hn.
  { unfold early, configure_security. case_bool_decide; destruct (tls_enabled options);
      cbn; rewrite !not_elem_of_cons; split_and!; try done; apply not_elem_of_nil. }
  pose proof (run_calls_last env early LoopStart Hn) as Hlast. rewrite <-He in Hlast.
  destruct (run_calls env (initialize_calls host port options)) as [ok made] eqn:Hrun.
  cbn [snd network_loop_started] in *. split_and!; [done | |].
  - intros Hl%bool_decide_eq_true. destruct (Hlast Hl) as [-> Hf]. split; [done |]. split_and!.
    + intros Ht. unfold initialize_calls, configure_security. rewrite Ht. cbn [negb].
      split; rewrite !elem_of_app, !elem_of_cons; right; left; right; set_solver.
    + intros Hu. unfold initialize_calls, configure_security.
      rewrite bool_decide_eq_false_2 by done. rewrite !elem_of_app, !elem_of_cons.
      right; left; left; by left.
    + rewrite He. apply Forall_app_2; [| by repeat constructor].
      eapply Forall_impl; [exact Hf |]. by right.
  - unfold destroy_mqtt. cbn [client network_loop_started library_initialized].
    assert (LoopStart ∈ made → ClientNew ∈ made) as Hlc.
    { intros Hl. destruct (Hlast Hl) as [-> _]. unfold initialize_calls. set_solver. }
    repeat case_bool_decide; repeat case_decide; try done; tauto.
Qed.
