(* ===== verification/ConfigData.v ===== *)
(** * The settings of the gateway ([src/config/gateway_config.h])

    The structures with their default values, and an assignment for each member:
    the configuration is filled in place, so that it is known what a failed load
    leaves behind. *)

From S2P Require Import Prelude.

Local Open Scope Z_scope.

Record SerialConfig : Type := mk_serial_config {
  sc_devices : list string;
  sc_baud_rate : Z;
  sc_reconnect_interval_seconds : Z;
}.

Record ModbusConfig : Type := mk_modbus_config {
  mc_enabled : bool;
  mc_port : string;
  mc_baud_rate : Z;
  mc_slave_id : Z;
  mc_function_code : Z;
  mc_start_address : Z;
  mc_register_count : Z;
  mc_poll_interval_ms : Z;
  mc_response_timeout_ms : Z;
}.

Record CanConfig : Type := mk_can_config {
  cc_enabled : bool;
  cc_interface : string;
  cc_heartbeat_timeout_seconds : Z;
}.

Record MqttTlsConfig : Type := mk_mqtt_tls_config {
  ts_enabled : bool;
  ts_ca_file : string;
  ts_certificate_file : string;
  ts_private_key_file : string;
  ts_insecure : bool;
}.

Record MqttConfig : Type := mk_mqtt_config {
  qc_host : string;
  qc_port : Z;
  qc_topic_prefix : string;
  qc_cache_retry_interval_seconds : Z;
  qc_username : string;
  qc_password : string;
  qc_tls : MqttTlsConfig;
}.

Record TcpConfig : Type := mk_tcp_config {
  tc_enabled : bool;
  tc_host : string;
  tc_port : Z;
}.

Record HttpConfig : Type := mk_http_config {
  hc_enabled : bool;
  hc_host : string;
  hc_port : Z;
}.

Record CacheConfig : Type := mk_cache_config {
  kc_type : string;
  kc_path : string;
}.

Record LogConfig : Type := mk_log_config {
  lc_path : string;
  lc_level : string;
}.

Record GatewayConfig : Type := mk_gateway_config {
  gc_serial : SerialConfig;
  gc_modbus : ModbusConfig;
  gc_can : CanConfig;
  gc_mqtt : MqttConfig;
  gc_tcp : TcpConfig;
  gc_http : HttpConfig;
  gc_cache : CacheConfig;
  gc_log : LogConfig;
}.

Definition default_serial : SerialConfig :=
  mk_serial_config ["/tmp/tty_gateway"] 115200 2.
Definition default_modbus : ModbusConfig :=
  mk_modbus_config false "/dev/ttyUSB0" 115200 1 3 0 6 1000 500.
Definition default_can : CanConfig :=
  mk_can_config false "can0" 5.
Definition default_mqtt_tls : MqttTlsConfig :=
  mk_mqtt_tls_config false "" "" "" false.
Definition default_mqtt : MqttConfig :=
  mk_mqtt_config "localhost" 1883 "sensor" 5 "" "" default_mqtt_tls.
Definition default_tcp : TcpConfig :=
  mk_tcp_config true "127.0.0.1" 9000.
Definition default_http : HttpConfig :=
  mk_http_config false "127.0.0.1" 8080.
Definition default_cache : CacheConfig :=
  mk_cache_config "sqlite" "data/pending_messages.db".
Definition default_log : LogConfig :=
  mk_log_config "logs/gateway.log" "DEBUG".
Definition default_gateway : GatewayConfig :=
  mk_gateway_config default_serial default_modbus default_can default_mqtt default_tcp default_http default_cache default_log.

(** Assignments to the members. *)

Definition set_sc_devices (x : list string) (c : SerialConfig) : SerialConfig :=
  mk_serial_config x (sc_baud_rate c) (sc_reconnect_interval_seconds c).
Definition set_sc_baud_rate (x : Z) (c : SerialConfig) : SerialConfig :=
  mk_serial_config (sc_devices c) x (sc_reconnect_interval_seconds c).
Definition set_sc_reconnect_interval_seconds (x : Z) (c : SerialConfig) : SerialConfig :=
  mk_serial_config (sc_devices c) (sc_baud_rate c) x.
Definition set_mc_enabled (x : bool) (c : ModbusConfig) : ModbusConfig :=
  mk_modbus_config x (mc_port c) (mc_baud_rate c) (mc_slave_id c) (mc_function_code c)
    (mc_start_address c) (mc_register_count c) (mc_poll_interval_ms c)
    (mc_response_timeout_ms c).
Definition set_mc_port (x : string) (c : ModbusConfig) : ModbusConfig :=
  mk_modbus_config (mc_enabled c) x (mc_baud_rate c) (mc_slave_id c) (mc_function_code c)
    (mc_start_address c) (mc_register_count c) (mc_poll_interval_ms c)
    (mc_response_timeout_ms c).
Definition set_mc_baud_rate (x : Z) (c : ModbusConfig) : ModbusConfig :=
  mk_modbus_config (mc_enabled c) (mc_port c) x (mc_slave_id c) (mc_function_code c)
    (mc_start_address c) (mc_register_count c) (mc_poll_interval_ms c)
    (mc_response_timeout_ms c).
Definition set_mc_slave_id (x : Z) (c : ModbusConfig) : ModbusConfig :=
  mk_modbus_config (mc_enabled c) (mc_port c) (mc_baud_rate c) x (mc_function_code c)
    (mc_start_address c) (mc_register_count c) (mc_poll_interval_ms c)
    (mc_response_timeout_ms c).
Definition set_mc_function_code (x : Z) (c : ModbusConfig) : ModbusConfig :=
  mk_modbus_config (mc_enabled c) (mc_port c) (mc_baud_rate c) (mc_slave_id c) x
    (mc_start_address c) (mc_register_count c) (mc_poll_interval_ms c)
    (mc_response_timeout_ms c).
Definition set_mc_start_address (x : Z) (c : ModbusConfig) : ModbusConfig :=
  mk_modbus_config (mc_enabled c) (mc_port c) (mc_baud_rate c) (mc_slave_id c)
    (mc_function_code c) x (mc_register_count c) (mc_poll_interval_ms c)
    (mc_response_timeout_ms c).
Definition set_mc_register_count (x : Z) (c : ModbusConfig) : ModbusConfig :=
  mk_modbus_config (mc_enabled c) (mc_port c) (mc_baud_rate c) (mc_slave_id c)
    (mc_function_code c) (mc_start_address c) x (mc_poll_interval_ms c)
    (mc_response_timeout_ms c).
Definition set_mc_poll_interval_ms (x : Z) (c : ModbusConfig) : ModbusConfig :=
  mk_modbus_config (mc_enabled c) (mc_port c) (mc_baud_rate c) (mc_slave_id c)
    (mc_function_code c) (mc_start_address c) (mc_register_count c) x (mc_response_timeout_ms c).
Definition set_mc_response_timeout_ms (x : Z) (c : ModbusConfig) : ModbusConfig :=
  mk_modbus_config (mc_enabled c) (mc_port c) (mc_baud_rate c) (mc_slave_id c)
    (mc_function_code c) (mc_start_address c) (mc_register_count c) (mc_poll_interval_ms c) x.
Definition set_cc_enabled (x : bool) (c : CanConfig) : CanConfig :=
  mk_can_config x (cc_interface c) (cc_heartbeat_timeout_seconds c).
Definition set_cc_interface (x : string) (c : CanConfig) : CanConfig :=
  mk_can_config (cc_enabled c) x (cc_heartbeat_timeout_seconds c).
Definition set_cc_heartbeat_timeout_seconds (x : Z) (c : CanConfig) : CanConfig :=
  mk_can_config (cc_enabled c) (cc_interface c) x.
Definition set_ts_enabled (x : bool) (c : MqttTlsConfig) : MqttTlsConfig :=
  mk_mqtt_tls_config x (ts_ca_file c) (ts_certificate_file c) (ts_private_key_file c)
    (ts_insecure c).
Definition set_ts_ca_file (x : string) (c : MqttTlsConfig) : MqttTlsConfig :=
  mk_mqtt_tls_config (ts_enabled c) x (ts_certificate_file c) (ts_private_key_file c)
    (ts_insecure c).
Definition set_ts_certificate_file (x : string) (c : MqttTlsConfig) : MqttTlsConfig :=
  mk_mqtt_tls_config (ts_enabled c) (ts_ca_file c) x (ts_private_key_file c) (ts_insecure c).
Definition set_ts_private_key_file (x : string) (c : MqttTlsConfig) : MqttTlsConfig :=
  mk_mqtt_tls_config (ts_enabled c) (ts_ca_file c) (ts_certificate_file c) x (ts_insecure c).
Definition set_ts_insecure (x : bool) (c : MqttTlsConfig) : MqttTlsConfig :=
  mk_mqtt_tls_config (ts_enabled c) (ts_ca_file c) (ts_certificate_file c)
    (ts_private_key_file c) x.
Definition set_qc_host (x : string) (c : MqttConfig) : MqttConfig :=
  mk_mqtt_config x (qc_port c) (qc_topic_prefix c) (qc_cache_retry_interval_seconds c)
    (qc_username c) (qc_password c) (qc_tls c).
Definition set_qc_port (x : Z) (c : MqttConfig) : MqttConfig :=
  mk_mqtt_config (qc_host c) x (qc_topic_prefix c) (qc_cache_retry_interval_seconds c)
    (qc_username c) (qc_password c) (qc_tls c).
Definition set_qc_topic_prefix (x : string) (c : MqttConfig) : MqttConfig :=
  mk_mqtt_config (qc_host c) (qc_port c) x (qc_cache_retry_interval_seconds c) (qc_username c)
    (qc_password c) (qc_tls c).
Definition set_qc_cache_retry_interval_seconds (x : Z) (c : MqttConfig) : MqttConfig :=
  mk_mqtt_config (qc_host c) (qc_port c) (qc_topic_prefix c) x (qc_username c) (qc_password c)
    (qc_tls c).
Definition set_qc_username (x : string) (c : MqttConfig) : MqttConfig :=
  mk_mqtt_config (qc_host c) (qc_port c) (qc_topic_prefix c) (qc_cache_retry_interval_seconds c)
    x (qc_password c) (qc_tls c).
Definition set_qc_password (x : string) (c : MqttConfig) : MqttConfig :=
  mk_mqtt_config (qc_host c) (qc_port c) (qc_topic_prefix c) (qc_cache_retry_interval_seconds c)
    (qc_username c) x (qc_tls c).
Definition set_qc_tls (x : MqttTlsConfig) (c : MqttConfig) : MqttConfig :=
  mk_mqtt_config (qc_host c) (qc_port c) (qc_topic_prefix c) (qc_cache_retry_interval_seconds c)
    (qc_username c) (qc_password c) x.
Definition set_tc_enabled (x : bool) (c : TcpConfig) : TcpConfig :=
  mk_tcp_config x (tc_host c) (tc_port c).
Definition set_tc_host (x : string) (c : TcpConfig) : TcpConfig :=
  mk_tcp_config (tc_enabled c) x (tc_port c).
Definition set_tc_port (x : Z) (c : TcpConfig) : TcpConfig :=
  mk_tcp_config (tc_enabled c) (tc_host c) x.
Definition set_hc_enabled (x : bool) (c : HttpConfig) : HttpConfig :=
  mk_http_config x (hc_host c) (hc_port c).
Definition set_hc_host (x : string) (c : HttpConfig) : HttpConfig :=
  mk_http_config (hc_enabled c) x (hc_port c).
Definition set_hc_port (x : Z) (c : HttpConfig) : HttpConfig :=
  mk_http_config (hc_enabled c) (hc_host c) x.
Definition set_kc_type (x : string) (c : CacheConfig) : CacheConfig :=
  mk_cache_config x (kc_path c).
Definition set_kc_path (x : string) (c : CacheConfig) : CacheConfig :=
  mk_cache_config (kc_type c) x.
Definition set_lc_path (x : string) (c : LogConfig) : LogConfig :=
  mk_log_config x (lc_level c).
Definition set_lc_level (x : string) (c : LogConfig) : LogConfig :=
  mk_log_config (lc_path c) x.
Definition set_gc_serial (x : SerialConfig) (c : GatewayConfig) : GatewayConfig :=
  mk_gateway_config x (gc_modbus c) (gc_can c) (gc_mqtt c) (gc_tcp c) (gc_http c) (gc_cache c)
    (gc_log c).
Definition set_gc_modbus (x : ModbusConfig) (c : GatewayConfig) : GatewayConfig :=
  mk_gateway_config (gc_serial c) x (gc_can c) (gc_mqtt c) (gc_tcp c) (gc_http c) (gc_cache c)
    (gc_log c).
Definition set_gc_can (x : CanConfig) (c : GatewayConfig) : GatewayConfig :=
  mk_gateway_config (gc_serial c) (gc_modbus c) x (gc_mqtt c) (gc_tcp c) (gc_http c)
    (gc_cache c) (gc_log c).
Definition set_gc_mqtt (x : MqttConfig) (c : GatewayConfig) : GatewayConfig :=
  mk_gateway_config (gc_serial c) (gc_modbus c) (gc_can c) x (gc_tcp c) (gc_http c) (gc_cache c)
    (gc_log c).
Definition set_gc_tcp (x : TcpConfig) (c : GatewayConfig) : GatewayConfig :=
  mk_gateway_config (gc_serial c) (gc_modbus c) (gc_can c) (gc_mqtt c) x (gc_http c)
    (gc_cache c) (gc_log c).
Definition set_gc_http (x : HttpConfig) (c : GatewayConfig) : GatewayConfig :=
  mk_gateway_config (gc_serial c) (gc_modbus c) (gc_can c) (gc_mqtt c) (gc_tcp c) x (gc_cache c)
    (gc_log c).
Definition set_gc_cache (x : CacheConfig) (c : GatewayConfig) : GatewayConfig :=
  mk_gateway_config (gc_serial c) (gc_modbus c) (gc_can c) (gc_mqtt c) (gc_tcp c) (gc_http c) x
    (gc_log c).
Definition set_gc_log (x : LogConfig) (c : GatewayConfig) : GatewayConfig :=
  mk_gateway_config (gc_serial c) (gc_modbus c) (gc_can c) (gc_mqtt c) (gc_tcp c) (gc_http c)
    (gc_cache c) x.

