(* ===== verification/Config.v ===== *)
(** * Loading and checking the configuration ([src/config/gateway_config.cpp])

    The YAML library is not part of the repository: documents are an abstract type
    whose queries may throw. Loading fills the settings in place, section by section;
    the first problem ends it. *)

From stdpp Require Import gmap.
From S2P Require Import Prelude SerialPort ConfigData.

Local Open Scope Z_scope.

(** ** The library *)

(** A query gives its result or throws a [YAML::Exception] with its [what]. [get]
    is [node[key]], [None] when the result converts to [false]. *)
Class Yaml (Node : Type) : Type := {
  load_file : string → string + Node;
  is_map : Node → bool;
  is_sequence : Node → bool;
  get : Node → string → string + option Node;
  as_int : Node → string + Z;
  as_bool : Node → string + bool;
  as_string : Node → string + string;
  as_strings : Node → string + list string;
}.

(** ** Code that fills a structure

    The result is the text of the error message or a value; the structure is what
    has been filled in so far. *)

Definition fill (S A : Type) : Type := S → (string + A) * S.

#[export] Instance fill_ret {S} : MRet (fill S) := λ A a s, (inr a, s).
#[export] Instance fill_bind {S} : MBind (fill S) := λ A B f m s,
  let '(r, s) := m s in
  match r with inl e => (inl e, s) | inr a => f a s end.

(** [error_message = ...; return false;] *)
Definition fail_with {S A} (message : string) : fill S A := λ s, (inl message, s).
Definition require {S} (bad : bool) (message : string) : fill S () :=
  if bad then fail_with message else mret tt.
Definition reads {S A} (f : S → A) : fill S A := λ s, (inr (f s), s).
Definition assign {S A} (set : A → S → S) (a : A) : fill S () := λ s, (inr tt, set a s).
(** The [catch] clause of the function. *)
Definition yaml {S A} (r : string + A) : fill S A := λ s,
  (match r with inl what => inl ("YAML error: " +:+ what) | inr a => inr a end, s).
(** Filling a member of a structure. *)
Definition zoom {S T A} (member : T → S) (set : S → T → T) (m : fill S A) : fill T A := λ t,
  let '(r, s) := m (member t) in (r, set s t).

(** ** The code *)

Definition is_supported_baud_rate (baud_rate : Z) : bool :=
  (baud_rate =? 9600) || (baud_rate =? 19200) || (baud_rate =? 38400) || (baud_rate =? 57600)
  || (baud_rate =? 115200).

Definition toupper (c : Ascii.ascii) : Ascii.ascii :=
  let n := Ascii.nat_of_ascii c in
  if ((97 <=? n) && (n <=? 122))%nat then Ascii.ascii_of_nat (n - 32) else c.
Definition tolower (c : Ascii.ascii) : Ascii.ascii :=
  let n := Ascii.nat_of_ascii c in
  if ((65 <=? n) && (n <=? 90))%nat then Ascii.ascii_of_nat (n + 32) else c.

Fixpoint map_chars (f : Ascii.ascii → Ascii.ascii) (s : string) : string :=
  match s with EmptyString => EmptyString | String c r => String (f c) (map_chars f r) end.

Definition uppercase (value : string) : string := map_chars toupper value.
Definition lowercase (value : string) : string := map_chars tolower value.

Definition is_valid_log_level (level : string) : bool :=
  bool_decide (level = "DEBUG") || bool_decide (level = "INFO") || bool_decide (level = "WARN")
  || bool_decide (level = "ERROR").

Definition is_empty (s : string) : bool := bool_decide (s = "").

Section code.
Context `{Yaml Node}.
(** [inet_pton(AF_INET, host, ...) == 1] *)
Context (inet_pton : string → bool).

Definition is_valid_http_host (host : string) : bool :=
  if bool_decide (host = "localhost") then true else inet_pton host.

Definition load_if_present {A} (node : Node) (key : string) (as_ : Node → string + A) (value : A)
    : string + A :=
  match get node key with
  | inl what => inl what
  | inr None => inr value
  | inr (Some n) => as_ n
  end.

(** [load_if_present] into a member of the structure that is being filled. *)
Definition load_member {S A} (node : Node) (key : string) (as_ : Node → string + A)
    (member : S → A) (set : A → S → S) : fill S () :=
  value ← reads member;
  value ← yaml (load_if_present node key as_ value);
  assign set value.

(** [load_if_present] into a local variable that starts as [value]. *)
Definition load_local {S A} (node : Node) (key : string) (as_ : Node → string + A) (value : A)
    : fill S A := yaml (load_if_present node key as_ value).

(** [const YAML::Node section = root[name]; if (section) ...] *)
Definition section {S} (root : Node) (name : string) (load : Node → fill S ()) : fill S () :=
  node ← yaml (get root name);
  match node with Some n => load n | None => mret tt end.

Definition load_serial (serial : Node) : fill SerialConfig () :=
  devices ← yaml (get serial "devices");
  (match devices with
   | Some node =>
       require (negb (is_sequence node)) "serial.devices must be a YAML sequence";;
       paths ← yaml (as_strings node);
       assign set_sc_devices paths
   | None =>
       device ← yaml (get serial "device");
       match device with
       | Some node => path ← yaml (as_string node); assign set_sc_devices [path]
       | None => mret tt
       end
   end);;
  load_member serial "baud_rate" as_int sc_baud_rate set_sc_baud_rate;;
  load_member serial "reconnect_interval_seconds" as_int sc_reconnect_interval_seconds
    set_sc_reconnect_interval_seconds.

Definition load_modbus (modbus : Node) : fill ModbusConfig () :=
  load_member modbus "enabled" as_bool mc_enabled set_mc_enabled;;
  load_member modbus "port" as_string mc_port set_mc_port;;
  load_member modbus "baud_rate" as_int mc_baud_rate set_mc_baud_rate;;
  load_member modbus "baudrate" as_int mc_baud_rate set_mc_baud_rate;;
  slave_id ← reads mc_slave_id;
  function_code ← reads mc_function_code;
  start_address ← reads mc_start_address;
  register_count ← reads mc_register_count;
  slave_id ← load_local modbus "slave_id" as_int slave_id;
  function_code ← load_local modbus "function_code" as_int function_code;
  start_address ← load_local modbus "start_address" as_int start_address;
  register_count ← load_local modbus "register_count" as_int register_count;
  load_member modbus "poll_interval_ms" as_int mc_poll_interval_ms set_mc_poll_interval_ms;;
  load_member modbus "response_timeout_ms" as_int mc_response_timeout_ms
    set_mc_response_timeout_ms;;
  require ((slave_id <? 1) || (247 <? slave_id)) "modbus.slave_id must be between 1 and 247";;
  require (negb (function_code =? 3) && negb (function_code =? 4))
    "modbus.function_code must be 3 or 4";;
  require ((start_address <? 0) || (65535 <? start_address) || (register_count <? 1)
           || (125 <? register_count)) "Modbus register range is invalid";;
  assign set_mc_slave_id (u8 slave_id);;
  assign set_mc_function_code (u8 function_code);;
  assign set_mc_start_address (u16 start_address);;
  assign set_mc_register_count (u16 register_count).

Definition load_can (can : Node) : fill CanConfig () :=
  load_member can "enabled" as_bool cc_enabled set_cc_enabled;;
  load_member can "interface" as_string cc_interface set_cc_interface;;
  load_member can "heartbeat_timeout_seconds" as_int cc_heartbeat_timeout_seconds
    set_cc_heartbeat_timeout_seconds.

(** A port: read into an [int], checked, then stored in 16 bits. *)
Definition load_port {S} (node : Node) (member : S → Z) (set : Z → S → S) (message : string)
    : fill S () :=
  port ← reads member;
  port ← load_local node "port" as_int port;
  require ((port <? 1) || (65535 <? port)) message;;
  assign set (u16 port).

Definition load_tls (tls : Node) : fill MqttTlsConfig () :=
  load_member tls "enabled" as_bool ts_enabled set_ts_enabled;;
  load_member tls "ca_file" as_string ts_ca_file set_ts_ca_file;;
  load_member tls "certificate_file" as_string ts_certificate_file set_ts_certificate_file;;
  load_member tls "private_key_file" as_string ts_private_key_file set_ts_private_key_file;;
  load_member tls "insecure" as_bool ts_insecure set_ts_insecure.

Definition load_mqtt (mqtt : Node) : fill MqttConfig () :=
  load_member mqtt "host" as_string qc_host set_qc_host;;
  load_port mqtt qc_port set_qc_port "mqtt.port must be between 1 and 65535";;
  load_member mqtt "topic_prefix" as_string qc_topic_prefix set_qc_topic_prefix;;
  load_member mqtt "cache_retry_interval_seconds" as_int qc_cache_retry_interval_seconds
    set_qc_cache_retry_interval_seconds;;
  load_member mqtt "username" as_string qc_username set_qc_username;;
  load_member mqtt "password" as_string qc_password set_qc_password;;
  section mqtt "tls" (λ tls, zoom qc_tls set_qc_tls (load_tls tls)).

Definition load_tcp (tcp : Node) : fill TcpConfig () :=
  load_member tcp "enabled" as_bool tc_enabled set_tc_enabled;;
  load_member tcp "host" as_string tc_host set_tc_host;;
  load_port tcp tc_port set_tc_port "tcp.port must be between 1 and 65535".

Definition load_http (http : Node) : fill HttpConfig () :=
  require (negb (is_map http)) "http must be a YAML map";;
  load_member http "enabled" as_bool hc_enabled set_hc_enabled;;
  load_member http "host" as_string hc_host set_hc_host;;
  load_port http hc_port set_hc_port "http.port must be between 1 and 65535".

Definition load_cache (cache : Node) : fill CacheConfig () :=
  load_member cache "type" as_string kc_type set_kc_type;;
  type ← reads kc_type;
  assign set_kc_type (lowercase type);;
  load_member cache "path" as_string kc_path set_kc_path.

Definition load_log (log : Node) : fill LogConfig () :=
  load_member log "path" as_string lc_path set_lc_path;;
  load_member log "level" as_string lc_level set_lc_level;;
  level ← reads lc_level;
  assign set_lc_level (uppercase level).

(** The part of the function that reads the document. *)
Definition load_sections (root : Node) : fill GatewayConfig () :=
  section root "serial" (λ n, zoom gc_serial set_gc_serial (load_serial n));;
  section root "modbus" (λ n, zoom gc_modbus set_gc_modbus (load_modbus n));;
  section root "can" (λ n, zoom gc_can set_gc_can (load_can n));;
  section root "mqtt" (λ n, zoom gc_mqtt set_gc_mqtt (load_mqtt n));;
  section root "tcp" (λ n, zoom gc_tcp set_gc_tcp (load_tcp n));;
  section root "http" (λ n, zoom gc_http set_gc_http (load_http n));;
  section root "cache" (λ n, zoom gc_cache set_gc_cache (load_cache n));;
  section root "log" (λ n, zoom gc_log set_gc_log (load_log n)).

(** The loop over the serial devices. *)
Fixpoint check_devices (seen : gset string) (devices : list string) : option string :=
  match devices with
  | [] => None
  | device :: rest =>
      if is_empty device then Some "serial device path must not be empty"
      else if bool_decide (device ∈ seen) then Some "serial.devices must not contain duplicates"
      else check_devices ({[device]} ∪ seen) rest
  end.

(** The first check that fails ends the function with its message. *)
Fixpoint first_error (checks : list (bool * string)) : option string :=
  match checks with
  | [] => None
  | (bad, message) :: rest => if bad then Some message else first_error rest
  end.

(** The checks after the loop, in their order: of the inputs, of the MQTT client, of the
    other services. *)
Definition input_checks (c : GatewayConfig) : list (bool * string) :=
  let serial := gc_serial c in let modbus := gc_modbus c in let can := gc_can c in
  [(negb (is_supported_baud_rate (sc_baud_rate serial)), "serial.baud_rate is not supported");
   (sc_reconnect_interval_seconds serial <? 1, "serial reconnect interval must be positive");
   (mc_enabled modbus && is_empty (mc_port modbus), "modbus.port must not be empty when enabled");
   (mc_enabled modbus && negb (is_supported_baud_rate (mc_baud_rate modbus)),
    "modbus.baud_rate is not supported");
   (mc_enabled modbus && ((mc_poll_interval_ms modbus <? 1)
                          || (mc_response_timeout_ms modbus <? 1)),
    "Modbus timing values must be positive");
   (cc_enabled can && is_empty (cc_interface can), "can.interface must not be empty when enabled");
   (cc_heartbeat_timeout_seconds can <? 1, "can.heartbeat_timeout_seconds must be positive");
   (bool_decide (sc_devices serial = []) && negb (mc_enabled modbus) && negb (cc_enabled can),
    "at least one input source must be enabled")].

Definition mqtt_checks (c : GatewayConfig) : list (bool * string) :=
  let mqtt := gc_mqtt c in let tls := qc_tls mqtt in
  let has_client_certificate := negb (is_empty (ts_certificate_file tls)) in
  let has_private_key := negb (is_empty (ts_private_key_file tls)) in
  [(is_empty (qc_host mqtt), "mqtt.host must not be empty");
   (is_empty (qc_topic_prefix mqtt), "mqtt.topic_prefix must not be empty");
   (qc_cache_retry_interval_seconds mqtt <? 1, "mqtt cache retry interval must be positive");
   (is_empty (qc_username mqtt) && negb (is_empty (qc_password mqtt)),
    "mqtt.password requires mqtt.username");
   (ts_enabled tls && is_empty (ts_ca_file tls),
    "mqtt.tls.ca_file is required when TLS is enabled");
   (negb (eqb has_client_certificate has_private_key),
    "MQTT TLS client certificate and private key must be configured together");
   (negb (ts_enabled tls) && ts_insecure tls, "mqtt.tls.insecure requires TLS to be enabled")].

Definition service_checks (c : GatewayConfig) : list (bool * string) :=
  let tcp := gc_tcp c in let http := gc_http c in let cache := gc_cache c in let log := gc_log c in
  [(tc_enabled tcp && is_empty (tc_host tcp), "tcp.host must not be empty when TCP is enabled");
   (is_empty (hc_host http), "http.host must not be empty");
   (hc_enabled http && negb (is_valid_http_host (hc_host http)),
    "http.host must be localhost or an IPv4 address");
   (is_empty (kc_path cache), "cache.path must not be empty");
   (negb (bool_decide (kc_type cache = "sqlite")) && negb (bool_decide (kc_type cache = "file")),
    "cache.type must be sqlite or file");
   (is_empty (lc_path log), "log.path must not be empty");
   (negb (is_valid_log_level (lc_level log)), "log.level must be DEBUG, INFO, WARN or ERROR")].

Definition checks (c : GatewayConfig) : list (bool * string) :=
  input_checks c ++ mqtt_checks c ++ service_checks c.

(** The part of the function that checks the settings. *)
Definition validate (c : GatewayConfig) : option string :=
  match check_devices ∅ (sc_devices (gc_serial c)) with
  | Some message => Some message
  | None => first_error (checks c)
  end.

(** The body of the function. *)
Definition load_checked (file_path : string) : fill GatewayConfig () :=
  root ← yaml (load_file file_path);
  require (negb (is_map root)) "configuration root must be a YAML map";;
  load_sections root;;
  c ← reads id;
  match validate c with Some message => fail_with message | None => mret tt end.

(** The result, the settings and the error message. *)
Definition load_gateway_config (file_path : string) (gateway_config : GatewayConfig)
    : bool * GatewayConfig * string :=
  let '(r, c) := load_checked file_path gateway_config in
  match r with
  | inl message => (false, c, message)
  | inr _ => (true, c, "")
  end.
End code.

(** ** What a successful load means *)

(** A setting of a document: the value under its key, or the default when there is
    none. *)
Definition chosen `{Yaml Node} {A} (node : Node) (key : string) (as_ : Node → string + A) (default x : A)
    : Prop :=
  (get node key = inr None ∧ x = default) ∨ ∃ n, get node key = inr (Some n) ∧ as_ n = inr x.

(** A section that is present has the settings [P]; an absent one, the defaults. *)
Definition in_section `{Yaml Node} {S} (root : Node) (name : string) (P : Node → S → Prop) (default s : S)
    : Prop :=
  (get root name = inr None ∧ s = default) ∨ ∃ n, get root name = inr (Some n) ∧ P n s.

Section settings.
Context `{Yaml Node}.

(** A list of devices, or else a single one, or else the default. *)
Definition device_settings (n : Node) (devices : list string) : Prop :=
  (∃ d, get n "devices" = inr (Some d) ∧ is_sequence d = true ∧ as_strings d = inr devices) ∨
  (get n "devices" = inr None ∧
   ((∃ d path, get n "device" = inr (Some d) ∧ as_string d = inr path ∧ devices = [path]) ∨
    (get n "device" = inr None ∧ devices = ["/tmp/tty_gateway"]))).

Definition serial_settings (n : Node) (c : SerialConfig) : Prop :=
  device_settings n (sc_devices c) ∧
  chosen n "baud_rate" as_int 115200 (sc_baud_rate c) ∧
  chosen n "reconnect_interval_seconds" as_int 2 (sc_reconnect_interval_seconds c).

(** The later spelling of the rate wins. *)
Definition modbus_settings (n : Node) (c : ModbusConfig) : Prop :=
  chosen n "enabled" as_bool false (mc_enabled c) ∧
  chosen n "port" as_string "/dev/ttyUSB0" (mc_port c) ∧
  (∃ rate, chosen n "baud_rate" as_int 115200 rate ∧
           chosen n "baudrate" as_int rate (mc_baud_rate c)) ∧
  chosen n "slave_id" as_int 1 (mc_slave_id c) ∧ 1 <= mc_slave_id c <= 247 ∧
  chosen n "function_code" as_int 3 (mc_function_code c) ∧
  (mc_function_code c = 3 ∨ mc_function_code c = 4) ∧
  chosen n "start_address" as_int 0 (mc_start_address c) ∧ 0 <= mc_start_address c <= 65535 ∧
  chosen n "register_count" as_int 6 (mc_register_count c) ∧ 1 <= mc_register_count c <= 125 ∧
  chosen n "poll_interval_ms" as_int 1000 (mc_poll_interval_ms c) ∧
  chosen n "response_timeout_ms" as_int 500 (mc_response_timeout_ms c).

Definition can_settings (n : Node) (c : CanConfig) : Prop :=
  chosen n "enabled" as_bool false (cc_enabled c) ∧
  chosen n "interface" as_string "can0" (cc_interface c) ∧
  chosen n "heartbeat_timeout_seconds" as_int 5 (cc_heartbeat_timeout_seconds c).

Definition tls_settings (n : Node) (c : MqttTlsConfig) : Prop :=
  chosen n "enabled" as_bool false (ts_enabled c) ∧
  chosen n "ca_file" as_string "" (ts_ca_file c) ∧
  chosen n "certificate_file" as_string "" (ts_certificate_file c) ∧
  chosen n "private_key_file" as_string "" (ts_private_key_file c) ∧
  chosen n "insecure" as_bool false (ts_insecure c).

Definition port_settings (n : Node) (default port : Z) : Prop :=
  chosen n "port" as_int default port ∧ 1 <= port <= 65535.

Definition mqtt_settings (n : Node) (c : MqttConfig) : Prop :=
  chosen n "host" as_string "localhost" (qc_host c) ∧
  port_settings n 1883 (qc_port c) ∧
  chosen n "topic_prefix" as_string "sensor" (qc_topic_prefix c) ∧
  chosen n "cache_retry_interval_seconds" as_int 5 (qc_cache_retry_interval_seconds c) ∧
  chosen n "username" as_string "" (qc_username c) ∧
  chosen n "password" as_string "" (qc_password c) ∧
  in_section n "tls" tls_settings default_mqtt_tls (qc_tls c).

Definition tcp_settings (n : Node) (c : TcpConfig) : Prop :=
  chosen n "enabled" as_bool true (tc_enabled c) ∧
  chosen n "host" as_string "127.0.0.1" (tc_host c) ∧
  port_settings n 9000 (tc_port c).

Definition http_settings (n : Node) (c : HttpConfig) : Prop :=
  is_map n = true ∧
  chosen n "enabled" as_bool false (hc_enabled c) ∧
  chosen n "host" as_string "127.0.0.1" (hc_host c) ∧
  port_settings n 8080 (hc_port c).

Definition cache_settings (n : Node) (c : CacheConfig) : Prop :=
  (∃ type, chosen n "type" as_string "sqlite" type ∧ kc_type c = lowercase type) ∧
  chosen n "path" as_string "data/pending_messages.db" (kc_path c).

Definition log_settings (n : Node) (c : LogConfig) : Prop :=
  chosen n "path" as_string "logs/gateway.log" (lc_path c) ∧
  (∃ level, chosen n "level" as_string "DEBUG" level ∧ lc_level c = uppercase level).

Definition gateway_settings (root : Node) (c : GatewayConfig) : Prop :=
  in_section root "serial" serial_settings default_serial (gc_serial c) ∧
  in_section root "modbus" modbus_settings default_modbus (gc_modbus c) ∧
  in_section root "can" can_settings default_can (gc_can c) ∧
  in_section root "mqtt" mqtt_settings default_mqtt (gc_mqtt c) ∧
  in_section root "tcp" tcp_settings default_tcp (gc_tcp c) ∧
  in_section root "http" http_settings default_http (gc_http c) ∧
  in_section root "cache" cache_settings default_cache (gc_cache c) ∧
  in_section root "log" log_settings default_log (gc_log c).
End settings.

(** Settings the gateway can run with. *)
Record usable (inet_pton : string → bool) (c : GatewayConfig) : Prop := mk_usable {
  us_devices : NoDup (sc_devices (gc_serial c)) ∧ "" ∉ sc_devices (gc_serial c);
  us_serial : to_speed (sc_baud_rate (gc_serial c)) ≠ 0 ∧
              1 <= sc_reconnect_interval_seconds (gc_serial c);
  us_modbus : mc_enabled (gc_modbus c) = true →
              mc_port (gc_modbus c) ≠ "" ∧ to_speed (mc_baud_rate (gc_modbus c)) ≠ 0 ∧
              1 <= mc_poll_interval_ms (gc_modbus c) ∧ 1 <= mc_response_timeout_ms (gc_modbus c);
  us_can : (cc_enabled (gc_can c) = true → cc_interface (gc_can c) ≠ "") ∧
           1 <= cc_heartbeat_timeout_seconds (gc_can c);
  us_input : sc_devices (gc_serial c) ≠ [] ∨ mc_enabled (gc_modbus c) = true ∨
             cc_enabled (gc_can c) = true;
  us_mqtt : qc_host (gc_mqtt c) ≠ "" ∧ qc_topic_prefix (gc_mqtt c) ≠ "" ∧
            1 <= qc_cache_retry_interval_seconds (gc_mqtt c) ∧
            (qc_password (gc_mqtt c) ≠ "" → qc_username (gc_mqtt c) ≠ "");
  us_tls : (ts_enabled (qc_tls (gc_mqtt c)) = true → ts_ca_file (qc_tls (gc_mqtt c)) ≠ "") ∧
           (ts_certificate_file (qc_tls (gc_mqtt c)) = ""
              ↔ ts_private_key_file (qc_tls (gc_mqtt c)) = "") ∧
           (ts_insecure (qc_tls (gc_mqtt c)) = true → ts_enabled (qc_tls (gc_mqtt c)) = true);
  us_tcp : tc_enabled (gc_tcp c) = true → tc_host (gc_tcp c) ≠ "";
  us_http : hc_host (gc_http c) ≠ "" ∧
            (hc_enabled (gc_http c) = true →
               hc_host (gc_http c) = "localhost" ∨ inet_pton (hc_host (gc_http c)) = true);
  us_cache : kc_path (gc_cache c) ≠ "" ∧
             (kc_type (gc_cache c) = "sqlite" ∨ kc_type (gc_cache c) = "file");
  us_log : lc_path (gc_log c) ≠ "" ∧
           lc_level (gc_log c) ∈ ["DEBUG"; "INFO"; "WARN"; "ERROR"];
}.

(** ** Facts *)

Section fill_facts.
Context {S : Type}.
Implicit Types (s : S).

Lemma bind_done {A B} (m : fill S A) (f : A → fill S B) s b s' :
  (m ≫= f) s = (inr b, s') ↔ ∃ a s1, m s = (inr a, s1) ∧ f a s1 = (inr b, s').
Proof.
  unfold mbind, fill_bind. destruct (m s) as [[e | a] s1]; split; [done | | | ].
  - by intros (? & ? & [=] & _).
  - intros Hf. by exists a, s1.
  - by intros (? & ? & [= <- <-] & Hf).
Qed.

Lemma require_done bad message s u s' :
  require bad message s = (inr u, s') ↔ bad = false ∧ s' = s.
Proof. destruct bad, u; (split; [try by intros [= <-] | by intros [[=] ->]]); by intros [=]. Qed.

Lemma assign_done {A} (set : A → S → S) a s u s' :
  assign set a s = (inr u, s') ↔ s' = set a s.
Proof. destruct u. unfold assign. split; [by intros [= <-] | by intros ->]. Qed.

Lemma reads_done {A} (f : S → A) s a s' : reads f s = (inr a, s') ↔ a = f s ∧ s' = s.
Proof. unfold reads. split; [by intros [= <- <-] | by intros [-> ->]]. Qed.

Lemma yaml_done {A} (r : string + A) s a s' : yaml r s = (inr a, s') ↔ r = inr a ∧ s' = s.
Proof.
  unfold yaml. destruct r.
  - split; [by intros [=] | by intros [[=] _]].
  - split; [by intros [= <- <-] | by intros [[= ->] ->]].
Qed.

Lemma zoom_done {T A} (member : T → S) (set : S → T → T) (m : fill S A) t a t' :
  zoom member set m t = (inr a, t') ↔ ∃ s', m (member t) = (inr a, s') ∧ t' = set s' t.
Proof.
  unfold zoom. destruct (m (member t)) as [r s']. split.
  - intros [= -> <-]. by exists s'.
  - by intros (? & [= -> ->] & ->).
Qed.
End fill_facts.

Section load_facts.
Context `{Yaml Node}.

Lemma load_if_present_done {A} n key (as_ : Node → string + A) v x :
  load_if_present n key as_ v = inr x ↔ chosen n key as_ v x.
Proof.
  unfold load_if_present, chosen. destruct (get n key) as [e | [d |]]; split.
  - done.
  - by intros [[[=] _] | (? & [=] & _)].
  - intros Ha. right. by exists d.
  - by intros [[[=] _] | (? & [= ->] & ?)].
  - intros [= ->]. by left.
  - by intros [[_ ->] | (? & [=] & _)].
Qed.

Lemma load_local_done {S A} n key (as_ : Node → string + A) v (s : S) x s' :
  load_local n key as_ v s = (inr x, s') ↔ chosen n key as_ v x ∧ s' = s.
Proof. unfold load_local. by rewrite yaml_done, load_if_present_done. Qed.

Lemma load_member_done {S A} n key (as_ : Node → string + A) (member : S → A) set s u s' :
  load_member n key as_ member set s = (inr u, s')
  ↔ ∃ x, chosen n key as_ (member s) x ∧ s' = set x s.
Proof.
  unfold load_member. rewrite bind_done. setoid_rewrite bind_done. split.
  - intros (a & s1 & [-> ->]%reads_done & x & s2 & [Hx ->]%yaml_done & ->%assign_done).
    exists x. by rewrite <-load_if_present_done.
  - intros (x & Hx & ->). exists (member s), s. split; [by apply reads_done |].
    exists x, s. split; [by apply yaml_done; rewrite load_if_present_done | by apply assign_done].
Qed.

Lemma section_done {S} root name (load : Node → fill S ()) s u s' :
  section root name load s = (inr u, s')
  ↔ (get root name = inr None ∧ s' = s) ∨
    ∃ n, get root name = inr (Some n) ∧ load n s = (inr u, s').
Proof.
  unfold section. rewrite bind_done. setoid_rewrite yaml_done. split.
  - intros ([n |] & s1 & [Hg ->] & Hl); [right; by exists n | left].
    destruct u. by injection Hl as <-.
  - destruct u. intros [[Hg ->] | (n & Hg & Hl)]; [by exists None, s | by exists (Some n), s].
Qed.
End load_facts.

(** Takes a successful run apart into the runs of its parts. *)
Ltac run_fill :=
  repeat match goal with
  | Hr : (_ ≫= _) _ = (inr _, _) |- _ => apply bind_done in Hr as (? & ? & ? & ?)
  | Hr : load_member _ _ _ _ _ _ = (inr _, _) |- _ => apply load_member_done in Hr as (? & ? & ->)
  | Hr : load_local _ _ _ _ _ = (inr _, _) |- _ => apply load_local_done in Hr as [? ->]
  | Hr : require _ _ _ = (inr _, _) |- _ => apply require_done in Hr as [? ->]
  | Hr : reads _ _ = (inr _, _) |- _ => apply reads_done in Hr as [-> ->]
  | Hr : assign _ _ _ = (inr _, _) |- _ => apply assign_done in Hr as ->
  | Hr : yaml _ _ = (inr _, _) |- _ => apply yaml_done in Hr as [? ->]
  | Hr : zoom _ _ _ _ = (inr _, _) |- _ => apply zoom_done in Hr as (? & ? & ->)
  end.

(** Builds a successful run from the settings in the context. *)
Ltac build_fill :=
  repeat match goal with
  | |- (_ ≫= _) _ = (inr _, _) => apply bind_done; do 2 eexists; split
  | |- load_member _ _ _ _ _ _ = (inr _, _) =>
      apply (load_member_done _ _ _ _ _ _ tt); eexists; split; [cbn; eassumption | try reflexivity]
  | |- load_local _ _ _ _ _ = (inr _, _) => apply load_local_done; split; [cbn; eassumption | try reflexivity]
  | |- require _ _ _ = (inr _, _) => apply (require_done _ _ _ tt); split; [| try reflexivity]
  | |- reads _ _ = (inr _, _) => apply reads_done; split; try reflexivity
  | |- assign _ _ _ = (inr _, _) => apply (assign_done _ _ _ tt); try reflexivity
  | |- yaml _ _ = (inr _, _) => apply yaml_done; split; [eassumption | try reflexivity]
  | |- zoom _ _ _ _ = (inr _, _) => apply zoom_done; eexists; split
  | |- mret _ _ = (inr _, _) => reflexivity
  | |- match Some _ with Some _ => _ | None => _ end _ = _ => cbn match
  | |- match None with Some _ => _ | None => _ end _ = _ => cbn match
  end; try reflexivity.

Section section_facts.
Context `{Yaml Node}.
Implicit Types (n : Node).

Lemma load_port_done {S} n (member : S → Z) set message default (s : S) u s' :
  member s = default →
  load_port n member set message s = (inr u, s')
  ↔ ∃ port, port_settings n default port ∧ s' = set port s.
Proof.
  intros Hm. destruct u. unfold load_port, port_settings. split.
  - intros Hl. run_fill. rewrite Hm in *. eexists. split; [split; [eassumption | lia] |].
    f_equal. apply u16_small. unfold is_u16. lia.
  - intros (port & [Hp Hr] & ->). rewrite <-Hm in Hp. build_fill; [lia |].
    by rewrite u16_small by (unfold is_u16; lia).
Qed.

Lemma load_tcp_done n u c : load_tcp n default_tcp = (inr u, c) ↔ tcp_settings n c.
Proof.
  destruct u. unfold load_tcp, tcp_settings. split.
  - intros Hl. run_fill. match goal with Hp : load_port _ _ _ _ _ = _ |- _ =>
      apply (load_port_done _ _ _ _ 9000) in Hp as (? & ? & ->); [| done] end.
    cbn. by split_and!.
  - intros (He & Hh & Hp). build_fill. apply (load_port_done _ _ _ _ 9000); [done |].
    eexists; split; [exact Hp |]. by destruct c.
Qed.

Lemma load_http_done n u c : load_http n default_http = (inr u, c) ↔ http_settings n c.
Proof.
  destruct u. unfold load_http, http_settings. split.
  - intros Hl. run_fill. match goal with Hp : load_port _ _ _ _ _ = _ |- _ =>
      apply (load_port_done _ _ _ _ 8080) in Hp as (? & ? & ->); [| done] end.
    cbn. split_and!; try done. by apply negb_false_iff.
  - intros (Hm & He & Hh & Hp). build_fill; [by rewrite Hm |].
    apply (load_port_done _ _ _ _ 8080); [done |].
    eexists; split; [exact Hp |]. by destruct c.
Qed.

Lemma load_serial_done n u c : load_serial n default_serial = (inr u, c) ↔ serial_settings n c.
Proof.
  destruct u. unfold load_serial, serial_settings, device_settings. split.
  - intros Hl. run_fill. match goal with o : option Node |- _ => destruct o end; run_fill.
    + cbn. split_and!; [| done | done]. left. eexists. split_and!; try done. by apply negb_false_iff.
    + match goal with o : option Node |- _ => destruct o end; run_fill.
      * cbn. split_and!; [| done | done]. right. split; [done |]. left.
        do 2 eexists. split_and!; [eassumption .. | done].
      * unfold mret, fill_ret in *. simplify_eq.
        cbn. split_and!; [| done | done]. right. split; [done |]. by right.
  - intros ([(d & Hd & Hq & Hs) | [Hd [(d & path & Hp & Hs & He) | [Hp He]]]] & Hb & Hi).
    + build_fill; [by rewrite Hq |]. by destruct c.
    + build_fill. destruct c. cbn in He. by subst.
    + build_fill. destruct c. cbn in He. by subst.
Qed.

Lemma load_can_done n u c : load_can n default_can = (inr u, c) ↔ can_settings n c.
Proof.
  destruct u. unfold load_can, can_settings. split.
  - intros Hl. run_fill. cbn. by split_and!.
  - intros (He & Hi & Hh). build_fill. by destruct c.
Qed.

Lemma load_cache_done n u c : load_cache n default_cache = (inr u, c) ↔ cache_settings n c.
Proof.
  destruct u. unfold load_cache, cache_settings. split.
  - intros Hl. run_fill. cbn. split; [by eexists | done].
  - intros ((type & Ht & Hl) & Hp). build_fill. destruct c. cbn in *. by subst.
Qed.

Lemma load_log_done n u c : load_log n default_log = (inr u, c) ↔ log_settings n c.
Proof.
  destruct u. unfold load_log, log_settings. split.
  - intros Hl. run_fill. cbn. split; [done | by eexists].
  - intros (Hp & level & Ht & Hl). build_fill. destruct c. cbn in *. by subst.
Qed.

Lemma load_tls_done n u c : load_tls n default_mqtt_tls = (inr u, c) ↔ tls_settings n c.
Proof.
  destruct u. unfold load_tls, tls_settings. split.
  - intros Hl. run_fill. cbn. by split_and!.
  - intros (? & ? & ? & ? & ?). build_fill. by destruct c.
Qed.

Lemma load_modbus_done n u c : load_modbus n default_modbus = (inr u, c) ↔ modbus_settings n c.
Proof.
  destruct u. unfold load_modbus, modbus_settings. split.
  - intros Hl. run_fill. cbn.
    rewrite !u8_small, !u16_small by (unfold is_u8, is_u16; lia).
    split_and!; try done; try lia. by eexists.
  - intros (? & ? & (rate & ? & ?) & ? & ? & ? & ? & ? & ? & ? & ? & ? & ?).
    build_fill; try lia. rewrite !u8_small, !u16_small by (unfold is_u8, is_u16; lia).
    by destruct c.
Qed.

(** A section loaded into a member that still has its default. *)
Lemma member_section_done {S T} root name (member : T → S) (set : S → T → T)
    (load : Node → fill S ()) (P : Node → S → Prop) default t u t' :
  member t = default → set default t = t →
  (∀ n u s, load n default = (inr u, s) ↔ P n s) →
  section root name (λ n, zoom member set (load n)) t = (inr u, t')
  ↔ ∃ s, in_section root name P default s ∧ t' = set s t.
Proof.
  intros Hm Hs HP. rewrite section_done. unfold in_section. split.
  - intros [[Hg ->] | (n & Hg & (s & Hl & ->)%zoom_done)].
    + exists default. split; [by left | done].
    + exists s. split; [| done]. right. exists n. split; [done |].
      rewrite Hm in Hl. by apply HP in Hl.
  - intros (s & [[Hg ->] | (n & Hg & Hp)] & ->); [left; by rewrite Hs | right].
    exists n. split; [done |]. apply zoom_done. exists s. split; [| done]. rewrite Hm. by apply HP.
Qed.

Ltac take_section name P default lem :=
  match goal with Hp : section _ name _ _ = _ |- _ =>
    apply (member_section_done _ _ _ _ _ P default) in Hp as (? & ? & ->);
    [| reflexivity | reflexivity | apply lem] end.

Lemma load_mqtt_done n u c : load_mqtt n default_mqtt = (inr u, c) ↔ mqtt_settings n c.
Proof.
  destruct u. unfold load_mqtt, mqtt_settings. split.
  - intros Hl. run_fill.
    match goal with Hp : load_port _ _ _ _ _ = _ |- _ =>
      apply (load_port_done _ _ _ _ 1883) in Hp as (? & ? & ->); [| done] end.
    take_section "tls" tls_settings default_mqtt_tls load_tls_done.
    cbn. by split_and!.
  - intros (? & Hp & ? & ? & ? & ? & Ht). build_fill.
    { apply (load_port_done _ _ _ _ 1883 _ tt); [done |]. by eexists. }
    all: build_fill.
    apply (member_section_done _ _ _ _ _ tls_settings default_mqtt_tls); [done | done | |].
    { apply load_tls_done. }
    eexists. split; [exact Ht |]. by destruct c.
Qed.

(** The sections, loaded one after the other into the defaults. *)
Lemma load_sections_done root u c :
  load_sections root default_gateway = (inr u, c) ↔ gateway_settings root c.
Proof.
  destruct u. unfold load_sections, gateway_settings.
  split.
  - intros Hl. run_fill.
    take_section "serial" serial_settings default_serial load_serial_done.
    take_section "modbus" modbus_settings default_modbus load_modbus_done.
    take_section "can" can_settings default_can load_can_done.
    take_section "mqtt" mqtt_settings default_mqtt load_mqtt_done.
    take_section "tcp" tcp_settings default_tcp load_tcp_done.
    take_section "http" http_settings default_http load_http_done.
    take_section "cache" cache_settings default_cache load_cache_done.
    take_section "log" log_settings default_log load_log_done.
    cbn. by split_and!.
  - intros (H1 & H2 & H3 & H4 & H5 & H6 & H7 & H8).
    assert (∀ {S} name (member : GatewayConfig → S) set load (P : Node → S → Prop) default t s,
      in_section root name P default s → member t = default → set default t = t →
      (∀ n u s, load n default = (inr u, s) ↔ P n s) →
      section root name (λ n, zoom member set (load n)) t = (inr tt, set s t)) as Hsec.
    { intros. eapply member_section_done; [eassumption .. |]. by eexists. }
    replace c with (set_gc_log (gc_log c) (set_gc_cache (gc_cache c) (set_gc_http (gc_http c)
      (set_gc_tcp (gc_tcp c) (set_gc_mqtt (gc_mqtt c) (set_gc_can (gc_can c) (set_gc_modbus
      (gc_modbus c) (set_gc_serial (gc_serial c) default_gateway)))))))) by by destruct c.
    repeat (apply bind_done; exists tt; eexists; split).
    all: eapply Hsec; [eassumption | reflexivity | reflexivity |].
    + apply load_serial_done.
    + apply load_modbus_done.
    + apply load_can_done.
    + apply load_mqtt_done.
    + apply load_tcp_done.
    + apply load_http_done.
    + apply load_cache_done.
    + apply load_log_done.
Qed.
End section_facts.

Section validate_facts.
Context (inet_pton : string → bool).

Lemma check_devices_none seen devices :
  check_devices seen devices = None ↔
  NoDup devices ∧ "" ∉ devices ∧ ∀ d, d ∈ devices → d ∉ seen.
Proof.
  revert seen. induction devices as [| d devices IH]; intros seen; cbn [check_devices].
  - split; [intros _ | done]. split_and!; [apply NoDup_nil_2 | set_solver | set_solver].
  - unfold is_empty. rewrite NoDup_cons. case_bool_decide; [set_solver |].
    case_bool_decide; [set_solver |]. rewrite IH. set_solver.
Qed.

Lemma first_error_none checks :
  first_error checks = None ↔ foldr (λ (k : bool * string) P, fst k = false ∧ P) True checks.
Proof.
  induction checks as [| [[] message] checks IH]; cbn [first_error foldr fst]; [done | | tauto].
  by split; [| intros []].
Qed.

Lemma first_error_message checks e :
  Forall (λ k : bool * string, snd k ≠ "") checks → first_error checks = Some e → e ≠ "".
Proof.
  induction 1 as [| [[] message] checks Hm _ IH]; cbn; [done | by intros [= <-] | done].
Qed.

Lemma supported_rate b : is_supported_baud_rate b = true ↔ to_speed b ≠ 0.
Proof.
  unfold is_supported_baud_rate, to_speed.
  repeat match goal with |- context [b =? ?k] => destruct (b =? k) end; by split.
Qed.

Lemma unless (b : bool) (P : Prop) : b = false ∨ P ↔ (b = true → P).
Proof. destruct b; naive_solver. Qed.

Lemma both_or_none (P Q : Prop) `{Decision P, Decision Q} :
  negb (bool_decide P) = negb (bool_decide Q) ↔ (P ↔ Q).
Proof. repeat case_bool_decide; naive_solver. Qed.

Lemma password_rule (username password : string) :
  username ≠ "" ∨ password = "" ↔ (password ≠ "" → username ≠ "").
Proof. destruct (decide (password = "")); tauto. Qed.

Lemma insecure_rule (enabled insecure : bool) :
  enabled = true ∨ insecure = false ↔ (insecure = true → enabled = true).
Proof. destruct enabled, insecure; naive_solver. Qed.

Lemma log_level_rule level :
  is_valid_log_level level = true ↔ level ∈ ["DEBUG"; "INFO"; "WARN"; "ERROR"].
Proof.
  unfold is_valid_log_level. rewrite !orb_true_iff, !bool_decide_eq_true, !elem_of_cons, elem_of_nil.
  tauto.
Qed.

Lemma http_host_rule host :
  is_valid_http_host inet_pton host = true ↔ host = "localhost" ∨ inet_pton host = true.
Proof. unfold is_valid_http_host. case_bool_decide; naive_solver. Qed.

Lemma validate_usable c : validate inet_pton c = None ↔ usable inet_pton c.
Proof.
  unfold validate.
  assert (check_devices ∅ (sc_devices (gc_serial c)) = None
          ↔ NoDup (sc_devices (gc_serial c)) ∧ "" ∉ sc_devices (gc_serial c)) as Hd.
  { rewrite check_devices_none. set_solver. }
  destruct (check_devices ∅ (sc_devices (gc_serial c))) as [e |].
  { split; [done |]. intros Hu. by apply us_devices, Hd in Hu. }
  rewrite first_error_none. unfold checks, input_checks, mqtt_checks, service_checks, is_empty. cbn [app foldr fst].
  destruct Hd as [Hd _]. specialize (Hd eq_refl).
  rewrite ?andb_false_iff, ?orb_false_iff, ?negb_false_iff, ?eqb_true_iff, ?orb_true_iff,
    ?andb_false_iff, ?negb_false_iff, ?bool_decide_eq_true, ?bool_decide_eq_false,
    ?Z.ltb_ge, ?supported_rate, ?unless, both_or_none, password_rule, insecure_rule, log_level_rule,
    http_host_rule.
  split.
  - intros (? & ? & ? & ? & ? & ? & ? & ? & ? & ? & ? & Hp & ? & ? & Hi & ? & ? & ? & ? & ? & ? & ? & _).
    by split; tauto.
  - intros []. tauto.
Qed.
End validate_facts.

(** *** Failures have a message *)

Definition explains {S A} (m : fill S A) : Prop := ∀ s e s', m s = (inl e, s') → e ≠ "".

Create HintDb explained.

Section explains_facts.
Context `{Yaml Node} {S T : Type}.

Lemma explains_ret {A} (a : A) : explains (S:=S) (mret a).
Proof. by intros s e s'. Qed.
Lemma explains_bind {A B} (m : fill S A) (f : A → fill S B) :
  explains m → (∀ a, explains (f a)) → explains (m ≫= f).
Proof.
  intros Hm Hf s e s' He. unfold mbind, fill_bind in He.
  destruct (m s) as [[e1 | a] s1] eqn:Hr; [injection He as <- <-; by eapply Hm | by eapply Hf].
Qed.
Lemma explains_require bad message : message ≠ "" → explains (S:=S) (require bad message).
Proof. intros Hm s e s'. destruct bad; by intros [= <- _]. Qed.
Lemma explains_reads {A} (f : S → A) : explains (reads f).
Proof. by intros s e s'. Qed.
Lemma explains_assign {A} (set : A → S → S) a : explains (assign set a).
Proof. by intros s e s'. Qed.
Lemma explains_yaml {A} (r : string + A) : explains (S:=S) (yaml r).
Proof. intros s e s'. destruct r; by intros [= <- _]. Qed.
Lemma explains_zoom {A} (member : T → S) set (m : fill S A) :
  explains m → explains (zoom member set m).
Proof.
  intros Hm t e t' He. unfold zoom in He. destruct (m (member t)) as [r s'] eqn:Hr.
  injection He as -> _. by eapply Hm.
Qed.
End explains_facts.

#[export] Hint Resolve explains_ret explains_bind explains_require explains_reads explains_assign
  explains_yaml explains_zoom : explained.
#[export] Hint Extern 1 (_ ≠ _) => discriminate : explained.

(** Follows the structure of the code. *)
Ltac explain :=
  repeat first
    [ progress intros
    | match goal with
      | |- explains (match ?o with _ => _ end) => destruct o
      | |- explains (_ ≫= _) => apply explains_bind
      | |- explains (zoom _ _ _) => apply explains_zoom
      end
    | solve [auto with explained] ].

Lemma explains_load_sections `{Yaml Node} (root : Node) : explains (load_sections root).
Proof.
  unfold load_sections, section, load_serial, load_modbus, load_can, load_mqtt, load_tcp, load_http,
    load_cache, load_log, load_port, section, load_tls, load_member, load_local.
  explain.
Qed.

Lemma explains_validate inet_pton c e : validate inet_pton c = Some e → e ≠ "".
Proof.
  unfold validate. destruct (check_devices _ _) as [e' |] eqn:Hd.
  - intros [= <-]. revert Hd. generalize (∅ : gset string).
    induction (sc_devices (gc_serial c)) as [| d ds IH]; intros seen; cbn [check_devices]; [done |].
    destruct (is_empty d); [by intros [= <-] |].
    case_bool_decide; [by intros [= <-] | by eauto].
  - apply first_error_message. unfold checks, input_checks, mqtt_checks, service_checks. by repeat apply Forall_cons_2.
Qed.

(** ** Properties *)

Lemma load_checked_done `{Yaml Node} inet_pton file u c :
  load_checked inet_pton file default_gateway = (inr u, c) ↔
  ∃ root, load_file file = inr root ∧ is_map root = true ∧
    gateway_settings root c ∧ usable inet_pton c.
Proof.
  destruct u. unfold load_checked. split.
  - intros Hf. apply bind_done in Hf as (root & s1 & [Hl ->]%yaml_done & Hf).
    apply bind_done in Hf as ([] & s2 & [Hmap%negb_false_iff ->]%require_done & Hf).
    apply bind_done in Hf as ([] & s3 & Hs%load_sections_done & Hf).
    apply bind_done in Hf as (c2 & s4 & [-> ->]%reads_done & Hf). cbn [id] in Hf.
    destruct (validate inet_pton s3) eqn:Hv; [discriminate Hf |]. injection Hf as <-.
    exists root. by rewrite <-validate_usable.
  - intros (root & Hl & Hmap & Hs & Hv%validate_usable).
    apply bind_done. exists root, default_gateway. split; [by apply yaml_done |].
    apply bind_done. exists tt, default_gateway. split; [apply require_done; by rewrite Hmap |].
    apply bind_done. exists tt, c. split; [by apply load_sections_done |].
    apply bind_done. exists c, c. split; [done |]. by rewrite Hv.
Qed.

Lemma explains_load_checked `{Yaml Node} inet_pton file : explains (load_checked inet_pton file).
Proof.
  unfold load_checked. apply explains_bind; [apply explains_yaml | intros root].
  apply explains_bind; [by apply explains_require | intros _].
  apply explains_bind; [apply explains_load_sections | intros _].
  apply explains_bind; [apply explains_reads | intros c1].
  destruct (validate inet_pton c1) as [message |] eqn:Hv; [| apply explains_ret].
  intros s e s'. unfold fail_with. intros [= <- _]. by eapply explains_validate.
Qed.

(** C10: What a configuration file means. Loading succeeds exactly when the file can
    be read, its root is a map, every setting that is present has the right type and,
    where it is stored in fewer bits, fits its range, and the resulting settings are
    usable; and the settings it yields are then, member by member, those of the file
    with the documented defaults for what the file leaves out. In particular the
    conversions to 8 and 16 bits lose nothing, the accepted rates are those the serial
    port knows, credentials without a user name, TLS without a certificate authority
    and half a client certificate are refused. There is an error message exactly when
    loading fails, exceptions of the YAML library included. *)
Theorem load_gateway_config_spec `{Yaml Node} inet_pton file :
  let '(ok, c, err) := load_gateway_config inet_pton file default_gateway in
  (ok = true ↔ err = "") ∧
  ∀ c', (ok = true ∧ c = c') ↔
    ∃ root, load_file file = inr root ∧ is_map root = true ∧
      gateway_settings root c' ∧ usable inet_pton c'.
Proof.
  unfold load_gateway_config.
  pose proof (load_checked_done inet_pton file tt) as Hd.
  destruct (load_checked inet_pton file default_gateway) as [[message | []] c] eqn:Hl.
  - apply explains_load_checked in Hl. split; [by split |]. intros c'.
    split; [by intros [? _] |]. by intros Hc%Hd.
  - split; [by split |]. intros c'. rewrite <-Hd. split; [by intros [_ ->] | by intros [= ->]].
Qed.

(** A YAML library for plain documents. *)
Inductive document : Type :=
  | DocInt (z : Z)
  | DocBool (b : bool)
  | DocText (s : string)
  | DocList (l : list string)
  | DocMap (members : list (string * document)).

Fixpoint doc_member (key : string) (members : list (string * document)) : option document :=
  match members with
  | [] => None
  | (k, d) :: rest => if bool_decide (k = key) then Some d else doc_member key rest
  end.

Definition document_yaml (files : string → option document) : Yaml document := {|
  load_file path := match files path with Some d => inr d | None => inl "bad file" end;
  is_map d := match d with DocMap _ => true | _ => false end;
  is_sequence d := match d with DocList _ => true | _ => false end;
  get d key :=
    match d with DocMap l => inr (doc_member key l) | DocList _ => inr None
    | _ => inl "operator[] call on a scalar" end;
  as_int d := match d with DocInt z => inr z | _ => inl "bad conversion" end;
  as_bool d := match d with DocBool b => inr b | _ => inl "bad conversion" end;
  as_string d := match d with DocText s => inr s | _ => inl "bad conversion" end;
  as_strings d := match d with DocList l => inr l | _ => inl "bad conversion" end;
|}.

Lemma load_gateway_config_spec_witness :
  let file := DocMap [("modbus", DocMap [("enabled", DocBool true); ("slave_id", DocInt 17)]);
                      ("log", DocMap [("level", DocText "warn")])] in
  let yaml := document_yaml (λ path, if bool_decide (path = "gateway.yaml") then Some file else None) in
  (∃ c, gateway_settings file c ∧ mc_slave_id (gc_modbus c) = 17 ∧ lc_level (gc_log c) = "WARN") ∧
  ¬ ∃ root c, load_file "other.yaml" = inr root ∧ gateway_settings root c.
Proof.
  intros file yaml. split.
  - pose proof (load_gateway_config_spec (H:=yaml) (λ _, false) "gateway.yaml") as [_ Hs].
    specialize (Hs (snd (fst (load_gateway_config (λ _, false) "gateway.yaml" default_gateway)))).
    destruct (proj1 Hs (conj eq_refl eq_refl)) as (root & Hl & _ & Hg & _). injection Hl as <-.
    exact (ex_intro _ _ (conj Hg (conj eq_refl eq_refl))).
  - intros (root & c & Hl & _). discriminate Hl.
Defined.
