(* ===== verification/RuntimeStatus.v ===== *)
(** * Runtime status ([src/app/runtime_status.cpp])

    What the health and readiness endpoints report. The members are atomic and are
    written by the main thread while the HTTP thread reads them, so a reader sees
    each of its loads at a moment of its own: [seen i] is the status at the [i]-th
    load of the reader. *)

From S2P Require Import Prelude Text.

Local Open Scope Z_scope.

(** ** The code *)

Record DeviceHealthStatus : Type := mk_health {
  hs_device_id : Z;
  hs_protocol : string;
  hs_online : bool;
  hs_last_update_unix_seconds : Z;
  hs_error_count : Z;
}.

Record RuntimeStatus : Type := mk_status {
  rs_version : string;
  rs_cache_backend : string;
  rs_mqtt_enabled : bool;
  rs_tcp_enabled : bool;
  rs_config_loaded : bool;
  rs_cache_ready : bool;
  rs_serial_workers_started : bool;
  rs_serial_worker_count : Z;
  rs_input_device_count : Z;
  rs_device_online_count : Z;
  rs_device_offline_count : Z;
  rs_device_statuses : list DeviceHealthStatus;
}.

Definition new_status (version cache_backend : string) (mqtt_enabled tcp_enabled : bool)
    : RuntimeStatus :=
  mk_status version cache_backend mqtt_enabled tcp_enabled false false false 0 0 0 0 [].

(** One atomic store, or one assignment under the mutex, of the main thread. *)
Inductive status_store : Type :=
  | StoreConfigLoaded (loaded : bool)
  | StoreCacheReady (ready : bool)
  | StoreWorkerCount (count : Z)
  | StoreWorkersStarted (started : bool)
  | StoreOnline (count : Z)
  | StoreOffline (count : Z)
  | StoreInputs (count : Z)
  | StoreStatuses (statuses : list DeviceHealthStatus).

Definition apply_store (a : status_store) (s : RuntimeStatus) : RuntimeStatus :=
  let '(mk_status v cb me te cl cr ws wc ic on off ds) := s in
  match a with
  | StoreConfigLoaded x => mk_status v cb me te x cr ws wc ic on off ds
  | StoreCacheReady x => mk_status v cb me te cl x ws wc ic on off ds
  | StoreWorkersStarted x => mk_status v cb me te cl cr x wc ic on off ds
  | StoreWorkerCount x => mk_status v cb me te cl cr ws (u64 x) ic on off ds
  | StoreInputs x => mk_status v cb me te cl cr ws wc (u64 x) on off ds
  | StoreOnline x => mk_status v cb me te cl cr ws wc ic (u64 x) off ds
  | StoreOffline x => mk_status v cb me te cl cr ws wc ic on (u64 x) ds
  | StoreStatuses x => mk_status v cb me te cl cr ws wc ic on off x
  end.

(** The setters, as the stores they make in their order. *)
Definition set_config_loaded (loaded : bool) : list status_store := [StoreConfigLoaded loaded].
Definition set_cache_ready (ready : bool) : list status_store := [StoreCacheReady ready].
Definition set_serial_workers_started (started : bool) (worker_count : Z) : list status_store :=
  [StoreWorkerCount worker_count; StoreWorkersStarted started].
Definition set_device_counts (online offline : Z) : list status_store :=
  [StoreOnline online; StoreOffline offline; StoreInputs (online + offline)].
Definition set_device_statuses (statuses : list DeviceHealthStatus) : list status_store :=
  [StoreStatuses statuses].

Definition apply_stores (l : list status_store) (s : RuntimeStatus) : RuntimeStatus :=
  foldl (λ s a, apply_store a s) s l.

(** The result, and how many loads were made. *)
Definition ready (seen : nat → RuntimeStatus) : bool * nat :=
  if negb (rs_config_loaded (seen 0%nat)) then (false, 1%nat)
  else if negb (rs_cache_ready (seen 1%nat)) then (false, 2%nat)
  else (rs_serial_workers_started (seen 2%nat), 3%nat).

(** The loads from the [n]-th on. *)
Definition from (n : nat) (seen : nat → RuntimeStatus) (i : nat) : RuntimeStatus := seen (n + i)%nat.

Definition device_json (device : DeviceHealthStatus) : string :=
  "{" +:+ jkey "device_id" +:+ dec (hs_device_id device) +:+ ","
  +:+ jkey "protocol" +:+ quoted (hs_protocol device) +:+ ","
  +:+ jkey "online" +:+ bool_text (hs_online device) +:+ ","
  +:+ jkey "last_update" +:+ dec (hs_last_update_unix_seconds device) +:+ ","
  +:+ jkey "error_count" +:+ dec (hs_error_count device) +:+ "}".

(** The loop over the devices, from position [index]. *)
Fixpoint devices_loop (index : nat) (devices : list DeviceHealthStatus) : string :=
  match devices with
  | [] => ""
  | device :: rest =>
      (if (index =? 0)%nat then "" else ",") +:+ device_json device +:+ devices_loop (S index) rest
  end.

Definition health_json (seen : nat → RuntimeStatus) (uptime : Z) : string :=
  let device_statuses := rs_device_statuses (seen 0%nat) in
  let self := seen 0%nat in
  "{" +:+ jkey "status" +:+ quoted "ok" +:+ ","
  +:+ jkey "version" +:+ quoted (rs_version self) +:+ ","
  +:+ jkey "uptime_seconds" +:+ dec uptime +:+ ","
  +:+ jkey "serial_workers" +:+ dec (rs_serial_worker_count (seen 1%nat)) +:+ ","
  +:+ jkey "input_devices_total" +:+ dec (rs_input_device_count (seen 2%nat)) +:+ ","
  +:+ jkey "device_online" +:+ dec (rs_device_online_count (seen 3%nat)) +:+ ","
  +:+ jkey "device_offline" +:+ dec (rs_device_offline_count (seen 4%nat)) +:+ ","
  +:+ jkey "mqtt_enabled" +:+ bool_text (rs_mqtt_enabled self) +:+ ","
  +:+ jkey "tcp_enabled" +:+ bool_text (rs_tcp_enabled self) +:+ ","
  +:+ jkey "cache_backend" +:+ quoted (rs_cache_backend self) +:+ ","
  +:+ jkey "devices" +:+ "[" +:+ devices_loop 0 device_statuses +:+ "]}".

(** The text, and the [is_ready] it reports. *)
Definition readiness_json (seen : nat → RuntimeStatus) : string * bool :=
  let self := seen 0%nat in
  let config_loaded := rs_config_loaded (seen 0%nat) in
  let cache_ready := rs_cache_ready (seen 1%nat) in
  let workers_started := rs_serial_workers_started (seen 2%nat) in
  let '(is_ready, loads) := ready (from 3 seen) in
  let rest := from (3 + loads) seen in
  ("{" +:+ jkey "ready" +:+ bool_text is_ready +:+ ","
   +:+ jkey "checks" +:+ "{" +:+ jkey "config_loaded" +:+ bool_text config_loaded +:+ ","
   +:+ jkey "cache_ready" +:+ bool_text cache_ready +:+ ","
   +:+ jkey "serial_workers_started" +:+ bool_text workers_started +:+ "},"
   +:+ jkey "serial_worker_count" +:+ dec (rs_serial_worker_count (rest 0%nat)) +:+ ","
   +:+ jkey "input_devices_total" +:+ dec (rs_input_device_count (rest 1%nat)) +:+ ","
   +:+ jkey "mqtt_enabled" +:+ bool_text (rs_mqtt_enabled self) +:+ ","
   +:+ jkey "tcp_enabled" +:+ bool_text (rs_tcp_enabled self) +:+ ","
   +:+ jkey "cache_backend" +:+ quoted (rs_cache_backend self) +:+ "}", is_ready).

(** How many loads it makes. *)
Definition readiness_loads (seen : nat → RuntimeStatus) : nat := (3 + snd (ready (from 3 seen)) + 2)%nat.

(** ** Facts *)

Definition is_ready (s : RuntimeStatus) : bool :=
  rs_config_loaded s && rs_cache_ready s && rs_serial_workers_started s.

Lemma ready_constant s : fst (ready (λ _, s)) = is_ready s.
Proof. unfold ready, is_ready. by destruct (rs_config_loaded s), (rs_cache_ready s). Qed.

Lemma ready_true seen : fst (ready seen) = true ↔
  rs_config_loaded (seen 0%nat) = true ∧ rs_cache_ready (seen 1%nat) = true ∧
  rs_serial_workers_started (seen 2%nat) = true.
Proof.
  unfold ready. destruct (rs_config_loaded (seen 0%nat)), (rs_cache_ready (seen 1%nat)); cbn; naive_solver.
Qed.

Lemma ready_loads seen : fst (ready seen) = true → snd (ready seen) = 3%nat.
Proof.
  unfold ready. by destruct (rs_config_loaded (seen 0%nat)), (rs_cache_ready (seen 1%nat)).
Qed.

(** Between two loads the flags are only raised. *)
Definition flags_rise (seen : nat → RuntimeStatus) : Prop :=
  ∀ i j, (i <= j)%nat →
    (rs_config_loaded (seen i) = true → rs_config_loaded (seen j) = true) ∧
    (rs_cache_ready (seen i) = true → rs_cache_ready (seen j) = true) ∧
    (rs_serial_workers_started (seen i) = true → rs_serial_workers_started (seen j) = true).

Lemma readiness_reports seen : snd (readiness_json seen) = fst (ready (from 3 seen)).
Proof. unfold readiness_json. by destruct (ready (from 3 seen)). Qed.

(** A reader that found the gateway ready finds it ready again later. *)
Lemma ready_again seen m n :
  flags_rise seen → (m + 3 <= n)%nat →
  fst (ready (from m seen)) = true → fst (ready (from n seen)) = true.
Proof.
  intros Hr Hle (H1 & H2 & H3)%ready_true. apply ready_true. unfold from in *.
  rewrite Nat.add_0_r in *. split_and!.
  - apply (Hr m n); [lia | done].
  - apply (Hr (m + 1)%nat (n + 1)%nat); [lia | done].
  - apply (Hr (m + 2)%nat (n + 2)%nat); [lia | done].
Qed.
