(* ===== verification/HttpServer.v ===== *)
(** * The HTTP server ([src/http/http_server.cpp])

    One listening socket, one thread that accepts a connection, reads one request,
    answers it and closes the connection. The answers of the system to each call are
    inputs; the calls of the logger are the last component of the results. *)

From stdpp Require Import gmap.
From S2P Require Import Prelude Text Posix Logger RuntimeMetrics RuntimeStatus.

Local Open Scope Z_scope.

(** ** The code *)

Definition crlf : string := cr +:+ nl.

Definition reason_phrase (status_code : Z) : string :=
  if status_code =? 200 then "OK"
  else if status_code =? 404 then "Not Found"
  else if status_code =? 503 then "Service Unavailable"
  else "Internal Server Error".

Definition build_response (status_code : Z) (content_type body : string) : string :=
  "HTTP/1.1 " +:+ dec status_code +:+ " " +:+ reason_phrase status_code +:+ crlf
  +:+ "Content-Type: " +:+ content_type +:+ crlf
  +:+ "Content-Length: " +:+ dec (Z.of_nat (String.length body)) +:+ crlf
  +:+ "Connection: close" +:+ crlf
  +:+ "Cache-Control: no-store" +:+ crlf +:+ crlf
  +:+ body.

(** The text before and after the first CR LF, if there is one. *)
Fixpoint cut_crlf (s : string) : option (string * string) :=
  match s with
  | String c (String d r as rest) =>
      if Ascii.eqb c cr_char && Ascii.eqb d nl_char then Some ("", r)
      else p ← cut_crlf rest; Some (String c (fst p), snd p)
  | _ => None
  end.

Definition request_line (request : string) : string :=
  match cut_crlf request with Some (line, _) => line | None => request end.

(** What follows the prefix [p], when [rfind(p, 0) == 0]. *)
Fixpoint strip_prefix (p s : string) : option string :=
  match p, s with
  | EmptyString, _ => Some s
  | String c p, String d s => if Ascii.eqb c d then strip_prefix p s else None
  | String _ _, EmptyString => None
  end.

(** Empty when the request is not understood. *)
Definition request_path (request : string) : string :=
  match strip_prefix "GET " (request_line request) with
  | Some rest => match cut " "%char rest with Some (path, _) => path | None => "" end
  | None => ""
  end.

(** The status code and the body of the answer to [/ready] are two arguments of one
    call, and which is evaluated first is up to the compiler: the readiness the code
    reports, and the body with the readiness it reports. *)
Definition ready_answer (status_first : bool) (seen : nat → RuntimeStatus) : bool * (string * bool) :=
  if status_first then
    let '(is_ready, loads) := ready seen in (is_ready, readiness_json (from loads seen))
  else (fst (ready (from (readiness_loads seen) seen)), readiness_json seen).

(** [seen]: the status at each load of the HTTP thread. *)
Definition respond (status_first : bool) (seen : nat → RuntimeStatus) (metrics : RuntimeMetrics) (now : Z)
    (path : string) : string :=
  if bool_decide (path = "/health")
  then build_response 200 "application/json" (health_json seen (uptime_seconds metrics now))
  else if bool_decide (path = "/ready")
  then let '(is_ready, body) := ready_answer status_first seen in
       build_response (if is_ready then 200 else 503) "application/json" (fst body)
  else if bool_decide (path = "/metrics")
  then build_response 200 "text/plain; version=0.0.4; charset=utf-8"
         (render_prometheus metrics now)
  else build_response 404 "application/json" ("{" +:+ jkey "status" +:+ quoted "not_found" +:+ "}").

Definition http_retries (e : errno) : bool := match e with EINTR => true | _ => false end.

Definition http_send_all (response : string) (script : list write_result)
    : exec (bool * list Z) := send_from http_retries (bytes_of response) 0 [] script.

(** One turn of the waiting loop: what [running_.load()] gives, and the result of
    [poll] with its timeout of 250 ms, used when it was [true]. *)
Inductive client_poll : Type := InputReady | NoInput | PollInterrupted | PollFailed.

Inductive wait_end : Type := WaitReady | WaitStopped | WaitFailed.

Fixpoint wait_client (script : list (bool * client_poll)) : exec wait_end :=
  match script with
  | [] => OutOfFuel
  | (false, _) :: _ => Ret WaitStopped
  | (true, InputReady) :: _ => Ret WaitReady
  | (true, PollFailed) :: _ => Ret WaitFailed
  | (true, NoInput) :: rest | (true, PollInterrupted) :: rest => wait_client rest
  end.

Definition request_buffer_size : nat := 4096.

(** How the system and the other threads act during one connection. *)
Record client_env : Type := mk_client_env {
  ce_polls : list (bool * client_poll);
  ce_running : bool;                   (** the second [running_.load()] *)
  ce_received : option string;         (** what [recv] has for the buffer; [None]: [<= 0] *)
  ce_status_first : bool;
  ce_status : nat → RuntimeStatus;
  ce_metrics : RuntimeMetrics;
  ce_now : Z;
  ce_sends : list write_result;
}.

Definition http_log (at_ : Level) (message : string) : log_call := mk_log_call at_ "http" message.

Definition log_path (path : string) : log_call :=
  http_log Debug_ ("request path=" +:+ (if bool_decide (path = "") then "<invalid>" else path)).

(** What is sent on the connection. *)
Definition handle_client (env : client_env) : exec (list Z * list log_call) :=
  w ← wait_client (ce_polls env);
  match w with
  | WaitFailed => Ret ([], [])
  | WaitStopped | WaitReady =>
      if negb (ce_running env) then Ret ([], [])
      else match ce_received env with
           | None | Some EmptyString => Ret ([], [])
           | Some data =>
               let request := String.substring 0 (request_buffer_size - 1) data in
               let path := request_path request in
               let calls := [log_path path] in
               let response := respond (ce_status_first env) (ce_status env) (ce_metrics env)
                                 (ce_now env) path in
               '(ok, line) ← http_send_all response (ce_sends env);
               Ret (line, if negb ok then calls ++ [http_log Debug_ "response send failed"] else calls)
           end
  end.

(** A turn of the accept loop: [running_.load()] at its head, and [accept]. *)
Inductive accept_result : Type :=
  | Accepted (fd : Z) (client : client_env)
  | AcceptEintr
  | AcceptClosed                       (** [EBADF] or [EINVAL] *)
  | AcceptError (running : bool) (error : string).
      (** another error with its text, and [running_.load()] after it *)

(** What was sent on each connection. *)
Fixpoint serve (script : list (bool * accept_result)) (o : os)
    : exec (list (list Z) * os * list log_call) :=
  match script with
  | [] => OutOfFuel
  | (false, _) :: _ => Ret ([], o, [])
  | (true, AcceptEintr) :: rest => serve rest o
  | (true, AcceptClosed) :: _ => Ret ([], o, [])
  | (true, AcceptError running error) :: rest =>
      if negb running then Ret ([], o, [])
      else
        '(lines, o, calls) ← serve rest o;
        Ret (lines, o, http_log Warn ("accept failed: " +:+ error) :: calls)
  | (true, Accepted client_fd client) :: rest =>
      let o := os_open client_fd o in
      '(line, calls) ← handle_client client;
      let o := os_close client_fd o in
      '(lines, o, calls') ← serve rest o;
      Ret (line :: lines, o, calls ++ calls')
  end.

Record HttpServer : Type := mk_server {
  sv_host : string;
  sv_port : Z;
  sv_running : bool;
  sv_listen_fd : Z;
  sv_worker : bool;                    (** [worker_.joinable()] *)
}.

Definition new_server (host : string) (port : Z) : HttpServer := mk_server host port false (-1) false.

(** The results of the calls of [start]; an error is its text. *)
Record start_env : Type := mk_start_env {
  st_socket : Z + string;
  st_bind : option string;
  st_listen : option string;
  st_bound_port : option Z;            (** [getsockname] *)
  st_thread : option string;           (** the exception of [std::thread] *)
}.

Section code.
(** [inet_pton(AF_INET, host, ...) == 1] *)
Context (inet_pton : string → bool).

Definition start (s : HttpServer) (env : start_env) (o : os)
    : bool * string * HttpServer * os * list log_call :=
  if sv_running s then (false, "HTTP server is already running", s, o, [])
  else
    let failed port message o :=
      (false, message, mk_server (sv_host s) port false (-1) (sv_worker s), o, [http_log Error message]) in
    match st_socket env with
    | inr error => failed (sv_port s) ("socket failed: " +:+ error) o
    | inl fd =>
        let o := os_open fd o in
        if negb (bool_decide (sv_host s = "localhost")) && negb (inet_pton (sv_host s))
        then failed (sv_port s) ("invalid HTTP IPv4 host: " +:+ sv_host s) (os_close fd o)
        else match st_bind env with
        | Some error => failed (sv_port s) ("bind failed for " +:+ sv_host s +:+ ":"
                                            +:+ dec (sv_port s) +:+ ": " +:+ error) (os_close fd o)
        | None =>
            match st_listen env with
            | Some error => failed (sv_port s) ("listen failed: " +:+ error) (os_close fd o)
            | None =>
                let port := match st_bound_port env with Some p => u16 p | None => sv_port s end in
                match st_thread env with
                | Some what => failed port ("HTTP worker start failed: " +:+ what) (os_close fd o)
                | None =>
                    (true, "", mk_server (sv_host s) port true fd true, o,
                     [http_log Info ("server started: " +:+ sv_host s +:+ ":" +:+ dec port)])
                end
            end
        end
    end.

(** [stop], which returns when the worker has ended. *)
Definition stop (s : HttpServer) (o : os) : HttpServer * os * list log_call :=
  let was_running := sv_running s in
  let o := if 0 <=? sv_listen_fd s then os_close (sv_listen_fd s) o else o in
  (mk_server (sv_host s) (sv_port s) false (-1) false, o,
   if was_running then [http_log Info "server stopped"] else []).

Definition bound_port (s : HttpServer) : Z := sv_port s.
End code.

(** ** Facts *)


(** *** Requests *)

(** No CR LF pair inside. *)
Definition one_line (s : string) : Prop := cut_crlf s = None.

Lemma cut_crlf_line s rest : lacks cr_char s = true → cut_crlf (s +:+ crlf +:+ rest) = Some (s, rest).
Proof.
  unfold lacks. induction s as [| c s IH]; intros Hs; [done |]. cbn [all_chars] in Hs.
  apply andb_true_iff in Hs as [Hc%negb_true_iff Hs]. specialize (IH Hs).
  change (String c s +:+ crlf +:+ rest) with (String c (s +:+ crlf +:+ rest)).
  cbn [cut_crlf]. destruct (s +:+ crlf +:+ rest) as [| d r] eqn:He; [by destruct s |].
  rewrite Hc. cbn [andb]. by rewrite IH.
Qed.

Lemma cut_crlf_some s a b : cut_crlf s = Some (a, b) → s = a +:+ crlf +:+ b.
Proof.
  revert a. induction s as [| c s IH]; intros a; [done |]. cbn [cut_crlf].
  destruct s as [| d r]; [done |].
  destruct (Ascii.eqb c cr_char && Ascii.eqb d nl_char) eqn:Hcr.
  - apply andb_true_iff in Hcr as [->%Ascii.eqb_eq ->%Ascii.eqb_eq]. by intros [= <- <-].
  - destruct (cut_crlf (String d r)) as [[a' b'] |] eqn:Hc; [| done]. cbn. intros [= <- <-].
    change (String c a' +:+ crlf +:+ b') with (String c (a' +:+ crlf +:+ b')).
    f_equal. by apply IH.
Qed.

(** A piece without CR LF that does not end in CR is kept whole by the line cut. *)
Lemma request_line_app a rest :
  one_line (a +:+ " ") → request_line (a +:+ " " +:+ rest) = a +:+ " " +:+ request_line rest.
Proof.
  unfold request_line, one_line. revert rest. induction a as [| c a IH]; intros rest Ha.
  - change ("" +:+ " " +:+ rest) with (String " " rest).
    change ("" +:+ " " +:+ ?x) with (String " " x). cbn [cut_crlf].
    destruct rest as [| d r]; [done |]. cbn [andb Ascii.eqb Bool.eqb].
    destruct (cut_crlf (String d r)) as [[x y] |]; done.
  - change (String c a +:+ " " +:+ rest) with (String c (a +:+ " " +:+ rest)).
    change (String c a +:+ " " +:+ ?x) with (String c (a +:+ " " +:+ x)).
    change (String c a +:+ " ") with (String c (a +:+ " ")) in Ha. cbn [cut_crlf] in *.
    destruct (a +:+ " ") as [| d r] eqn:Hr; [by destruct a |].
    assert (a +:+ " " +:+ rest = String d (r +:+ rest)) as Hr' by by rewrite <-string_app_assoc, Hr.
    rewrite Hr'.
    revert Ha. destruct (Ascii.eqb c cr_char && Ascii.eqb d nl_char); [done |]. intros Ha.
    assert (cut_crlf (String d r) = None) as Hn by by destruct (cut_crlf (String d r)).
    specialize (IH rest Hn). rewrite Hr' in IH.
    destruct (cut_crlf (String d (r +:+ rest))) as [[x y] |]; cbn; by rewrite IH.
Qed.

Lemma request_line_prefix s : ∃ rest, s = request_line s +:+ rest ∧ one_line (request_line s).
Proof.
  unfold request_line, one_line. destruct (cut_crlf s) as [[a b] |] eqn:Hc.
  - exists (crlf +:+ b). split; [by apply cut_crlf_some |].
    revert a b Hc. induction s as [| c s IH]; intros a b Hc; [done |]. cbn [cut_crlf] in Hc.
    destruct s as [| d r]; [done |].
    destruct (Ascii.eqb c cr_char && Ascii.eqb d nl_char) eqn:Hcr; [by simplify_eq/= |].
    destruct (cut_crlf (String d r)) as [[a' b'] |] eqn:Hc'; [| done]. cbn in Hc. injection Hc as <- <-.
    specialize (IH a' b' eq_refl). destruct a' as [| e a']; [done |].
    assert (e = d) as -> by (apply cut_crlf_some in Hc'; by injection Hc').
    change (cut_crlf (String c (String d a')) = None).
    assert (cut_crlf (String c (String d a')) = (p ← cut_crlf (String d a'); Some (String c (fst p), snd p)))
      as -> by (cbn [cut_crlf]; by rewrite Hcr). by rewrite IH.
  - exists "". by rewrite string_app_nil_r.
Qed.

Lemma strip_prefix_some p s r : strip_prefix p s = Some r ↔ s = p +:+ r.
Proof.
  revert s. induction p as [| c p IH]; intros s; cbn [strip_prefix].
  - split; [by intros [= ->] | by intros ->].
  - destruct s as [| d s]; [done |]. change (String c p +:+ r) with (String c (p +:+ r)).
    destruct (Ascii.eqb_spec c d) as [-> | Hne].
    + rewrite IH. split; [by intros -> | by intros [= ->]].
    + split; [done |]. intros [= Heq _]. congruence.
Qed.

(** The request line asks for [path]. *)
Definition requests (request path : string) : Prop :=
  ∃ rest, request = "GET " +:+ path +:+ " " +:+ rest ∧
    lacks " "%char path = true ∧ one_line ("GET " +:+ path +:+ " ").

Lemma one_line_app a b : one_line (a +:+ b) → one_line a.
Proof.
  unfold one_line. induction a as [| c a IH]; [done |].
  change (String c a +:+ b) with (String c (a +:+ b)). cbn [cut_crlf].
  destruct a as [| d r]; [done |]. change (String d r +:+ b) with (String d (r +:+ b)) in *.
  cbn match.
  destruct (Ascii.eqb c cr_char && Ascii.eqb d nl_char); [by intros [=] |].
  destruct (cut_crlf (String d (r +:+ b))); [by intros [=] |]. by intros _; rewrite IH.
Qed.

Lemma request_path_iff request path :
  path ≠ "" → request_path request = path ↔ requests request path.
Proof.
  intros Hne. unfold request_path, requests. split.
  - destruct (strip_prefix "GET " _) as [rest |] eqn:Hs; [| by intros <-].
    destruct (cut " "%char rest) as [[p r] |] eqn:Hc; [intros -> | by intros <-].
    apply strip_prefix_some in Hs. apply cut_some in Hc as [-> Hl].
    destruct (request_line_prefix request) as (tl & Heq & Hone). rewrite Hs in Heq, Hone.
    exists (r +:+ tl). split_and!; [| done |].
    + rewrite Heq. rewrite !string_app_assoc. done.
    + apply (one_line_app _ r). by rewrite !string_app_assoc.
  - intros (rest & -> & Hl & Hone).
    change ("GET " +:+ path +:+ " " +:+ rest) with (("GET " +:+ path) +:+ " " +:+ rest).
    rewrite request_line_app by done.
    assert (strip_prefix "GET " (("GET " +:+ path) +:+ " " +:+ request_line rest)
            = Some (path +:+ " " +:+ request_line rest)) as -> by by apply strip_prefix_some.
    change (" " +:+ request_line rest) with (String " " (request_line rest)).
    by rewrite cut_app.
Qed.

Lemma substring_all n s : (String.length s <= n)%nat → String.substring 0 n s = s.
Proof.
  revert n. induction s as [| c s IH]; intros [| n] Hl; try done; cbn in *; [lia |].
  f_equal. apply IH. lia.
Qed.

(** *** Reading a response *)

Record http_message : Type := mk_http_message {
  hm_status_line : string;
  hm_headers : list (string * string);
  hm_body : string;
}.

(** The header lines up to the empty one, and the text after it. *)
Fixpoint read_headers (fuel : nat) (s : string) : option (list (string * string) * string) :=
  match fuel with
  | O => None
  | S fuel =>
      p ← cut_crlf s;
      let '(line, rest) := p : string * string in
      if bool_decide (line = "") then Some ([], rest)
      else
        field ← cut ":"%char line;
        let '(name, v) := field : string * string in
        v ← strip_prefix " " v;
        q ← read_headers fuel rest;
        let '(fields, body) := q : list (string * string) * string in
        Some ((name, v) :: fields, body)
  end.

Definition read_response (s : string) : option http_message :=
  p ← cut_crlf s;
  let '(line, rest) := p : string * string in
  q ← read_headers (String.length rest) rest;
  let '(fields, body) := q : list (string * string) * string in
  Some (mk_http_message line fields body).

Lemma read_header name v n rest :
  name ≠ "" → lacks ":"%char name = true → lacks cr_char name = true → lacks cr_char v = true →
  read_headers (S n) (name +:+ ": " +:+ v +:+ crlf +:+ rest)
  = (q ← read_headers n rest; let '(fields, body) := q : list (string * string) * string in
     Some ((name, v) :: fields, body)).
Proof.
  intros Hne Hc Hn Hv. cbn [read_headers].
  replace (name +:+ ": " +:+ v +:+ crlf +:+ rest) with ((name +:+ ": " +:+ v) +:+ crlf +:+ rest)
    by by rewrite !string_app_assoc.
  rewrite cut_crlf_line by (rewrite !lacks_app, Hn, Hv; done). cbn [mbind option_bind].
  rewrite bool_decide_eq_false_2 by by destruct name.
  change (name +:+ ": " +:+ v) with (name +:+ String ":" (" " +:+ v)).
  by rewrite cut_app.
Qed.

Lemma read_build_response code content_type body :
  lacks cr_char content_type = true →
  read_response (build_response code content_type body)
  = Some (mk_http_message ("HTTP/1.1 " +:+ dec code +:+ " " +:+ reason_phrase code)
      [("Content-Type", content_type);
       ("Content-Length", dec (Z.of_nat (String.length body)));
       ("Connection", "close"); ("Cache-Control", "no-store")] body).
Proof.
  intros Hct. unfold read_response, build_response.
  replace ("HTTP/1.1 " +:+ dec code +:+ " " +:+ reason_phrase code +:+ crlf +:+ _)
    with (("HTTP/1.1 " +:+ dec code +:+ " " +:+ reason_phrase code) +:+ crlf
          +:+ ("Content-Type" +:+ ": " +:+ content_type +:+ crlf
          +:+ ("Content-Length" +:+ ": " +:+ dec (Z.of_nat (String.length body)) +:+ crlf
          +:+ ("Connection" +:+ ": " +:+ "close" +:+ crlf
          +:+ ("Cache-Control" +:+ ": " +:+ "no-store" +:+ crlf
          +:+ ("" +:+ crlf +:+ body)))))) by by rewrite !string_app_assoc.
  assert (lacks cr_char (reason_phrase code) = true) as Hr.
  { unfold reason_phrase. by repeat case_match. }
  rewrite cut_crlf_line by (rewrite !lacks_app, lacks_dec, Hr; done). cbn [mbind option_bind].
  match goal with |- context [read_headers (String.length ?s) ?s] =>
    assert (∃ n, String.length s = S (S (S (S (S n))))) as [n ->] by by eexists end.
  do 4 (rewrite read_header by (done || by apply lacks_dec)).
  cbn [read_headers]. by rewrite (cut_crlf_line "").
Qed.

(** ** Properties *)

(** What the endpoints serve: the status code, the content type and the body. *)
Definition resource (status_first : bool) (seen : nat → RuntimeStatus) (metrics : RuntimeMetrics) (now : Z)
    (path : string) : Z * string * string :=
  if decide (path = "/health")
  then (200, "application/json", health_json seen (uptime_seconds metrics now))
  else if decide (path = "/ready")
  then (if fst (ready_answer status_first seen) then 200 else 503, "application/json",
        fst (snd (ready_answer status_first seen)))
  else if decide (path = "/metrics")
  then (200, "text/plain; version=0.0.4; charset=utf-8", render_prometheus metrics now)
  else (404, "application/json", "{" +:+ jkey "status" +:+ quoted "not_found" +:+ "}").

Lemma respond_resource first seen metrics now path :
  let '(code, content_type, body) := resource first seen metrics now path in
  respond first seen metrics now path = build_response code content_type body ∧
  lacks cr_char content_type = true.
Proof.
  unfold respond, resource. repeat (case_bool_decide; case_decide; try done).
  by destruct (ready_answer first seen) as [ok []].
Qed.

(** A message as a client reads it. *)
Definition message_of (answer : Z * string * string) : http_message :=
  let '(code, content_type, body) := answer in
  mk_http_message ("HTTP/1.1 " +:+ dec code +:+ " " +:+ reason_phrase code)
    [("Content-Type", content_type); ("Content-Length", dec (Z.of_nat (String.length body)));
     ("Connection", "close"); ("Cache-Control", "no-store")] body.

Lemma ready_answer_agrees first seen :
  flags_rise seen →
  let '(is_ready, (_, reported)) := ready_answer first seen in
  if first : bool then is_ready = true → reported = true else reported = true → is_ready = true.
Proof.
  intros Hr. unfold ready_answer. destruct first.
  - pose proof (ready_loads seen) as Hl. pose proof (ready_again seen 0 6 Hr ltac:(lia)) as Ha.
    change (from 0 seen) with seen in Ha.
    destruct (ready seen) as [ok loads] eqn:Hs. pose proof (readiness_reports (from loads seen)) as Hj.
    destruct (readiness_json _) as [body reported]. cbn [snd fst] in *. intros ->.
    rewrite Hl in Hj by done. rewrite Hj. by apply Ha.
  - pose proof (readiness_reports seen) as Hj. destruct (readiness_json seen) as [body reported].
    cbn [snd] in Hj. subst reported. intros Ht. unfold readiness_loads.
    rewrite (ready_loads _ Ht). apply (ready_again seen 3 8 Hr); [lia | exact Ht].
Qed.

Lemma read_respond first seen metrics now path :
  read_response (respond first seen metrics now path)
  = Some (message_of (resource first seen metrics now path)).
Proof.
  pose proof (respond_resource first seen metrics now path) as Hr.
  destruct (resource first seen metrics now path) as [[code ct] body]. destruct Hr as [-> Hct].
  by apply read_build_response.
Qed.

(** C21: An HTTP exchange. When a client's request arrives while the server runs, the
    connection carries one response and nothing else: read as HTTP it is, for a GET of
    a path (the text between the method and the next space on the first line), the
    status, type and body of that resource, with the length of the body, and for
    anything else the 404 answer. It arrives whole when the kernel keeps taking bytes,
    and otherwise a prefix of it does; the log has the path, and then a line exactly
    when the response has not been sent whole. The status code and the body of a readiness
    answer are computed one after the other, in an order the compiler chooses: unless
    a check is withdrawn meanwhile, the second says ready if the first does. *)
Theorem http_exchange env data :
  wait_client (ce_polls env) = Ret WaitReady → ce_running env = true →
  ce_received env = Some data → data ≠ "" → (String.length data < request_buffer_size)%nat →
  let answer := resource (ce_status_first env) (ce_status env) (ce_metrics env) (ce_now env) (request_path data) in
  ∃ response,
    (∀ path, path ≠ "" → request_path data = path ↔ requests data path) ∧
    read_response response = Some (message_of answer) ∧
    (∀ line calls, handle_client env = Ret (line, calls) →
       line `prefix_of` bytes_of response ∧
       calls = log_path (request_path data) ::
               if decide (line = bytes_of response) then [] else [http_log Debug_ "response send failed"]) ∧
    (Forall (goes_on http_retries) (ce_sends env) →
     (String.length response <= progress (ce_sends env))%nat →
     handle_client env = Ret (bytes_of response, [log_path (request_path data)])) ∧
    (request_path data = "/ready" →
     let '(is_ready, (body, reported)) := ready_answer (ce_status_first env) (ce_status env) in
     answer = (if is_ready then 200 else 503, "application/json", body) ∧
     (flags_rise (ce_status env) →
      if ce_status_first env then is_ready = true → reported = true
      else reported = true → is_ready = true)).
Proof.
  intros Hw Hr Hd Hne Hlen answer.
  set (response := respond (ce_status_first env) (ce_status env) (ce_metrics env) (ce_now env) (request_path data)).
  assert (handle_client env
          = ('(ok, line) ← http_send_all response (ce_sends env);
             Ret (line, if negb ok then [log_path (request_path data)] ++ [http_log Debug_ "response send failed"]
                        else [log_path (request_path data)]))) as Hh.
  { unfold handle_client. rewrite Hw. cbn [mbind exec_bind]. rewrite Hr, Hd. cbn [negb].
    destruct data as [| c data']; [done |]. unfold response.
    by rewrite (substring_all (request_buffer_size - 1)) by (unfold request_buffer_size in *; lia). }
  exists response. split_and!.
  - intros path Hp. by apply request_path_iff.
  - apply read_respond.
  - intros line calls. rewrite Hh. unfold http_send_all.
    destruct (send_from _ _ _ _ _) as [[ok l] | |] eqn:Hs; try discriminate.
    cbn [mbind exec_bind]. intros [= <- <-]. apply send_from_line in Hs. destruct ok.
    + rewrite Hs. by rewrite decide_True.
    + destruct Hs as (k & -> & Hk). split; [apply prefix_take |].
      rewrite decide_False; [done |]. intros He%(f_equal length). rewrite length_take in He. lia.
  - intros Hg Hp. rewrite Hh. unfold http_send_all.
    by rewrite send_from_all by (done || by rewrite length_bytes_of).
  - intros Hready. unfold answer, resource. rewrite Hready. cbn [decide].
    pose proof (ready_answer_agrees (ce_status_first env) (ce_status env)) as Ha.
    by destruct (ready_answer _ _) as [ok [body reported]].
Qed.

(** A client that asks for the metrics, on a gateway that is starting up. *)
Definition sample_client : client_env :=
  mk_client_env [(true, NoInput); (true, PollInterrupted); (true, InputReady)] true
    (Some ("GET /ready HTTP/1.1" +:+ crlf +:+ "Host: gateway" +:+ crlf +:+ crlf))
    true (λ _, new_status "1.0" "sqlite" true true) (new_metrics 100) 130 [Wrote 400; Wrote 400].

Lemma http_exchange_witness :
  wait_client (ce_polls sample_client) = Ret WaitReady ∧
  ∃ response message, read_response response = Some message ∧
    hm_status_line message = "HTTP/1.1 503 Service Unavailable" ∧
    ∀ line calls, handle_client sample_client = Ret (line, calls) → line `prefix_of` bytes_of response.
Proof.
  split; [reflexivity |].
  destruct (http_exchange sample_client
    ("GET /ready HTTP/1.1" +:+ crlf +:+ "Host: gateway" +:+ crlf +:+ crlf)
    eq_refl eq_refl eq_refl ltac:(discriminate) ltac:(vm_compute; lia))
    as (response & _ & Hread & Hline & _).
  eexists response, _. split; [exact Hread |]. split; [reflexivity |].
  intros line calls Hh. exact (proj1 (Hline line calls Hh)).
Defined.

(** *** The life of the server *)

Lemma open_close fd o :
  fd ∉ open_fds o → os_close fd (os_open fd o) = o.
Proof.
  intros Hf. destruct o as [fds bad]. unfold os_close, os_open. cbn in *.
  rewrite bool_decide_eq_true_2 by set_solver. f_equal. set_solver.
Qed.

(** The kernel gives unused descriptors to the connections. *)
Definition fresh_clients (o : os) (script : list (bool * accept_result)) : Prop :=
  Forall (λ t, ∀ fd client, t.2 = Accepted fd client → fd ∉ open_fds o) script.

Lemma serve_balanced script o lines o' calls :
  fresh_clients o script → serve script o = Ret (lines, o', calls) → o' = o.
Proof.
  intros Hf. revert lines calls.
  induction Hf as [| [running a] script Ht Hf IH]; intros lines calls; [done |].
  cbn [serve]. destruct running; [| by intros [= _ <- _]].
  destruct a as [fd client | | | running error].
  - destruct (handle_client client) as [[line cs] | |]; try discriminate. cbn [mbind exec_bind].
    rewrite open_close by by eapply Ht.
    destruct (serve script o) as [[[ls o1] cs1] | |]; try discriminate. cbn.
    intros [= _ <- _]. by eapply IH.
  - apply IH.
  - by intros [= _ <- _].
  - destruct running; cbn [negb]; [| by intros [= _ <- _]].
    destruct (serve script o) as [[[ls o1] cs1] | |]; try discriminate. cbn.
    intros [= _ <- _]. by eapply IH.
Qed.

(** The turns of the accept loop that end it. *)
Definition ends_loop (t : bool * accept_result) : bool :=
  match t with
  | (false, _) | (true, AcceptClosed) | (true, AcceptError false _) => true
  | _ => false
  end.

Lemma serve_ends script o :
  Exists (λ t, ends_loop t = true) script →
  Forall (λ t, ∀ fd client, t.2 = Accepted fd client → ∃ line, handle_client client = Ret line) script →
  ∃ lines o' calls, serve script o = Ret (lines, o', calls).
Proof.
  intros He Hc. revert o. induction Hc as [| [running a] script Ht Hc IH]; intros o.
  { by apply Exists_nil in He. }
  cbn [serve]. destruct running; [| by eexists _, _, _].
  destruct a as [fd client | | | [] error]; cbn [negb]; try by eexists _, _, _.
  all: apply Exists_cons in He as [He | He]; [done |].
  - destruct (Ht fd client eq_refl) as [[line cs] ->]. cbn [mbind exec_bind].
    destruct (IH He (os_close fd (os_open fd o))) as (ls & o1 & cs1 & ->). by eexists _, _, _.
  - by apply IH.
  - destruct (IH He o) as (ls & o1 & cs1 & ->). by eexists _, _, _.
Qed.

Lemma wait_client_silent n : wait_client (replicate n (true, NoInput)) = OutOfFuel.
Proof. by induction n. Qed.

Section life.
Context (inet_pton : string → bool).

(** A server that is not started holds no descriptor; a started one its listening
    socket. *)
Record server_inv (s : HttpServer) (others : gset Z) (o : os) : Prop := mk_server_inv {
  si_owns : owns (sv_listen_fd s) others o;
  si_listening : sv_running s = true ↔ 0 <= sv_listen_fd s;
  si_worker : sv_running s = true → sv_worker s = true;
}.

Lemma start_inv s env o others :
  server_inv s others o → sv_running s = false →
  (∀ fd, st_socket env = inl fd → 0 <= fd ∧ fresh_fd fd o) →
  let '(ok, err, s', o', calls) := start inet_pton s env o in
  server_inv s' others o' ∧ sv_running s' = ok ∧ (ok = true ↔ err = "") ∧
  calls = [if ok then http_log Info ("server started: " +:+ sv_host s +:+ ":" +:+ dec (sv_port s'))
           else http_log Error err].
Proof.
  intros [Ho Hl Hw] Hr Hfresh. unfold start. rewrite Hr.
  assert (sv_listen_fd s < 0) as Hneg.
  { destruct (Z.lt_ge_cases (sv_listen_fd s) 0) as [| Hge]; [done |]. apply Hl in Hge. congruence. }
  assert (∀ port o1, owns (-1) others o1 →
    server_inv (mk_server (sv_host s) port false (-1) (sv_worker s)) others o1) as Hfailed
    by (intros port o1 Ho1; split; [done | split; [done | cbn; lia] | done]).
  destruct (st_socket env) as [fd | error].
  - destruct (Hfresh fd eq_refl) as [Hfd Hff]. pose proof (owns_open _ _ _ _ Ho Hneg Hfd Hff) as Hop.
    pose proof (owns_close _ _ _ Hop Hfd) as Hcl.
    destruct (negb _ && negb _); [by split_and!; [apply Hfailed | ..] |].
    destruct (st_bind env); [by split_and!; [apply Hfailed | ..] |].
    destruct (st_listen env); [by split_and!; [apply Hfailed | ..] |].
    destruct (st_thread env); [by split_and!; [apply Hfailed | ..] |].
    split_and!; [by split | done | done | done].
  - split_and!; [apply Hfailed | done | done | done].
    destruct Ho as [Hfds Hfr Hb]. rewrite decide_False in Hfds by lia. by split; cbn; [| lia |].
Qed.

Lemma stop_inv s o others :
  server_inv s others o →
  let '(s', o', calls) := stop s o in
  server_inv s' others o' ∧ sv_running s' = false ∧ sv_worker s' = false ∧
  owns (-1) others o' ∧ stop s' o' = (s', o', []) ∧
  calls = if sv_running s then [http_log Info "server stopped"] else [].
Proof.
  intros [Ho Hl Hw]. unfold stop.
  assert (owns (-1) others (if 0 <=? sv_listen_fd s then os_close (sv_listen_fd s) o else o)) as Hc.
  { destruct (Z.leb_spec 0 (sv_listen_fd s)); [by apply owns_close |].
    destruct Ho as [Hfds Hfr Hb]. rewrite decide_False in Hfds by lia. by split; cbn; [| lia |]. }
  split_and!; [| done | done | done | done | done]. by split; cbn; [| split; [| lia] |].
Qed.

(** C30: The life of the server. Starting either runs the worker with the listening
    socket and logs where it listens, or reports and logs one error and leaves no
    descriptor open, and a second start is refused without effect; while it serves, in
    any order of requests, interrupted and failed accepts, every connection is closed
    and no other descriptor is touched, and the loop ends once the listening socket is
    closed, provided each client is done; stopping closes everything, is logged if the
    server was running, and again changes nothing. But nothing bounds the wait for a
    client's request: as long as one connected client stays silent, the only worker
    serves nobody else. *)
Theorem http_server_life s env env' o others script :
  server_inv s others o → sv_running s = false →
  (∀ fd, st_socket env = inl fd → 0 <= fd ∧ fresh_fd fd o) →
  let '(ok, err, s', o', calls) := start inet_pton s env o in
  (ok = true ↔ err = "") ∧ sv_running s' = ok ∧ server_inv s' others o' ∧
  calls = [if ok then http_log Info ("server started: " +:+ sv_host s +:+ ":" +:+ dec (sv_port s'))
           else http_log Error err] ∧
  (ok = true → start inet_pton s' env' o' = (false, "HTTP server is already running", s', o', [])) ∧
  (fresh_clients o' script →
   (∀ lines o2 calls, serve script o' = Ret (lines, o2, calls) → o2 = o') ∧
   (Exists (λ t, ends_loop t = true) script →
    Forall (λ t, ∀ fd client, t.2 = Accepted fd client → ∃ line, handle_client client = Ret line)
           script → ∃ lines calls, serve script o' = Ret (lines, o', calls))) ∧
  (let '(s2, o2, calls) := stop s' o' in
   sv_running s2 = false ∧ owns (-1) others o2 ∧ stop s2 o2 = (s2, o2, []) ∧
   calls = if ok then [http_log Info "server stopped"] else []) ∧
  (∀ n fd client, ce_polls client = replicate n (true, NoInput) →
     serve ((true, Accepted fd client) :: script) o' = OutOfFuel).
Proof.
  intros Hi Hr Hf. pose proof (start_inv s env o others Hi Hr Hf) as Hs.
  destruct (start inet_pton s env o) as [[[[ok err] s'] o'] calls]. destruct Hs as (Hi' & Hr' & He & Hc).
  pose proof (stop_inv s' o' others Hi') as Hst. destruct (stop s' o') as [[s2 o2] calls2].
  destruct Hst as (_ & ? & _ & ? & ? & Hc2). rewrite Hr' in Hc2. split_and!; try done.
  - intros ->. unfold start. by rewrite Hr'.
  - intros Hfc. split; [intros lines o3 cs; by apply serve_balanced |]. intros Hx Hcl.
    destruct (serve_ends script o' Hx Hcl) as (lines & o3 & cs & Hsv).
    exists lines, cs. by rewrite Hsv, (serve_balanced script o' lines o3 cs).
  - intros n fd client Hp. cbn [serve]. unfold handle_client.
    by rewrite Hp, wait_client_silent.
Qed.
End life.

Lemma http_server_life_witness :
  let env := mk_start_env (inl 7) None None (Some 8080) None in
  let s := new_server "localhost" 8080 in
  let script := [(true, AcceptEintr); (true, Accepted 8 sample_client); (true, AcceptClosed)] in
  sv_running (snd (fst (fst (start (λ _, false) s env os_init)))) = true ∧
  ∃ lines calls, serve script (os_open 7 os_init) = Ret (lines, os_open 7 os_init, calls).
Proof.
  assert (8 ∉ ({[7]} ∪ ∅ : gset Z)) as Hn by set_solver.
  intros env s script.
  assert (server_inv s ∅ os_init) as Hi.
  { split; [by split | split; [done | vm_compute; congruence] | done]. }
  assert (∀ fd, st_socket env = inl fd → 0 <= fd ∧ fresh_fd fd os_init) as Hf.
  { intros fd [= <-]. split; [lia |]. right. apply not_elem_of_empty. }
  pose proof (http_server_life (λ _, false) s env env os_init ∅ script Hi eq_refl Hf) as Hl.
  destruct Hl as (_ & Hr & _ & _ & _ & Hs & _). split; [exact Hr |].
  apply Hs.
  - apply Forall_cons_2; [by intros fd client [=] |]. apply Forall_cons_2; [| apply Forall_singleton; by intros fd client [=]].
    intros fd client [= <- _]. exact Hn.
  - apply Exists_cons_tl, Exists_cons_tl, Exists_cons_hd. reflexivity.
  - apply Forall_cons_2; [by intros fd client [=] |]. apply Forall_cons_2; [| apply Forall_singleton; by intros fd client [=]].
    intros fd client [= _ <-]. by eexists.
Defined.
