(* ===== verification/Json.v ===== *)
(** * The JSON texts of the gateway are documents of their schemas

    The gateway writes JSON with string streams, without a library. Here is a
    reference reader of the JSON grammar (without insignificant space and without
    escapes in strings, neither of which the program writes), and what it makes of the
    text of a reading ([src/app/sensor_data.cpp]) and of the health and readiness texts
    ([src/app/runtime_status.cpp]). *)

From stdpp Require Import pretty.
From S2P Require Import Prelude Text Float64 SensorData DeviceData RuntimeStatus.

Local Open Scope Z_scope.

(** ** Documents and their reader *)

(** A number is kept as its text. *)
Inductive json : Type :=
  | JBool (b : bool)
  | JNumber (text : string)
  | JText (s : string)
  | JList (elements : list json)
  | JObject (members : list (string * json)).

Definition is_digit (c : ascii) : bool :=
  ((48 <=? Ascii.nat_of_ascii c) && (Ascii.nat_of_ascii c <=? 57))%nat.

Definition number_char (c : ascii) : bool :=
  is_digit c || Ascii.eqb c "-" || Ascii.eqb c "+" || Ascii.eqb c "." || Ascii.eqb c "e" || Ascii.eqb c "E".

Definition dq_char : ascii := Ascii.ascii_of_nat 34.

(** A character that stands for itself in a string. *)
Definition text_char (c : ascii) : bool :=
  (32 <=? Ascii.nat_of_ascii c)%nat && negb (Ascii.eqb c dq_char) && negb (Ascii.eqb c "\").

(** The longest prefix of such characters, and the rest. *)
Fixpoint span (P : ascii → bool) (s : string) : string * string :=
  match s with
  | EmptyString => ("", "")
  | String c r => if P c then let '(a, b) := span P r in (String c a, b) else ("", s)
  end.

(** An integer part: [0], or digits that do not start with [0]. *)
Definition whole_ok (s : string) : bool :=
  all_chars is_digit s &&
  match s with
  | EmptyString => false
  | String c EmptyString => true
  | String c _ => negb (Ascii.eqb c "0")
  end.

Definition unsigned (s : string) : string :=
  match s with String "-" r => r | _ => s end.

(** Whether a text is a number: an integer, or one with a fraction. *)
Definition integer_ok (s : string) : bool := whole_ok (unsigned s).
Definition decimal_ok (s : string) : bool :=
  match cut "." (unsigned s) with
  | Some (whole, fraction) =>
      whole_ok whole && all_chars is_digit fraction && negb (bool_decide (fraction = ""))
  | None => false
  end.
Definition number_ok (s : string) : bool := integer_ok s || decimal_ok s.

(** [s] after the text [t], if it starts with it. *)
Fixpoint after (t s : string) : option string :=
  match t, s with
  | EmptyString, _ => Some s
  | String c t, String d s => if Ascii.eqb c d then after t s else None
  | String _ _, EmptyString => None
  end.

(** A string literal, after its opening quotation mark. *)
Definition read_text (s : string) : option (string * string) :=
  let '(t, rest) := span text_char s in
  rest ← after dq rest;
  Some (t, rest).

Fixpoint read_value (fuel : nat) (s : string) : option (json * string) :=
  match fuel, s with
  | S fuel, String c r =>
      if Ascii.eqb c "{" then
        match after "}" r with
        | Some rest => Some (JObject [], rest)
        | None => p ← read_members fuel r; Some (JObject (fst p), snd p)
        end
      else if Ascii.eqb c "[" then
        match after "]" r with
        | Some rest => Some (JList [], rest)
        | None => p ← read_elements fuel r; Some (JList (fst p), snd p)
        end
      else if Ascii.eqb c "t" then rest ← after "rue" r; Some (JBool true, rest)
      else if Ascii.eqb c "f" then rest ← after "alse" r; Some (JBool false, rest)
      else if Ascii.eqb c dq_char then p ← read_text r; Some (JText (fst p), snd p)
      else
        let '(t, rest) := span number_char s in
        if number_ok t then Some (JNumber t, rest) else None
  | _, _ => None
  end
with read_members (fuel : nat) (s : string) : option (list (string * json) * string) :=
  match fuel with
  | O => None
  | S fuel =>
      r ← after dq s;
      k ← read_text r;
      r ← after ":" (snd k);
      v ← read_value fuel r;
      match after "," (snd v) with
      | Some r => p ← read_members fuel r; Some ((fst k, fst v) :: fst p, snd p)
      | None => rest ← after "}" (snd v); Some ([(fst k, fst v)], rest)
      end
  end
with read_elements (fuel : nat) (s : string) : option (list json * string) :=
  match fuel with
  | O => None
  | S fuel =>
      v ← read_value fuel s;
      match after "," (snd v) with
      | Some r => p ← read_elements fuel r; Some (fst v :: fst p, snd p)
      | None => rest ← after "]" (snd v); Some ([fst v], rest)
      end
  end.

(** A text is the text of a document. *)
Definition reads_as (s : string) (v : json) : Prop := ∃ fuel, read_value fuel s = Some (v, "").

(** ** Schemas *)

Inductive schema : Type :=
  | SBool
  | SInteger
  | SDecimal
  | SText
  | SList (element : schema)
  | SRecord (fields : list (string * schema)).

(** A document has a schema; the members of an object are in the order of the
    fields. *)
Fixpoint has_schema (v : json) (t : schema) : bool :=
  match v, t with
  | JBool _, SBool => true
  | JNumber n, SInteger => integer_ok n
  | JNumber n, SDecimal => decimal_ok n
  | JText _, SText => true
  | JList l, SList t => forallb (λ v, has_schema v t) l
  | JObject l, SRecord fields =>
      (fix go (l : list (string * json)) (fields : list (string * schema)) : bool :=
         match l, fields with
         | [], [] => true
         | (k, v) :: l, (k', t) :: fields => bool_decide (k = k') && has_schema v t && go l fields
         | _, _ => false
         end) l fields
  | _, _ => false
  end.

(** ** Facts *)

Lemma bind_more {A B} (m m' : option A) (f f' : A → option B) b :
  (∀ a, m = Some a → m' = Some a) → (∀ a, f a = Some b → f' a = Some b) →
  m ≫= f = Some b → m' ≫= f' = Some b.
Proof. intros Hm Hf (a & Ha%Hm & Hb%Hf)%bind_Some. apply bind_Some. by exists a. Qed.

Lemma read_value_S fuel c r :
  read_value (S fuel) (String c r) =
    (if Ascii.eqb c "{" then
       match after "}" r with
       | Some rest => Some (JObject [], rest)
       | None => p ← read_members fuel r; Some (JObject (fst p), snd p)
       end
     else if Ascii.eqb c "[" then
       match after "]" r with
       | Some rest => Some (JList [], rest)
       | None => p ← read_elements fuel r; Some (JList (fst p), snd p)
       end
     else if Ascii.eqb c "t" then rest ← after "rue" r; Some (JBool true, rest)
     else if Ascii.eqb c "f" then rest ← after "alse" r; Some (JBool false, rest)
     else if Ascii.eqb c dq_char then p ← read_text r; Some (JText (fst p), snd p)
     else
       let '(t, rest) := span number_char (String c r) in
       if number_ok t then Some (JNumber t, rest) else None).
Proof. done. Qed.

Lemma read_members_S fuel s :
  read_members (S fuel) s =
    (r ← after dq s; k ← read_text r; r ← after ":" (snd k); v ← read_value fuel r;
     match after "," (snd v) with
     | Some r => p ← read_members fuel r; Some ((fst k, fst v) :: fst p, snd p)
     | None => rest ← after "}" (snd v); Some ([(fst k, fst v)], rest)
     end).
Proof. done. Qed.

Lemma read_elements_S fuel s :
  read_elements (S fuel) s =
    (v ← read_value fuel s;
     match after "," (snd v) with
     | Some r => p ← read_elements fuel r; Some (fst v :: fst p, snd p)
     | None => rest ← after "]" (snd v); Some ([fst v], rest)
     end).
Proof. done. Qed.

(** More fuel reads the same. *)
Lemma read_more fuel :
  (∀ s v, read_value fuel s = Some v → read_value (S fuel) s = Some v) ∧
  (∀ s l, read_members fuel s = Some l → read_members (S fuel) s = Some l) ∧
  (∀ s l, read_elements fuel s = Some l → read_elements (S fuel) s = Some l).
Proof.
  induction fuel as [| fuel (IHv & IHm & IHe)]; [done |]. split_and!; intros s v.
  - destruct s as [| c r]; [done |].
    rewrite !read_value_S. destruct (Ascii.eqb c "{").
    { case_match; [done |]. by apply bind_more; [apply IHm |]. }
    destruct (Ascii.eqb c "["); [| done]. case_match; [done |]. by apply bind_more; [apply IHe |].
  - rewrite !read_members_S. repeat (apply bind_more; [auto | intros ?]).
    case_match; [| done]. by apply bind_more; [apply IHm |].
  - rewrite !read_elements_S. apply bind_more; [auto | intros ?].
    case_match; [| done]. by apply bind_more; [apply IHe |].
Qed.

(** A text is the text of one document at most. *)
Lemma reads_as_fun s v w : reads_as s v → reads_as s w → v = w.
Proof.
  assert (∀ n m s v, (n <= m)%nat → read_value n s = Some v → read_value m s = Some v) as Hle.
  { intros n m s' v' Hle. induction Hle as [| m _ IH]; [done |]. intros Hv. by apply read_more, IH. }
  intros [n Hv] [m Hw]. apply (Hle n (n + m)%nat) in Hv; [| lia]. apply (Hle m (n + m)%nat) in Hw; [| lia].
  congruence.
Qed.

(** *** Numerals *)

Lemma pretty_N_char_is_digit n : is_digit (pretty_N_char n) = true.
Proof. unfold pretty_N_char. by repeat case_match. Qed.

Lemma pretty_N_char_zero n : (n < 10)%N → Ascii.eqb (pretty_N_char n) "0" = true → n = 0%N.
Proof. intros Hn. unfold pretty_N_char. destruct n as [| p]; [done |]. repeat (destruct p as [p | p |]; try done; try lia). Qed.

Lemma pretty_N_go_whole n s :
  (0 < n)%N → all_chars is_digit s = true → whole_ok (pretty_N_go n s) = true.
Proof.
  revert s. induction (N.lt_wf_0 n) as [n _ IH]. intros s Hn Hs.
  rewrite pretty_N_go_step by lia.
  assert (all_chars is_digit (String (pretty_N_char (n `mod` 10)) s) = true) as Hs'
    by (cbn [all_chars]; by rewrite pretty_N_char_is_digit, Hs).
  destruct (decide (n `div` 10 = 0)%N) as [Hz | Hz].
  - rewrite Hz. change (pretty_N_go 0 ?x) with x. unfold whole_ok. rewrite Hs'. cbn [andb].
    destruct s; [done |]. apply N.div_small_iff in Hz; [| done]. rewrite N.mod_small by done.
    destruct (Ascii.eqb (pretty_N_char n) "0") eqn:He; [| done].
    apply pretty_N_char_zero in He; lia.
  - apply IH; [apply N.div_lt; lia | by apply N.neq_0_lt_0 | done].
Qed.

Lemma pretty_N_whole (n : N) : whole_ok (pretty n) = true.
Proof.
  unfold pretty, pretty_N. case_decide; [done |]. by apply pretty_N_go_whole; [lia |].
Qed.

Lemma whole_nonneg z : 0 <= z → whole_ok (dec z) = true.
Proof. unfold dec, pretty, pretty_Z. destruct z; [done | intros _; apply (pretty_N_whole (Npos p)) | done]. Qed.

Lemma unsigned_whole s : whole_ok s = true → unsigned s = s.
Proof.
  destruct s as [| c s]; [done |]. intros Hw. apply andb_true_iff in Hw as [Hd _].
  cbn [all_chars] in Hd. apply andb_true_iff in Hd as [Hd _].
  destruct c as [[] [] [] [] [] [] [] []]; try done; discriminate Hd.
Qed.

Lemma integer_dec z : integer_ok (dec z) = true.
Proof.
  unfold integer_ok. destruct (Z.le_gt_cases 0 z) as [Hz | Hz].
  - rewrite unsigned_whole; by apply whole_nonneg.
  - destruct z as [| p | p]; try lia. change (dec (Zneg p)) with ("-" +:+ pretty (Npos p)).
    apply pretty_N_whole.
Qed.

Lemma lacks_digits c s : is_digit c = false → all_chars is_digit s = true → lacks c s = true.
Proof.
  intros Hc Hs. apply (all_chars_impl is_digit); [| done].
  intros x Hx. destruct (Ascii.eqb_spec x c) as [-> |]; [congruence | done].
Qed.

Lemma decimal_tenth z : decimal_ok (tenth_text z) = true.
Proof.
  unfold decimal_ok, tenth_text.
  assert (unsigned (sign_text (z <? 0) +:+ pretty (Z.abs z / 10) +:+ "." +:+ pretty (Z.abs z mod 10))
          = pretty (Z.abs z / 10) +:+ "." +:+ pretty (Z.abs z mod 10)) as ->.
  { destruct (z <? 0); [done |].
    pose proof (whole_nonneg (Z.abs z / 10) ltac:(apply Z.div_pos; lia)) as Hw.
    change (pretty (Z.abs z / 10)) with (dec (Z.abs z / 10)).
    destruct (dec (Z.abs z / 10)) as [| c r]; [done |].
    apply andb_true_iff in Hw as [Hd _]. cbn [all_chars] in Hd. apply andb_true_iff in Hd as [Hd _].
    destruct c as [[] [] [] [] [] [] [] []]; try done; discriminate Hd. }
  pose proof (whole_nonneg (Z.abs z / 10) ltac:(apply Z.div_pos; lia)) as Hw.
  pose proof (whole_nonneg (Z.abs z mod 10) ltac:(apply Z.mod_pos_bound; lia)) as Hf.
  change (pretty ?x) with (dec x).
  change ("." +:+ dec (Z.abs z mod 10)) with (String "." (dec (Z.abs z mod 10))).
  rewrite cut_app.
  - rewrite Hw. cbn [andb]. unfold whole_ok in Hf. apply andb_true_iff in Hf as [-> Hf]. cbn [andb].
    by destruct (dec (Z.abs z mod 10)).
  - apply lacks_digits; [done |]. by apply andb_true_iff in Hw as [? _].
Qed.

(** *** Texts and the documents they fit *)

(** The text does not go on with a character of a number. *)
Definition ends (rest : string) : Prop :=
  match rest with EmptyString => True | String c _ => number_char c = false end.

(** With fuel [n], [t] is read as [v] whatever follows. *)
Definition fits (n : nat) (t : string) (v : json) : Prop :=
  ∀ fuel rest, (n <= fuel)%nat → ends rest → read_value fuel (t +:+ rest) = Some (v, rest).

Lemma span_app P t rest :
  all_chars P t = true → match rest with EmptyString => True | String c _ => P c = false end →
  span P (t +:+ rest) = (t, rest).
Proof.
  induction t as [| c t IH]; intros Ht Hr.
  - change ("" +:+ rest) with rest. destruct rest as [| c r]; [done |]. cbn [span]. by rewrite Hr.
  - rewrite app_String. cbn [all_chars span] in *. apply andb_true_iff in Ht as [-> Ht].
    by rewrite IH.
Qed.

Lemma after_app t s : after t (t +:+ s) = Some s.
Proof.
  induction t as [| c t IH]; [done |]. rewrite app_String. cbn [after]. by rewrite Ascii.eqb_refl.
Qed.

Lemma read_text_app s rest : all_chars text_char s = true → read_text (s +:+ dq +:+ rest) = Some (s, rest).
Proof. intros Hs. unfold read_text. rewrite span_app by done. by rewrite after_app. Qed.

Lemma fits_number t :
  number_ok t = true → all_chars number_char t = true → t ≠ "" → fits 1 t (JNumber t).
Proof.
  intros Hok Ht Hne fuel rest Hf Hr. destruct fuel as [| fuel]; [lia |].
  destruct t as [| c t]; [done |]. rewrite app_String, read_value_S, <-app_String.
  assert (number_char c = true) as Hc by (cbn [all_chars] in Ht; by apply andb_true_iff in Ht as [? _]).
  assert (∀ d, number_char d = false → Ascii.eqb c d = false) as Hd.
  { intros d Hd. destruct (Ascii.eqb_spec c d) as [-> |]; [congruence | done]. }
  rewrite !Hd by done. by rewrite span_app, Hok.
Qed.

Lemma fits_bool b : fits 1 (bool_text b) (JBool b).
Proof.
  intros fuel rest Hf _. destruct fuel as [| fuel]; [lia |].
  destruct b; cbn [bool_text]; rewrite app_String, read_value_S; cbn [Ascii.eqb Bool.eqb andb];
    by rewrite after_app.
Qed.

Lemma fits_text s : all_chars text_char s = true → fits 1 (quoted s) (JText s).
Proof.
  intros Hs fuel rest Hf _. destruct fuel as [| fuel]; [lia |].
  unfold quoted. rewrite !string_app_assoc.
  change (dq +:+ s +:+ dq +:+ rest) with (String dq_char (s +:+ dq +:+ rest)).
  rewrite read_value_S. cbn [Ascii.eqb Bool.eqb andb dq_char].
  by rewrite read_text_app.
Qed.

(** The members of an object, and what follows the last one. *)
Fixpoint members_text (l : list (string * string)) (tail : string) : string :=
  match l with
  | [] => tail
  | [(k, t)] => jkey k +:+ t +:+ tail
  | (k, t) :: l => jkey k +:+ t +:+ "," +:+ members_text l tail
  end.

(** The elements of a list. *)
Fixpoint elements_text (l : list string) (tail : string) : string :=
  match l with
  | [] => tail
  | [t] => t +:+ tail
  | t :: l => t +:+ "," +:+ elements_text l tail
  end.

(** A name, the text of a value and the value. *)
Definition member : Type := string * string * json.

Definition member_fits (n : nat) (m : member) : Prop :=
  let '(k, t, v) := m in all_chars text_char k = true ∧ fits n t v.

Lemma read_members_fit n (l : list member) fuel rest :
  l ≠ [] → Forall (member_fits n) l → (n + length l <= fuel)%nat →
  read_members fuel (members_text (fst <$> l) ("}" +:+ rest))
  = Some ((λ '(k, _, v), (k, v)) <$> l, rest).
Proof.
  intros Hne Hl. revert fuel. induction Hl as [| [[k t] v] l [Hk Hv] _ IH]; intros fuel Hf; [done |].
  cbn [length] in Hf. destruct fuel as [| fuel]; [lia |]. rewrite read_members_S.
  destruct l as [| m l].
  - cbn [fmap list_fmap fst members_text]. unfold jkey, quoted. rewrite !string_app_assoc, after_app.
    cbn [mbind option_bind]. rewrite read_text_app by done. cbn [mbind option_bind fst snd].
    rewrite after_app. cbn [mbind option_bind]. rewrite Hv by (done || lia). done.
  - specialize (IH ltac:(done) fuel ltac:(lia)).
    change (members_text (fst <$> (k, t, v) :: m :: l) ("}" +:+ rest))
      with (jkey k +:+ t +:+ "," +:+ members_text (fst <$> m :: l) ("}" +:+ rest)).
    unfold jkey, quoted. rewrite !string_app_assoc, after_app.
    cbn [mbind option_bind]. rewrite read_text_app by done. cbn [mbind option_bind fst snd].
    rewrite after_app. cbn [mbind option_bind]. rewrite Hv by (done || lia).
    cbn [mbind option_bind fst snd]. rewrite after_app, IH. done.
Qed.

Lemma fits_object n (l : list member) :
  l ≠ [] → Forall (member_fits n) l →
  fits (S (n + length l)) ("{" +:+ members_text (fst <$> l) "}") (JObject ((λ '(k, _, v), (k, v)) <$> l)).
Proof.
  intros Hne Hl fuel rest Hf Hr. destruct fuel as [| fuel]; [lia |].
  assert (∀ tail, members_text (fst <$> l) tail +:+ rest = members_text (fst <$> l) (tail +:+ rest)) as Ht.
  { clear. intros tail. induction l as [| [[k t] v] [| m l] IH]; [done | |].
    - cbn [fmap list_fmap fst members_text]. by rewrite !string_app_assoc.
    - change (members_text (fst <$> (k, t, v) :: m :: l) ?x)
        with (jkey k +:+ t +:+ "," +:+ members_text (fst <$> m :: l) x).
      rewrite !string_app_assoc. by rewrite IH. }
  rewrite string_app_assoc, Ht.
  change ("{" +:+ ?x) with (String "{" x). rewrite read_value_S. cbn [Ascii.eqb Bool.eqb].
  rewrite (read_members_fit n) by (done || lia).
  assert (∀ x, after "}" (members_text (fst <$> l) x) = None) as ->.
  { intros x. by destruct l as [| [[k t] v] [| m l]]. }
  done.
Qed.

Lemma fits_weaken n m t v : (n <= m)%nat → fits n t v → fits m t v.
Proof. intros Hle Hv fuel rest Hf. apply Hv. lia. Qed.

Lemma read_elements_fit n (l : list (string * json)) fuel rest :
  l ≠ [] → Forall (λ e, fits n (fst e) (snd e)) l → (n + length l <= fuel)%nat →
  read_elements fuel (elements_text (fst <$> l) ("]" +:+ rest)) = Some (snd <$> l, rest).
Proof.
  intros Hne Hl. revert fuel. induction Hl as [| [t v] l Hv _ IH]; intros fuel Hf; [done |].
  cbn [fst snd length] in *. destruct fuel as [| fuel]; [lia |]. rewrite read_elements_S.
  destruct l as [| e l].
  - cbn [fmap list_fmap fst elements_text]. rewrite Hv by (done || lia). done.
  - specialize (IH ltac:(done) fuel ltac:(lia)).
    change (elements_text (fst <$> (t, v) :: e :: l) ("]" +:+ rest))
      with (t +:+ "," +:+ elements_text (fst <$> e :: l) ("]" +:+ rest)).
    rewrite Hv by (done || lia). cbn [mbind option_bind fst snd]. rewrite after_app, IH. done.
Qed.

Lemma after_number n t v rest : fits n t v → after "]" (t +:+ rest) = None.
Proof.
  intros Hv. specialize (Hv (S n) "" ltac:(lia) I). destruct t as [| c t]; [done |].
  rewrite app_String, read_value_S in Hv. rewrite app_String. cbn [after].
  destruct (Ascii.eqb_spec "]" c) as [<- |]; [| done]. discriminate Hv.
Qed.

Lemma fits_list n (l : list (string * json)) :
  Forall (λ e, fits n (fst e) (snd e)) l →
  fits (S (n + length l)) ("[" +:+ elements_text (fst <$> l) "]") (JList (snd <$> l)).
Proof.
  intros Hl fuel rest Hf Hr. destruct fuel as [| fuel]; [lia |].
  assert (∀ tail, elements_text (fst <$> l) tail +:+ rest = elements_text (fst <$> l) (tail +:+ rest)) as Ht.
  { clear. intros tail. induction l as [| [t v] [| e l] IH]; [done | |].
    - cbn [fmap list_fmap fst elements_text]. by rewrite !string_app_assoc.
    - change (elements_text (fst <$> (t, v) :: e :: l) ?x)
        with (t +:+ "," +:+ elements_text (fst <$> e :: l) x).
      rewrite !string_app_assoc. by rewrite IH. }
  rewrite string_app_assoc, Ht.
  change ("[" +:+ ?x) with (String "[" x). rewrite read_value_S. cbn [Ascii.eqb Bool.eqb].
  destruct l as [| [t v] l].
  { change (elements_text _ ?x) with x. by rewrite after_app. }
  rewrite (read_elements_fit n) by (done || lia).
  assert (∀ x, after "]" (elements_text (fst <$> (t, v) :: l) x) = None) as ->; [| done].
  intros x. apply Forall_cons in Hl as [Hv _].
  destruct l as [| e l]; cbn [fmap list_fmap fst elements_text]; by eapply after_number.
Qed.

Lemma numeral_number_char s : all_chars is_numeral_char s = true → all_chars number_char s = true.
Proof.
  apply all_chars_impl. intros c. unfold is_numeral_char, number_char, is_digit.
  destruct (Ascii.eqb c "-"), (_ && _)%nat; done.
Qed.

Lemma number_dec z : all_chars number_char (dec z) = true.
Proof. apply numeral_number_char, dec_chars. Qed.

Lemma fits_integer z : fits 1 (dec z) (JNumber (dec z)).
Proof.
  apply fits_number; [| apply number_dec |].
  - unfold number_ok. by rewrite integer_dec.
  - intros He. pose proof (integer_dec z) as Hi. by rewrite He in Hi.
Qed.

Lemma fits_tenth z : fits 1 (tenth_text z) (JNumber (tenth_text z)).
Proof.
  apply fits_number.
  - unfold number_ok. by rewrite decimal_tenth, orb_true_r.
  - unfold tenth_text. rewrite !all_chars_app.
    change (pretty ?x) with (dec x). rewrite !number_dec. by destruct (z <? 0).
  - intros He. pose proof (decimal_tenth z) as Hi. by rewrite He in Hi.
Qed.

#[export] Hint Resolve fits_integer fits_tenth fits_bool fits_text : json.

(** ** The documents of the program *)

Definition plain_text (s : string) : Prop := all_chars text_char s = true.

(** A loop that writes a comma before every element but the first. *)
Lemma separated {A} (loop : nat → list A → string) (f : A → string) :
  (∀ i, loop i [] = "") →
  (∀ i x l, loop i (x :: l) = (if (i =? 0)%nat then "" else ",") +:+ f x +:+ loop (S i) l) →
  ∀ l tail, loop 0%nat l +:+ tail = elements_text (f <$> l) tail.
Proof.
  intros Hnil Hcons.
  assert (∀ l i tail, loop (S i) l +:+ tail
          = match l with [] => tail | _ => "," +:+ elements_text (f <$> l) tail end) as Hs.
  { induction l as [| x l IH]; intros i tail; [by rewrite Hnil |].
    rewrite Hcons, !string_app_assoc, IH. by destruct l. }
  intros [| x l] tail; [by rewrite Hnil |].
  rewrite Hcons, !string_app_assoc, Hs. by destruct l.
Qed.

Lemma warnings_elements ws tail : warnings_loop 0 ws +:+ tail = elements_text (quoted <$> ws) tail.
Proof. by apply separated. Qed.

Lemma devices_elements l tail : devices_loop 0 l +:+ tail = elements_text (device_json <$> l) tail.
Proof. by apply separated. Qed.

(** A reading. *)
Definition reading_members (dev c t h gas mv st sq : Z) (v : bool) (ws : list string) : list member :=
  [("device_id", dec dev, JNumber (dec dev)); ("cmd", dec c, JNumber (dec c));
   ("temperature_c", tenth_text t, JNumber (tenth_text t));
   ("humidity_percent", tenth_text h, JNumber (tenth_text h));
   ("gas_ppm", dec gas, JNumber (dec gas)); ("battery_mv", dec mv, JNumber (dec mv));
   ("status", dec st, JNumber (dec st)); ("sequence", dec sq, JNumber (dec sq));
   ("valid", bool_text v, JBool v)] ++
  (if no_warnings ws then []
   else [("warnings", "[" +:+ elements_text (quoted <$> ws) "]", JList (JText <$> ws))]).

Definition document (l : list member) : json := JObject ((λ '(k, _, v), (k, v)) <$> l).

Definition reading_schema (warned : bool) : schema :=
  SRecord ([("device_id", SInteger); ("cmd", SInteger); ("temperature_c", SDecimal);
            ("humidity_percent", SDecimal); ("gas_ppm", SInteger); ("battery_mv", SInteger);
            ("status", SInteger); ("sequence", SInteger); ("valid", SBool)] ++
           (if warned then [("warnings", SList SText)] else [])).

Lemma reading_text dev c t h gas mv st sq v ws :
  is_i16 t → is_u16 h →
  sensor_data_to_json (set_checks (reading dev c t h gas mv st sq) v ws)
  = "{" +:+ members_text (fst <$> reading_members dev c t h gas mv st sq v ws) "}".
Proof.
  unfold is_i16, is_u16. intros Ht Hh. unfold sensor_data_to_json, reading_members.
  rewrite <-warnings_elements. cbn [set_checks reading device_id cmd temperature_c humidity_percent gas_ppm battery_mv
       status sequence valid warnings].
  rewrite !fixed1_tenth by lia. destruct ws as [| w ws]; [done |].
  cbn [no_warnings app fmap list_fmap fst members_text].
  by rewrite !string_app_assoc.
Qed.

Lemma fits_texts ws :
  Forall plain_text ws →
  fits (2 + length ws) ("[" +:+ elements_text (quoted <$> ws) "]") (JList (JText <$> ws)).
Proof.
  intros Hw. pose proof (fits_list 1 ((λ w, (quoted w, JText w)) <$> ws)) as Hf.
  rewrite <-!list_fmap_compose, length_fmap in Hf. apply Hf.
  apply Forall_fmap. eapply Forall_impl; [exact Hw |]. intros w. apply fits_text.
Qed.

Lemma reads_document n l :
  l ≠ [] → Forall (member_fits n) l → reads_as ("{" +:+ members_text (fst <$> l) "}") (document l).
Proof.
  intros Hne Hl. exists (S (n + length l)).
  pose proof (fits_object n l Hne Hl _ "" (Nat.le_refl _) I) as Hf. by rewrite string_app_nil_r in Hf.
Qed.

Lemma reading_reads dev c t h gas mv st sq v ws :
  Forall plain_text ws →
  reads_as ("{" +:+ members_text (fst <$> reading_members dev c t h gas mv st sq v ws) "}")
    (document (reading_members dev c t h gas mv st sq v ws)).
Proof.
  intros Hw. apply (reads_document (2 + length ws)); [done |]. unfold reading_members.
  apply Forall_app_2.
  - repeat (apply Forall_cons_2; [split; [done |]; eapply (fits_weaken 1); [lia | auto with json] |]).
    apply Forall_nil_2.
  - destruct ws; [apply Forall_nil_2 |]. cbn [no_warnings]. apply Forall_singleton. split; [done |].
    by apply fits_texts.
Qed.

Lemma integer_schema z : has_schema (JNumber (dec z)) SInteger = true.
Proof. apply integer_dec. Qed.

Lemma decimal_schema z : has_schema (JNumber (tenth_text z)) SDecimal = true.
Proof. apply decimal_tenth. Qed.

Lemma has_schema_record l fields :
  Forall2 (λ m f, fst m = fst f ∧ has_schema (snd m) (snd f) = true) l fields →
  has_schema (JObject l) (SRecord fields) = true.
Proof.
  intros Hl. cbn [has_schema]. induction Hl as [| [k v] [k' t] l fields [Hk Hv] _ IH]; [done |].
  cbn [fst snd] in *. subst k'. by rewrite Hv, bool_decide_eq_true_2, IH.
Qed.

Lemma has_schema_list l t :
  Forall (λ v, has_schema v t = true) l → has_schema (JList l) (SList t) = true.
Proof. intros Hl. cbn [has_schema]. induction Hl as [| v l Hv _ IH]; [done |]. cbn. by rewrite Hv. Qed.

#[export] Hint Resolve integer_schema decimal_schema : json.

Ltac schema_fields :=
  repeat (apply Forall2_cons_2;
    [cbn [fst snd]; split; [reflexivity | first [apply integer_schema | apply decimal_schema | reflexivity]] |]);
  try apply Forall2_nil_2.

Lemma reading_has_schema dev c t h gas mv st sq v ws :
  has_schema (document (reading_members dev c t h gas mv st sq v ws))
    (reading_schema (negb (no_warnings ws))) = true.
Proof.
  unfold document, reading_members, reading_schema. rewrite fmap_app. apply has_schema_record.
  apply Forall2_app; [cbn; schema_fields |]. destruct ws as [| w ws]; [apply Forall2_nil_2 |].
  cbn. apply Forall2_cons_2; [| apply Forall2_nil_2]. split; [done |]. cbn [fst snd].
  apply has_schema_list, Forall_cons_2; [done |]. by apply Forall_fmap, Forall_true.
Qed.

(** The health of the gateway. *)
Definition device_members (d : DeviceHealthStatus) : list member :=
  [("device_id", dec (hs_device_id d), JNumber (dec (hs_device_id d)));
   ("protocol", quoted (hs_protocol d), JText (hs_protocol d));
   ("online", bool_text (hs_online d), JBool (hs_online d));
   ("last_update", dec (hs_last_update_unix_seconds d), JNumber (dec (hs_last_update_unix_seconds d)));
   ("error_count", dec (hs_error_count d), JNumber (dec (hs_error_count d)))].

Definition device_schema : schema :=
  SRecord [("device_id", SInteger); ("protocol", SText); ("online", SBool); ("last_update", SInteger);
           ("error_count", SInteger)].

Definition health_members (seen : nat → RuntimeStatus) (uptime : Z) : list member :=
  let self := seen 0%nat in
  let devices := rs_device_statuses self in
  [("status", quoted "ok", JText "ok"); ("version", quoted (rs_version self), JText (rs_version self));
   ("uptime_seconds", dec uptime, JNumber (dec uptime));
   ("serial_workers", dec (rs_serial_worker_count (seen 1%nat)),
      JNumber (dec (rs_serial_worker_count (seen 1%nat))));
   ("input_devices_total", dec (rs_input_device_count (seen 2%nat)),
      JNumber (dec (rs_input_device_count (seen 2%nat))));
   ("device_online", dec (rs_device_online_count (seen 3%nat)),
      JNumber (dec (rs_device_online_count (seen 3%nat))));
   ("device_offline", dec (rs_device_offline_count (seen 4%nat)),
      JNumber (dec (rs_device_offline_count (seen 4%nat))));
   ("mqtt_enabled", bool_text (rs_mqtt_enabled self), JBool (rs_mqtt_enabled self));
   ("tcp_enabled", bool_text (rs_tcp_enabled self), JBool (rs_tcp_enabled self));
   ("cache_backend", quoted (rs_cache_backend self), JText (rs_cache_backend self));
   ("devices", "[" +:+ elements_text (device_json <$> devices) "]",
      JList ((λ d, document (device_members d)) <$> devices))].

Definition health_schema : schema :=
  SRecord [("status", SText); ("version", SText); ("uptime_seconds", SInteger);
           ("serial_workers", SInteger); ("input_devices_total", SInteger); ("device_online", SInteger);
           ("device_offline", SInteger); ("mqtt_enabled", SBool); ("tcp_enabled", SBool);
           ("cache_backend", SText); ("devices", SList device_schema)].

Lemma device_text d : device_json d = "{" +:+ members_text (fst <$> device_members d) "}".
Proof. done. Qed.

Lemma health_text seen uptime :
  health_json seen uptime = "{" +:+ members_text (fst <$> health_members seen uptime) "}".
Proof.
  unfold health_json, health_members. rewrite <-devices_elements.
  cbn [fmap list_fmap fst members_text]. by rewrite !string_app_assoc.
Qed.

Lemma member_fits_weaken n m x : (n <= m)%nat → member_fits n x → member_fits m x.
Proof. destruct x as [[k t] v]. intros Hle [? ?]. split; [done | by eapply fits_weaken]. Qed.

Ltac member_fields :=
  repeat (apply Forall_cons_2; [by split; [| eapply (fits_weaken 1); [lia | auto with json]] |]);
  try apply Forall_nil_2.

Lemma device_fits d : plain_text (hs_protocol d) → fits 7 (device_json d) (document (device_members d)).
Proof.
  intros Hp. rewrite device_text. apply (fits_object 1 (device_members d)); [done |].
  unfold device_members. member_fields.
Qed.

Lemma health_reads seen uptime :
  plain_text (rs_version (seen 0%nat)) → plain_text (rs_cache_backend (seen 0%nat)) →
  Forall (λ d, plain_text (hs_protocol d)) (rs_device_statuses (seen 0%nat)) →
  reads_as (health_json seen uptime) (document (health_members seen uptime)).
Proof.
  intros Hv Hc Hd. rewrite health_text.
  apply (reads_document (8 + length (rs_device_statuses (seen 0%nat)))); [done |].
  unfold health_members. member_fields. apply Forall_singleton. split; [done |].
  pose proof (fits_list 7 ((λ d, (device_json d, document (device_members d)))
                           <$> rs_device_statuses (seen 0%nat))) as Hf.
  rewrite <-!list_fmap_compose, length_fmap in Hf. apply Hf, Forall_fmap.
  eapply Forall_impl; [exact Hd |]. intros d. apply device_fits.
Qed.

Lemma device_has_schema d : has_schema (document (device_members d)) device_schema = true.
Proof. apply has_schema_record. unfold device_members. cbn. schema_fields. Qed.

Lemma health_has_schema seen uptime : has_schema (document (health_members seen uptime)) health_schema = true.
Proof.
  apply has_schema_record. unfold health_members. cbn. schema_fields.
  apply Forall2_cons_2; [| apply Forall2_nil_2]. split; [done |]. cbn [fst snd].
  apply has_schema_list, Forall_fmap, Forall_true, device_has_schema.
Qed.

(** The readiness of the gateway; the loads are those of [readiness_json]. *)
Definition readiness_checks (seen : nat → RuntimeStatus) : list member :=
  [("config_loaded", bool_text (rs_config_loaded (seen 0%nat)), JBool (rs_config_loaded (seen 0%nat)));
   ("cache_ready", bool_text (rs_cache_ready (seen 1%nat)), JBool (rs_cache_ready (seen 1%nat)));
   ("serial_workers_started", bool_text (rs_serial_workers_started (seen 2%nat)),
      JBool (rs_serial_workers_started (seen 2%nat)))].

Definition readiness_members (seen : nat → RuntimeStatus) : list member :=
  let self := seen 0%nat in
  let '(is_ready, loads) := ready (from 3 seen) in
  let rest := from (3 + loads) seen in
  [("ready", bool_text is_ready, JBool is_ready);
   ("checks", "{" +:+ members_text (fst <$> readiness_checks seen) "}", document (readiness_checks seen));
   ("serial_worker_count", dec (rs_serial_worker_count (rest 0%nat)),
      JNumber (dec (rs_serial_worker_count (rest 0%nat))));
   ("input_devices_total", dec (rs_input_device_count (rest 1%nat)),
      JNumber (dec (rs_input_device_count (rest 1%nat))));
   ("mqtt_enabled", bool_text (rs_mqtt_enabled self), JBool (rs_mqtt_enabled self));
   ("tcp_enabled", bool_text (rs_tcp_enabled self), JBool (rs_tcp_enabled self));
   ("cache_backend", quoted (rs_cache_backend self), JText (rs_cache_backend self))].

Definition readiness_schema : schema :=
  SRecord [("ready", SBool);
           ("checks", SRecord [("config_loaded", SBool); ("cache_ready", SBool);
                               ("serial_workers_started", SBool)]);
           ("serial_worker_count", SInteger); ("input_devices_total", SInteger);
           ("mqtt_enabled", SBool); ("tcp_enabled", SBool); ("cache_backend", SText)].

Lemma readiness_text seen :
  fst (readiness_json seen) = "{" +:+ members_text (fst <$> readiness_members seen) "}".
Proof.
  unfold readiness_json, readiness_members, readiness_checks. destruct (ready (from 3 seen)) as [ok loads].
  cbn [fmap list_fmap fst members_text]. by rewrite !string_app_assoc.
Qed.

Lemma readiness_reads seen :
  plain_text (rs_cache_backend (seen 0%nat)) →
  reads_as (fst (readiness_json seen)) (document (readiness_members seen)).
Proof.
  intros Hc. rewrite readiness_text.
  apply (reads_document 6); unfold readiness_members; destruct (ready (from 3 seen)) as [ok loads]; [done |].
  apply Forall_cons_2; [split; [done |]; eapply (fits_weaken 1); [lia | auto with json] |].
  apply Forall_cons_2; [split; [done |] |].
  - eapply fits_weaken; [| apply (fits_object 1 (readiness_checks seen)); [done |]]; [cbn; lia |].
    unfold readiness_checks. member_fields.
  - member_fields.
Qed.

Lemma readiness_has_schema seen :
  has_schema (document (readiness_members seen)) readiness_schema = true.
Proof.
  unfold readiness_members. destruct (ready (from 3 seen)) as [ok loads].
  apply has_schema_record. cbn. schema_fields.
Qed.

(** ** Properties *)

(** The texts of a status that come from outside this code: they are written as they
    are. *)
Record plain_status (s : RuntimeStatus) : Prop := mk_plain_status {
  ps_version : plain_text (rs_version s);
  ps_backend : plain_text (rs_cache_backend s);
  ps_protocols : Forall (λ d, plain_text (hs_protocol d)) (rs_device_statuses s);
}.

(** C34: The JSON texts are documents of their schemas. What a standard reader makes of
    the text of a reading, with or without warnings, is the object with its documented
    members in order, integers as integers, the two measured values as exact decimal
    tenths; and the health and readiness texts, whatever the loads of the members see,
    are read as the objects of their schemas with the values loaded, as long as the
    version, the name of the cache and the protocol names need no escape. A text has
    at most one reading. *)
Theorem json_documents :
  (∀ s v w, reads_as s v → reads_as s w → v = w) ∧
  (∀ dev c t h gas mv st sq v ws, is_i16 t → is_u16 h → Forall plain_text ws →
     let doc := document (reading_members dev c t h gas mv st sq v ws) in
     reads_as (sensor_data_to_json (set_checks (reading dev c t h gas mv st sq) v ws)) doc ∧
     has_schema doc (reading_schema (negb (no_warnings ws))) = true) ∧
  (∀ t h gas mv st, Forall plain_text (raw_warnings t h gas mv st)) ∧
  (∀ seen uptime, plain_status (seen 0%nat) →
     let doc := document (health_members seen uptime) in
     reads_as (health_json seen uptime) doc ∧ has_schema doc health_schema = true) ∧
  (∀ seen, plain_status (seen 0%nat) →
     let doc := document (readiness_members seen) in
     reads_as (fst (readiness_json seen)) doc ∧ has_schema doc readiness_schema = true).
Proof.
  split_and!.
  - apply reads_as_fun.
  - intros * Ht Hh Hw doc. split; [| apply reading_has_schema].
    rewrite reading_text by done. by apply reading_reads.
  - intros. unfold raw_warnings. repeat apply Forall_app_2; case_match; (apply Forall_nil_2 || by apply Forall_singleton).
  - intros seen uptime [] doc. split; [by apply health_reads | apply health_has_schema].
  - intros seen [] doc. split; [by apply readiness_reads | apply readiness_has_schema].
Qed.

(** A reading with a warning, and the health and readiness of a gateway with one device:
    the documents are computed by the reader as well. *)
Definition one_device : RuntimeStatus :=
  mk_status "0.1.0" "file" true false true true true 1 1 1 0
    [mk_health 7 "modbus_rtu" true 1700000000 0].

Lemma json_documents_witness :
  let warned := set_checks (reading 1 1 (-5) 612 900 2900 0 1) false ["battery voltage out of range"] in
  reads_as (sensor_data_to_json warned)
    (document (reading_members 1 1 (-5) 612 900 2900 0 1 false ["battery voltage out of range"])) ∧
  option_map fst (read_value 20 (sensor_data_to_json warned)) =
    Some (document (reading_members 1 1 (-5) 612 900 2900 0 1 false ["battery voltage out of range"])) ∧
  reads_as (health_json (λ _, one_device) 60) (document (health_members (λ _, one_device) 60)) ∧
  reads_as (fst (readiness_json (λ _, one_device))) (document (readiness_members (λ _, one_device))).
Proof.
  assert (plain_status one_device) as Hs by (split; [done | done | by apply Forall_singleton]).
  destruct json_documents as (_ & Hr & _ & Hh & Hd). split; [| split; [| split]].
  - apply Hr; [split; by vm_compute | split; by vm_compute | by apply Forall_singleton].
  - vm_compute. reflexivity.
  - by apply Hh.
  - by apply Hd.
Defined.
