(* ===== verification/Publisher.v ===== *)
(** * Publishing channels ([src/publisher/])

    The publisher interface, the group that hands every message to each of its
    publishers in turn, and the publisher of the TCP channel. A publisher acts on a
    world [W], the shared objects it refers to. *)

From S2P Require Import Prelude Text Posix ReliablePublisher TcpClient.

(** ** The code *)

Record Publisher (W : Type) : Type := mk_publisher {
  pub_channel : string;
  pub_publish : W → string → string → exec (PublishStatus * W);
}.
Arguments mk_publisher {W}. Arguments pub_channel {W}. Arguments pub_publish {W}.

Record PublishOutcome : Type := mk_outcome {
  po_channel : string;
  po_status : PublishStatus;
}.

Definition PublisherGroup (W : Type) : Type := list (Publisher W).

Definition pg_add {W} (group : PublisherGroup W) (publisher : Publisher W) : PublisherGroup W :=
  group ++ [publisher].

Fixpoint pg_publish {W} (group : PublisherGroup W) (w : W) (topic payload : string)
    : exec (list PublishOutcome * W) :=
  match group with
  | [] => Ret ([], w)
  | publisher :: rest =>
      '(status, w) ← pub_publish publisher w topic payload;
      '(outcomes, w) ← pg_publish rest w topic payload;
      Ret (mk_outcome (pub_channel publisher) status :: outcomes, w)
  end.

Definition pg_size {W} (group : PublisherGroup W) : nat := length group.

(** The client, the descriptors and what was put on the connection. *)
Definition tcp_publish (fd : TcpClient) (o : os) (env : tcp_env) (topic payload : string)
    : exec (PublishStatus * TcpClient * os * list Z) :=
  '(ok, fd, o, line) ← send_json fd o env payload;
  Ret (if ok : bool then Published else Failed, fd, o, line).
