(* ===== verification/Shutdown.v ===== *)
(** * The shutdown request ([src/app/shutdown_signal.cpp])

    The flag the signal handler sets, and the wait of the main loop, which tests it
    at least every 50 ms. The clock and the moments the handler runs are inputs. *)

From S2P Require Import Prelude.

Local Open Scope Z_scope.

(** Which [sigaction] calls succeed: the error text otherwise. *)
Definition install_handler (result : option string) (signal_name : string) : bool * string :=
  match result with
  | Some error => (false, "install " +:+ signal_name +:+ " handler failed: " +:+ error)
  | None => (true, "")
  end.

(** The result, the error message and the signals that are now handled. *)
Definition install_shutdown_signal_handlers (sigint sigterm : option string)
    : bool * string * list string :=
  let '(ok, message) := install_handler sigint "SIGINT" in
  if negb ok then (false, message, [])
  else
    let '(ok, message) := install_handler sigterm "SIGTERM" in
    if negb ok then (false, message, ["SIGINT"]) else (true, "", ["SIGINT"; "SIGTERM"]).

(** One turn of the waiting loop: the flag when it is tested, and the clock after. *)
Record wait_turn : Type := mk_wait_turn {
  wt_flag : bool;
  wt_now : Z;                      (** nanoseconds *)
}.

Definition kPollInterval : Z := 50.

(** [duration_cast<milliseconds>], then [min] with 50 ms. *)
Definition sleep_milliseconds (deadline now : Z) : Z :=
  Z.min ((deadline - now) / 1000000) kPollInterval.

(** The [while] loop: the milliseconds slept in each turn. *)
Fixpoint wait_loop (deadline : Z) (turns : list wait_turn) (slept : list Z) : exec (list Z) :=
  match turns with
  | [] => OutOfFuel
  | t :: rest =>
      if wt_flag t then Ret slept
      else if deadline <=? wt_now t then Ret slept
      else wait_loop deadline rest (slept ++ [sleep_milliseconds deadline (wt_now t)])
  end.

(** [final]: the flag at the last test. *)
Definition wait_for_shutdown (start timeout_ms : Z) (turns : list wait_turn) (final : bool)
    : exec (bool * list Z) :=
  slept ← wait_loop (start + timeout_ms * 1000000) turns [];
  Ret (final, slept).

(** ** Facts *)

Lemma wait_loop_ends deadline turns slept :
  Exists (λ t, wt_flag t = true ∨ deadline <= wt_now t) turns →
  ∃ s, wait_loop deadline turns slept = Ret s.
Proof.
  intros He. revert slept. induction He as [t rest Ht | t rest _ IH]; intros slept; cbn [wait_loop].
  - destruct (wt_flag t); [by eexists |]. destruct Ht as [| Ht]; [done |].
    destruct (Z.leb_spec deadline (wt_now t)); [by eexists | lia].
  - destruct (wt_flag t); [by eexists |]. destruct (deadline <=? wt_now t); [by eexists | done].
Qed.

(** No sleep is longer than 50 ms, and none passes the deadline. *)
Lemma wait_loop_sleeps deadline turns slept s :
  Forall (λ ms, 0 <= ms <= kPollInterval) slept → wait_loop deadline turns slept = Ret s →
  Forall (λ ms, 0 <= ms <= kPollInterval) s.
Proof.
  revert slept. induction turns as [| t rest IH]; intros slept Hs; [done |]. cbn [wait_loop].
  destruct (wt_flag t); [by intros [= <-] |].
  destruct (Z.leb_spec deadline (wt_now t)); [by intros [= <-] |].
  apply IH, Forall_app_2; [done |]. apply Forall_singleton. unfold sleep_milliseconds.
  pose proof (Z.div_pos (deadline - wt_now t) 1000000). unfold kPollInterval. lia.
Qed.
