(* ===== verification/Gateway.v ===== *)
(** * The gateway ([src/main.cpp])

    The handlers that connect the devices to the publishers, the metrics and the
    logger, and what they amount to over the handler calls of a worker. The main
    thread is in MainThread. *)

From stdpp Require Import gmap.
From S2P Require Import Prelude Text Float64 SensorData DeviceData Posix SerialPort Modbus ModbusDevice UartDevice CanDevice DeviceInterface DeviceManager RuntimeMetrics MessageCache FileCache ReliablePublisher TcpClient MqttClient ConfigData Publisher Logger RuntimeStatus.

Local Open Scope Z_scope.

(** ** The handlers *)

Definition build_mqtt_topic (topic_prefix : string) (sensor_data : SensorData) : string :=
  topic_prefix +:+ "/" +:+ dec (device_id sensor_data) +:+ "/data".

Definition parse_log_level (level : string) : Level :=
  if bool_decide (level = "INFO") then Info
  else if bool_decide (level = "WARN") then Warn
  else if bool_decide (level = "ERROR") then Error
  else Debug_.

(** The shared objects the handlers refer to, with a record of what they did: the
    updates of the metrics, the messages given to the MQTT client, what each call of
    [send_json] put on the TCP connection, with its result, and the calls of the logger. [w_mqtt_envs] and
    [w_tcp_envs] are how the system answers the publications to come. *)
Record world (M C E AEnv LEnv : Type) : Type := mk_world {
  w_mqtt : M;
  w_cache : C;
  w_tcp : TcpClient;
  w_os : os;
  w_updates : list update;
  w_attempts : list attempt;
  w_sends : list (list Z * bool);
  w_log : list log_call;
  w_mqtt_envs : list (publish_env E AEnv LEnv);
  w_tcp_envs : list tcp_env;
}.
Arguments mk_world {M C E AEnv LEnv}.
Arguments w_mqtt {M C E AEnv LEnv}. Arguments w_cache {M C E AEnv LEnv}.
Arguments w_tcp {M C E AEnv LEnv}. Arguments w_os {M C E AEnv LEnv}.
Arguments w_updates {M C E AEnv LEnv}. Arguments w_attempts {M C E AEnv LEnv}.
Arguments w_sends {M C E AEnv LEnv}. Arguments w_log {M C E AEnv LEnv}.
Arguments w_mqtt_envs {M C E AEnv LEnv}. Arguments w_tcp_envs {M C E AEnv LEnv}.

Section handlers.
Context `{MqttPublish M E} `{MessageCache C AEnv LEnv REnv}.

Abbreviation W := (world M C E AEnv LEnv).

Definition count (us : list update) (w : W) : W :=
  mk_world (w_mqtt w) (w_cache w) (w_tcp w) (w_os w) (w_updates w ++ us) (w_attempts w) (w_sends w)
           (w_log w) (w_mqtt_envs w) (w_tcp_envs w).
Definition log (at_ : Level) (module message : string) (w : W) : W :=
  mk_world (w_mqtt w) (w_cache w) (w_tcp w) (w_os w) (w_updates w) (w_attempts w) (w_sends w)
           (w_log w ++ [mk_log_call at_ module message]) (w_mqtt_envs w) (w_tcp_envs w).

(** [ReliablePublisher] with the metrics. *)
Definition mqtt_publisher : Publisher W :=
  mk_publisher "mqtt" (λ w topic payload,
    match w_mqtt_envs w with
    | [] => OutOfFuel
    | env :: envs =>
        let '(status, (m, c), attempts, us) :=
          rp_publish true (w_mqtt w) (w_cache w) env topic payload in
        Ret (status, mk_world m c (w_tcp w) (w_os w) (w_updates w ++ us) (w_attempts w ++ attempts)
                              (w_sends w) (w_log w) envs (w_tcp_envs w))
    end).

Definition tcp_publisher : Publisher W :=
  mk_publisher "tcp" (λ w topic payload,
    match w_tcp_envs w with
    | [] => OutOfFuel
    | env :: envs =>
        '(status, fd, o, line) ← tcp_publish (w_tcp w) (w_os w) env topic payload;
        Ret (status, mk_world (w_mqtt w) (w_cache w) fd o (w_updates w) (w_attempts w)
                              (w_sends w ++ [(line, bool_decide (status = Published))])
                              (w_log w) (w_mqtt_envs w) envs)
    end).

(** The publishers [run_gateway] puts in the group. *)
Definition gateway_publishers (gateway_config : GatewayConfig) : PublisherGroup W :=
  let publishers := pg_add [] mqtt_publisher in
  if tc_enabled (gc_tcp gateway_config) then pg_add publishers tcp_publisher else publishers.

(** The body of the loop over the outcomes. *)
Definition note_outcome (w : W) (outcome : PublishOutcome) : W :=
  let message := "publish result=" +:+ publish_status_text (po_status outcome) in
  let w := if bool_decide (po_status outcome = Failed)
           then log Warn (po_channel outcome) message w
           else log Debug_ (po_channel outcome) message w in
  if bool_decide (po_channel outcome = "tcp") then
    if bool_decide (po_status outcome = Published)
    then count [Add TcpPublishSuccess 1] w
    else count [Add TcpPublishFailed 1] w
  else w.

Definition publish_sensor_data (sensor_data : SensorData) (protocol : ProtocolType)
    (mqtt_topic_prefix : string) (publishers : PublisherGroup W) (w : W) : exec W :=
  let json := sensor_data_to_json sensor_data in
  let protocol_name := protocol_to_string protocol in
  if negb (valid sensor_data)
  then Ret (count [Add ProtocolErrors 1] (log Warn protocol_name ("invalid sensor data: " +:+ json) w))
  else
    let w := log Info "sensor" ("parsed data: " +:+ json +:+ ", protocol=" +:+ protocol_name) w in
    '(outcomes, w) ← pg_publish publishers w (build_mqtt_topic mqtt_topic_prefix sensor_data) json;
    Ret (foldl note_outcome w outcomes).

(** The data handler given to the device manager. *)
Definition on_data (gateway_config : GatewayConfig) (data : SensorData) (protocol : ProtocolType)
    (w : W) : exec W :=
  let w := count [Add FramesParsed 1] w in
  publish_sensor_data data protocol (qc_topic_prefix (gc_mqtt gateway_config))
    (gateway_publishers gateway_config) w.

(** The error handler given to the device manager. *)
Definition error_updates (protocol : ProtocolType) (stats : ProtocolErrorStats) : list update :=
  let invalid_frames := invalid_frame_count stats in
  let protocol_errors := if stats_empty stats then 1 else stats_total stats in
  (if 0 <? crc_errors stats then [Add CrcErrors (crc_errors stats)] else []) ++
  (if 0 <? length_errors stats then [Add LengthErrors (length_errors stats)] else []) ++
  (if 0 <? invalid_frames then [Add FramesInvalid invalid_frames] else []) ++
  [Add ProtocolErrors protocol_errors] ++
  (match protocol with
   | ModbusRtu => [Add ModbusErrors protocol_errors]
   | SocketCan => [Add CanErrors protocol_errors]
   | Uart => []
   end).

Definition on_error (protocol : ProtocolType) (code : ReadCode) (error : string)
    (stats : ProtocolErrorStats) (w : W) : W :=
  let w := count (error_updates protocol stats) w in
  let message := if bool_decide (error = "") then "protocol input rejected" else error in
  let message := if 0 <? overflow_bytes stats
                 then message +:+ ", overflow_bytes=" +:+ dec (overflow_bytes stats) else message in
  log Warn (protocol_to_string protocol) message w.

(** The handler calls of a worker, made in the order of its trace. *)
Definition handle_action (gateway_config : GatewayConfig) (w : W) (a : action) : exec W :=
  match a with
  | DataCall data protocol => on_data gateway_config data protocol w
  | ErrorCall protocol code error stats => Ret (on_error protocol code error stats w)
  | _ => Ret w
  end.

Fixpoint handle_actions (gateway_config : GatewayConfig) (w : W) (acts : list action) : exec W :=
  match acts with
  | [] => Ret w
  | a :: rest => w ← handle_action gateway_config w a; handle_actions gateway_config w rest
  end.
End handlers.

(** ** What the handlers amount to *)

(** The message published for a reading: only valid readings have one. *)
Definition reading_message (gateway_config : GatewayConfig) (a : action) : option CachedMessage :=
  match a with
  | DataCall data _ =>
      if valid data
      then Some (mk_message
        (qc_topic_prefix (gc_mqtt gateway_config) +:+ "/" +:+ dec (device_id data) +:+ "/data")
        (sensor_data_to_json data))
      else None
  | _ => None
  end.

Definition messages (gateway_config : GatewayConfig) (acts : list action) : list CachedMessage :=
  omap (reading_message gateway_config) acts.

Definition sum_by {A} (f : A → Z) (l : list A) : Z := foldr (λ a, Z.add (f a)) 0 l.

Lemma sum_by_app {A} (f : A → Z) l k : sum_by f (l ++ k) = sum_by f l + sum_by f k.
Proof. unfold sum_by. induction l as [| a l IH]; cbn [app foldr]; [done | rewrite IH; lia]. Qed.

Definition one_if (b : bool) : Z := if b then 1 else 0.

(** What a handler call adds to a counter by itself. *)
Definition call_count (c : counter) (a : action) : Z :=
  match a, c with
  | DataCall _ _, FramesParsed => 1
  | DataCall data _, ProtocolErrors => one_if (negb (valid data))
  | ErrorCall _ _ _ stats, CrcErrors => Z.max 0 (crc_errors stats)
  | ErrorCall _ _ _ stats, LengthErrors => Z.max 0 (length_errors stats)
  | ErrorCall _ _ _ stats, FramesInvalid => invalid_frame_count stats
  | ErrorCall _ _ _ stats, ProtocolErrors => call_errors stats
  | ErrorCall ModbusRtu _ _ stats, ModbusErrors => call_errors stats
  | ErrorCall SocketCan _ _ stats, CanErrors => call_errors stats
  | _, _ => 0
  end.

(** What a publication on the MQTT channel adds. *)
Definition publication_count (c : counter) (o : CachedMessage * PublishStatus) : Z :=
  match c, snd o with
  | MqttPublishSuccess, Published | MqttPublishFailed, Deferred | MqttPublishFailed, Failed
  | CacheEnqueue, Deferred => 1
  | _, _ => 0
  end.

(** What a send on the TCP channel adds. *)
Definition send_count (c : counter) (s : string * bool) : Z :=
  match c, snd s with
  | TcpPublishSuccess, true | TcpPublishFailed, false => 1
  | _, _ => 0
  end.

Section facts.
Context `{MqttPublish M E} `{CacheLaws C AEnv LEnv REnv}.
Context (gateway_config : GatewayConfig).

Abbreviation W := (world M C E AEnv LEnv).
Implicit Types (w : W).

Abbreviation tcp_on := (tc_enabled (gc_tcp gateway_config)).

(** The effect of handler calls on the shared objects. *)
Record effect w (acts : list action) (outs : list (CachedMessage * PublishStatus))
    (sends : list (string * bool)) (us : list update) w' : Prop := mk_effect {
  ef_messages : fst <$> outs = messages gateway_config acts;
  ef_attempts : w_attempts w'
                = w_attempts w ++ ((λ o, (fst o, bool_decide (snd o = Published))) <$> outs);
  ef_cache : cache_ok (w_cache w') ∧ cached (w_cache w') = cached (w_cache w) ++ with_status Deferred outs;
  ef_payloads : fst <$> sends = if tcp_on then msg_payload <$> messages gateway_config acts else [];
  ef_sends : ∃ lines, w_sends w' = w_sends w ++ lines ∧ Forall2 sent_as sends lines;
  ef_updates : w_updates w' = w_updates w ++ us;
  ef_counts : ∀ c, total_added c us = sum_by (call_count c) acts + sum_by (publication_count c) outs
                                      + sum_by (send_count c) sends;
  ef_envs : ∃ used, w_mqtt_envs w = used ++ w_mqtt_envs w';
}.

Lemma total_added_app c us us' : total_added c (us ++ us') = total_added c us + total_added c us'.
Proof. exact (sum_by_app (added_to c) us us'). Qed.

Lemma total_added_if c c' n :
  total_added c (if 0 <? n then [Add c' n] else []) = if decide (c' = c) then Z.max 0 n else 0.
Proof. destruct (Z.ltb_spec 0 n); cbn; case_decide; lia. Qed.

Lemma effect_none w :
  cache_ok (w_cache w) → effect w [] [] [] [] w.
Proof.
  intros Hok. split; try done; try (by rewrite app_nil_r); [by destruct tcp_on | exists []; by rewrite app_nil_r | by exists []].
Qed.

Lemma effect_trans w1 a1 o1 s1 u1 w2 a2 o2 s2 u2 w3 :
  effect w1 a1 o1 s1 u1 w2 → effect w2 a2 o2 s2 u2 w3 →
  effect w1 (a1 ++ a2) (o1 ++ o2) (s1 ++ s2) (u1 ++ u2) w3.
Proof.
  intros [M1 A1 [_ C1] P1 (l1 & S1 & L1) U1 N1 [e1 E1]] [M2 A2 [Hok C2] P2 (l2 & S2 & L2) U2 N2 [e2 E2]]. split.
  - unfold messages in *. by rewrite fmap_app, omap_app, M1, M2.
  - by rewrite A2, A1, fmap_app, app_assoc.
  - split; [done |]. by rewrite C2, C1, with_status_app, app_assoc.
  - unfold messages in *. rewrite fmap_app, P1, P2, omap_app, fmap_app. by destruct tcp_on.
  - exists (l1 ++ l2). split; [by rewrite S2, S1, app_assoc | by apply Forall2_app].
  - by rewrite U2, U1, app_assoc.
  - intros c. rewrite total_added_app, N1, N2, !sum_by_app. lia.
  - exists (e1 ++ e2). by rewrite E1, E2, app_assoc.
Qed.

(** Calls of the logger and updates leave the publishers alone. *)
Lemma effect_count w acts us :
  cache_ok (w_cache w) → messages gateway_config acts = [] →
  (∀ c, total_added c us = sum_by (call_count c) acts) → effect w acts [] [] us (count us w).
Proof.
  intros Hok Hm Hc. split; cbn; try (by rewrite app_nil_r); try done.
  - rewrite Hm. by destruct tcp_on.
  - exists []. by rewrite app_nil_r.
  - intros c. rewrite Hc. cbn. lia.
  - by exists [].
Qed.

Lemma effect_log w w' acts outs sends us at_ module message :
  effect w acts outs sends us w' → effect w acts outs sends us (log at_ module message w').
Proof. intros []. by split. Qed.

Lemma error_updates_count protocol code error stats c :
  0 <= crc_errors stats → 0 <= length_errors stats →
  total_added c (error_updates protocol stats) = call_count c (ErrorCall protocol code error stats).
Proof.
  intros Hc Hl. unfold error_updates. rewrite !total_added_app, !total_added_if.
  assert (0 <= invalid_frame_count stats) as Hi by apply u64_range.
  fold (call_errors stats). rewrite (Z.max_r 0 (invalid_frame_count stats)) by done.
  destruct protocol, c; cbn [call_count total_added foldr added_to];
    repeat (case_decide; try done); lia.
Qed.

Lemma on_error_effect w protocol code error stats :
  cache_ok (w_cache w) → 0 <= crc_errors stats → 0 <= length_errors stats →
  effect w [ErrorCall protocol code error stats] [] [] (error_updates protocol stats)
         (on_error protocol code error stats w).
Proof.
  intros Hok Hc Hl. unfold on_error. apply effect_log, effect_count; [done | done |].
  intros c. rewrite (error_updates_count _ code error) by done. cbn. lia.
Qed.

Lemma rp_publish_counts m c env topic payload x :
  let '(r, _, _, us) := rp_publish true m c env topic payload in
  ∀ ct, total_added ct us = publication_count ct (x, r).
Proof.
  unfold rp_publish. destruct (mqtt_publish m (pe_mqtt env) topic payload) as [[] m1].
  - intros []; cbn; repeat (case_decide; try done); lia.
  - destruct (append c (pe_append env) topic payload) as [[] c1];
      intros []; cbn; repeat (case_decide; try done); lia.
Qed.

(** A publication on the MQTT channel. *)
Lemma mqtt_publisher_effect w x r w' :
  cache_ok (w_cache w) → storable x → Forall (λ env, append_benign (pe_append env)) (w_mqtt_envs w) →
  pub_publish mqtt_publisher w (msg_topic x) (msg_payload x) = Ret (r, w') →
  ∃ us,
    w_attempts w' = w_attempts w ++ [(x, bool_decide (r = Published))] ∧
    cache_ok (w_cache w') ∧
    cached (w_cache w') = cached (w_cache w) ++ (if decide (r = Deferred) then [x] else []) ∧
    w_updates w' = w_updates w ++ us ∧ (∀ c, total_added c us = publication_count c (x, r)) ∧
    w_tcp w' = w_tcp w ∧ w_os w' = w_os w ∧ w_sends w' = w_sends w ∧ w_log w' = w_log w ∧
    w_tcp_envs w' = w_tcp_envs w ∧ ∃ env, w_mqtt_envs w = env :: w_mqtt_envs w'.
Proof.
  intros Hok Hx Hb. cbn [pub_publish mqtt_publisher].
  destruct (w_mqtt_envs w) as [| env envs]; [done |]. apply Forall_cons in Hb as [Hb _].
  pose proof (rp_publish_ok (w_mqtt w) (w_cache w) env x Hok Hb Hx) as Hp.
  pose proof (rp_publish_counts (w_mqtt w) (w_cache w) env (msg_topic x) (msg_payload x) x) as Hc.
  destruct (rp_publish true _ _ env _ _) as [[[r' [m1 c1]] at1] us]. destruct Hp as (Hok1 & -> & Hc1).
  intros [= <- <-]. exists us. cbn. split_and!; try done. by exists env.
Qed.

(** A publication on the TCP channel: the result is that of [send_json]. *)
Lemma tcp_publisher_effect w topic payload r w' :
  pub_publish tcp_publisher w topic payload = Ret (r, w') →
  ∃ ok line, r = (if ok : bool then Published else Failed) ∧
    w_sends w' = w_sends w ++ [line] ∧ sent_as (payload, ok) line ∧
    w_cache w' = w_cache w ∧ w_attempts w' = w_attempts w ∧ w_updates w' = w_updates w ∧
    w_mqtt_envs w' = w_mqtt_envs w ∧ w_log w' = w_log w.
Proof.
  cbn [pub_publish tcp_publisher]. destruct (w_tcp_envs w) as [| env envs]; [done |].
  unfold tcp_publish. destruct (send_json _ _ env payload) as [[[[ok fd] o] line] | |] eqn:Hs; try discriminate.
  apply send_json_sent in Hs. cbn. intros [= <- <-]. exists ok, (line, ok). cbn. by destruct ok.
Qed.

(** Everything but the metrics and the log is as before. *)
Definition same_channels w w' : Prop :=
  w_cache w' = w_cache w ∧ w_attempts w' = w_attempts w ∧ w_sends w' = w_sends w ∧
  w_mqtt_envs w' = w_mqtt_envs w.

Lemma note_outcome_same w o : same_channels w (note_outcome w o).
Proof.
  unfold note_outcome.
  destruct (bool_decide (po_status o = Failed)), (bool_decide (po_channel o = "tcp")),
    (bool_decide (po_status o = Published)); by cbn.
Qed.

Lemma note_outcome_updates w o :
  w_updates (note_outcome w o) = w_updates w ++
    (if decide (po_channel o = "tcp")
     then [Add (if decide (po_status o = Published) then TcpPublishSuccess else TcpPublishFailed) 1]
     else []).
Proof.
  unfold note_outcome. destruct (bool_decide (po_status o = Failed)); cbn;
    repeat (case_bool_decide; case_decide; try done); cbn; by rewrite ?app_nil_r.
Qed.

(** The group of the gateway: the MQTT channel first, the TCP channel if enabled. *)
Lemma publishers_run w topic payload outcomes w' :
  pg_publish (gateway_publishers gateway_config) w topic payload = Ret (outcomes, w') →
  ∃ r w2, pub_publish mqtt_publisher w topic payload = Ret (r, w2) ∧
    (tcp_on = false ∧ outcomes = [mk_outcome "mqtt" r] ∧ w' = w2 ∨
     ∃ r3, tcp_on = true ∧ outcomes = [mk_outcome "mqtt" r; mk_outcome "tcp" r3] ∧
           pub_publish tcp_publisher w2 topic payload = Ret (r3, w')).
Proof.
  unfold gateway_publishers, pg_add. cbn [app]. intros Hrun.
  destruct (pub_publish mqtt_publisher w topic payload) as [[r w2] | |] eqn:H2;
    [| by destruct tcp_on; cbn [pg_publish] in Hrun; rewrite H2 in Hrun ..].
  exists r, w2. split; [done |].
  destruct tcp_on; cbn [pg_publish] in Hrun; rewrite H2 in Hrun; cbn [mbind exec_bind] in Hrun.
  - destruct (pub_publish tcp_publisher w2 topic payload) as [[r3 w3] | |]; try discriminate.
    right. exists r3. by injection Hrun as <- <-.
  - left. by injection Hrun as <- <-.
Qed.

(** Publishing a valid reading; [w1] is the world after the count and the log line. *)
Lemma publish_effect w w1 a x outcomes w3 :
  same_channels w w1 → w_updates w1 = w_updates w ++ [Add FramesParsed 1] →
  cache_ok (w_cache w) → Forall (λ env, append_benign (pe_append env)) (w_mqtt_envs w) →
  storable x → messages gateway_config [a] = [x] →
  (∀ c, sum_by (call_count c) [a] = if decide (FramesParsed = c) then 1 else 0) →
  pg_publish (gateway_publishers gateway_config) w1 (msg_topic x) (msg_payload x)
    = Ret (outcomes, w3) →
  ∃ outs sends us, effect w [a] outs sends us (foldl note_outcome w3 outcomes).
Proof.
  intros (Hsc & Hsa & Hss & Hse) Hu1 Hok Hb Hx Hm Hcnt Hrun. rewrite <-Hsc in Hok. rewrite <-Hse in Hb.
  apply publishers_run in Hrun as (r & w2 & H2 & Hcase).
  destruct (mqtt_publisher_effect w1 x r w2 Hok Hx Hb H2)
    as (us & Ha2 & Hok2 & Hc2 & Hu2 & Hn2 & _ & _ & Hs2 & _ & _ & env & He2).
  assert (∃ used, w_mqtt_envs w = used ++ w_mqtt_envs w2) as Hused
    by (exists [env]; rewrite <-Hse; exact He2).
  assert (cached (w_cache w2) = cached (w_cache w) ++ with_status Deferred [(x, r)]) as Hc2'
    by (rewrite Hc2, Hsc; f_equal; cbn; by case_decide).
  exists [(x, r)]. destruct Hcase as [(Ht & -> & ->) | (r3 & Ht & -> & H3)]; cbn [foldl].
  - pose proof (note_outcome_same w2 (mk_outcome "mqtt" r)) as (Nc & Na & Ns & Ne).
    exists [], ([Add FramesParsed 1] ++ us). split.
    + by rewrite Hm.
    + by rewrite Na, Ha2, Hsa.
    + by rewrite Nc.
    + by rewrite Ht.
    + exists []. split; [by rewrite Ns, Hs2, Hss, app_nil_r | done].
    + rewrite note_outcome_updates, decide_False by done. by rewrite app_nil_r, Hu2, Hu1, <-app_assoc.
    + intros c. rewrite total_added_app, Hn2, Hcnt. cbn. case_decide; lia.
    + by rewrite Ne.
  - destruct (tcp_publisher_effect w2 _ _ r3 w3 H3) as (ok & line & -> & Ts & Tl & Tc & Ta & Tu & Te & _).
    set (w4 := note_outcome w3 _).
    pose proof (note_outcome_same w3 (mk_outcome "mqtt" r)) as (Nc & Na & Ns & Ne).
    pose proof (note_outcome_same w4 (mk_outcome "tcp" (if ok then Published else Failed)))
      as (Oc & Oa & Os & Oe). fold w4 in Nc, Na, Ns, Ne.
    exists [(msg_payload x, ok)],
      ([Add FramesParsed 1] ++ us ++ [Add (if ok then TcpPublishSuccess else TcpPublishFailed) 1]).
    split.
    + by rewrite Hm.
    + by rewrite Oa, Na, Ta, Ha2, Hsa.
    + by rewrite Oc, Nc, Tc.
    + by rewrite Ht, Hm.
    + exists [line]. split; [by rewrite Os, Ns, Ts, Hs2, Hss | by constructor].
    + unfold w4. rewrite !note_outcome_updates, decide_False by done. cbn [po_channel po_status].
      rewrite decide_True, app_nil_r, Tu, Hu2, Hu1, <-!app_assoc by done. by destruct ok.
    + intros c. rewrite !total_added_app, Hn2, Hcnt. destruct c, ok; cbn; repeat (case_decide; try done); lia.
    + by rewrite Oe, Ne, Te.
Qed.

Lemma on_data_effect w data protocol w' :
  cache_ok (w_cache w) → Forall (λ env, append_benign (pe_append env)) (w_mqtt_envs w) →
  Forall storable (messages gateway_config [DataCall data protocol]) →
  on_data gateway_config data protocol w = Ret w' →
  ∃ outs sends us, effect w [DataCall data protocol] outs sends us w'.
Proof.
  intros Hok Hb Hst. unfold on_data, publish_sensor_data.
  set (x := mk_message (build_mqtt_topic (qc_topic_prefix (gc_mqtt gateway_config)) data)
                       (sensor_data_to_json data)).
  assert (messages gateway_config [DataCall data protocol] = if valid data then [x] else []) as Hm
    by (unfold messages; cbn [omap list_omap reading_message]; by destruct (valid data)).
  destruct (valid data) eqn:Hv; cbn [negb].
  - rewrite Hm in Hst. apply Forall_cons in Hst as [Hst _].
    destruct (pg_publish _ _ _ _) as [[outcomes w3] | |] eqn:Hrun; try discriminate.
    cbn [mbind exec_bind]. intros [= <-]. eapply (publish_effect w _ _ x); [..| exact Hrun]; try done.
    intros c. cbn. rewrite Hv. by destruct c.
  - intros [= <-]. exists [], [], ([Add FramesParsed 1] ++ [Add ProtocolErrors 1]).
    assert (∀ c, total_added c ([Add FramesParsed 1] ++ [Add ProtocolErrors 1])
                 = sum_by (call_count c) [DataCall data protocol]) as Hc.
    { intros c. cbn. rewrite Hv. destruct c; cbn; repeat (case_decide; try done); lia. }
    pose proof (effect_count w [DataCall data protocol] _ Hok Hm Hc) as He.
    destruct He. split; try done. cbn. by rewrite <-app_assoc.
Qed.

(** The counters of an error report are not negative. *)
Definition stats_ok (a : action) : Prop :=
  match a with
  | ErrorCall _ _ _ stats => 0 <= crc_errors stats ∧ 0 <= length_errors stats
  | _ => True
  end.

Lemma handle_actions_effect w acts w' :
  cache_ok (w_cache w) → Forall (λ env, append_benign (pe_append env)) (w_mqtt_envs w) →
  Forall storable (messages gateway_config acts) → Forall stats_ok acts →
  handle_actions gateway_config w acts = Ret w' →
  ∃ outs sends us, effect w acts outs sends us w'.
Proof.
  revert w. induction acts as [| a acts IH]; intros w Hok Hb Hst Hs Hrun.
  { injection Hrun as <-. exists [], [], []. by apply effect_none. }
  apply Forall_cons in Hs as [Ha Hs]. cbn [handle_actions] in Hrun.
  change (messages gateway_config (a :: acts)) with (messages gateway_config ([a] ++ acts)) in Hst.
  unfold messages in Hst. rewrite omap_app, Forall_app in Hst. destruct Hst as [Hst1 Hst].
  destruct (handle_action gateway_config w a) as [w1 | |] eqn:Hact; try discriminate.
  assert (∃ outs sends us, effect w [a] outs sends us w1) as (o1 & s1 & u1 & E1).
  { destruct a as [data p | p code error stats | | | |];
      try (injection Hact as <-; exists [], [], []; destruct (effect_none w Hok); by split).
    - by eapply on_data_effect.
    - injection Hact as <-. do 3 eexists. destruct Ha. by apply on_error_effect. }
  cbn [mbind exec_bind] in Hrun. destruct (ef_envs _ _ _ _ _ _ E1) as [used Hu].
  destruct (IH w1) as (o2 & s2 & u2 & E2); try done.
  - by destruct (ef_cache _ _ _ _ _ _ E1).
  - rewrite Hu in Hb. by apply Forall_app in Hb as [_ Hb].
  - do 3 eexists. by eapply (effect_trans w [a]).
Qed.
End facts.

(** ** Payloads are single lines *)

Definition plain_char (c : ascii) : bool :=
  ((32 <=? Ascii.nat_of_ascii c) && (Ascii.nat_of_ascii c <=? 126))%nat.
Definition plain (s : string) : bool := all_chars plain_char s.

Lemma plain_app s t : plain (s +:+ t) = plain s && plain t.
Proof. apply all_chars_app. Qed.

Lemma plain_dec z : plain (dec z) = true.
Proof.
  apply (all_chars_impl is_numeral_char); [| apply dec_chars]. intros c.
  unfold is_numeral_char, plain_char. rewrite orb_true_iff, andb_true_iff.
  intros [->%Ascii.eqb_eq | [H1%Nat.leb_le H2%Nat.leb_le]]; [done |].
  apply andb_true_iff. rewrite !Nat.leb_le. lia.
Qed.

Lemma plain_fixed1 x : plain (fixed1 x) = true.
Proof.
  destruct x as [[] | [] | | s m e]; try done. unfold fixed1.
  rewrite !plain_app, !(plain_dec _). by destruct s.
Qed.

Lemma json_plain d : warnings d = [] → plain (sensor_data_to_json d) = true.
Proof.
  intros Hw. unfold sensor_data_to_json. rewrite Hw, !plain_app, !plain_dec, !plain_fixed1.
  by destruct (valid d).
Qed.

Lemma plain_lacks s c : plain s = true → plain_char c = false → lacks c s = true.
Proof.
  intros Hs Hc. apply (all_chars_impl plain_char); [| exact Hs].
  intros x Hx. destruct (Ascii.eqb_spec x c) as [-> |]; [congruence | done].
Qed.

(** A reading that passed validation has no warnings. *)
Definition checked (a : action) : Prop :=
  match a with DataCall data _ => valid data = true → warnings data = [] | _ => True end.

Lemma messages_plain cfg acts :
  Forall checked acts → Forall (λ x, plain (msg_payload x) = true) (messages cfg acts).
Proof.
  unfold messages. induction 1 as [| a acts Ha _ IH]; cbn [omap list_omap]; [done |].
  destruct a as [data p | | | | |]; try done. cbn [reading_message].
  destruct (valid data) eqn:Hv; [| done]. apply Forall_cons_2; [| done].
  by apply json_plain, Ha.
Qed.

(** ** Properties *)

(** What the gateway does with what its devices report. Over any sequence of
    handler calls, in which reports and readings may interleave: each valid reading,
    and nothing else, becomes one message, in order, whose topic is the configured
    prefix with the device and whose payload is one line of printable text; the
    message goes to the MQTT client exactly once, and is published or, in the same
    order, deferred to the cache, or failed; if TCP is enabled it is also sent there,
    whatever became of it on MQTT; an invalid reading is only counted; and every
    counter of the metrics grows by exactly the events it stands for. *)
Lemma readings_published `{MqttPublish M E} `{CacheLaws C AEnv LEnv REnv}
    (cfg : GatewayConfig) (w w' : world M C E AEnv LEnv) acts :
  cache_ok (w_cache w) → Forall (λ env, append_benign (pe_append env)) (w_mqtt_envs w) →
  Forall storable (messages cfg acts) → Forall stats_ok acts → Forall checked acts →
  handle_actions cfg w acts = Ret w' →
  ∃ outs sends us,
    fst <$> outs = messages cfg acts ∧
    w_attempts w' = w_attempts w ++ ((λ o, (fst o, bool_decide (snd o = Published))) <$> outs) ∧
    cached (w_cache w') = cached (w_cache w) ++ with_status Deferred outs ∧
    (∃ lines, w_sends w' = w_sends w ++ lines ∧ Forall2 sent_as sends lines) ∧
    fst <$> sends = (if tc_enabled (gc_tcp cfg) then msg_payload <$> messages cfg acts else []) ∧
    w_updates w' = w_updates w ++ us ∧
    (∀ c, total_added c us
          = sum_by (call_count c) acts + sum_by (publication_count c) outs + sum_by (send_count c) sends) ∧
    Forall (λ x, plain (msg_payload x) = true) (messages cfg acts).
Proof.
  intros Hok Hb Hst Hs Hch Hrun.
  destruct (handle_actions_effect cfg w acts w' Hok Hb Hst Hs Hrun) as (outs & sends & us & []).
  exists outs, sends, us. split_and!; try done; [by destruct ef_cache0 | by apply messages_plain].
Qed.

#[local] Instance flaky_broker : MqttPublish unit bool := {| mqtt_publish m e _ _ := (e, m) |}.

(** A valid reading, an idle Modbus poll and an invalid reading, with the broker down
    and the TCP server refusing connections. *)
Definition sample_actions : list action :=
  [DataCall (reading 16 1 253 608 300 3700 0 1) Uart; ErrorCall ModbusRtu Timeout "" no_stats;
   DataCall (validate_sensor_data (reading 17 1 999 608 300 3700 0 2)) SocketCan].

Definition sample_world : world unit FileCache bool append_env bool :=
  mk_world tt sample_cache (-1) os_init [] [] [] []
    [mk_publish_env false file_ok true] [mk_tcp_env (Some []) []].

(** *** The metrics of a worker *)

Lemma sum_by_ext {A} (f g : A → Z) l : (∀ a, a ∈ l → f a = g a) → sum_by f l = sum_by g l.
Proof.
  intros He. unfold sum_by. induction l as [| a l IH]; [done |]. cbn [foldr].
  rewrite (He a) by by left. rewrite IH; [done |]. intros b Hb. apply He. by right.
Qed.

Lemma sum_by_zero {A} (f : A → Z) l : (∀ a, f a = 0) → sum_by f l = 0.
Proof. intros Hf. unfold sum_by. induction l as [| a l IH]; cbn; [done | rewrite Hf, IH; done]. Qed.

Lemma sum_by_plus {A} (f g : A → Z) l : sum_by (λ a, f a + g a) l = sum_by f l + sum_by g l.
Proof. unfold sum_by. induction l as [| a l IH]; cbn; lia. Qed.

(** The invalid readings among the handler calls. *)
Definition invalid_count (a : action) : Z :=
  match a with DataCall data _ => one_if (negb (valid data)) | _ => 0 end.

(** The counters that only the devices move. *)
Lemma device_counter c acts outs sends :
  c ∈ [ProtocolErrors; ModbusErrors; CanErrors; FramesParsed] →
  sum_by (publication_count c) outs + sum_by (send_count c) sends = 0 ∧
  sum_by (call_count c) acts + sum_by (publication_count c) outs + sum_by (send_count c) sends
  = sum_by (call_count c) acts.
Proof.
  intros Hc. rewrite !(sum_by_zero (publication_count c)), !(sum_by_zero (send_count c)); [lia | |].
  - intros s. repeat (apply elem_of_cons in Hc as [-> | Hc]; [done |]). by apply elem_of_nil in Hc.
  - intros o. repeat (apply elem_of_cons in Hc as [-> | Hc]; [done |]). by apply elem_of_nil in Hc.
Qed.

Lemma protocol_error_count acts :
  sum_by (call_count ProtocolErrors) acts = reported_errors acts + sum_by invalid_count acts.
Proof.
  unfold reported_errors. fold (sum_by action_errors acts). rewrite <-sum_by_plus.
  apply sum_by_ext. intros a _.
  destruct a as [data p | [] code error stats | | | |]; cbn [call_count action_errors invalid_count];
    by rewrite ?Z.add_0_r.
Qed.

Lemma own_error_count p c acts :
  Forall (calls_of p) acts →
  (c = ModbusErrors ∨ c = CanErrors) →
  sum_by (call_count c) acts
  = if decide (c = ModbusErrors ∧ p = ModbusRtu ∨ c = CanErrors ∧ p = SocketCan)
    then reported_errors acts else 0.
Proof.
  intros Hf Hc. unfold reported_errors. fold (sum_by action_errors acts).
  rewrite Forall_forall in Hf. case_decide as Hd.
  - apply sum_by_ext. intros a Ha. specialize (Hf a Ha).
    destruct a as [data q | q code error stats | | | |]; try by destruct Hc as [-> | ->].
    cbn in Hf. subst q. by destruct Hd as [[-> ->] | [-> ->]].
  - transitivity (sum_by (λ _ : action, 0) acts); [| by apply sum_by_zero].
    apply sum_by_ext. intros a Ha. specialize (Hf a Ha).
    destruct a as [data q | q code error stats | | | |]; try by destruct Hc as [-> | ->].
    cbn in Hf. subst q. destruct Hc as [-> | ->], p; cbn; try done; exfalso; apply Hd; tauto.
Qed.

Lemma parsed_count acts :
  sum_by (call_count FramesParsed) acts = Z.of_nat (length (omap data_call acts)).
Proof.
  unfold sum_by. induction acts as [| a acts IH]; [done |].
  cbn [foldr omap list_omap]. rewrite IH.
  destruct a as [| [] ? ? ? | | | |]; cbn [call_count data_call length]; lia.
Qed.

(** C26: The error metrics against the devices' own counts. When a worker's handler
    calls go through the gateway's handlers, [gateway_protocol_error_total] grows by
    the errors the device counted in its status, by the invalid readings, and, for
    Modbus, by one for every read made while no poll is due, which the device does not
    count and which is no error; the Modbus and the CAN error counters grow by the
    reports of their own devices and by nothing else; and
    [iot_gateway_frames_parsed_total] by the readings delivered. *)
Theorem worker_metrics `{DeviceLaws D SEnv RdEnv} `{MqttPublish M E} `{CacheLaws C AEnv LEnv REnv}
    others turns (d : D) o d' o' trace (cfg : GatewayConfig) (w w' : world M C E AEnv LEnv) :
  worker_inv others d o → Forall (λ t, fresh_start others (lt_start t)) turns →
  run_device true true turns d o = Ret (d', o', trace) →
  cache_ok (w_cache w) → Forall (λ env, append_benign (pe_append env)) (w_mqtt_envs w) →
  Forall storable (messages cfg trace) → Forall stats_ok trace →
  handle_actions cfg w trace = Ret w' →
  let protocol := ds_protocol (get_device_status d) in
  ∃ us, w_updates w' = w_updates w ++ us ∧
    u64 (ds_error_count (get_device_status d) + total_added ProtocolErrors us)
    = u64 (ds_error_count (get_device_status d') + sum_by invalid_count trace
           + if decide (protocol = ModbusRtu) then idle_reads trace else 0) ∧
    total_added ModbusErrors us = (if decide (protocol = ModbusRtu) then reported_errors trace else 0) ∧
    total_added CanErrors us = (if decide (protocol = SocketCan) then reported_errors trace else 0) ∧
    total_added FramesParsed us = Z.of_nat (length (delivered (omap read_done trace))).
Proof.
  intros Hi Hf Hr Hok Hb Hst Hs Hrun protocol.
  destruct (run_device_loop_ok others turns false d o [] d' o' trace Hi Hf Hr)
    as (acts & -> & _ & [[_ He] Hre _ Hd Hca] & _). cbn [app] in *.
  destruct (handle_actions_effect cfg w acts w' Hok Hb Hst Hs Hrun) as (outs & sends & us & Heff).
  exists us. split; [by destruct Heff |].
  assert (∀ c, c ∈ [ProtocolErrors; ModbusErrors; CanErrors; FramesParsed] →
               total_added c us = sum_by (call_count c) acts) as Hn.
  { intros c Hc. rewrite (ef_counts _ _ _ _ _ _ _ Heff). by apply device_counter. }
  rewrite !Hn by set_solver. fold protocol in Hre, Hca. split_and!.
  - rewrite protocol_error_count, Hre, He, <-(Z.add_assoc (u64 _)), u64_add_l.
    f_equal. case_bool_decide; case_decide; try done; lia.
  - rewrite (own_error_count protocol) by auto. repeat case_decide; naive_solver.
  - rewrite (own_error_count protocol) by auto. repeat case_decide; naive_solver.
  - by rewrite parsed_count, Hd.
Qed.

#[local] Instance no_terminal : TerminalLibrary := mk_terminal_library id (λ _, id) (λ _, id).

(** One idle poll of a Modbus device: its own count stays, the metrics grow. *)
Definition idle_trace : list action :=
  [StartAttempt true; ReadDone default_read_result; ErrorCall ModbusRtu Timeout "" no_stats; StopCall].

Lemma worker_metrics_witness :
  ∃ d' o', run_device true true sample_turns (new_modbus sample_options) os_init
             = Ret (d', o', idle_trace) ∧
    ∃ w', handle_actions default_gateway sample_world idle_trace = Ret w' ∧
    ∃ us, w_updates w' = us ∧ total_added ModbusErrors us = 1 ∧ total_added CanErrors us = 0.
Proof.
  assert (∃ d' o', run_device true true sample_turns (new_modbus sample_options) os_init
                   = Ret (d', o', idle_trace)) as (d' & o' & Hr)
    by (eexists _, _; vm_compute; reflexivity).
  exists d', o'. split; [exact Hr |]. eexists. split; [reflexivity |].
  edestruct (worker_metrics ∅ sample_turns (new_modbus sample_options) os_init d' o' idle_trace
    default_gateway sample_world) as (us & Hu & _ & Hm & Hc & _).
  - exact new_modbus_inv.
  - do 2 (apply Forall_cons_2; [right; apply not_elem_of_empty |]). apply Forall_nil_2.
  - exact Hr.
  - exact sample_cache_ok.
  - apply Forall_cons_2; [reflexivity | apply Forall_nil_2].
  - apply Forall_nil_2.
  - do 2 (apply Forall_cons_2; [exact I |]). apply Forall_cons_2; [split; discriminate |].
    apply Forall_cons_2; [exact I | apply Forall_nil_2].
  - reflexivity.
  - exists us. split; [exact Hu |]. split; [exact Hm | exact Hc].
Defined.
