(* ===== verification/MainThread.v ===== *)
(** * The main thread ([src/main.cpp])

    The wiring from the configuration to the devices and the MQTT client, and the
    course of [main] and [run_gateway]: what they do to the other parts, in order, and
    the exit code. Objects destroyed when [run_gateway] returns are destroyed by
    explicit actions. *)

From stdpp Require Import gmap.
From S2P Require Import Prelude Text FrameParser FrameScan DeviceData Posix SerialPort Modbus ModbusDevice UartDevice CanDevice DeviceInterface DeviceManager RuntimeMetrics MessageCache ReliablePublisher MqttClient ConfigData Config Publisher Logger Shutdown RuntimeStatus HttpServer Gateway.

Local Open Scope Z_scope.

(** ** The wiring *)

(** The connection options of the MQTT client. *)
Definition mqtt_options (gateway_config : GatewayConfig) : MqttClientOptions :=
  let mqtt := gc_mqtt gateway_config in
  mk_mqtt_options (qc_username mqtt) (qc_password mqtt) (ts_enabled (qc_tls mqtt))
    (ts_ca_file (qc_tls mqtt)) (ts_certificate_file (qc_tls mqtt))
    (ts_private_key_file (qc_tls mqtt)) (ts_insecure (qc_tls mqtt)).

Definition modbus_options (gateway_config : GatewayConfig) : ModbusDeviceOptions :=
  let modbus := gc_modbus gateway_config in
  mk_modbus_options (mc_baud_rate modbus)
    (mk_request (mc_slave_id modbus)
       (if mc_function_code modbus =? 4 then ReadInputRegisters else ReadHoldingRegisters)
       (mc_start_address modbus) (mc_register_count modbus))
    (mc_poll_interval_ms modbus) (mc_response_timeout_ms modbus).

Inductive input_device : Type :=
  | UartInput (path : string) (device : UartDevice)
  | ModbusInput (path : string) (device : ModbusDevice)
  | CanInput (interface : string) (device : CanDevice).

(** The devices added to the manager, in order. *)
Definition gateway_devices (gateway_config : GatewayConfig) (devices : list string)
    : list input_device :=
  ((λ path, UartInput path (new_uart (sc_baud_rate (gc_serial gateway_config)))) <$> devices) ++
  (if mc_enabled (gc_modbus gateway_config)
   then [ModbusInput (mc_port (gc_modbus gateway_config)) (new_modbus (modbus_options gateway_config))]
   else []) ++
  (if cc_enabled (gc_can gateway_config)
   then [CanInput (cc_interface (gc_can gateway_config)) new_can]
   else []).

(** [args] are the arguments after the name of the program: the second one replaces
    the configured serial devices. *)
Definition serial_devices (gateway_config : GatewayConfig) (args : list string) : list string :=
  match args with
  | _ :: device :: _ => [device]
  | _ => sc_devices (gc_serial gateway_config)
  end.

(** The channels of the publishers in the group. *)
Definition gateway_channels (gateway_config : GatewayConfig) : list string :=
  "mqtt" :: if tc_enabled (gc_tcp gateway_config) then ["tcp"] else [].

(** [update_device_observability]: the updates of the metrics and of the status. *)
Definition device_health (s : DeviceStatus) : DeviceHealthStatus :=
  mk_health (ds_device_id s) (protocol_to_string (ds_protocol s)) (ds_online s) (ds_last_update s)
            (ds_error_count s).

Definition observe (statuses : list DeviceStatus) : list update * list status_store :=
  let online := Z.of_nat (count_online statuses) in
  let offline := Z.of_nat (length statuses) - online in
  ([Set_ DeviceOnline online; Set_ DeviceOffline offline],
   RuntimeStatus.set_device_counts online offline
   ++ set_device_statuses (device_health <$> statuses)).

(** ** The course of the main thread *)

(** What the main thread does to the other parts. *)
Inductive main_action : Type :=
  | ActOut (line : string)                       (** [std::cout] *)
  | ActErr (line : string)                       (** [std::cerr] *)
  | ActLogger (path : string) (minimum_level : Level)
  | ActLog (call : log_call)
  | ActStatusNew (version cache_backend : string) (mqtt_enabled tcp_enabled : bool)
  | ActStatus (stores : list status_store)
  | ActMetrics (us : list update)
  | ActMqttNew (host : string) (port : Z) (options : MqttClientOptions)
  | ActMqttDestroy
  | ActCacheNew (type path : string)
  | ActCacheDestroy
  | ActHttpStart (host : string) (port : Z)
  | ActHttpStop
  | ActFlush
  | ActManagerStart (devices : list input_device)
  | ActManagerStop
  | ActSleep
  | ActTcpDisconnect.

Abbreviation log_info module message := (ActLog (mk_log_call Info module message)).

(** One call of [wait_for_shutdown]. *)
Record wait_env : Type := mk_wait_env {
  we_start : Z;
  we_turns : list wait_turn;
  we_final : bool;
}.

Record gateway_env : Type := mk_gateway_env {
  ge_sqlite_ready : bool;                  (** [sqlite_cache->is_ready()] *)
  ge_sqlite_error : string;                (** [sqlite_cache->error_message()] *)
  ge_cached : nat;                         (** messages in the cache at the start *)
  ge_http_started : bool;                  (** [http_server->start(...)] *)
  ge_looks : nat → list DeviceStatus;      (** [statuses()] while waiting for the ports *)
  ge_waits : list wait_env;
  ge_statuses : nat → list DeviceStatus;   (** [statuses()] at each observation *)
  ge_server : exec unit;                   (** the thread of the HTTP server, once told to stop *)
  ge_workers : nat → exec unit;            (** the thread of each device, once told to stop *)
}.

(** [std::thread::join] returns when the thread does. *)
Fixpoint join_all (threads : list (exec unit)) : exec unit :=
  match threads with
  | [] => Ret tt
  | thread :: rest => _ ← thread; join_all rest
  end.

(** The threads the program starts: of a device, with handlers that return, and of the HTTP
    server. *)
Definition worker_thread `{DeviceInterface D SEnv REnv} (turns : list (loop_turn SEnv REnv)) (d : D) (o : os)
    : exec unit :=
  _ ← run_device true true turns d o; Ret tt.

Definition server_thread (script : list (bool * accept_result)) (o : os) : exec unit :=
  _ ← serve script o; Ret tt.

(** One look at the devices while the gateway waits for the serial ports: how many
    are online. *)
Definition uart_online (statuses : list DeviceStatus) : nat :=
  length (filter (λ s, ds_protocol s = Uart ∧ ds_online s = true) statuses).

(** The waiting loop; [attempts] counts down from 20. *)
Fixpoint wait_for_uarts (attempts : nat) (device_count : nat) (looks : nat → list DeviceStatus)
    (attempt : nat) : list main_action :=
  match attempts with
  | O => []
  | S attempts =>
      let online := uart_online (looks attempt) in
      if (online =? device_count)%nat
      then replicate online (log_info "serial" "serial opened by device manager")
           ++ [log_info "serial" "waiting for raw bytes"]
      else ActSleep :: wait_for_uarts attempts device_count looks (S attempt)
  end.

Definition observe_actions (statuses : list DeviceStatus) : list main_action :=
  let '(us, stores) := observe statuses in [ActMetrics us; ActStatus stores].

(** The main loop, from its [n]-th observation. *)
Fixpoint main_loop (cache_retry_interval_ms : Z) (waits : list wait_env)
    (statuses : nat → list DeviceStatus) (n : nat) : exec (list main_action) :=
  match waits with
  | [] => OutOfFuel
  | w :: rest =>
      '(stop, _) ← wait_for_shutdown (we_start w) cache_retry_interval_ms (we_turns w) (we_final w);
      if stop : bool then Ret []
      else
        acts ← main_loop cache_retry_interval_ms rest statuses (S n);
        Ret (ActFlush :: observe_actions (statuses n) ++ acts)
  end.

(** The destructors of the objects of [run_gateway], the last one first: those of the
    cache and the client, of what is made before the HTTP server, of everything. *)
Definition destroy_cache : list main_action := [ActCacheDestroy; ActMqttDestroy].
Definition destroy_publishers : list main_action := ActTcpDisconnect :: destroy_cache.
Definition destroy_all (http : bool) : list main_action :=
  ActManagerStop :: (if http then [ActHttpStop] else []) ++ destroy_publishers.

(** From the end of the main loop on. [HttpServer::stop] joins the thread of the server and
    [DeviceManager::stop] those of the devices: a thread that does not return keeps the
    main thread from returning. The destructors find no thread to join. *)
Definition shut_down (http : bool) (worker_count : Z) (server : exec unit) (workers : list (exec unit))
    : exec (list main_action) :=
  let stopping := [ActStatus (set_serial_workers_started false worker_count)] in
  stopping ← (if http then _ ← server; Ret (stopping ++ [ActHttpStop]) else Ret stopping);
  _ ← join_all workers;
  Ret (stopping ++ [ActManagerStop; ActTcpDisconnect] ++ destroy_all http).

(** The exit code and the actions. *)
Definition run_gateway (gateway_config : GatewayConfig) (devices : list string) (env : gateway_env)
    : exec (Z * list main_action) :=
  let mqtt := gc_mqtt gateway_config in
  let cache := gc_cache gateway_config in
  let http := hc_enabled (gc_http gateway_config) in
  let inputs := gateway_devices gateway_config devices in
  let worker_count := Z.of_nat (length devices) in
  let created := [ActMqttNew (qc_host mqtt) (qc_port mqtt) (mqtt_options gateway_config);
                  ActCacheNew (kc_type cache) (kc_path cache)] in
  if bool_decide (kc_type cache = "sqlite") && negb (ge_sqlite_ready env)
  then Ret (1, created ++ [ActLog (mk_log_call Error "cache" (ge_sqlite_error env))] ++ destroy_cache)
  else
    let opened := created ++
      [ActStatus (set_cache_ready true);
       log_info "cache" ("backend=" +:+ kc_type cache +:+ ", path=" +:+ kc_path cache);
       ActMetrics [Set_ CacheDepth (Z.of_nat (ge_cached env))];
       log_info "publisher"
         ("enabled channels=" +:+ dec (Z.of_nat (length (gateway_channels gateway_config))))] in
    if http && negb (ge_http_started env) then Ret (1, opened ++ ActHttpStop :: destroy_publishers)
    else
      acts ← main_loop (qc_cache_retry_interval_seconds mqtt * 1000) (ge_waits env) (ge_statuses env) 1;
      stopping ← shut_down http worker_count (ge_server env) (ge_workers env <$> seq 0 (length inputs));
      Ret (0,
        opened
        ++ (if http then [ActHttpStart (hc_host (gc_http gateway_config)) (hc_port (gc_http gateway_config))]
            else [])
        ++ [log_info "cache" "checking cached mqtt messages"; ActFlush; ActManagerStart inputs]
        ++ (if bool_decide (devices = []) then []
            else wait_for_uarts 20 (length devices) (ge_looks env) 0)
        ++ [log_info "device" ("input count=" +:+ dec (Z.of_nat (length inputs)));
            log_info "serial" ("worker count=" +:+ dec worker_count)]
        ++ observe_actions (ge_statuses env 0%nat)
        ++ [ActMetrics [Set_ SerialWorkerCount worker_count];
            ActStatus (set_serial_workers_started true worker_count)]
        ++ acts
        ++ stopping).

Record main_env : Type := mk_main_env {
  me_sigint : option string;               (** the error of [sigaction], if any *)
  me_sigterm : option string;
  me_shutdown : bool;                      (** [shutdown_requested] after the run *)
  me_gateway : gateway_env;
}.

Section main.
Context `{Yaml Node} (inet_pton : string → bool) (kVersion : string).

Definition config_path (args : list string) : string :=
  match args with path :: _ => path | [] => "config/gateway.yaml" end.

Definition main (args : list string) (env : main_env) : exec (Z * list main_action) :=
  if bool_decide (args = ["--version"])
  then Ret (0, [ActOut ("linux-iot-edge-gateway " +:+ kVersion)])
  else
    let '(ok, gateway_config, error_message) :=
      load_gateway_config inet_pton (config_path args) default_gateway in
    if negb ok then Ret (1, [ActErr ("load config failed: " +:+ error_message)])
    else
      let started :=
        [ActLogger (lc_path (gc_log gateway_config)) (parse_log_level (lc_level (gc_log gateway_config)));
         ActStatusNew kVersion (kc_type (gc_cache gateway_config)) true (tc_enabled (gc_tcp gateway_config));
         ActStatus (set_config_loaded true)] in
      let '(ok, error_message, _) := install_shutdown_signal_handlers (me_sigint env) (me_sigterm env) in
      if negb ok then Ret (1, started ++ [ActLog (mk_log_call Error "app" error_message)])
      else
        '(result, acts) ← run_gateway gateway_config (serial_devices gateway_config args) (me_gateway env);
        Ret (result,
          started ++ [log_info "app" ("edge gateway starting, version=" +:+ kVersion)] ++ acts
          ++ (if me_shutdown env then [log_info "app" "shutdown requested"] else [])
          ++ (if result =? 0 then [log_info "app" "edge gateway stopped"] else [])).
End main.

(** *** The other parts as the main thread leaves them *)

Lemma gateway_channels_ok `{MqttPublish M E} `{MessageCache C AEnv LEnv REnv} gateway_config :
  pub_channel <$> gateway_publishers (M:=M) (C:=C) gateway_config = gateway_channels gateway_config.
Proof. unfold gateway_publishers, gateway_channels. by destruct (tc_enabled _). Qed.

Record gateway_state : Type := mk_gateway_state {
  gs_status : RuntimeStatus;
  gs_http : bool;                          (** the HTTP server runs *)
  gs_manager : bool;                       (** the device manager runs *)
  gs_mqtt : bool;                          (** the MQTT client exists *)
  gs_cache : bool;                         (** the cache exists *)
  gs_flushes : nat;
}.

Definition act (s : gateway_state) (a : main_action) : gateway_state :=
  let '(mk_gateway_state status http manager mqtt cache flushes) := s in
  match a with
  | ActStatusNew version cache_backend mqtt_enabled tcp_enabled =>
      mk_gateway_state (new_status version cache_backend mqtt_enabled tcp_enabled) http manager mqtt cache flushes
  | ActStatus stores => mk_gateway_state (apply_stores stores status) http manager mqtt cache flushes
  | ActMqttNew _ _ _ => mk_gateway_state status http manager true cache flushes
  | ActMqttDestroy => mk_gateway_state status http manager false cache flushes
  | ActCacheNew _ _ => mk_gateway_state status http manager mqtt true flushes
  | ActCacheDestroy => mk_gateway_state status http manager mqtt false flushes
  | ActHttpStart _ _ => mk_gateway_state status true manager mqtt cache flushes
  | ActHttpStop => mk_gateway_state status false manager mqtt cache flushes
  | ActManagerStart _ => mk_gateway_state status http true mqtt cache flushes
  | ActManagerStop => mk_gateway_state status http false mqtt cache flushes
  | ActFlush => mk_gateway_state status http manager mqtt cache (S flushes)
  | _ => s
  end.

(** While the status says that the workers are started, they run and the gateway is
    ready; the HTTP server only runs when the cache is ready; and the workers only run
    while the client and the cache they publish through exist. *)
Definition sound (s : gateway_state) : Prop :=
  (rs_serial_workers_started (gs_status s) = true →
     is_ready (gs_status s) = true ∧ gs_manager s = true) ∧
  (gs_http s = true → rs_cache_ready (gs_status s) = true) ∧
  (gs_manager s = true → gs_mqtt s = true ∧ gs_cache s = true).

(** [sound] holds before and after every action. *)
Fixpoint always_sound (s : gateway_state) (acts : list main_action) : Prop :=
  sound s ∧ match acts with [] => True | a :: rest => always_sound (act s a) rest end.

Lemma always_sound_app s a b :
  always_sound s (a ++ b) ↔ always_sound s a ∧ always_sound (foldl act s a) b.
Proof.
  revert s. induction a as [| x a IH]; intros s; cbn [app always_sound foldl].
  - split; [intros Hb; split_and!; try done; by destruct b, Hb | by intros [_ Hb]].
  - rewrite IH. tauto.
Qed.

Lemma always_sound_prefix s acts p :
  always_sound s acts → p `prefix_of` acts → sound (foldl act s p).
Proof.
  intros Ha [rest ->]. apply always_sound_app in Ha as [_ Ha]. by destruct rest, Ha.
Qed.

(** A reader that makes its loads at any moments and finds the gateway ready has found
    the workers running at the last one. *)
Lemma always_sound_ready s acts (moment : nat → nat) :
  always_sound s acts →
  fst (ready (λ i, gs_status (foldl act s (take (moment i) acts)))) = true →
  gs_manager (foldl act s (take (moment 2%nat) acts)) = true.
Proof.
  intros Ha (_ & _ & Hw)%ready_true.
  by apply (always_sound_prefix s acts (take (moment 2%nat) acts) Ha (prefix_take _ _)).
Qed.

(** What [sound] depends on. *)
Definition view (s : gateway_state) : bool * bool * bool * bool * bool * bool * bool :=
  (rs_config_loaded (gs_status s), rs_cache_ready (gs_status s),
   rs_serial_workers_started (gs_status s), gs_http s, gs_manager s, gs_mqtt s, gs_cache s).

(** States that agree on it. *)
Record same_view (s s' : gateway_state) : Prop := mk_same_view { same_view_eq : view s = view s' }.

#[export] Instance same_view_equiv : Equivalence same_view.
Proof.
  split; [by intros s; split | intros s s' [Hs]; split; congruence |].
  intros s1 s2 s3 [H1] [H2]. split. congruence.
Qed.

Definition flags (s : RuntimeStatus) : bool * bool * bool :=
  (rs_config_loaded s, rs_cache_ready s, rs_serial_workers_started s).

Lemma flags_store a s s' : flags s = flags s' → flags (apply_store a s) = flags (apply_store a s').
Proof. destruct s, s'. unfold flags. cbn. intros [= -> -> ->]. by destruct a. Qed.

Lemma flags_stores l s s' : flags s = flags s' → flags (apply_stores l s) = flags (apply_stores l s').
Proof.
  unfold apply_stores. revert s s'. induction l as [| a l IH]; intros s s' Hs; [done |].
  by apply IH, flags_store.
Qed.

#[export] Instance act_proper : Proper (same_view ==> eq ==> same_view) act.
Proof.
  intros s s' [Hs] a _ <-. destruct s as [st h m q c f], s' as [st' h' m' q' c' f'].
  split. unfold view in *. cbn in Hs. injection Hs as H1 H2 H3 -> -> -> ->.
  assert (∀ l, flags (apply_stores l st) = flags (apply_stores l st')) as Hf
    by (intros l; apply flags_stores; unfold flags; congruence).
  unfold flags in Hf. destruct a; cbn; try (by rewrite H1, H2, H3); congruence.
Qed.

#[export] Instance foldl_act_proper : Proper (same_view ==> eq ==> same_view) (foldl act).
Proof.
  intros s s' Hs l _ <-. revert s s' Hs. induction l as [| a l IH]; intros s s' Hs; [done |].
  cbn [foldl]. apply IH. by rewrite Hs.
Qed.

#[export] Instance sound_proper : Proper (same_view ==> iff) sound.
Proof.
  intros s s' [Hs]. unfold view in Hs. unfold sound, is_ready.
  injection Hs as -> -> -> -> -> -> ->. done.
Qed.

#[export] Instance always_sound_proper : Proper (same_view ==> eq ==> iff) always_sound.
Proof.
  intros s s' Hs l _ <-. revert s s' Hs. induction l as [| a l IH]; intros s s' Hs; cbn [always_sound].
  - by rewrite Hs.
  - rewrite (IH (act s a) (act s' a)) by by rewrite Hs. by rewrite Hs.
Qed.

(** Actions that do not change it. *)
Definition quiet (a : main_action) : Prop := ∀ s, same_view (act s a) s.

Lemma quiet_metrics us : quiet (ActMetrics us). Proof. by intros []. Qed.
Lemma quiet_sleep : quiet ActSleep. Proof. by intros []. Qed.
Lemma quiet_flush : quiet ActFlush. Proof. by intros []. Qed.
Lemma quiet_tcp : quiet ActTcpDisconnect. Proof. by intros []. Qed.
Lemma quiet_log call : quiet (ActLog call). Proof. by intros []. Qed.
Lemma quiet_logger path level : quiet (ActLogger path level). Proof. by intros []. Qed.
Lemma quiet_observation statuses : quiet (ActStatus (snd (observe statuses))).
Proof. intros [[] h m q c f]. done. Qed.

Create HintDb gateway.
#[export] Hint Resolve quiet_metrics quiet_sleep quiet_flush quiet_tcp quiet_log quiet_logger quiet_observation : gateway.

Lemma drop_quiet q s rest : Forall quiet q → same_view (foldl act s (q ++ rest)) (foldl act s rest).
Proof.
  intros Hq. revert s. induction Hq as [| a q Ha _ IH]; intros s; [done |].
  cbn [app foldl]. rewrite IH. by rewrite (Ha s).
Qed.

Lemma always_sound_quiet q s rest :
  Forall quiet q → always_sound s rest → always_sound s (q ++ rest).
Proof.
  intros Hq. revert s. induction Hq as [| a q Ha _ IH]; intros s Hr; [done |].
  cbn [app always_sound]. split; [by destruct rest, Hr |]. apply IH. by rewrite (Ha s).
Qed.

Lemma observe_quiet statuses : Forall quiet (observe_actions statuses).
Proof.
  unfold observe_actions. pose proof (quiet_observation statuses) as Hq.
  destruct (observe statuses) as [us stores]. repeat apply Forall_cons_2; auto with gateway.
Qed.

(** The threads return that the shutdown joins. *)
Definition threads_return (cfg : GatewayConfig) (devices : list string) (env : gateway_env) : Prop :=
  (hc_enabled (gc_http cfg) = true → ge_server env = Ret tt) ∧
  ∀ i, (i < length (gateway_devices cfg devices))%nat → ge_workers env i = Ret tt.

Lemma join_all_ret threads : join_all threads = Ret tt ↔ Forall (λ t, t = Ret tt) threads.
Proof.
  induction threads as [| t threads IH]; cbn [join_all]; [done |]. rewrite Forall_cons, <-IH.
  destruct t as [[] | |]; cbn [mbind exec_bind]; split; try done; naive_solver.
Qed.

Lemma shut_down_ret http count server workers :
  (http = true → server = Ret tt) → Forall (λ t, t = Ret tt) workers →
  shut_down http count server workers
  = Ret ([ActStatus (set_serial_workers_started false count)]
         ++ (if http then [ActHttpStop] else []) ++ [ActManagerStop; ActTcpDisconnect] ++ destroy_all http).
Proof.
  intros Hs Hw%join_all_ret. unfold shut_down. destruct http; [rewrite Hs by done |];
    cbn [mbind exec_bind]; by rewrite Hw.
Qed.

Lemma shut_down_joins http count server workers acts :
  shut_down http count server workers = Ret acts →
  (http = true → server = Ret tt) ∧ Forall (λ t, t = Ret tt) workers.
Proof.
  unfold shut_down. rewrite <-join_all_ret.
  destruct http; [destruct server as [[] | |]; try discriminate |]; cbn [mbind exec_bind];
    destruct (join_all workers) as [[] | |]; try discriminate; done.
Qed.

Lemma threads_forall cfg devices env :
  (∀ i, (i < length (gateway_devices cfg devices))%nat → ge_workers env i = Ret tt) ↔
  Forall (λ t, t = Ret tt) (ge_workers env <$> seq 0 (length (gateway_devices cfg devices))).
Proof.
  rewrite Forall_fmap, Forall_forall. split; intros Ht i Hi; [apply elem_of_seq in Hi | apply Ht, elem_of_seq];
    [apply Ht |]; lia.
Qed.

(** The waits of the main loop: that each of them ends, and that one reports the
    shutdown request. *)
Definition wait_ends (interval_ms : Z) (w : wait_env) : Prop :=
  Exists (λ t, wt_flag t = true ∨ we_start w + interval_ms * 1000000 <= wt_now t) (we_turns w).

Fixpoint shutdown_arrives (interval_ms : Z) (waits : list wait_env) : Prop :=
  match waits with
  | [] => False
  | w :: rest =>
      wait_ends interval_ms w ∧ (we_final w = true ∨ shutdown_arrives interval_ms rest)
  end.

(** The waits before the one that reports it. *)
Fixpoint waited (waits : list wait_env) : nat :=
  match waits with
  | w :: rest => if we_final w then 0 else S (waited rest)
  | [] => 0
  end.

Fixpoint flush_count (acts : list main_action) : nat :=
  match acts with
  | [] => 0
  | ActFlush :: rest => S (flush_count rest)
  | _ :: rest => flush_count rest
  end.

Lemma flush_count_app a b : flush_count (a ++ b) = (flush_count a + flush_count b)%nat.
Proof. induction a as [| x a IH]; [done |]. destruct x; cbn; by rewrite IH. Qed.

Lemma flushes_done s acts : gs_flushes (foldl act s acts) = (gs_flushes s + flush_count acts)%nat.
Proof.
  revert s. induction acts as [| a acts IH]; intros [st h m q c f]; cbn [foldl flush_count];
    [by rewrite Nat.add_0_r |].
  rewrite IH. destruct a; cbn; lia.
Qed.

Lemma main_loop_ok interval waits statuses n acts :
  main_loop interval waits statuses n = Ret acts → Forall quiet acts ∧ flush_count acts = waited waits.
Proof.
  revert n acts. induction waits as [| w waits IH]; intros n acts; cbn [main_loop waited]; [done |].
  unfold wait_for_shutdown. destruct (wait_loop _ _ _) as [slept | |]; try discriminate.
  cbn [mbind exec_bind]. destruct (we_final w); [by intros [= <-] |].
  destruct (main_loop interval waits statuses (S n)) as [rest | |] eqn:Hl; try discriminate.
  destruct (IH _ _ Hl) as [Hq Hn]. cbn [mbind exec_bind]. intros [= <-]. split.
  - apply Forall_cons_2; [auto with gateway |].
    by apply (Forall_app_2 _ (observe_actions (statuses n)) rest); [apply observe_quiet |].
  - cbn [flush_count]. by rewrite <-Hn.
Qed.

Lemma main_loop_ends interval waits statuses n :
  shutdown_arrives interval waits → ∃ acts, main_loop interval waits statuses n = Ret acts.
Proof.
  revert n. induction waits as [| w waits IH]; intros n; [by intros [] |].
  cbn [shutdown_arrives main_loop]. intros [He Hs]. unfold wait_for_shutdown.
  destruct (wait_loop_ends _ _ [] He) as [slept ->]. cbn [mbind exec_bind].
  destruct (we_final w); [by eexists |]. destruct Hs as [| Hs]; [done |].
  destruct (IH (S n) Hs) as [acts ->]. by eexists.
Qed.

(** ** The course of the gateway *)

Lemma wait_for_uarts_quiet attempts count looks n :
  Forall quiet (wait_for_uarts attempts count looks n) ∧
  flush_count (wait_for_uarts attempts count looks n) = 0%nat.
Proof.
  revert n. induction attempts as [| k IH]; intros n; [by split |]. cbn [wait_for_uarts].
  destruct (_ =? _)%nat.
  - split.
    + apply Forall_app_2; [apply Forall_replicate | apply Forall_singleton]; auto with gateway.
    + rewrite flush_count_app, Nat.add_0_r. by induction (uart_online (looks n)).
  - destruct (IH (S n)) as [Hq Hn]. split; [| done]. apply Forall_cons_2; [auto with gateway | done].
Qed.

(** A state in which the workers are not announced, or run. *)
Ltac calm := unfold sound, is_ready; cbn; rewrite ?andb_false_r; by split.

Lemma always_sound_cons s a l : sound s → always_sound (act s a) l → always_sound s (a :: l).
Proof. by split. Qed.

(** The devices the manager is started with. *)
Definition manager_start (a : main_action) : option (list input_device) :=
  match a with ActManagerStart ds => Some ds | _ => None end.

Lemma quiet_no_start l : Forall quiet l → omap manager_start l = [].
Proof.
  induction 1 as [| a l Ha _ IH]; [done |]. cbn [omap list_omap]. rewrite IH.
  destruct a as [| | | | | | | | | | | | | | ds | | |]; try done.
  destruct (Ha (mk_gateway_state (new_status "" "" false false) false false false false 0)) as [Hv].
  discriminate Hv.
Qed.

(** A complete course of [run_gateway], from a status that is not ready. *)
Record course (s : gateway_state) (code : Z) (acts : list main_action) (flushes : nat)
    (inputs : list input_device) : Prop := mk_course {
  co_sound : always_sound s acts;
  co_ready : is_ready (gs_status (foldl act s acts)) = false;
  co_http : gs_http (foldl act s acts) = false;
  co_manager : gs_manager (foldl act s acts) = false;
  co_mqtt : gs_mqtt (foldl act s acts) = false;
  co_cache : gs_cache (foldl act s acts) = false;
  co_flushes : flush_count acts = (if decide (code = 0) then S flushes else 0%nat);
  co_starts : omap manager_start acts = (if decide (code = 0) then [inputs] else []);
}.

(** An error exit before the workers start. *)
Ltac exits := split; cbn; unfold sound, is_ready; cbn; rewrite ?andb_false_r; by repeat split.

Lemma run_gateway_ok cfg devices env code acts s :
  run_gateway cfg devices env = Ret (code, acts) →
  rs_config_loaded (gs_status s) = true → rs_serial_workers_started (gs_status s) = false →
  gs_http s = false → gs_manager s = false → gs_mqtt s = false → gs_cache s = false →
  course s code acts (waited (ge_waits env)) (gateway_devices cfg devices).
Proof.
  intros Hrun Hl Hw Hh Hm Hq Hk. unfold run_gateway in Hrun. revert Hrun.
  destruct s as [[v cb mq tc cl cr ws wc ic on off ds] h m q c f]. cbn in Hl, Hw, Hh, Hm, Hq, Hk.
  subst cl ws h m q c.
  destruct (bool_decide _ && negb (ge_sqlite_ready env)); [intros [= <- <-]; exits |].
  destruct (hc_enabled (gc_http cfg) && negb (ge_http_started env)); [intros [= <- <-]; exits |].
  pose proof (observe_quiet (ge_statuses env 0%nat)) as Hqo.
  assert (flush_count (observe_actions (ge_statuses env 0%nat)) = 0%nat) as Hno by done.
  revert Hqo Hno. generalize (observe_actions (ge_statuses env 0%nat)) as look.
  set (sleeps := if bool_decide (devices = []) then [] else _).
  assert (Forall quiet sleeps ∧ flush_count sleeps = 0%nat) as [Hqs Hns]
    by (unfold sleeps; case_bool_decide; [by split | apply wait_for_uarts_quiet]).
  clearbody sleeps. intros look Hqo Hno.
  destruct (main_loop _ (ge_waits env) (ge_statuses env) 1) as [turns | |] eqn:Hml; try discriminate.
  apply main_loop_ok in Hml as [Hqt Hn]. cbn [mbind exec_bind].
  destruct (shut_down _ _ _ _) as [stopping | |] eqn:Hsd; try discriminate.
  destruct (shut_down_joins _ _ _ _ _ Hsd) as [Hj1 Hj2]. rewrite shut_down_ret in Hsd by done.
  injection Hsd as <-. clear Hj1 Hj2. cbn [mbind exec_bind].
  generalize (gateway_devices cfg devices) as inputs. intros inputs Hrun.
  match type of Hrun with Ret (_, ?l) = _ => assert (code = 0 ∧ acts = l) as [-> Ha] by by injection Hrun end.
  clear Hrun.
  match goal with |- course ?s0 _ _ _ _ => set (s := s0) end.
  assert (always_sound s acts) as Hs.
  { rewrite Ha. unfold s. destruct (hc_enabled (gc_http cfg)); cbn [app];
      repeat first [apply always_sound_quiet; [done |]
                   | apply always_sound_cons; [calm |]; cbn [act]];
      by split; [calm |]. }
  assert (same_view (foldl act s acts)
      (mk_gateway_state (mk_status v cb mq tc true true false wc ic on off ds) false false false false f)) as [Hv].
  { rewrite Ha. unfold s. destruct (hc_enabled (gc_http cfg)); cbn [app foldl act];
      repeat (rewrite drop_quiet by done; cbn [foldl act]); by split. }
  unfold view in Hv. cbn in Hv. injection Hv as V1 V2 V3 V4 V5 V6 V7.
  split; unfold is_ready; try done.
  - by rewrite V1, V2, V3, andb_false_r.
  - rewrite Ha, !flush_count_app, Hns, Hno, Hn. by destruct (hc_enabled (gc_http cfg)); cbn; rewrite ?Nat.add_0_r.
  - rewrite Ha, !omap_app, (quiet_no_start sleeps), (quiet_no_start look), (quiet_no_start turns) by done.
    by destruct (hc_enabled (gc_http cfg)).
Qed.

(** ** The devices of a configuration *)

(** A new device whose invariant holds and whose settings the line can be opened
    with. *)
Definition input_ready (d : input_device) : Prop :=
  match d with
  | UartInput _ d => uart_wf d ∧ uart_port d = -1 ∧ to_speed (uart_baud_rate d) ≠ 0
  | ModbusInput port d =>
      mb_wf d ∧ mb_port d = -1 ∧ port ≠ "" ∧ to_speed (mo_baud_rate (mb_options d)) ≠ 0 ∧
      1 <= mo_poll_interval_ms (mb_options d) ∧ 1 <= mo_response_timeout_ms (mb_options d)
  | CanInput interface d => can_wf d ∧ can_socket d = -1 ∧ interface ≠ ""
  end.

Lemma loaded `{Yaml Node} inet_pton path c message :
  load_gateway_config inet_pton path default_gateway = (true, c, message) →
  (∃ root, gateway_settings root c) ∧ usable inet_pton c.
Proof.
  unfold load_gateway_config.
  destruct (load_checked inet_pton path default_gateway) as [[e | u] c'] eqn:Hl; [done |].
  intros [= -> _]. apply load_checked_done in Hl as (root & _ & _ & Hg & Hu). eauto.
Qed.

Lemma modbus_request_wf `{Yaml Node} root c :
  gateway_settings root c → wf_request (mo_request (modbus_options c)).
Proof.
  unfold modbus_options. intros (_ & [[_ ->] | (n & _ & Hm)] & _).
  - by split; unfold is_u8, is_u16; cbn.
  - destruct Hm as (_ & _ & _ & _ & ? & _ & _ & _ & ? & _ & ? & _).
    split; unfold is_u8, is_u16; cbn; lia.
Qed.

Lemma new_uart_ready rate path : to_speed rate ≠ 0 → input_ready (UartInput path (new_uart rate)).
Proof. intros Hr. split_and!; [| done | done]. split; try done. apply parser_inv_new. Qed.

(** Every device of a loaded configuration is ready, and there is at least one. *)
Lemma loaded_devices `{Yaml Node} inet_pton path c message args :
  load_gateway_config inet_pton path default_gateway = (true, c, message) →
  let inputs := gateway_devices c (serial_devices c args) in
  inputs ≠ [] ∧ Forall input_ready inputs.
Proof.
  intros [[root Hg] Hu]%loaded inputs. unfold inputs, gateway_devices. split.
  - rewrite !app_nil. intros (Hd%fmap_nil_inv & Hm & Hc).
    destruct (us_input _ _ Hu) as [Hs | [He | He]]; [| by rewrite He in Hm | by rewrite He in Hc].
    by destruct args as [| a [| device args]].
  - apply Forall_app_2; [| apply Forall_app_2].
    + apply Forall_fmap, Forall_true. intros p. apply new_uart_ready, (us_serial _ _ Hu).
    + destruct (mc_enabled (gc_modbus c)) eqn:He; [| done]. apply Forall_singleton.
      destruct (us_modbus _ _ Hu He) as (? & ? & ? & ?).
      split_and!; try done. split; [by apply (modbus_request_wf root) | done | done].
    + destruct (cc_enabled (gc_can c)) eqn:He; [| done]. apply Forall_singleton.
      split_and!; [done | done |]. by apply (us_can _ _ Hu).
Qed.

(** ** The life of the gateway *)

Definition initial_state : gateway_state :=
  mk_gateway_state (new_status "" "" false false) false false false false 0.

(** The part of the set-ups that [run_gateway] makes. *)
Definition opens (cfg : GatewayConfig) (env : gateway_env) : bool :=
  (negb (bool_decide (kc_type (gc_cache cfg) = "sqlite")) || ge_sqlite_ready env) &&
  (negb (hc_enabled (gc_http cfg)) || ge_http_started env).

(** What [main] needs to run the gateway with the settings [cfg]: they load, the
    signal handlers are installed, a configured SQLite cache opens and an enabled HTTP
    server starts. *)
Definition runs `{Yaml Node} inet_pton (args : list string) (env : main_env) (cfg : GatewayConfig)
    : Prop :=
  args ≠ ["--version"] ∧
  load_gateway_config inet_pton (config_path args) default_gateway = (true, cfg, "") ∧
  me_sigint env = None ∧ me_sigterm env = None ∧ opens cfg (me_gateway env) = true.

Lemma run_gateway_code cfg devices env code acts :
  run_gateway cfg devices env = Ret (code, acts) →
  code = if opens cfg env then 0 else 1.
Proof.
  unfold run_gateway, opens. destruct (bool_decide _), (ge_sqlite_ready env), (hc_enabled _),
    (ge_http_started env); cbn [andb orb negb]; try (by intros [= <- _]);
    (destruct (main_loop _ _ _ _); [| done..]); cbn [mbind exec_bind];
    destruct (shut_down _ _ _ _); by intros [= <- _].
Qed.

Lemma run_gateway_ends cfg devices env :
  shutdown_arrives (qc_cache_retry_interval_seconds (gc_mqtt cfg) * 1000) (ge_waits env) →
  threads_return cfg devices env →
  ∃ code acts, run_gateway cfg devices env = Ret (code, acts).
Proof.
  intros Hw [Hs Ht%threads_forall]. destruct (main_loop_ends _ _ (ge_statuses env) 1 Hw) as [acts Ha].
  unfold run_gateway. rewrite Ha. cbn [mbind exec_bind].
  rewrite shut_down_ret by done. repeat case_match; by eexists _, _.
Qed.

(** It only returns if they do. *)
Lemma run_gateway_joins cfg devices env r :
  opens cfg env = true → run_gateway cfg devices env = Ret r → threads_return cfg devices env.
Proof.
  unfold run_gateway, opens. rewrite andb_true_iff, !orb_true_iff, !negb_true_iff. intros [H1 H2].
  replace (bool_decide _ && negb (ge_sqlite_ready env)) with false
    by (symmetry; apply andb_false_iff; rewrite negb_false_iff; naive_solver).
  replace (hc_enabled (gc_http cfg) && negb (ge_http_started env)) with false
    by (symmetry; apply andb_false_iff; rewrite negb_false_iff; naive_solver).
  destruct (main_loop _ _ _ _); try discriminate. cbn [mbind exec_bind].
  destruct (shut_down _ _ _ _) eqn:Hs; try discriminate. intros _.
  destruct (shut_down_joins _ _ _ _ _ Hs) as [Hh Hw]. split; [done | by apply threads_forall].
Qed.

Lemma always_sound_ends s acts : always_sound s acts → sound (foldl act s acts).
Proof. intros Ha. by apply (always_sound_prefix s acts acts). Qed.

Lemma same_view_fields s s' :
  same_view s s' →
  is_ready (gs_status s) = is_ready (gs_status s') ∧ gs_http s = gs_http s' ∧
  gs_manager s = gs_manager s' ∧ gs_mqtt s = gs_mqtt s' ∧ gs_cache s = gs_cache s'.
Proof. intros [Hv]. unfold view in Hv. unfold is_ready. injection Hv as -> -> -> -> -> -> ->. done. Qed.

(** A course with other actions before it and quiet ones after it. *)
Lemma course_framed s code before acts after flushes inputs :
  course (foldl act s before) code acts flushes inputs → always_sound s before →
  flush_count before = 0%nat → omap manager_start before = [] →
  Forall quiet after → flush_count after = 0%nat →
  course s code (before ++ acts ++ after) flushes inputs.
Proof.
  intros [Hs Hr Hh Hm Hq Hk Hf Ho] Hb Hfb Hob Ha Hfa.
  set (s' := foldl act s before) in *.
  assert (same_view (foldl act s (before ++ acts ++ after)) (foldl act s' acts)) as Hv.
  { rewrite !foldl_app. fold s'. rewrite <-(app_nil_r after). by apply (drop_quiet after _ []). }
  apply same_view_fields in Hv as (Vr & Vh & Vm & Vq & Vk).
  split; [| by rewrite Vr | by rewrite Vh | by rewrite Vm | by rewrite Vq | by rewrite Vk | |].
  - apply always_sound_app. split; [done |]. apply always_sound_app. split; [done |].
    rewrite <-(app_nil_r after). apply always_sound_quiet; [done |].
    split; [by apply always_sound_ends | done].
  - by rewrite !flush_count_app, Hfb, Hfa, Nat.add_0_r.
  - by rewrite !omap_app, Hob, (quiet_no_start after), app_nil_r.
Qed.

Lemma install_handlers_ok sigint sigterm ok message signals :
  install_shutdown_signal_handlers sigint sigterm = (ok, message, signals) →
  ok = true ↔ sigint = None ∧ sigterm = None.
Proof.
  unfold install_shutdown_signal_handlers, install_handler.
  destruct sigint, sigterm; cbn; intros [= <- _ _]; naive_solver.
Qed.

Lemma load_message `{Yaml Node} inet_pton path c message :
  load_gateway_config inet_pton path default_gateway = (true, c, message) → message = "".
Proof. unfold load_gateway_config. destruct (load_checked _ _ _) as [[]]; by intros [= _ <-]. Qed.

Lemma course_failed s acts flushes flushes' inputs inputs' :
  course s 1 acts flushes inputs → course s 1 acts flushes' inputs'.
Proof. by intros []; split. Qed.

Section lifecycle.
Context `{Yaml Node} (inet_pton : string → bool) (kVersion : string).

(** The ways through [main]. *)
Lemma main_ok args env code acts :
  main inet_pton kVersion args env = Ret (code, acts) →
  (args = ["--version"] ∧ code = 0 ∧ acts = [ActOut ("linux-iot-edge-gateway " +:+ kVersion)]) ∨
  (∃ cfg, runs inet_pton args env cfg ∧ code = 0 ∧
     course initial_state code acts (waited (ge_waits (me_gateway env)))
       (gateway_devices cfg (serial_devices cfg args))) ∨
  (args ≠ ["--version"] ∧ (¬ ∃ cfg, runs inet_pton args env cfg) ∧ code = 1 ∧
   course initial_state code acts 0 []).
Proof.
  unfold main. case_bool_decide as Hv; [by intros [= <- <-]; left |].
  destruct (load_gateway_config inet_pton (config_path args) default_gateway)
    as [[[] cfg] message] eqn:Hl; cbn [negb]; intros Hm; right.
  2:{ right. injection Hm as <- <-. split_and!; [done | | done | exits].
      intros (cfg' & _ & Hl' & _). by rewrite Hl in Hl'. }
  pose proof (load_message _ _ _ _ Hl) as ->.
  destruct (install_shutdown_signal_handlers _ _) as [[ok error] signals] eqn:Hi.
  apply install_handlers_ok in Hi. destruct ok; cbn [negb] in Hm.
  2:{ right. injection Hm as <- <-. split_and!; [done | | done | exits].
      intros (cfg' & _ & _ & H1 & H2 & _). destruct Hi as [_ Hi]. by discriminate Hi. }
  destruct (proj1 Hi eq_refl) as [H1 H2].
  destruct (run_gateway _ _ _) as [[code' acts'] | |] eqn:Hr; try discriminate Hm.
  cbn [mbind exec_bind] in Hm. injection Hm as <- <-.
  pose proof (run_gateway_code _ _ _ _ _ Hr) as Hc.
  match goal with |- context [course initial_state _ (?x :: ?y :: ?z :: ?l :: acts' ++ ?after)] =>
    assert (course initial_state code' ([x; y; z; l] ++ acts' ++ after)
      (waited (ge_waits (me_gateway env))) (gateway_devices cfg (serial_devices cfg args))) as Hco
  end.
  { apply course_framed; try done; [eapply run_gateway_ok; [exact Hr | done..] | |].
    - destruct (me_shutdown env), (code' =? 0); repeat apply Forall_cons_2; auto with gateway.
    - by destruct (me_shutdown env), (code' =? 0). }
  destruct (opens cfg (me_gateway env)) eqn:Ho; subst code'; [left | right].
  - by exists cfg.
  - split_and!; [done | | done | by eapply course_failed].
    intros (cfg' & _ & Hl' & _ & _ & Ho'). rewrite Hl in Hl'. injection Hl' as <-. by rewrite Ho in Ho'.
Qed.

Lemma main_ends args env cfg :
  runs inet_pton args env cfg →
  shutdown_arrives (qc_cache_retry_interval_seconds (gc_mqtt cfg) * 1000) (ge_waits (me_gateway env)) →
  threads_return cfg (serial_devices cfg args) (me_gateway env) →
  ∃ code acts, main inet_pton kVersion args env = Ret (code, acts).
Proof.
  intros (Hv & Hl & H1 & H2 & _) Hw Ht. unfold main. rewrite bool_decide_eq_false_2 by done.
  rewrite Hl, H1, H2. cbn.
  destruct (run_gateway_ends cfg (serial_devices cfg args) (me_gateway env) Hw Ht) as (code & acts & ->).
  by eexists _, _.
Qed.

Lemma main_joins args env cfg r :
  runs inet_pton args env cfg → main inet_pton kVersion args env = Ret r →
  threads_return cfg (serial_devices cfg args) (me_gateway env).
Proof.
  intros (Hv & Hl & H1 & H2 & Ho). unfold main. rewrite bool_decide_eq_false_2 by done.
  rewrite Hl, H1, H2. cbn.
  destruct (run_gateway _ _ _) as [r' | |] eqn:Hr; try discriminate. intros _. by eapply run_gateway_joins.
Qed.
End lifecycle.

(** C8: The life of the gateway. If its set-ups succeed and a wait reports the shutdown
    request, [main] returns, with exit code 0, if and only if the threads it then joins
    do: the one of the HTTP server, if that is enabled, and the one of each device; a
    device whose read does not return, a TCP send in a handler that does not, or a client
    of the server that stays silent keeps the process alive. If a set-up fails, [main] returns 1. Always, error exits included: the status reports ready only while the
    device manager runs, also to a reader whose three loads fall at different moments
    of the run, the HTTP server only runs once the cache is ready, and the workers only
    run while the MQTT client and the cache exist; and at the end the status is not
    ready, the HTTP server and the device manager are stopped and the client and the
    cache are destroyed. The manager is started once, with at least one device and every device
    ready to be opened, exactly when the set-ups succeed; then the message cache is
    flushed once at the start and once after each wait that ended by its time-out. *)
Theorem gateway_lifecycle `{Yaml Node} inet_pton kVersion args env :
  (∀ cfg, runs inet_pton args env cfg →
     shutdown_arrives (qc_cache_retry_interval_seconds (gc_mqtt cfg) * 1000) (ge_waits (me_gateway env)) →
     ((∃ acts, main inet_pton kVersion args env = Ret (0, acts)) ↔
      threads_return cfg (serial_devices cfg args) (me_gateway env))) ∧
  ∀ code acts, main inet_pton kVersion args env = Ret (code, acts) →
    let s p := foldl act initial_state p in
    (code = 0 ↔ args = ["--version"] ∨ ∃ cfg, runs inet_pton args env cfg) ∧ (code ≠ 0 → code = 1) ∧
    (∀ p, p `prefix_of` acts → sound (s p)) ∧
    (∀ moment : nat → nat, fst (ready (λ i, gs_status (s (take (moment i) acts)))) = true →
       gs_manager (s (take (moment 2%nat) acts)) = true) ∧
    is_ready (gs_status (s acts)) = false ∧ gs_http (s acts) = false ∧
    gs_manager (s acts) = false ∧ gs_mqtt (s acts) = false ∧ gs_cache (s acts) = false ∧
    Forall (λ ds, ds ≠ [] ∧ Forall input_ready ds) (omap manager_start acts) ∧
    (length (omap manager_start acts), gs_flushes (s acts))
    = (if decide (code = 0 ∧ args ≠ ["--version"])
       then (1%nat, S (waited (ge_waits (me_gateway env)))) else (0%nat, 0%nat)).
Proof.
  split.
  - intros cfg Hr Hw. split; [intros [acts Hm]; by eapply main_joins |]. intros Ht. destruct (main_ends inet_pton kVersion _ _ _ Hr Hw Ht) as (code & acts & Hm).
    exists acts. destruct (main_ok _ _ _ _ _ _ Hm) as [(-> & _) | [(_ & _ & -> & _) | (_ & Hn & _)]];
      [by destruct Hr | done | by destruct Hn; exists cfg].
  - intros code acts Hm s. unfold s. rewrite flushes_done.
    assert (always_sound initial_state acts) as Hs.
    { destruct (main_ok _ _ _ _ _ _ Hm) as [(_ & _ & ->) | [(cfg & _ & _ & []) | (_ & _ & _ & [])]];
        [by repeat split | done..]. }
    assert (∀ p, p `prefix_of` acts → sound (foldl act initial_state p)) as Hp
      by by intros p; apply always_sound_prefix.
    pose proof (λ moment, always_sound_ready initial_state acts moment Hs) as Hmoment.
    destruct (main_ok _ _ _ _ _ _ Hm) as [(-> & -> & ->) | [(cfg & Hr & -> & Hc) | (Hv & Hn & -> & Hc)]].
    + split_and!; try done. by split; [left |].
    + destruct Hc as [_ Hre Hh Hg Hq Hk Hf Ho].
      split_and!; try done; [split; [by right; exists cfg | done] | |].
      * rewrite Ho. apply Forall_singleton, (loaded_devices inet_pton (config_path args) cfg "" args), Hr.
      * rewrite Ho, Hf, (decide_True (P:=0 = 0 ∧ _)) by (split; [done | apply Hr]). done.
    + destruct Hc as [_ Hre Hh Hg Hq Hk Hf Ho].
      split_and!; try done; [by split; [| intros []] | by rewrite Ho |].
      by rewrite Ho, Hf, decide_False by naive_solver.
Qed.

(** The default configuration, a device given on the command line, and two waits that
    end by their time-out before the shutdown request. *)
Definition sample_wait (final : bool) : wait_env := mk_wait_env 0 [mk_wait_turn final 5000000000] final.

#[local] Instance no_terminal : TerminalLibrary := mk_terminal_library id (λ _, id) (λ _, id).

Definition sample_open (fd : Z) : port_open_env := mk_port_open fd (Some (mk_termios 0 0 0 0 0 0 0 0)) true "".

(** The thread of a serial device that is opened, read once without data, and stopped; and
    that of a Modbus device whose clock passes the deadline between its two readings while
    the slave is silent, where [late] says if it passes it by more than a millisecond. *)
Definition sample_uart_thread : exec unit :=
  worker_thread [mk_loop_turn true (sample_open 5) (mk_uart_env [PollTimeout] (ReadBytes []) 0);
                 mk_loop_turn false (sample_open 5) (mk_uart_env [] (ReadBytes []) 0)]
    (new_uart 115200) os_init.

Definition sample_modbus_thread (late : bool) : exec unit :=
  worker_thread [mk_loop_turn true (sample_open 6, 0)
                   (mk_modbus_env 1000000000 None [Wrote 8] 1000000000
                      [mk_turn 1499999999 (if late then 1502000000 else 1500000000) silent_answer] 1700000000);
                 mk_loop_turn false (sample_open 6, 0) (mk_modbus_env 0 None [] 0 [] 0)]
    (new_modbus sample_options) os_init.

Definition sample_main (late : bool) : main_env :=
  mk_main_env None None true
    (mk_gateway_env true "" 0 true (λ _, []) (sample_wait <$> [false; false; true]) (λ _, [])
       (server_thread [(true, AcceptClosed)] os_init)
       (λ i, if (i =? 0)%nat then sample_uart_thread else sample_modbus_thread late)).

Definition with_modbus : GatewayConfig := set_gc_modbus (set_mc_enabled true default_modbus) default_gateway.

(** A serial device given on the command line and a Modbus device. *)
Lemma gateway_lifecycle_witness :
  let yaml := document_yaml (λ _, Some (DocMap [("modbus", DocMap [("enabled", DocBool true)])])) in
  let gateway late := main (H:=yaml) (λ _, false) "1.0" ["gateway.yaml"; "/dev/ttyUSB0"] (sample_main late) in
  (∃ acts, gateway false = Ret (0, acts) ∧
    (length (omap manager_start acts), gs_flushes (foldl act initial_state acts)) = (1%nat, 3%nat) ∧
    sound (foldl act initial_state (take 4 acts))) ∧
  ¬ ∃ acts, gateway true = Ret (0, acts).
Proof.
  intros yaml gateway.
  assert (∀ late, runs (H:=yaml) (λ _, false) ["gateway.yaml"; "/dev/ttyUSB0"] (sample_main late) with_modbus) as Hr.
  { intros late. split_and!; [discriminate | vm_compute; reflexivity | reflexivity..]. }
  assert (shutdown_arrives 5000 (sample_wait <$> [false; false; true])) as Hw.
  { assert (∀ b, wait_ends 5000 (sample_wait b)) as Hw by (intros b; left; right; vm_compute; discriminate).
    split; [apply Hw | right]. split; [apply Hw | right]. split; [apply Hw | left; reflexivity]. }
  split.
  - destruct (gateway_lifecycle (H:=yaml) (λ _, false) "1.0" ["gateway.yaml"; "/dev/ttyUSB0"] (sample_main false))
      as [Hends Hall].
    destruct (proj2 (Hends with_modbus (Hr false) Hw)) as [acts Hm].
    { split; [intros Hh; discriminate Hh |].
      intros [| [| i]] Hi; [vm_compute; reflexivity | vm_compute; reflexivity |]. cbn in Hi. lia. }
    destruct (Hall _ _ Hm) as (_ & _ & Hs & _ & _ & _ & _ & _ & _ & _ & Hn).
    exists acts. split; [exact Hm |]. split; [exact Hn |]. apply Hs. exists (drop 4 acts).
    symmetry. apply take_drop.
  - intros Hm.
    destruct (gateway_lifecycle (H:=yaml) (λ _, false) "1.0" ["gateway.yaml"; "/dev/ttyUSB0"] (sample_main true))
      as [Hends _].
    apply (proj1 (Hends with_modbus (Hr true) Hw)) in Hm as [_ Ht].
    specialize (Ht 1%nat ltac:(apply Nat.ltb_lt; vm_compute; reflexivity)). vm_compute in Ht. discriminate Ht.
Defined.
