(* ===== verification/System.v ===== *)
(** * The threads of the gateway together ([src/main.cpp], [src/publisher/])

    The workers make their handler calls at the same time, and the main thread flushes
    the cache meanwhile. The mutexes of the publishers make each publication on a
    channel and each flush one step, and so do the atomics and the mutex of the metrics
    and the logger ([Locks] has the mutexes, and shows that no other runs come of them);
    everything between two steps may interleave. *)

From stdpp Require Import gmap.
From S2P Require Import Prelude SensorData DeviceData DeviceInterface DeviceManager RuntimeMetrics MessageCache FileCache ReliablePublisher TcpClient ConfigData Posix Publisher Logger Gateway MainThread.

Local Open Scope Z_scope.

(** ** The code, cut at its locks *)

Section code.
Context `{MqttPublish M E} `{CacheLaws C AEnv LEnv REnv}.
Context (gateway_config : GatewayConfig).

Abbreviation W := (world M C E AEnv LEnv).

(** Where a worker is in its handler call: between two calls, in the loop of
    [PublisherGroup::publish] with the publishers to come and the outcomes so far, or
    in the loop over the outcomes. *)
Inductive position : Type :=
  | Between
  | Publishing (topic payload : string) (rest : PublisherGroup W) (outcomes : list PublishOutcome)
  | Noting (outcomes : list PublishOutcome).

(** A worker and the handler calls it still makes. *)
Record worker : Type := mk_worker {
  wk_calls : list action;
  wk_at : position;
}.

(** A publication on a channel, with its result. *)
Record publication : Type := mk_publication {
  pb_channel : string;
  pb_message : CachedMessage;
  pb_status : PublishStatus;
}.

(** One step of a worker, and the publication it makes, if it makes one. *)
Inductive call_step : worker → W → list publication → worker → W → Prop :=
  | step_invalid data protocol calls w :
      valid data = false →
      call_step (mk_worker (DataCall data protocol :: calls) Between) w []
        (mk_worker calls Between)
        (count [Add ProtocolErrors 1]
           (log Warn (protocol_to_string protocol)
              ("invalid sensor data: " +:+ sensor_data_to_json data)
              (count [Add FramesParsed 1] w)))
  | step_valid data protocol calls w :
      valid data = true →
      call_step (mk_worker (DataCall data protocol :: calls) Between) w []
        (mk_worker calls
           (Publishing (build_mqtt_topic (qc_topic_prefix (gc_mqtt gateway_config)) data)
              (sensor_data_to_json data) (gateway_publishers gateway_config) []))
        (log Info "sensor"
           ("parsed data: " +:+ sensor_data_to_json data +:+ ", protocol="
            +:+ protocol_to_string protocol)
           (count [Add FramesParsed 1] w))
  | step_publish calls topic payload publisher rest outcomes w status w' :
      pub_publish publisher w topic payload = Ret (status, w') →
      call_step (mk_worker calls (Publishing topic payload (publisher :: rest) outcomes)) w
        [mk_publication (pub_channel publisher) (mk_message topic payload) status]
        (mk_worker calls (Publishing topic payload rest
                            (outcomes ++ [mk_outcome (pub_channel publisher) status])))
        w'
  | step_published calls topic payload outcomes w :
      call_step (mk_worker calls (Publishing topic payload [] outcomes)) w []
        (mk_worker calls (Noting outcomes)) w
  | step_note calls outcome outcomes w :
      call_step (mk_worker calls (Noting (outcome :: outcomes))) w []
        (mk_worker calls (Noting outcomes)) (note_outcome w outcome)
  | step_noted calls w :
      call_step (mk_worker calls (Noting [])) w [] (mk_worker calls Between) w
  | step_error protocol code error stats calls w :
      call_step (mk_worker (ErrorCall protocol code error stats :: calls) Between) w []
        (mk_worker calls Between) (on_error protocol code error stats w)
  | step_other a calls w :
      (match a with DataCall _ _ | ErrorCall _ _ _ _ => False | _ => True end) →
      call_step (mk_worker (a :: calls) Between) w [] (mk_worker calls Between) w.

(** [flush_cache] of the main thread, on the shared objects. *)
Definition flush_world (env : flush_env E LEnv REnv) (w : W) : list attempt * W :=
  let '(_, (m, c), attempts, us) := rp_flush_cache true (w_mqtt w) (w_cache w) env in
  (attempts,
   mk_world m c (w_tcp w) (w_os w) (w_updates w ++ us) (w_attempts w ++ attempts) (w_sends w)
            (w_log w) (w_mqtt_envs w) (w_tcp_envs w)).

(** What happens on the channels. *)
Inductive event : Type :=
  | WorkerPublished (thread : nat) (p : publication)
  | MainFlushed (attempts : list attempt).

Record gateway_system : Type := mk_gateway_system {
  sy_workers : list worker;
  sy_world : W;
}.

Inductive gateway_step : gateway_system → list event → gateway_system → Prop :=
  | worker_steps ws w i wk pubs wk' w' :
      ws !! i = Some wk → call_step wk w pubs wk' w' →
      gateway_step (mk_gateway_system ws w) (WorkerPublished i <$> pubs)
        (mk_gateway_system (<[i := wk']> ws) w')
  | main_flushes ws w env attempts w' :
      remove_benign (fe_remove env) → flush_world env w = (attempts, w') →
      gateway_step (mk_gateway_system ws w) [MainFlushed attempts] (mk_gateway_system ws w').

(** Any interleaving. *)
Inductive gateway_runs (s : gateway_system) : list event → gateway_system → Prop :=
  | runs_nil : gateway_runs s [] s
  | runs_snoc evs s1 evs' s2 :
      gateway_runs s evs s1 → gateway_step s1 evs' s2 → gateway_runs s (evs ++ evs') s2.

(** The start: the handler calls of each worker. *)
Definition system_of (calls : list (list action)) (w : W) : gateway_system :=
  mk_gateway_system ((λ acts, mk_worker acts Between) <$> calls) w.
End code.

Arguments position : clear implicits.
Arguments worker : clear implicits.
Arguments gateway_system : clear implicits.

(** ** Facts *)

(** The publications of a worker, and of all of them. *)
Definition by_worker (i : nat) (evs : list event) : list publication :=
  omap (λ e, match e with
             | WorkerPublished j p => if decide (j = i) then Some p else None
             | MainFlushed _ => None
             end) evs.

Definition published (evs : list event) : list publication :=
  omap (λ e, match e with WorkerPublished _ p => Some p | MainFlushed _ => None end) evs.

(** The messages published on a channel, with their results. *)
Definition outcomes_on (channel : string) (ps : list publication)
    : list (CachedMessage * PublishStatus) :=
  (λ p, (pb_message p, pb_status p)) <$> filter (λ p, pb_channel p = channel) ps.

Definition messages_on (channel : string) (ps : list publication) : list CachedMessage :=
  fst <$> outcomes_on channel ps.

(** The messages given to the MQTT client, by the workers and by the flushes. *)
Definition event_attempts (e : event) : list attempt :=
  match e with
  | WorkerPublished _ p =>
      if decide (pb_channel p = "mqtt")
      then [(pb_message p, bool_decide (pb_status p = Published))] else []
  | MainFlushed attempts => attempts
  end.

Definition all_attempts (evs : list event) : list attempt := evs ≫= event_attempts.

Lemma by_worker_app i a b : by_worker i (a ++ b) = by_worker i a ++ by_worker i b.
Proof. apply omap_app. Qed.

Lemma published_app a b : published (a ++ b) = published a ++ published b.
Proof. apply omap_app. Qed.

Lemma outcomes_on_app ch a b : outcomes_on ch (a ++ b) = outcomes_on ch a ++ outcomes_on ch b.
Proof. unfold outcomes_on. by rewrite filter_app, fmap_app. Qed.

Lemma messages_on_app ch a b : messages_on ch (a ++ b) = messages_on ch a ++ messages_on ch b.
Proof. unfold messages_on. by rewrite outcomes_on_app, fmap_app. Qed.

Lemma all_attempts_app a b : all_attempts (a ++ b) = all_attempts a ++ all_attempts b.
Proof. apply bind_app. Qed.

Lemma by_worker_labels i j pubs :
  by_worker i (WorkerPublished j <$> pubs) = if decide (j = i) then pubs else [].
Proof.
  unfold by_worker. induction pubs as [| p pubs IH]; cbn; [by case_decide |].
  case_decide; cbn; by rewrite IH.
Qed.

Lemma published_labels j pubs : published (WorkerPublished j <$> pubs) = pubs.
Proof. unfold published. induction pubs as [| p pubs IH]; cbn; [done | by rewrite IH]. Qed.

Section facts.
Context `{MqttPublish M E} `{CacheLaws C AEnv LEnv REnv}.
Context (gateway_config : GatewayConfig).

Abbreviation W := (world M C E AEnv LEnv).
Implicit Types (w : W).

(** A worker only calls the publishers of the gateway, each once per message. *)
Definition worker_ok (wk : worker M E C AEnv LEnv) : Prop :=
  match wk_at wk with
  | Publishing _ _ rest _ => rest `suffix_of` gateway_publishers gateway_config
  | _ => True
  end.

(** The messages a worker is still to publish on a channel. *)
Definition to_publish (ch : string) (wk : worker M E C AEnv LEnv) : list CachedMessage :=
  (match wk_at wk with
   | Publishing topic payload rest _ =>
       if decide (ch ∈ pub_channel <$> rest) then [mk_message topic payload] else []
   | _ => []
   end) ++
  (if decide (ch ∈ gateway_channels gateway_config)
   then messages gateway_config (wk_calls wk) else []).

(** The suffixes of the group. *)
Lemma group_suffix (publisher : Publisher W) rest :
  publisher :: rest `suffix_of` gateway_publishers gateway_config →
  pub_channel publisher ∉ pub_channel <$> rest ∧
  rest `suffix_of` gateway_publishers gateway_config ∧
  (publisher = mqtt_publisher ∨ publisher = tcp_publisher).
Proof.
  intros [before Hg]. split_and!; [| exists (before ++ [publisher]); by rewrite <-app_assoc |];
    revert Hg; unfold gateway_publishers, pg_add; destruct (tc_enabled _); cbn [app];
    destruct before as [| x [| y [| z before]]]; cbn [app]; intros Hg;
    repeat match goal with
    | Hg : _ :: _ = _ :: _ |- _ =>
        let A := fresh in let B := fresh in
        pose proof (f_equal (hd publisher) Hg) as A; pose proof (f_equal tail Hg) as B;
        cbn [hd tail] in A, B; clear Hg
    | Hg : _ = _ :: _ |- _ => discriminate Hg
    | Hg : [] = _ ++ _ |- _ => destruct before; discriminate Hg
    end; subst; try discriminate; auto; cbn; try set_solver.
Qed.

(** What a step of a worker does to the channels. *)
Lemma call_step_world wk w pubs wk' w' :
  worker_ok wk → call_step gateway_config wk w pubs wk' w' →
  pubs = [] ∧ same_channels w w' ∨
  ∃ x r, (pubs = [mk_publication "mqtt" x r] ∧
          pub_publish mqtt_publisher w (msg_topic x) (msg_payload x) = Ret (r, w') ∨
          pubs = [mk_publication "tcp" x r] ∧
          pub_publish tcp_publisher w (msg_topic x) (msg_payload x) = Ret (r, w')).
Proof.
  intros Hwk Hstep.
  destruct Hstep as [| | ? topic payload ? ? ? ? status ? Hp | | | | |]; try by left.
  - apply group_suffix in Hwk as (_ & _ & Hpub). right. exists (mk_message topic payload), status.
    destruct Hpub as [-> | ->]; [by left | by right].
  - left. split; [done | apply note_outcome_same].
Qed.

(** Each step of a worker publishes what it no longer is to publish. *)
Lemma call_step_messages wk w pubs wk' w' :
  worker_ok wk → call_step gateway_config wk w pubs wk' w' →
  worker_ok wk' ∧ ∀ ch, to_publish ch wk = messages_on ch pubs ++ to_publish ch wk'.
Proof.
  intros Hwk Hstep.
  destruct Hstep as [data p calls ? Hv | data p calls ? Hv | calls topic payload pub rest ? ? status ? Hp
    | | | | |]; try (by split).
  - split; [done |]. intros ch. unfold to_publish, messages. cbn [wk_at wk_calls omap list_omap app].
    cbn [reading_message]. by rewrite Hv.
  - split; [by exists [] |]. intros ch. unfold to_publish, messages. cbn [wk_at wk_calls omap list_omap].
    cbn [reading_message]. rewrite Hv, gateway_channels_ok. cbn. by case_decide.
  - destruct (group_suffix _ _ Hwk) as (Hn & Hs & _). split; [done |]. intros ch.
    unfold to_publish. cbn [wk_at wk_calls]. rewrite app_assoc. f_equal.
    unfold messages_on, outcomes_on. cbn [filter list_filter fmap list_fmap pb_channel].
    destruct (decide (pub_channel pub = ch)) as [<- | Hne].
    + rewrite (decide_True (P:=pub_channel pub ∈ _)) by (cbn; by left). rewrite decide_False by done. by cbn.
    + cbn. case_decide as H1; case_decide as H2; try done; exfalso; set_solver.
  - split; [done |]. intros ch. unfold to_publish, messages. cbn [wk_at wk_calls app omap list_omap].
    by destruct a.
Qed.

Lemma to_publish_done ch : to_publish ch (mk_worker [] Between) = [].
Proof. unfold to_publish. cbn. by case_decide. Qed.

(** What events did to the shared objects. *)
Record world_flow w (evs : list event) w' : Prop := mk_world_flow {
  wf_cache : cache_ok (w_cache w');
  wf_flow : queue_flow (w_cache w) (with_status Deferred (outcomes_on "mqtt" (published evs)))
              (all_attempts evs) (w_cache w');
  wf_attempts : w_attempts w' = w_attempts w ++ all_attempts evs;
  wf_envs : ∃ used, w_mqtt_envs w = used ++ w_mqtt_envs w';
}.

Lemma world_flow_same w w' : cache_ok (w_cache w) → same_channels w w' → world_flow w [] w'.
Proof.
  intros Hok (Hc & Ha & _ & He). split; rewrite ?Hc, ?Ha, ?He; [done | | by rewrite app_nil_r | by exists []].
  apply queue_flow_same. by rewrite app_nil_r.
Qed.

Lemma world_flow_trans w1 evs1 w2 evs2 w3 :
  world_flow w1 evs1 w2 → world_flow w2 evs2 w3 → world_flow w1 (evs1 ++ evs2) w3.
Proof.
  intros [_ F1 A1 [u1 U1]] [Hok F2 A2 [u2 U2]]. split; [done | | |].
  - rewrite published_app, outcomes_on_app, with_status_app, all_attempts_app.
    by apply (queue_flow_trans _ _ _ (w_cache w2)).
  - by rewrite A2, A1, all_attempts_app, app_assoc.
  - exists (u1 ++ u2). by rewrite U1, U2, app_assoc.
Qed.

(** The cache and the attempts after a publication of a worker. *)
Lemma publication_flow w x ch r w' i :
  cache_ok (w_cache w) → Forall (λ env, append_benign (pe_append env)) (w_mqtt_envs w) →
  (ch = "mqtt" → storable x) →
  ch = "mqtt" ∧ pub_publish mqtt_publisher w (msg_topic x) (msg_payload x) = Ret (r, w') ∨
  ch = "tcp" ∧ pub_publish tcp_publisher w (msg_topic x) (msg_payload x) = Ret (r, w') →
  world_flow w [WorkerPublished i (mk_publication ch x r)] w'.
Proof.
  intros Hok Hb Hx [[-> Hp] | [-> Hp]].
  - destruct (mqtt_publisher_effect w x r w' Hok (Hx eq_refl) Hb Hp)
      as (us & Ha & Hok' & Hc & _ & _ & _ & _ & _ & _ & _ & env & He).
    split; [done | | by rewrite Ha | by exists [env]].
    apply queue_flow_same. rewrite Hc. by destruct r.
  - destruct (tcp_publisher_effect w _ _ r w' Hp) as (ok & line & _ & _ & _ & Hc & Ha & _ & He & _).
    split; rewrite ?Hc, ?Ha, ?He; [done | | by cbn; rewrite app_nil_r | by exists []].
    apply queue_flow_same. by cbn; rewrite app_nil_r.
Qed.

(** A flush of the main thread. *)
Lemma flush_flow env w attempts w' :
  cache_ok (w_cache w) → remove_benign (fe_remove env) → flush_world env w = (attempts, w') →
  world_flow w [MainFlushed attempts] w'.
Proof.
  intros Hok Hb. unfold flush_world.
  pose proof (rp_flush_ok (w_mqtt w) (w_cache w) env Hok Hb) as Hf.
  destruct (rp_flush_cache true (w_mqtt w) (w_cache w) env) as [[[k [m c]] at1] us].
  destruct Hf as (Hok' & Hq & _). intros [= <- <-]. unfold all_attempts.
  split; cbn; rewrite ?app_nil_r; [done | exact Hq | done | by exists []].
Qed.

(** What each worker has published and is still to publish is what it was given. *)
Definition workers_inv (calls : list (list action)) (evs : list event)
    (ws : list (worker M E C AEnv LEnv)) : Prop :=
  length ws = length calls ∧
  ∀ i wk acts, ws !! i = Some wk → calls !! i = Some acts →
    worker_ok wk ∧
    ∀ ch, messages_on ch (by_worker i evs) ++ to_publish ch wk
          = if decide (ch ∈ gateway_channels gateway_config)
            then messages gateway_config acts else [].

Context (calls : list (list action)) (w0 : W).
Context (Hbenign : Forall (λ env, append_benign (pe_append env)) (w_mqtt_envs w0)).
Context (Hstorable : Forall (λ acts, Forall storable (messages gateway_config acts)) calls).

Lemma worker_step_inv evs ws w i wk pubs wk' w' :
  workers_inv calls evs ws → world_flow w0 evs w →
  ws !! i = Some wk → call_step gateway_config wk w pubs wk' w' →
  workers_inv calls (evs ++ (WorkerPublished i <$> pubs)) (<[i := wk']> ws) ∧
  world_flow w0 (evs ++ (WorkerPublished i <$> pubs)) w'.
Proof.
  intros [Hlen Hw] Hf Hi Hstep.
  destruct (lookup_lt_is_Some_2 calls i) as [acts Ha]; [rewrite <-Hlen; by eapply lookup_lt_Some |].
  destruct (Hw i wk acts Hi Ha) as [Hwk Hm].
  destruct (call_step_messages _ _ _ _ _ Hwk Hstep) as [Hwk' Hm']. split.
  - split; [by rewrite length_insert |]. intros j wkj actsj Hj Haj.
    rewrite by_worker_app, by_worker_labels. case_decide as Hij.
    + subst j. rewrite list_lookup_insert_eq in Hj by by eapply lookup_lt_Some.
      injection Hj as <-. split; [done |]. intros ch.
      rewrite messages_on_app, <-app_assoc, <-Hm', Hm. by simplify_eq.
    + rewrite list_lookup_insert_ne in Hj by done. rewrite app_nil_r. by apply Hw.
  - apply (world_flow_trans _ _ w); [done |]. destruct Hf as [Hok _ _ [used Hu]].
    destruct (call_step_world _ _ _ _ _ Hwk Hstep) as [[-> Hsame] | (x & r & Hp)];
      [by apply world_flow_same |].
    assert (Forall (λ env, append_benign (pe_append env)) (w_mqtt_envs w)) as Hb.
    { revert Hbenign. rewrite Hu, Forall_app. tauto. }
    assert (∃ ch, pubs = [mk_publication ch x r] ∧
      (ch = "mqtt" ∧ pub_publish mqtt_publisher w (msg_topic x) (msg_payload x) = Ret (r, w') ∨
       ch = "tcp" ∧ pub_publish tcp_publisher w (msg_topic x) (msg_payload x) = Ret (r, w')))
      as (ch & -> & Hch) by (destruct Hp as [[-> ?] | [-> ?]]; eexists; (split; [done |]); tauto).
    apply publication_flow; [done | done | intros -> | exact Hch].
    assert (x ∈ messages gateway_config acts) as Hx.
    { specialize (Hm "mqtt"). rewrite decide_True in Hm by by left.
      rewrite <-Hm, Hm'. unfold messages_on, outcomes_on. cbn. set_solver. }
    rewrite Forall_forall in Hstorable.
    specialize (Hstorable acts (list_elem_of_lookup_2 _ _ _ Ha)). rewrite Forall_forall in Hstorable.
    by apply Hstorable.
Qed.

(** Every run. *)
Lemma gateway_runs_inv evs s :
  cache_ok (w_cache w0) → gateway_runs gateway_config (system_of calls w0) evs s →
  workers_inv calls evs (sy_workers s) ∧ world_flow w0 evs (sy_world s).
Proof.
  intros Hok Hr. induction Hr as [| evs s1 evs' s2 Hr [IHw IHf] Hstep].
  - split; [| by apply world_flow_same].
    split; [cbn; by rewrite length_fmap |]. intros i wk acts Hi Ha. cbn in Hi.
    rewrite list_lookup_fmap, Ha in Hi. by injection Hi as <-.
  - destruct Hstep as [ws w i wk pubs wk' w' Hi Hc | ws w env attempts w' Hb Hfl]; cbn in *.
    + by eapply worker_step_inv.
    + split; [| eapply world_flow_trans; [done |]; eapply flush_flow; [by destruct IHf | done..]].
      destruct IHw as [Hlen Hw]. split; [done |]. intros i wk acts Hi Ha.
      rewrite by_worker_app. cbn. rewrite app_nil_r. by apply Hw.
Qed.
End facts.

(** ** The code as one worker runs it *)

Section sequential.
Context `{MqttPublish M E} `{CacheLaws C AEnv LEnv REnv}.
Context (gateway_config : GatewayConfig).

Abbreviation W := (world M C E AEnv LEnv).
Implicit Types (w : W).

Definition reaches (s : gateway_system M E C AEnv LEnv) (wk : worker M E C AEnv LEnv) w : Prop :=
  ∃ evs, gateway_runs gateway_config s evs (mk_gateway_system [wk] w).

Lemma reaches_step s wk w pubs wk' w' :
  reaches s wk w → call_step gateway_config wk w pubs wk' w' → reaches s wk' w'.
Proof.
  intros [evs Hr] Hs. eexists. eapply runs_snoc; [exact Hr |].
  by apply (worker_steps _ [wk] w 0 wk pubs wk' w').
Qed.

(** The loop of the group, and the loop over the outcomes. *)
Lemma reaches_publish s calls topic payload rest done_ w outcomes w' :
  reaches s (mk_worker calls (Publishing topic payload rest done_)) w →
  pg_publish rest w topic payload = Ret (outcomes, w') →
  reaches s (mk_worker calls (Noting (done_ ++ outcomes))) w'.
Proof.
  revert done_ w outcomes. induction rest as [| publisher rest IH]; intros done_ w outcomes Hr.
  - intros [= <- <-]. rewrite app_nil_r. eapply reaches_step; [exact Hr | apply step_published].
  - cbn [pg_publish]. destruct (pub_publish publisher w topic payload) as [[status w1] | |] eqn:Hp;
      try discriminate. cbn [mbind exec_bind].
    destruct (pg_publish rest w1 topic payload) as [[outcomes1 w2] | |] eqn:Hg; try discriminate.
    cbn [mbind exec_bind]. intros [= <- <-].
    replace (done_ ++ mk_outcome (pub_channel publisher) status :: outcomes1)
      with ((done_ ++ [mk_outcome (pub_channel publisher) status]) ++ outcomes1) by by rewrite <-app_assoc.
    eapply (IH _ w1); [| exact Hg]. eapply reaches_step; [exact Hr | by apply step_publish].
Qed.

Lemma reaches_notes s calls outcomes w :
  reaches s (mk_worker calls (Noting outcomes)) w →
  reaches s (mk_worker calls Between) (foldl note_outcome w outcomes).
Proof.
  revert w. induction outcomes as [| o outcomes IH]; intros w Hr; cbn [foldl].
  - eapply reaches_step; [exact Hr | apply step_noted].
  - apply IH. eapply reaches_step; [exact Hr | apply step_note].
Qed.

(** The handler calls as the code makes them, one after the other, are one of the
    interleavings. *)
Lemma handle_actions_reached s acts w w' :
  reaches s (mk_worker acts Between) w → handle_actions gateway_config w acts = Ret w' →
  reaches s (mk_worker [] Between) w'.
Proof.
  revert w. induction acts as [| a acts IH]; intros w Hr; cbn [handle_actions]; [by intros [= <-] |].
  destruct (handle_action gateway_config w a) as [w1 | |] eqn:Ha; try discriminate.
  cbn [mbind exec_bind]. apply IH.
  destruct a as [data protocol | protocol code error stats | | | |]; cbn [handle_action] in Ha;
    try (injection Ha as <-; eapply reaches_step; [exact Hr | by constructor]).
  unfold on_data, publish_sensor_data in Ha.
  destruct (valid data) eqn:Hv; cbn [negb] in Ha.
  - destruct (pg_publish _ _ _ _) as [[outcomes w2] | |] eqn:Hp; try discriminate.
    injection Ha as <-. apply reaches_notes. eapply (reaches_publish _ _ _ _ _ []); [| exact Hp].
    eapply reaches_step; [exact Hr | by apply step_valid].
  - injection Ha as <-. eapply reaches_step; [exact Hr | by apply step_invalid].
Qed.
End sequential.

(** ** Workers finish *)

Section progress.
Context `{MqttPublish M E} `{CacheLaws C AEnv LEnv REnv}.
Context (gateway_config : GatewayConfig).

(** The steps a worker has left. *)
Definition call_cost : nat :=
  2 * length (gateway_publishers (M:=M) (C:=C) (AEnv:=AEnv) (LEnv:=LEnv) gateway_config) + 3.

Definition steps_left (wk : worker M E C AEnv LEnv) : nat :=
  (match wk_at wk with
   | Between => 0
   | Publishing _ _ rest outcomes => 2 * length rest + length outcomes + 2
   | Noting outcomes => length outcomes + 1
   end + length (wk_calls wk) * call_cost)%nat.

(** A worker takes no more steps than that. *)
Lemma call_step_decreases wk (w : world M C E AEnv LEnv) pubs wk' w' :
  call_step gateway_config wk w pubs wk' w' → (steps_left wk' < steps_left wk)%nat.
Proof.
  unfold steps_left, call_cost.
  destruct 1; cbn [wk_at wk_calls length Nat.mul]; rewrite ?length_app; cbn [length]; lia.
Qed.

(** The broker and the TCP server answer the next publication. *)
Definition answers (w : world M C E AEnv LEnv) : Prop :=
  w_mqtt_envs w ≠ [] ∧
  ∀ json, ∃ env envs r, w_tcp_envs w = env :: envs ∧ send_json (w_tcp w) (w_os w) env json = Ret r.

(** A worker that is not done can go on. *)
Lemma call_step_progress wk w :
  worker_ok gateway_config wk → answers w →
  wk = mk_worker [] Between ∨ ∃ pubs wk' w', call_step gateway_config wk w pubs wk' w'.
Proof.
  intros Hwk [Hm Ht].
  destruct wk as [calls [| topic payload [| publisher rest] outcomes | [| outcome outcomes]]];
    try (right; eexists _, _, _; by constructor).
  - destruct calls as [| [data protocol | | | | |] calls]; [by left | ..]; right;
      try (eexists _, _, _; by constructor).
    destruct (valid data) eqn:Hv; eexists _, _, _; by constructor.
  - apply group_suffix in Hwk as (_ & _ & [-> | ->]); right.
    + destruct (w_mqtt_envs w) as [| env envs] eqn:He; [done |].
      destruct (rp_publish true (w_mqtt w) (w_cache w) env topic payload)
        as [[[status [m c]] attempts] us] eqn:Hp.
      eexists _, _, _. apply step_publish. cbn. rewrite He, Hp. done.
    + destruct (Ht payload) as (env & envs & [[[ok fd] o] line] & He & Hs).
      eexists _, _, _. apply step_publish. cbn. rewrite He. unfold tcp_publish. rewrite Hs. done.
Qed.
End progress.

(** ** Running a schedule *)

Section schedule.
Context `{MqttPublish M E} `{CacheLaws C AEnv LEnv REnv}.
Context (gateway_config : GatewayConfig).

Abbreviation W := (world M C E AEnv LEnv).

(** The next step of a worker, if it has one. *)
Definition next_step (wk : worker M E C AEnv LEnv) (w : W)
    : option (list publication * worker M E C AEnv LEnv * W) :=
  let '(mk_worker calls at_) := wk in
  match at_, calls with
  | Between, [] => None
  | Between, DataCall data protocol :: calls =>
      if valid data
      then Some ([], mk_worker calls
              (Publishing (build_mqtt_topic (qc_topic_prefix (gc_mqtt gateway_config)) data)
                 (sensor_data_to_json data) (gateway_publishers gateway_config) []),
            log Info "sensor"
              ("parsed data: " +:+ sensor_data_to_json data +:+ ", protocol="
               +:+ protocol_to_string protocol) (count [Add FramesParsed 1] w))
      else Some ([], mk_worker calls Between,
            count [Add ProtocolErrors 1]
              (log Warn (protocol_to_string protocol)
                 ("invalid sensor data: " +:+ sensor_data_to_json data)
                 (count [Add FramesParsed 1] w)))
  | Between, ErrorCall protocol code error stats :: calls =>
      Some ([], mk_worker calls Between, on_error protocol code error stats w)
  | Between, _ :: calls => Some ([], mk_worker calls Between, w)
  | Publishing topic payload (publisher :: rest) outcomes, _ =>
      match pub_publish publisher w topic payload with
      | Ret (status, w') =>
          Some ([mk_publication (pub_channel publisher) (mk_message topic payload) status],
                mk_worker calls (Publishing topic payload rest
                   (outcomes ++ [mk_outcome (pub_channel publisher) status])), w')
      | _ => None
      end
  | Publishing _ _ [] outcomes, _ => Some ([], mk_worker calls (Noting outcomes), w)
  | Noting (outcome :: outcomes), _ =>
      Some ([], mk_worker calls (Noting outcomes), note_outcome w outcome)
  | Noting [], _ => Some ([], mk_worker calls Between, w)
  end.

Lemma next_step_iff wk w pubs wk' w' :
  next_step wk w = Some (pubs, wk', w') ↔ call_step gateway_config wk w pubs wk' w'.
Proof.
  split.
  - destruct wk as [calls [| topic payload [| publisher rest] outcomes | [| outcome outcomes]]];
      cbn [next_step]; try (by intros [= <- <- <-]; constructor).
    + destruct calls as [| [data protocol | | | | |] calls]; [done | ..];
        try (by intros [= <- <- <-]; constructor).
      destruct (valid data) eqn:Hv; intros [= <- <- <-]; by constructor.
    + destruct (pub_publish publisher w topic payload) as [[status w1] | |] eqn:Hp; try discriminate.
      intros [= <- <- <-]. by constructor.
  - destruct 1 as [? ? ? ? Hv | ? ? ? ? Hv | ? ? ? ? ? ? ? ? ? Hp | | | | | a]; cbn [next_step];
      [by rewrite Hv | by rewrite Hv | by rewrite Hp | done..|]. by destruct a.
Qed.

(** A schedule says which worker makes the next step, or that the main thread flushes. *)
Fixpoint run_schedule (schedule : list (nat + flush_env E LEnv REnv))
    (s : gateway_system M E C AEnv LEnv) : option (list event * gateway_system M E C AEnv LEnv) :=
  match schedule with
  | [] => Some ([], s)
  | turn :: schedule =>
      '(evs, s) ← match turn with
                  | inl i =>
                      wk ← sy_workers s !! i;
                      '(pubs, wk, w) ← next_step wk (sy_world s);
                      Some (fmap (M:=list) (WorkerPublished i) pubs, mk_gateway_system (<[i := wk]> (sy_workers s)) w)
                  | inr env =>
                      let '(attempts, w) := flush_world env (sy_world s) in
                      Some ([MainFlushed attempts], mk_gateway_system (sy_workers s) w)
                  end;
      '(evs', s) ← run_schedule schedule s;
      Some (evs ++ evs', s)
  end.

Lemma run_schedule_runs schedule s0 evs0 s evs s' :
  Forall (λ turn, match turn with inl _ => True | inr env => remove_benign (fe_remove env) end) schedule →
  gateway_runs gateway_config s0 evs0 s → run_schedule schedule s = Some (evs, s') →
  gateway_runs gateway_config s0 (evs0 ++ evs) s'.
Proof.
  intros Hb. revert evs0 s evs. induction Hb as [| turn schedule Ht _ IH]; intros evs0 s evs Hr;
    cbn [run_schedule].
  { intros [= <- <-]. by rewrite app_nil_r. }
  intros ([evs1 s1] & Hturn & ([evs2 s2] & Hrest & [= <- <-])%bind_Some)%bind_Some.
  rewrite app_assoc. eapply IH; [| exact Hrest]. eapply runs_snoc; [exact Hr |].
  destruct s as [ws w], turn as [i | env]; cbn [sy_workers sy_world] in Hturn.
  - apply bind_Some in Hturn as (wk & Hi & ([[pubs wk'] w'] & Hn & [= <- <-])%bind_Some).
    econstructor; [exact Hi | by apply next_step_iff].
  - destruct (flush_world env w) as [attempts w'] eqn:Hf. injection Hturn as <- <-. by econstructor.
Qed.
End schedule.

(** ** Properties *)

Lemma acked_elem x attempts : x ∈ acked attempts → (x, true) ∈ attempts.
Proof.
  unfold acked. intros ([y []] & Hy & He)%list_elem_of_omap; [| done]. by injection He as ->.
Qed.

Lemma published_attempt i x evs :
  (x, Published) ∈ outcomes_on "mqtt" (by_worker i evs) → (x, true) ∈ all_attempts evs.
Proof.
  intros ([ch y r] & [= -> <-] & Hp)%list_elem_of_fmap. apply list_elem_of_filter in Hp as [Hch Hp].
  apply list_elem_of_omap in Hp as ([j q | a] & He & Hq); [| done]. case_decide; [| done].
  injection Hq as ->. apply list_elem_of_bind. exists (WorkerPublished j (mk_publication ch y Published)).
  split; [| done]. cbn in *. rewrite decide_True by done. by left.
Qed.

Lemma by_worker_published i evs x r ch :
  (x, r) ∈ outcomes_on ch (by_worker i evs) → (x, r) ∈ outcomes_on ch (published evs).
Proof.
  intros ([c y s] & [= -> ->] & Hp)%list_elem_of_fmap. apply list_elem_of_filter in Hp as [Hch Hp].
  apply list_elem_of_fmap. exists (mk_publication c y s). split; [done |].
  apply list_elem_of_filter. split; [done |].
  apply list_elem_of_omap in Hp as (e & He & Hq). apply list_elem_of_omap. exists e. split; [done |].
  destruct e; [by case_decide | done].
Qed.

(** What has become of the messages of a worker that is done. *)
Lemma worker_fate `{MqttPublish M E} `{CacheLaws C AEnv LEnv REnv}
    cfg calls (w0 : world M C E AEnv LEnv) evs s i acts :
  cache_ok (w_cache w0) → Forall (λ env, append_benign (pe_append env)) (w_mqtt_envs w0) →
  Forall (λ acts, Forall storable (messages cfg acts)) calls →
  gateway_runs cfg (system_of calls w0) evs s →
  calls !! i = Some acts → sy_workers s !! i = Some (mk_worker [] Between) →
  (∀ ch, ch ∈ gateway_channels cfg → messages_on ch (by_worker i evs) = messages cfg acts) ∧
  ∀ x, x ∈ messages cfg acts →
    (x, true) ∈ w_attempts (sy_world s) ∨ x ∈ cached (w_cache (sy_world s)) ∨
    (x, Failed) ∈ outcomes_on "mqtt" (by_worker i evs).
Proof.
  intros Hok Hb Hst Hr Hi Hwk.
  destruct (gateway_runs_inv cfg calls w0 Hb Hst evs s Hok Hr) as [[_ Hw] [_ Hf Ha _]].
  destruct (Hw i _ acts Hwk Hi) as [_ Hm].
  assert (∀ ch, ch ∈ gateway_channels cfg → messages_on ch (by_worker i evs) = messages cfg acts)
    as Hall.
  { intros ch Hch. specialize (Hm ch). rewrite decide_True in Hm by done.
    by rewrite to_publish_done, app_nil_r in Hm. }
  split; [done |]. intros x Hx. rewrite <-(Hall "mqtt") in Hx by by left.
  apply list_elem_of_fmap in Hx as ([y r] & -> & Hy). cbn [fst]. rewrite Ha.
  destruct r; [left | | by right; right].
  - apply elem_of_app. right. by eapply published_attempt.
  - apply by_worker_published in Hy. destruct Hf as (removed & Hq & Hs).
    assert (y ∈ with_status Deferred (outcomes_on "mqtt" (published evs))) as Hd
      by (apply list_elem_of_omap; by exists (y, Deferred)).
    assert (y ∈ removed ++ cached (w_cache (sy_world s))) as Hin
      by (rewrite <-Hq; apply elem_of_app; by right).
    apply elem_of_app in Hin as [Hin | Hin]; [left | by right; left].
    apply elem_of_app. right. apply acked_elem. by eapply sublist_subseteq.
Qed.

(** C3: No valid reading is lost, whatever the interleaving. Any number of workers make
    their handler calls at the same time and the main thread flushes the cache
    meanwhile. At any moment: what a worker has published on a channel is, in order, a
    prefix of the messages of its valid readings; and the cache as it was followed by
    the deferred messages is messages the broker acknowledged, in order, followed by
    the cache as it is. When a worker is done, it has published each of its messages
    on every enabled channel, in order; and each of them has been acknowledged by the
    broker, or is in the cache, or was reported as failed because the cache refused
    it. *)
Theorem no_reading_lost `{MqttPublish M E} `{CacheLaws C AEnv LEnv REnv}
    cfg calls (w0 : world M C E AEnv LEnv) evs s :
  cache_ok (w_cache w0) → Forall (λ env, append_benign (pe_append env)) (w_mqtt_envs w0) →
  Forall (λ acts, Forall storable (messages cfg acts)) calls →
  gateway_runs cfg (system_of calls w0) evs s →
  (∃ removed, cached (w_cache w0) ++ with_status Deferred (outcomes_on "mqtt" (published evs))
              = removed ++ cached (w_cache (sy_world s)) ∧
              removed `sublist_of` acked (all_attempts evs)) ∧
  w_attempts (sy_world s) = w_attempts w0 ++ all_attempts evs ∧
  ∀ i acts wk, calls !! i = Some acts → sy_workers s !! i = Some wk →
    (∀ ch, messages_on ch (by_worker i evs) `prefix_of` messages cfg acts) ∧
    (wk = mk_worker [] Between →
       (∀ ch, ch ∈ gateway_channels cfg → messages_on ch (by_worker i evs) = messages cfg acts) ∧
       ∀ x, x ∈ messages cfg acts →
         (x, true) ∈ w_attempts (sy_world s) ∨ x ∈ cached (w_cache (sy_world s)) ∨
         (x, Failed) ∈ outcomes_on "mqtt" (by_worker i evs)).
Proof.
  intros Hok Hb Hst Hr.
  destruct (gateway_runs_inv cfg calls w0 Hb Hst evs s Hok Hr) as [[_ Hw] [_ Hf Ha _]].
  split_and!; [exact Hf | exact Ha |]. intros i acts wk Hi Hwk.
  destruct (Hw i wk acts Hwk Hi) as [_ Hm]. split.
  - intros ch. specialize (Hm ch). case_decide; [by rewrite <-Hm; eexists |].
    apply app_eq_nil in Hm as [-> _]. apply prefix_nil.
  - intros ->. by eapply worker_fate.
Qed.

#[local] Existing Instance flaky_broker.

Definition only_mqtt : GatewayConfig :=
  set_gc_tcp (set_tc_enabled false default_tcp) default_gateway.

Definition reading_a : SensorData := reading 16 1 253 608 300 3700 0 1.
Definition reading_b : SensorData := reading 17 1 260 608 300 3700 0 2.

(** The broker answers the first publication and not the second. *)
Definition busy_world : world unit FileCache bool append_env bool :=
  mk_world tt sample_cache (-1) os_init [] [] [] []
    [mk_publish_env true file_ok true; mk_publish_env false file_ok true] [].

Definition two_workers : list (list action) := [[DataCall reading_a Uart]; [DataCall reading_b SocketCan]].

(** Both workers start, the second one publishes first, the first one defers its
    reading, and the main thread flushes before either has finished. *)
Definition sample_schedule : list (nat + flush_env bool bool (bool * replace_env)) :=
  [inl 0; inl 1; inl 1; inl 0; inr (mk_flush_env true up_then_down replace_ok);
   inl 1; inl 1; inl 1; inl 0; inl 0; inl 0]%nat.

Lemma no_reading_lost_witness :
  let message data := mk_message (build_mqtt_topic "sensor" data) (sensor_data_to_json data) in
  ∃ evs s, run_schedule only_mqtt sample_schedule (system_of two_workers busy_world) = Some (evs, s) ∧
    sy_workers s = [mk_worker [] Between; mk_worker [] Between] ∧
    messages_on "mqtt" (by_worker 0 evs) = [message reading_a] ∧
    messages_on "mqtt" (by_worker 1 evs) = [message reading_b] ∧
    ∃ removed, cached sample_cache ++ [message reading_a] = removed ++ cached (w_cache (sy_world s)).
Proof.
  intros message.
  destruct (run_schedule only_mqtt sample_schedule (system_of two_workers busy_world))
    as [[evs s] |] eqn:Hs; [| vm_compute in Hs; discriminate Hs].
  assert (gateway_runs only_mqtt (system_of two_workers busy_world) ([] ++ evs) s) as Hr.
  { eapply run_schedule_runs; [| apply runs_nil | exact Hs].
    repeat (apply Forall_cons_2; [exact I || reflexivity |]). apply Forall_nil_2. }
  assert (option_map (λ r, sy_workers (snd r)) (Some (evs, s))
          = Some [mk_worker [] Between; mk_worker [] Between]) as Hw
    by (rewrite <-Hs; vm_compute; reflexivity).
  assert (option_map (λ r, with_status Deferred (outcomes_on "mqtt" (published (fst r)))) (Some (evs, s))
          = Some [message reading_a]) as Hd
    by (rewrite <-Hs; vm_compute; reflexivity).
  injection Hw as Hw. injection Hd as Hd.
  destruct (no_reading_lost only_mqtt two_workers busy_world evs s) as ((removed & Hq & _) & _ & Hall).
  - exact sample_cache_ok.
  - repeat (apply Forall_cons_2; [reflexivity |]). apply Forall_nil_2.
  - repeat (apply Forall_cons_2; [apply Forall_cons_2; [exact I | apply Forall_nil_2] |]). apply Forall_nil_2.
  - exact Hr.
  - exists evs, s. split; [reflexivity |]. split; [exact Hw |].
    destruct (Hall 0%nat _ _ eq_refl ltac:(rewrite Hw; reflexivity)) as [_ H0].
    destruct (Hall 1%nat _ _ eq_refl ltac:(rewrite Hw; reflexivity)) as [_ H1].
    split; [exact (proj1 (H0 eq_refl) "mqtt" ltac:(left)) |].
    split; [exact (proj1 (H1 eq_refl) "mqtt" ltac:(left)) |].
    exists removed. rewrite <-Hd. exact Hq.
Defined.
