(* ===== verification/Gauge.v ===== *)
(** * The depth of the cache, as the metrics show it ([src/mqtt/reliable_publisher.cpp])

    The publisher stores the number of cached messages in a gauge, under its lock, while
    the workers and the main thread of System update other members of the metrics. What
    a client of the HTTP server reads is the number of messages in the cache. *)

From stdpp Require Import gmap.
From S2P Require Import Prelude Text SensorData DeviceData DeviceInterface DeviceManager RuntimeMetrics MessageCache FileCache ReliablePublisher TcpClient ConfigData Posix RuntimeStatus HttpServer Publisher Logger Gateway MainThread System.

Local Open Scope Z_scope.

(** Updates of other members. *)
Definition leaves_depth (u : update) : Prop :=
  match u with Add c _ | Set_ c _ => c ≠ CacheDepth end.

Lemma leaves_depth_value us mt :
  Forall leaves_depth us → value (foldl apply_update mt us) CacheDepth = value mt CacheDepth.
Proof.
  intros Hus. revert mt. induction Hus as [| u us Hu _ IH]; intros mt; [done |]. cbn [foldl]. rewrite IH.
  destruct u; cbn [leaves_depth apply_update fetch_add store value] in *; by rewrite decide_False.
Qed.

Lemma error_updates_leave protocol stats : Forall leaves_depth (error_updates protocol stats).
Proof.
  unfold error_updates.
  repeat (apply Forall_app_2; [destruct (0 <? _); [by apply Forall_singleton | apply Forall_nil_2] |]).
  apply Forall_cons_2; [done |]. destruct protocol; (apply Forall_nil_2 || by apply Forall_singleton).
Qed.

Section facts.
Context `{MqttPublish M E} `{CacheLaws C AEnv LEnv REnv}.
Context (gateway_config : GatewayConfig).

Abbreviation W := (world M C E AEnv LEnv).
Implicit Types (w : W).

(** The steps of System when the loads of a flush succeed, and the observations of the
    main thread. *)
Inductive gauged_step : gateway_system M E C AEnv LEnv → gateway_system M E C AEnv LEnv → Prop :=
  | gauged_worker ws w i wk pubs wk' w' :
      ws !! i = Some wk → call_step gateway_config wk w pubs wk' w' →
      gauged_step (mk_gateway_system ws w) (mk_gateway_system (<[i := wk']> ws) w')
  | gauged_flush ws w env attempts w' :
      load_benign (fe_load env) → remove_benign (fe_remove env) → flush_world env w = (attempts, w') →
      gauged_step (mk_gateway_system ws w) (mk_gateway_system ws w')
  | gauged_observation ws w statuses :
      gauged_step (mk_gateway_system ws w) (mk_gateway_system ws (count (fst (observe statuses)) w)).

(** A step of a worker that is not a publication on MQTT leaves the cache and its depth. *)
Lemma call_step_depth wk w pubs wk' w' :
  worker_ok gateway_config wk → call_step gateway_config wk w pubs wk' w' →
  (w_cache w' = w_cache w ∧ w_mqtt_envs w' = w_mqtt_envs w ∧
   ∃ us, w_updates w' = w_updates w ++ us ∧ Forall leaves_depth us) ∨
  ∃ x r, pubs = [mk_publication "mqtt" x r] ∧
         pub_publish mqtt_publisher w (msg_topic x) (msg_payload x) = Ret (r, w').
Proof.
  intros Hwk Hstep.
  destruct Hstep as [data p calls w Hv | data p calls w Hv | calls topic payload pub rest outcomes w status w' Hp
    | calls topic payload outcomes w | calls o outcomes w | calls w | p code error stats calls w | a calls w Ha].
  - left. split_and!; [done | done |]. exists ([Add FramesParsed 1] ++ [Add ProtocolErrors 1]).
    split; [cbn; by rewrite <-app_assoc | by repeat apply Forall_cons_2].
  - left. split_and!; [done | done |]. exists [Add FramesParsed 1]. by split; [| apply Forall_singleton].
  - apply group_suffix in Hwk as (_ & _ & [-> | ->]); [right; by exists (mk_message topic payload), status |].
    apply tcp_publisher_effect in Hp as (ok & line & _ & _ & _ & Hc & _ & Hu & He & _).
    left. split_and!; [done | done |]. exists []. by rewrite Hu, app_nil_r.
  - left. split_and!; [done | done |]. exists []. by rewrite app_nil_r.
  - left. destruct (note_outcome_same w o) as (Hc & _ & _ & He). split_and!; [done | done |].
    rewrite note_outcome_updates. eexists. split; [done |]. case_decide; [| apply Forall_nil_2].
    apply Forall_singleton. by case_decide.
  - left. split_and!; [done | done |]. exists []. by rewrite app_nil_r.
  - left. split_and!; [done | done |]. exists (error_updates p stats).
    split; [done | apply error_updates_leave].
  - left. split_and!; [done | done |]. exists []. by rewrite app_nil_r.
Qed.

(** What holds in every state. *)
Record gauged (mt : RuntimeMetrics) (s : gateway_system M E C AEnv LEnv) : Prop := mk_gauged {
  ga_cache : cache_ok (w_cache (sy_world s));
  ga_envs : Forall (λ env, append_benign (pe_append env) ∧ load_benign (pe_load env))
                   (w_mqtt_envs (sy_world s));
  ga_workers : Forall (λ wk, worker_ok gateway_config wk ∧
                             Forall storable (to_publish gateway_config "mqtt" wk)) (sy_workers s);
  ga_depth : depth_exact (foldl apply_update mt (w_updates (sy_world s))) (w_cache (sy_world s));
}.

Lemma publication_gauged mt ws w x r w' :
  metrics_wf mt → gauged mt (mk_gateway_system ws w) → storable x →
  pub_publish mqtt_publisher w (msg_topic x) (msg_payload x) = Ret (r, w') →
  cache_ok (w_cache w') ∧
  Forall (λ env, append_benign (pe_append env) ∧ load_benign (pe_load env)) (w_mqtt_envs w') ∧
  depth_exact (foldl apply_update mt (w_updates w')) (w_cache w').
Proof.
  intros Hm [Hok Hb _ Hd] Hx. cbn [sy_world sy_workers] in *. cbn [pub_publish mqtt_publisher].
  destruct (w_mqtt_envs w) as [| env envs]; [done |]. apply Forall_cons in Hb as [[Hab Hlb] Hb].
  pose proof (rp_publish_ok (w_mqtt w) (w_cache w) env x Hok Hab Hx) as Hp.
  pose proof (publish_depth (w_mqtt w) (w_cache w) env x _ Hok Hab Hlb Hx (updates_wf _ mt Hm) Hd) as Hpd.
  destruct (rp_publish true _ _ env _ _) as [[[r1 [m1 c1]] at1] us]. destruct Hp as (Hok1 & _).
  intros [= <- <-]. cbn [w_cache w_mqtt_envs w_updates]. by rewrite foldl_app.
Qed.

Lemma gauged_preserved mt s s' : metrics_wf mt → gauged mt s → gauged_step s s' → gauged mt s'.
Proof.
  intros Hm Hg Hstep. pose proof Hg as [Hok Hb Hw Hd].
  destruct Hstep as [ws w i wk pubs wk' w' Hi Hstep | ws w env attempts w' Hl Hr Hf | ws w statuses];
    cbn [sy_world sy_workers] in *.
  - destruct (Forall_lookup_1 _ _ _ _ Hw Hi) as [Hwk Hst].
    destruct (call_step_messages _ _ _ _ _ _ Hwk Hstep) as [Hwk' Hm']. specialize (Hm' "mqtt").
    rewrite Hm' in Hst. apply Forall_app in Hst as [Hx Hst].
    assert (Forall (λ wk, worker_ok gateway_config wk ∧
                          Forall storable (to_publish gateway_config "mqtt" wk)) (<[i := wk']> ws)) as Hws
      by by apply Forall_insert.
    destruct (call_step_depth _ _ _ _ _ Hwk Hstep) as [(Hc & He & us & Hu & Hus) | (x & r & -> & Hp)].
    + split; cbn [sy_world sy_workers]; rewrite ?Hc, ?He; try done.
      unfold depth_exact in *. by rewrite Hu, foldl_app, leaves_depth_value.
    + apply Forall_cons in Hx as [Hx _].
      by destruct (publication_gauged mt ws w x r w' Hm Hg Hx Hp) as (? & ? & ?).
  - unfold flush_world in Hf.
    pose proof (rp_flush_ok (w_mqtt w) (w_cache w) env Hok Hr) as Hfo.
    pose proof (flush_depth (w_mqtt w) (w_cache w) env _ Hok Hl Hr (updates_wf (w_updates w) mt Hm)) as Hfd.
    destruct (rp_flush_cache true _ _ env) as [[[k [m1 c1]] at1] us]. destruct Hfo as (Hok1 & _).
    injection Hf as <- <-. split; cbn [sy_world sy_workers w_cache w_mqtt_envs w_updates]; try done.
    by rewrite foldl_app.
  - split; cbn [sy_world sy_workers w_cache w_mqtt_envs w_updates count]; try done.
    unfold depth_exact in *. rewrite foldl_app, leaves_depth_value; [done |].
    by repeat apply Forall_cons_2.
Qed.

(** The metrics as the constructor of the publisher leaves them. *)
Lemma gauged_start mt calls (w0 : W) lenv :
  cache_ok (w_cache w0) → load_benign lenv → w_updates w0 = rp_create true (w_cache w0) lenv →
  Forall (λ env, append_benign (pe_append env) ∧ load_benign (pe_load env)) (w_mqtt_envs w0) →
  Forall (λ acts, Forall storable (messages gateway_config acts)) calls →
  gauged mt (system_of calls w0).
Proof.
  intros Hok Hl Hu Hb Hst. split; [done | done | |].
  - apply Forall_fmap. eapply Forall_impl; [exact Hst |]. intros acts Ha. split; [done |].
    unfold to_publish. cbn [wk_at wk_calls app]. by rewrite decide_True by by left.
  - cbn [system_of sy_world]. rewrite Hu. unfold rp_create, depth_exact. rewrite (load_law _ _ Hok Hl).
    cbn [note foldl apply_update store value]. by rewrite decide_True.
Qed.

(** A schedule whose flushes load. *)
Lemma run_schedule_gauged schedule s evs s' :
  Forall (λ turn : nat + flush_env E LEnv REnv,
            match turn with inl _ => True | inr env => load_benign (fe_load env) ∧ remove_benign (fe_remove env) end)
         schedule →
  run_schedule gateway_config schedule s = Some (evs, s') → rtc gauged_step s s'.
Proof.
  intros Hb. revert s evs. induction Hb as [| turn schedule Ht _ IH]; intros s evs; cbn [run_schedule].
  { by intros [= _ ->]. }
  intros ([evs1 s1] & Hturn & ([evs2 s2] & Hrest & [= <- <-])%bind_Some)%bind_Some.
  eapply rtc_l; [| by eapply IH]. destruct s as [ws w], turn as [i | env]; cbn [sy_workers sy_world] in Hturn.
  - apply bind_Some in Hturn as (wk & Hi & ([[pubs wk'] w'] & Hn & [= _ <-])%bind_Some).
    eapply gauged_worker; [exact Hi | by apply next_step_iff].
  - destruct (flush_world env w) as [attempts w'] eqn:Hf. injection Hturn as _ <-.
    by destruct Ht; eapply gauged_flush.
Qed.

Lemma gauged_reachable mt s s' : metrics_wf mt → rtc gauged_step s s' → gauged mt s → gauged mt s'.
Proof. intros Hm. induction 1 as [| s1 s2 s3 Hs _ IH]; [done |]. intros Hg. by apply IH, (gauged_preserved mt s1). Qed.
End facts.

(** ** Properties *)

(** C29: The depth of the cache, as a client reads it. From the construction of the
    publisher on, while the loads of the cache succeed: between any two steps of the
    workers, the flushes and the observations of the main thread, whatever their order,
    the gauge is the number of messages in the cache, modulo 2^64; and the answer to
    GET /metrics, read as HTTP and as the exposition format, has that number under
    [iot_gateway_cache_depth], if the member is loaded between the steps, whatever the
    moments at which the other members are. Where loads have failed, the next flush
    whose load succeeds makes the gauge right again. *)
Theorem depth_gauge `{MqttPublish M E} `{CacheLaws C AEnv LEnv REnv}
    cfg calls (w0 : world M C E AEnv LEnv) lenv started_at :
  let metrics w := foldl apply_update (new_metrics started_at) (w_updates w) in
  cache_ok (w_cache w0) → load_benign lenv → w_updates w0 = rp_create true (w_cache w0) lenv →
  Forall (λ acts, Forall storable (messages cfg acts)) calls →
  (∀ s, Forall (λ env, append_benign (pe_append env) ∧ load_benign (pe_load env)) (w_mqtt_envs w0) →
     rtc (gauged_step cfg) (system_of calls w0) s →
     let depth := Z.of_nat (length (cached (w_cache (sy_world s)))) in
     value (metrics (sy_world s)) CacheDepth = u64 depth ∧
     ∀ loaded first seen now,
       value loaded CacheDepth = value (metrics (sy_world s)) CacheDepth → depth < 2 ^ 64 →
       ∃ message, read_response (respond first seen loaded now "/metrics") = Some message ∧
         ("iot_gateway_cache_depth", dec depth) ∈ scrape (hm_body message)) ∧
  (∀ evs s env attempts w', Forall (λ env, append_benign (pe_append env)) (w_mqtt_envs w0) →
     gateway_runs cfg (system_of calls w0) evs s →
     load_benign (fe_load env) → remove_benign (fe_remove env) → flush_world env (sy_world s) = (attempts, w') →
     value (metrics w') CacheDepth = u64 (Z.of_nat (length (cached (w_cache w'))))).
Proof.
  intros metrics Hok Hl Hu Hst.
  assert (metrics_wf (new_metrics started_at)) as Hm by (intros c; split; [done | reflexivity]).
  split.
  - intros s Hb Hr depth.
    destruct (gauged_reachable cfg _ _ _ Hm Hr (gauged_start cfg _ calls w0 lenv Hok Hl Hu Hb Hst))
      as [_ _ _ Hd].
    split; [exact Hd |]. intros loaded first seen now Hv Hsmall. eexists. split; [apply read_respond |].
    change (hm_body _) with (render_prometheus loaded now).
    rewrite render_scrape, Hv. unfold metrics, depth_exact in *. rewrite Hd. fold depth.
    rewrite (u64_small depth) by lia. do 10 apply list_elem_of_further. apply list_elem_of_here.
  - intros evs s env attempts w' Hb Hr Hlb Hrb Hf.
    destruct (gateway_runs_inv cfg calls w0 Hb Hst evs s Hok Hr) as [_ [Hok1 _ _ _]].
    unfold flush_world in Hf.
    pose proof (flush_depth (w_mqtt (sy_world s)) (w_cache (sy_world s)) env _ Hok1 Hlb Hrb
                  (updates_wf (w_updates (sy_world s)) _ Hm)) as Hfd.
    destruct (rp_flush_cache true _ _ env) as [[[k [m1 c1]] at1] us]. injection Hf as <- <-.
    unfold metrics. cbn [w_updates w_cache]. by rewrite foldl_app.
Qed.

#[local] Existing Instance flaky_broker.

(** The run of System: two messages at the start, one deferred, one replayed. *)
Definition gauged_world : world unit FileCache bool append_env bool :=
  mk_world tt sample_cache (-1) os_init (rp_create true sample_cache true) [] [] []
    (w_mqtt_envs busy_world) [].

Lemma depth_gauge_witness :
  ∃ evs s, run_schedule only_mqtt sample_schedule (system_of two_workers gauged_world) = Some (evs, s) ∧
    length (cached (w_cache (sy_world s))) = 2%nat ∧
    value (foldl apply_update (new_metrics 0) (w_updates (sy_world s))) CacheDepth = 2.
Proof.
  destruct (run_schedule only_mqtt sample_schedule (system_of two_workers gauged_world))
    as [[evs s] |] eqn:Hs; [| vm_compute in Hs; discriminate Hs].
  assert (rtc (gauged_step only_mqtt) (system_of two_workers gauged_world) s) as Hr.
  { eapply run_schedule_gauged; [| exact Hs].
    repeat (apply Forall_cons_2; [exact I || (split; reflexivity) |]). apply Forall_nil_2. }
  assert (option_map (λ r, length (cached (w_cache (sy_world (snd r))))) (Some (evs, s)) = Some 2%nat) as Hn
    by (rewrite <-Hs; vm_compute; reflexivity).
  injection Hn as Hn. change (length (cached (w_cache (sy_world s))) = 2%nat) in Hn.
  exists evs, s. split; [reflexivity |]. split; [exact Hn |].
  destruct (depth_gauge only_mqtt two_workers gauged_world true 0) as [Hall _].
  - exact sample_cache_ok.
  - reflexivity.
  - reflexivity.
  - repeat (apply Forall_cons_2; [apply Forall_cons_2; [exact I | apply Forall_nil_2] |]). apply Forall_nil_2.
  - destruct (Hall s) as [Hv _]; [| exact Hr |].
    + repeat (apply Forall_cons_2; [split; reflexivity |]). apply Forall_nil_2.
    + rewrite Hv, Hn. reflexivity.
Defined.
