(* ===== verification/Restart.v ===== *)
(** * Crashes and restarts ([src/cache/file_cache.cpp], [src/mqtt/reliable_publisher.cpp])

    The process of System may die at any moment, in the middle of a publication, a replay
    or a removal, and be started again on the file it left. Over any number of such lives
    the cache stays a queue, and no message that was deferred is lost. *)

From stdpp Require Import gmap.
From S2P Require Import Prelude Text SensorData DeviceData DeviceInterface DeviceManager RuntimeMetrics MessageCache FileCache ReliablePublisher TcpClient ConfigData Posix Publisher Logger Gateway MainThread System.

(** ** Dying *)

(** The operations a process has made when it dies: those before some point, and the
    beginning of a write. *)
Inductive cut_short : list fs_op → list fs_op → Prop :=
  | cut_between before after : cut_short (before ++ after) before
  | cut_write before path text after n :
      cut_short (before ++ WriteTo path text :: after) (before ++ [WriteTo path (String.substring 0 n text)]).

(** The cache a new process finds. *)
Definition left_by (c : FileCache) (ops : list fs_op) : FileCache :=
  mk_file_cache (fc_path c) (apply_ops (fc_fs c) ops).

Section restart.
Context `{MqttPublish M E}.
Context (gateway_config : GatewayConfig).

Abbreviation Sys := (gateway_system M E FileCache append_env bool).

(** The ways to die in a state of System, with the outcome the process did not live to
    report, the attempts it made since, and the cache it leaves. *)
Inductive dies : Sys → list (CachedMessage * PublishStatus) → list attempt → FileCache → Prop :=
  | dies_between ws w : dies (mk_gateway_system ws w) [] [] (w_cache w)
  | dies_published ws w i calls topic payload rest outcomes env envs :
      ws !! i = Some (mk_worker calls (Publishing topic payload (mqtt_publisher :: rest) outcomes)) →
      w_mqtt_envs w = env :: envs →
      fst (mqtt_publish (w_mqtt w) (pe_mqtt env) topic payload) = true →
      dies (mk_gateway_system ws w) [(mk_message topic payload, Published)] [(mk_message topic payload, true)]
        (w_cache w)
  | dies_appending ws w i calls topic payload rest outcomes env envs before after :
      ws !! i = Some (mk_worker calls (Publishing topic payload (mqtt_publisher :: rest) outcomes)) →
      w_mqtt_envs w = env :: envs →
      fst (mqtt_publish (w_mqtt w) (pe_mqtt env) topic payload) = false →
      snd (fc_append (fc_path (w_cache w)) (pe_append env) topic payload) = before ++ after →
      dies (mk_gateway_system ws w)
        [(mk_message topic payload, if decide (before ≠ [] ∧ after = []) then Deferred else Failed)]
        [(mk_message topic payload, false)] (left_by (w_cache w) before)
  | dies_replaying ws w env attempts :
      attempts `prefix_of` snd (fst (rp_flush_cache true (w_mqtt w) (w_cache w) env)) →
      dies (mk_gateway_system ws w) [] attempts (w_cache w)
  | dies_removing ws w env k m attempts us ops :
      rp_replay true (load_all (w_cache w) (fe_load env)) (w_mqtt w) (fe_mqtt env) 0 = (k, m, attempts, us) →
      remove_benign (fe_remove env) →
      cut_short (snd (fc_remove_first (fc_path (w_cache w)) (fe_remove env) k (fc_fs (w_cache w)))) ops →
      dies (mk_gateway_system ws w) [] attempts (left_by (w_cache w) ops).

(** Lives, each begun with the cache the one before has left: the outcomes on MQTT and
    the attempts of all of them. *)
Inductive lives (c : FileCache) :
    list (CachedMessage * PublishStatus) → list attempt → FileCache → Prop :=
  | lives_begin : lives c [] [] c
  | lives_crash outs attempts c1 calls w0 evs s unreported attempts' c2 :
      lives c outs attempts c1 → w_cache w0 = c1 →
      Forall (λ env, append_benign (pe_append env)) (w_mqtt_envs w0) →
      gateway_runs gateway_config (system_of calls w0) evs s → dies s unreported attempts' c2 →
      lives c (outs ++ outcomes_on "mqtt" (published evs) ++ unreported)
        (attempts ++ all_attempts evs ++ attempts') c2.

(** ** Facts *)

Lemma same_contents c c' :
  fc_path c' = fc_path c → contents_of (fc_path c) (fc_fs c') = contents_of (fc_path c) (fc_fs c) →
  fc_ok c → fc_ok c' ∧ fc_messages c' = fc_messages c.
Proof.
  intros Hp Hc Hok. unfold fc_messages. rewrite Hp, Hc. split; [| done].
  destruct Hok as [ms [Ht Hcl]]. exists ms. split; [by rewrite Hp, Hc | done].
Qed.

(** A removal that is cut short has not begun or is complete. *)
Lemma replace_cut path env messages fs ops :
  cut_short (snd (fc_replace_all path env messages)) ops →
  contents_of path (apply_ops fs ops) = contents_of path fs ∨
  contents_of path (apply_ops fs ops) = render_messages messages.
Proof.
  remember (snd (fc_replace_all path env messages)) as all eqn:Hall.
  destruct 1 as [before after | before p text after n]; [by eapply replace_all_crash |]. left.
  pose proof (replace_all_shape path env messages fs) as Hs. cbn zeta in Hs.
  apply (scratch_keeps _ _ _ _ (tmp_ne path)).
  assert (Forall (on_scratch (path +:+ ".tmp")) (before ++ [WriteTo p text])) as Hw.
  { destruct (fc_replace_all path env messages) as [[] ops1]; cbn [snd] in Hall; subst ops1.
    - destruct Hs as (_ & w & He & Hw & _).
      destruct (decide (after = [])) as [-> | Hne]; [by apply app_inj_2 in He as [_ [=]] |].
      destruct (exists_last Hne) as (after' & x & ->).
      rewrite app_comm_cons, app_assoc in He. apply app_inj_2 in He as [<- _]; [| done].
      replace (before ++ WriteTo p text :: after') with ((before ++ [WriteTo p text]) ++ after') in Hw
        by by rewrite <-app_assoc.
      by apply Forall_app in Hw as [? _].
    - replace (before ++ WriteTo p text :: after) with ((before ++ [WriteTo p text]) ++ after) in Hs
        by by rewrite <-app_assoc.
      by apply Forall_app in Hs as [? _]. }
  apply Forall_app in Hw as [Hb Hw]. apply Forall_app_2; [done |].
  apply Forall_singleton. by apply Forall_cons in Hw as [Hw _].
Qed.

Lemma remove_cut c env k ops :
  fc_ok c → remove_benign env → cut_short (snd (fc_remove_first (fc_path c) env k (fc_fs c))) ops →
  fc_ok (left_by c ops) ∧ fc_messages (left_by c ops) ∈ [fc_messages c; drop k (fc_messages c)].
Proof.
  intros Hok Hb Hcut. destruct (decide (k = 0%nat)) as [-> | Hk].
  { change (snd (fc_remove_first (fc_path c) env 0 (fc_fs c))) with (@nil fs_op) in Hcut.
    assert (ops = []) as ->.
    { remember [] as all eqn:Hall in Hcut. destruct Hcut as [before after | before p text after n];
        [by apply app_eq_nil in Hall as [-> _] | by destruct before]. }
    destruct (same_contents c (left_by c [])) as [? ->]; try done. split; [done | by left]. }
  rewrite remove_as_replace in Hcut by done. fold (fc_messages c) in Hcut.
  pose proof (fc_ok_messages c Hok) as [Ht Hcl].
  destruct (replace_cut _ _ _ (fc_fs c) _ Hcut) as [Hsame | Hdone].
  - destruct (same_contents c (left_by c ops)) as [? ->]; try done. split; [done | by left].
  - assert (holds (drop k (fc_messages c)) (fc_path c) (apply_ops (fc_fs c) ops)) as Hh
      by (split; [done | by apply Forall_drop]).
    split; [by eexists |]. rewrite (holds_messages _ (left_by c ops) Hh). right. by left.
Qed.

(** A publication that dies in the cache has added its message or nothing. *)
Lemma append_cut c env topic payload before after :
  fc_ok c → append_benign env → snd (fc_append (fc_path c) env topic payload) = before ++ after →
  fc_ok (left_by c before) ∧
  fc_messages (left_by c before)
  = fc_messages c ++ (if decide (before ≠ [] ∧ after = []) then [mk_message topic payload] else []).
Proof.
  intros Hok Hb Hops. pose proof (fc_append_law c env (mk_message topic payload) Hok Hb) as Ha.
  cbn [append file_cache msg_topic msg_payload] in Ha. unfold run_ops in Ha.
  assert (fc_ok (left_by c []) ∧ fc_messages (left_by c []) = fc_messages c) as Hnone
    by (by apply same_contents).
  assert (fc_ok (left_by c [OpenAppend (fc_path c)]) ∧
          fc_messages (left_by c [OpenAppend (fc_path c)]) = fc_messages c) as Hopen
    by (apply same_contents; [done | apply contents_insert | done]).
  unfold fc_append in Hops, Ha.
  repeat match type of Hops with context [if ?b then _ else _] => destruct b end;
    try (cbn in Hops; symmetry in Hops; apply app_eq_nil in Hops as [-> ->]; rewrite decide_False by naive_solver;
         by rewrite app_nil_r).
  change (ae_write_fails env = None) in Hb. rewrite Hb in Hops, Ha. cbn [fst snd] in Hops, Ha.
  destruct before as [| op1 [| op2 before]]; cbn [app] in Hops.
  - rewrite decide_False by naive_solver. by rewrite app_nil_r.
  - injection Hops as <- <-. rewrite decide_False by naive_solver. by rewrite app_nil_r.
  - injection Hops as <- <- Hn. symmetry in Hn. apply app_eq_nil in Hn as [-> ->].
    rewrite decide_True by done. exact Ha.
Qed.

(** What a death leaves. *)
Lemma dies_flow s unreported attempts c' :
  fc_ok (w_cache (sy_world s)) → Forall (λ env, append_benign (pe_append env)) (w_mqtt_envs (sy_world s)) →
  dies s unreported attempts c' →
  fc_ok c' ∧ queue_flow (w_cache (sy_world s)) (with_status Deferred unreported) attempts c' ∧
  (∀ x, (x, Published) ∈ unreported → (x, true) ∈ attempts).
Proof.
  intros Hok Hb Hd.
  destruct Hd as [ws w | ws w i calls topic payload rest outcomes env envs _ He Hm
    | ws w i calls topic payload rest outcomes env envs before after _ He Hm Hops
    | ws w env attempts Hp | ws w env k m attempts us ops Hr Hrb Hcut]; cbn [sy_world] in *.
  - split_and!; [done | apply queue_flow_same; by rewrite app_nil_r | by intros x Hx%elem_of_nil].
  - split_and!; [done | apply queue_flow_same; by rewrite app_nil_r |].
    intros x Hx%list_elem_of_singleton. injection Hx as ->. apply list_elem_of_singleton. done.
  - rewrite He in Hb. apply Forall_cons in Hb as [Hb _].
    destruct (append_cut _ _ _ _ _ _ Hok Hb Hops) as [Hok' Hm']. split_and!; [done | |].
    + apply queue_flow_same. cbn [cached file_cache_laws]. rewrite Hm'. by case_decide.
    + intros x Hx%list_elem_of_singleton. by case_decide.
  - split_and!; [done | apply queue_flow_same; by rewrite app_nil_r | by intros x Hx%elem_of_nil].
  - pose proof (replay_ok true (load_all (w_cache w) (fe_load env)) (w_mqtt w) (fe_mqtt env) 0) as Hrep.
    rewrite Hr in Hrep. destruct Hrep as (j & -> & Hj & _ & Hack & _). rewrite Nat.add_0_l in Hcut.
    destruct (fc_load_prefix (w_cache w) (fe_load env) Hok) as [rest Hrest].
    destruct (remove_cut _ _ _ _ Hok Hrb Hcut) as [Hok' Hm]. split_and!; [done | | by intros x Hx%elem_of_nil].
    apply list_elem_of_In in Hm. destruct Hm as [Hm | [Hm | []]]; cbn [cached file_cache_laws] in *.
    + apply queue_flow_same. cbn [cached file_cache_laws]. by rewrite <-Hm, app_nil_r.
    + exists (take j (fc_messages (w_cache w))). cbn [cached file_cache_laws].
      rewrite <-Hm, app_nil_r, take_drop. split; [done |].
      rewrite Hack, Hrest, take_app_le by done. done.
Qed.

(** A life from its beginning to its end. *)
Lemma life_flow calls (w0 : world M FileCache E append_env bool) evs s unreported attempts c' :
  fc_ok (w_cache w0) → Forall (λ env, append_benign (pe_append env)) (w_mqtt_envs w0) →
  gateway_runs gateway_config (system_of calls w0) evs s → dies s unreported attempts c' →
  let outs := outcomes_on "mqtt" (published evs) ++ unreported in
  fc_ok c' ∧ queue_flow (w_cache w0) (with_status Deferred outs) (all_attempts evs ++ attempts) c' ∧
  ∀ x, (x, Published) ∈ outs → (x, true) ∈ all_attempts evs ++ attempts.
Proof.
  intros Hok Hb Hr Hd outs.
  assert (Forall (λ acts, Forall storable (messages gateway_config acts)) calls) as Hst
    by by do 2 (apply Forall_true; intros).
  destruct (gateway_runs_inv gateway_config calls w0 Hb Hst evs s Hok Hr) as [_ [Hok1 Hf Ha [used Hu]]].
  assert (Forall (λ env, append_benign (pe_append env)) (w_mqtt_envs (sy_world s))) as Hb1
    by (rewrite Hu in Hb; by apply Forall_app in Hb as [_ ?]).
  destruct (dies_flow s unreported attempts c' Hok1 Hb1 Hd) as (Hok' & Hf' & Hp).
  split; [done |]. unfold outs. rewrite with_status_app. split; [by eapply queue_flow_trans |].
  intros x [Hx | Hx]%elem_of_app; apply elem_of_app; [left | right; auto].
  apply list_elem_of_fmap in Hx as ([ch y r] & [= -> <-] & Hq).
  apply list_elem_of_filter in Hq as [Hch Hq]. cbn in Hch. subst ch.
  apply list_elem_of_omap in Hq as ([j q | a] & He & Hq); [| done]. injection Hq as ->.
  apply list_elem_of_bind. exists (WorkerPublished j (mk_publication "mqtt" y Published)).
  split; [cbn; by left | done].
Qed.

Lemma lives_flow c outs attempts c' :
  fc_ok c → lives c outs attempts c' →
  fc_ok c' ∧ queue_flow c (with_status Deferred outs) attempts c' ∧
  ∀ x, (x, Published) ∈ outs → (x, true) ∈ attempts.
Proof.
  intros Hok Hl. induction Hl as [| outs attempts c1 calls w0 evs s unreported attempts' c2 _ IH Hw Hb Hr Hd].
  { split_and!; [done | apply queue_flow_same; by rewrite app_nil_r | by intros x Hx%elem_of_nil]. }
  destruct IH as (Hok1 & Hf1 & Hp1). subst c1.
  destruct (life_flow calls w0 evs s unreported attempts' c2 Hok1 Hb Hr Hd) as (Hok2 & Hf2 & Hp2).
  split; [done |]. rewrite with_status_app. split; [by eapply queue_flow_trans |].
  intros x [Hx | Hx]%elem_of_app; apply elem_of_app; auto.
Qed.
End restart.

(** ** Properties *)

(** C4: No message is lost over crashes. However often the process dies, at any point of a
    publication, of a replay or, writes cut short included, of a removal, and between the
    operations of an append, and is started again on the file it left: the file is one of
    complete lines; the messages it held at first followed by those deferred in all the
    lives are, in order, messages the broker acknowledged followed by the messages it
    holds; so each outcome reported as published was acknowledged, and each message that
    was deferred, or held at first, has been acknowledged or is still there. And if the
    last life dies in the middle of the write of an append, the torn line comes after all
    these messages. *)
Theorem crashes_lose_nothing `{MqttPublish M E} cfg c outs attempts c' :
  fc_ok c → lives cfg c outs attempts c' →
  fc_ok c' ∧
  (∃ removed, load_all c true ++ with_status Deferred outs = removed ++ load_all c' true ∧
              removed `sublist_of` acked attempts) ∧
  (∀ x, (x, Published) ∈ outs → (x, true) ∈ attempts) ∧
  (∀ x, (x, Deferred) ∈ outs ∨ x ∈ load_all c true → (x, true) ∈ attempts ∨ x ∈ load_all c' true) ∧
  ∀ topic payload n,
    let line := String.substring 0 n (message_line topic payload) in
    load_all c' true `prefix_of` load_all (left_by c' [OpenAppend (fc_path c'); WriteTo (fc_path c') line]) true.
Proof.
  intros Hok Hl. destruct (lives_flow cfg c outs attempts c' Hok Hl) as (Hok' & Hf & Hp).
  rewrite (fc_load_law c true), (fc_load_law c' true) by done.
  split_and!; [done | exact Hf | done | |].
  - intros x Hx. destruct Hf as (removed & Hq & Hs). cbn [cached file_cache_laws] in Hq.
    assert (x ∈ removed ++ fc_messages c') as [Hin | Hin]%elem_of_app; [| left | by right].
    + rewrite <-Hq. apply elem_of_app. destruct Hx as [Hx | Hx]; [right | by left].
      apply list_elem_of_omap. by exists (x, Deferred).
    + apply acked_elem. by eapply sublist_subseteq.
  - intros topic payload n line. destruct (fc_ok_messages c' Hok') as [Ht Hcl].
    cbn [load_all file_cache]. rewrite fc_load_open. cbn [left_by fc_path fc_fs apply_ops foldl apply_op].
    rewrite !contents_insert, Ht, load_render by done. by eexists.
Qed.

#[local] Existing Instance flaky_broker.

(** A life that dies while the file is rewritten after a replay, and one that dies before
    it has done anything. *)
Definition first_steps : list (nat + flush_env bool bool (bool * replace_env)) := [inl 0; inl 1; inl 1; inl 0]%nat.

Lemma crashes_lose_nothing_witness :
  ∃ outs attempts c', lives only_mqtt sample_cache outs attempts c' ∧
    with_status Deferred outs = [mk_message (build_mqtt_topic "sensor" reading_a) (sensor_data_to_json reading_a)] ∧
    length (acked attempts) = 2 ∧
    ∃ removed, load_all sample_cache true ++ with_status Deferred outs = removed ++ load_all c' true ∧
               removed `sublist_of` acked attempts.
Proof.
  destruct (run_schedule only_mqtt first_steps (system_of two_workers busy_world))
    as [[evs s] |] eqn:Hs; [| vm_compute in Hs; discriminate Hs].
  assert (gateway_runs only_mqtt (system_of two_workers busy_world) ([] ++ evs) s) as Hr.
  { eapply run_schedule_runs; [| apply runs_nil | exact Hs].
    repeat (apply Forall_cons_2; [exact I |]). apply Forall_nil_2. }
  destruct s as [ws w].
  destruct (rp_replay true (load_all (w_cache w) true) (w_mqtt w) up_then_down 0) as [[[k m] ats] us] eqn:Hrep.
  set (ops := snd (fc_remove_first (fc_path (w_cache w)) replace_ok k (fc_fs (w_cache w)))).
  assert (dies (mk_gateway_system ws w) [] ats (left_by (w_cache w) (take 1 ops))) as Hd.
  { eapply (dies_removing ws w (mk_flush_env true up_then_down replace_ok)); [exact Hrep | reflexivity |].
    cbn [fe_remove]. fold ops. rewrite <-(take_drop 1 ops) at 1. apply cut_between. }
  pose proof (lives_crash only_mqtt sample_cache [] [] sample_cache two_workers busy_world evs
    (mk_gateway_system ws w) [] ats (left_by (w_cache w) (take 1 ops))
    (lives_begin only_mqtt sample_cache) eq_refl) as Hl.
  specialize (Hl ltac:(repeat (apply Forall_cons_2; [reflexivity |]); apply Forall_nil_2) Hr Hd).
  assert (option_map (λ r, (with_status Deferred (outcomes_on "mqtt" (published (fst r)) ++ []),
             length (acked (all_attempts (fst r) ++
               (rp_replay true (load_all (w_cache (sy_world (snd r))) true) (w_mqtt (sy_world (snd r)))
                  up_then_down 0).1.2)))) (Some (evs, mk_gateway_system ws w))
          = Some ([mk_message (build_mqtt_topic "sensor" reading_a) (sensor_data_to_json reading_a)], 2)) as Hv
    by (rewrite <-Hs; vm_compute; reflexivity).
  cbn [option_map fst snd sy_world] in Hv. rewrite Hrep in Hv. injection Hv as Hv1 Hv2.
  eexists _, _, _. split; [exact Hl |]. split; [exact Hv1 |]. split; [exact Hv2 |].
  exact (proj1 (proj2 (crashes_lose_nothing only_mqtt sample_cache _ _ _ sample_cache_ok Hl))).
Defined.
