(* ===== verification/Endpoints.v ===== *)
(** * The endpoints over the life of the gateway ([src/main.cpp], [src/http/], [src/app/])

    The main thread stores to the status while the thread of the HTTP server loads its
    members, each store and each load atomic. The stores of a run of [main] form one
    sequence; a load sees the status after some number of them, its moment, and the loads
    of one request are made at moments that do not go back. *)

From S2P Require Import Prelude Text DeviceData DeviceInterface DeviceManager RuntimeMetrics ConfigData Config Logger Shutdown RuntimeStatus HttpServer Json MainThread.

Local Open Scope Z_scope.

(** ** The stores of a run *)

Definition status_stores (acts : list main_action) : list status_store :=
  acts ≫= λ a, match a with ActStatus stores => stores | _ => [] end.

Lemma status_stores_app a b : status_stores (a ++ b) = status_stores a ++ status_stores b.
Proof. apply bind_app. Qed.

Definition observed (statuses : list DeviceStatus) : list status_store := snd (observe statuses).

(** The stores of a run with [n] serial workers and [w] observations after the first. *)
Definition run_stores (n : Z) (statuses : nat → list DeviceStatus) (w : nat) : list status_store :=
  [StoreConfigLoaded true; StoreCacheReady true] ++ observed (statuses 0%nat)
  ++ [StoreWorkerCount n; StoreWorkersStarted true]
  ++ (seq 1 w ≫= λ k, observed (statuses k))
  ++ [StoreWorkerCount n; StoreWorkersStarted false].

Lemma wait_for_uarts_stores attempts count looks k :
  status_stores (wait_for_uarts attempts count looks k) = [].
Proof.
  revert k. induction attempts as [| attempts IH]; intros k; [done |]. cbn [wait_for_uarts].
  destruct (_ =? _)%nat; [| apply IH]. rewrite status_stores_app. by induction (uart_online (looks k)).
Qed.

Lemma main_loop_stores interval waits statuses n acts :
  main_loop interval waits statuses n = Ret acts →
  status_stores acts = seq n (waited waits) ≫= λ k, observed (statuses k).
Proof.
  revert n acts. induction waits as [| wt waits IH]; intros n acts; cbn [main_loop waited]; [done |].
  unfold wait_for_shutdown. destruct (wait_loop _ _ _) as [slept | |]; try discriminate.
  cbn [mbind exec_bind]. destruct (we_final wt); [by intros [= <-] |].
  destruct (main_loop interval waits statuses (S n)) as [rest | |] eqn:Hl; try discriminate.
  cbn [mbind exec_bind]. intros [= <-]. specialize (IH _ _ Hl).
  change (status_stores (observe_actions (statuses n) ++ rest)
          = observed (statuses n) ++ (seq (S n) (waited waits) ≫= λ k, observed (statuses k))).
  rewrite status_stores_app, IH. f_equal.
Qed.

Lemma run_gateway_stores cfg devices env acts :
  run_gateway cfg devices env = Ret (0, acts) →
  StoreConfigLoaded true :: status_stores acts
  = run_stores (Z.of_nat (length devices)) (ge_statuses env) (waited (ge_waits env)).
Proof.
  unfold run_gateway. destruct (bool_decide _ && negb (ge_sqlite_ready env)); [done |].
  destruct (hc_enabled (gc_http cfg) && negb (ge_http_started env)); [done |].
  destruct (main_loop _ (ge_waits env) (ge_statuses env) 1) as [turns | |] eqn:Hl; try discriminate.
  apply main_loop_stores in Hl. cbn [mbind exec_bind].
  destruct (shut_down _ _ _ _) as [stopping | |] eqn:Hsd; try discriminate.
  destruct (shut_down_joins _ _ _ _ _ Hsd) as [Hj1 Hj2]. rewrite shut_down_ret in Hsd by done.
  injection Hsd as <-. clear Hj1 Hj2. cbn [mbind exec_bind].
  set (sleeps := if bool_decide (devices = []) then [] else _).
  assert (status_stores sleeps = []) as Hs
    by (unfold sleeps; case_bool_decide; [done | apply wait_for_uarts_stores]).
  clearbody sleeps. generalize (gateway_devices cfg devices) as inputs. intros inputs Hrun.
  match type of Hrun with Ret (_, ?l) = _ => assert (acts = l) as -> by by injection Hrun end. clear Hrun.
  unfold run_stores, observe_actions, observed. destruct (observe (ge_statuses env 0%nat)) as [us stores].
  rewrite !status_stores_app, Hs, Hl. unfold status_stores.
  destruct (hc_enabled (gc_http cfg)); cbn; by rewrite ?app_nil_r, <-?app_assoc.
Qed.

(** The status that [main] constructs. *)
Definition first_status (kVersion : string) (cfg : GatewayConfig) : RuntimeStatus :=
  new_status kVersion (kc_type (gc_cache cfg)) true (tc_enabled (gc_tcp cfg)).

Definition status_made (a : main_action) : option RuntimeStatus :=
  match a with
  | ActStatusNew version cache_backend mqtt_enabled tcp_enabled =>
      Some (new_status version cache_backend mqtt_enabled tcp_enabled)
  | _ => None
  end.

Lemma main_stores `{Yaml Node} inet_pton kVersion args env acts :
  main inet_pton kVersion args env = Ret (0, acts) → args ≠ ["--version"] →
  ∃ cfg, runs inet_pton args env cfg ∧
    head (omap status_made acts) = Some (first_status kVersion cfg) ∧
    omap manager_start acts = [gateway_devices cfg (serial_devices cfg args)] ∧
    status_stores acts = run_stores (Z.of_nat (length (serial_devices cfg args)))
                           (ge_statuses (me_gateway env)) (waited (ge_waits (me_gateway env))).
Proof.
  intros Hm Hv. destruct (main_ok _ _ _ _ _ _ Hm) as [(-> & _) | [(cfg & Hr & _ & Hc) | (_ & _ & Hc & _)]]; [done | | done].
  exists cfg. split; [done |]. pose proof (co_starts _ _ _ _ _ Hc) as Hstart.
  rewrite decide_True in Hstart by done. destruct Hr as (_ & Hl & H1 & H2 & _).
  unfold main in Hm. rewrite bool_decide_eq_false_2, Hl, H1, H2 in Hm by done. cbn in Hm.
  destruct (run_gateway _ _ _) as [[code acts'] | |] eqn:Hg; try discriminate. cbn in Hm.
  injection Hm as -> Ha. apply run_gateway_stores in Hg. rewrite <-Hg.
  split; [by rewrite <-Ha | split; [done |]]. rewrite <-Ha. unfold status_stores in *. cbn.
  rewrite bind_app. f_equal. by destruct (me_shutdown env); cbn; rewrite app_nil_r.
Qed.

(** ** What a load sees *)

(** The status after the first [t] stores. *)
Definition status_at (s : RuntimeStatus) (stores : list status_store) (t : nat) : RuntimeStatus :=
  apply_stores (take t stores) s.

Definition stored_config (a : status_store) := match a with StoreConfigLoaded x => Some x | _ => None end.
Definition stored_cache (a : status_store) := match a with StoreCacheReady x => Some x | _ => None end.
Definition stored_workers (a : status_store) := match a with StoreWorkersStarted x => Some x | _ => None end.
Definition stored_online (a : status_store) := match a with StoreOnline x => Some (u64 x) | _ => None end.
Definition stored_offline (a : status_store) := match a with StoreOffline x => Some (u64 x) | _ => None end.
Definition stored_inputs (a : status_store) := match a with StoreInputs x => Some (u64 x) | _ => None end.
Definition stored_statuses (a : status_store) := match a with StoreStatuses x => Some x | _ => None end.

(** A member has the value stored last. *)
Lemma member_value {X} (g : RuntimeStatus → X) (sel : status_store → option X) stores s :
  (∀ a s, g (apply_store a s) = default (g s) (sel a)) →
  g (apply_stores stores s) = default (g s) (last (omap sel stores)).
Proof.
  intros Hg. unfold apply_stores. induction stores as [| a stores IH] using rev_ind; [done |].
  rewrite foldl_app, omap_app. cbn [foldl omap list_omap]. rewrite Hg.
  destruct (sel a) as [x |]; cbn [default].
  - by rewrite last_snoc.
  - by rewrite app_nil_r.
Qed.

(** The values stored in the first [t] stores are the first of those stored. *)
Lemma omap_take {X} (sel : status_store → option X) stores t :
  omap sel (take t stores) = take (length (omap sel (take t stores))) (omap sel stores).
Proof.
  rewrite <-(take_drop t stores) at 3. rewrite omap_app, take_app_length. done.
Qed.

(** How many observations have made the store [sel] selects. *)
Definition made {X} (sel : status_store → option X) (stores : list status_store) : nat :=
  length (omap sel stores).

Lemma made_app {X} (sel : status_store → option X) a b : made sel (a ++ b) = (made sel a + made sel b)%nat.
Proof. unfold made. by rewrite omap_app, length_app. Qed.

Lemma made_take {X} (sel : status_store → option X) stores t t' :
  (t <= t')%nat → (made sel (take t stores) <= made sel (take t' stores))%nat.
Proof.
  intros Hle. rewrite <-(take_drop t (take t' stores)), made_app, take_take, Nat.min_l by done. lia.
Qed.

(** An observation stores the four members in this order. *)
Record orderly (stores : list status_store) : Prop := mk_orderly {
  or_inputs : (made stored_statuses stores <= made stored_inputs stores)%nat;
  or_offline : (made stored_inputs stores <= made stored_offline stores)%nat;
  or_online : (made stored_offline stores <= made stored_online stores)%nat;
  or_statuses : (made stored_online stores <= S (made stored_statuses stores))%nat;
}.

(** Every part of the sequence is orderly, and at its end no observation is open. *)
Record whole (stores : list status_store) : Prop := mk_whole {
  wh_prefix : ∀ p, p `prefix_of` stores → orderly p;
  wh_end : made stored_online stores = made stored_statuses stores;
}.

Lemma prefix_app_inv {A} (p a b : list A) :
  p `prefix_of` a ++ b → p `prefix_of` a ∨ ∃ q, p = a ++ q ∧ q `prefix_of` b.
Proof.
  intros Hp. destruct (prefix_weak_total p a (a ++ b)) as [| [q ->]]; [done | by apply prefix_app_r | by left |].
  right. exists q. split; [done |]. by apply prefix_app_inv in Hp.
Qed.

Lemma whole_app a b : whole a → whole b → whole (a ++ b).
Proof.
  intros [Ha Hae] [Hb Hbe]. split; [| by rewrite !made_app, Hae, Hbe].
  intros p [Hp | (q & -> & Hq)]%prefix_app_inv; [by apply Ha |].
  destruct (Ha a) as [A1 A2 A3 A4]; [done |]. destruct (Hb q Hq) as [B1 B2 B3 B4].
  split; rewrite !made_app; lia.
Qed.

Lemma prefix_take_of {A} (p l : list A) : p `prefix_of` l → ∃ n, (n <= length l)%nat ∧ p = take n l.
Proof. intros [k ->]. exists (length p). rewrite length_app, take_app_length. split; [lia | done]. Qed.

Lemma whole_nil : whole [].
Proof. split; [| done]. intros p ->%prefix_nil_inv. split; cbn; lia. Qed.

(** Stores of other members. *)
Lemma whole_other a :
  stored_online a = None → stored_offline a = None → stored_inputs a = None → stored_statuses a = None →
  whole [a].
Proof.
  intros H1 H2 H3 H4. split; [| by unfold made; cbn; rewrite H1, H4].
  intros p ([| [| n]] & Hn & ->)%prefix_take_of; cbn in Hn; [| | lia];
    split; unfold made; cbn; rewrite ?H1, ?H2, ?H3, ?H4; cbn; lia.
Qed.

Lemma observed_stores statuses :
  observed statuses
  = [StoreOnline (Z.of_nat (count_online statuses));
     StoreOffline (Z.of_nat (length statuses) - Z.of_nat (count_online statuses));
     StoreInputs (Z.of_nat (count_online statuses)
                  + (Z.of_nat (length statuses) - Z.of_nat (count_online statuses)));
     StoreStatuses (device_health <$> statuses)].
Proof. done. Qed.

Lemma whole_observed statuses : whole (observed statuses).
Proof.
  rewrite observed_stores. split; [| done].
  intros p ([| [| [| [| [| n]]]]] & Hn & ->)%prefix_take_of; cbn in Hn; try lia; split; cbn; lia.
Qed.

Lemma whole_observations (statuses : nat → list DeviceStatus) l : whole (l ≫= λ k, observed (statuses k)).
Proof. induction l as [| k l IH]; [apply whole_nil | by apply whole_app; [apply whole_observed |]]. Qed.

Lemma whole_run n statuses w : whole (run_stores n statuses w).
Proof.
  unfold run_stores.
  apply whole_app; [apply (whole_app [_] [_]); by apply whole_other |].
  apply whole_app; [apply whole_observed |].
  apply whole_app; [apply (whole_app [_] [_]); by apply whole_other |].
  apply whole_app; [apply whole_observations | apply (whole_app [_] [_]); by apply whole_other].
Qed.

(** *** The values stored in a run *)

Section run.
Context (n : Z) (statuses : nat → list DeviceStatus) (w : nat).

Abbreviation stores := (run_stores n statuses w).

Lemma omap_observations {X} (sel : status_store → option X) (f : nat → X) l :
  (∀ k, omap sel (observed (statuses k)) = [f k]) →
  omap sel (l ≫= λ k, observed (statuses k)) = f <$> l.
Proof.
  intros Hf. induction l as [| k l IH]; [done |]. cbn [mbind list_bind fmap list_fmap].
  by rewrite omap_app, Hf, IH.
Qed.

(** The members an observation stores once. *)
Lemma stored_values {X} (sel : status_store → option X) (f : nat → X) :
  (∀ k, omap sel (observed (statuses k)) = [f k]) →
  (∀ b, sel (StoreConfigLoaded b) = None ∧ sel (StoreCacheReady b) = None ∧ sel (StoreWorkersStarted b) = None) →
  (∀ k, sel (StoreWorkerCount k) = None) →
  omap sel stores = f <$> seq 0 (S w).
Proof.
  intros Hf Hb Hk. unfold run_stores. rewrite !omap_app, Hf, (omap_observations sel f) by done.
  cbn [omap list_omap]. rewrite !(proj1 (Hb _)), !(proj1 (proj2 (Hb _))), !(proj2 (proj2 (Hb _))), !Hk.
  cbn [app]. by rewrite app_nil_r.
Qed.

(** The value of a member after [c] observations. *)
Definition after_observation {X} (initial : X) (f : nat → X) (c : nat) : X :=
  match c with O => initial | S k => f k end.

Lemma last_taken {X} (f : nat → X) c :
  (c <= S w)%nat → last (take c (f <$> seq 0 (S w))) = match c with O => None | S k => Some (f k) end.
Proof.
  intros Hc. destruct c as [| k]; [done |]. rewrite <-fmap_take, take_seq, Nat.min_l by lia.
  rewrite seq_S, fmap_app, Nat.add_0_l. change (f <$> [k]) with [f k]. by rewrite last_snoc.
Qed.

Lemma observed_member {X} (g : RuntimeStatus → X) (sel : status_store → option X) (f : nat → X) s t :
  (∀ a s, g (apply_store a s) = default (g s) (sel a)) →
  omap sel stores = f <$> seq 0 (S w) →
  (made sel (take t stores) <= S w)%nat ∧
  g (status_at s stores t) = after_observation (g s) f (made sel (take t stores)).
Proof.
  intros Hg Hf. assert (made sel (take t stores) <= S w)%nat as Hle.
  { assert (made sel stores = S w) as <- by (unfold made; rewrite Hf, length_fmap; apply length_seq).
    rewrite <-(take_drop t stores) at 2. rewrite made_app. lia. }
  split; [done |]. unfold status_at. rewrite (member_value g sel) by done.
  rewrite omap_take, Hf. fold (made sel (take t stores)). rewrite last_taken by done.
  by destruct (made sel (take t stores)).
Qed.

Lemma omap_take_none {X} (sel : status_store → option X) l t : omap sel l = [] → omap sel (take t l) = [].
Proof.
  intros Hl. apply (f_equal (take (length (omap sel (take t l))))) in Hl.
  rewrite <-omap_take, take_nil in Hl. done.
Qed.

Lemma length_observations l : length (l ≫= λ k, observed (statuses k)) = (4 * length l)%nat.
Proof.
  induction l as [| k l IH]; [done |]. cbn [mbind list_bind length]. rewrite length_app, IH.
  rewrite observed_stores. cbn [length]. lia.
Qed.

Lemma length_run : length stores = (10 + 4 * w)%nat.
Proof.
  unfold run_stores. rewrite !length_app, length_observations, length_seq, observed_stores. cbn [length]. lia.
Qed.

(** The moments at which the gateway is ready. *)
Definition up (t : nat) : bool := (8 <=? t)%nat && (t <? length stores)%nat.

(** A member that is stored once, before moment [k]. *)
Lemma stored_once {X} (g : RuntimeStatus → X) (sel : status_store → option X) x s a v b t :
  (∀ a s, g (apply_store a s) = default (g s) (sel a)) →
  omap sel a = [] → sel v = Some x → omap sel b = [] →
  g (apply_stores (take t (a ++ v :: b)) s) = if (length a <? t)%nat then x else g s.
Proof.
  intros Hg Ha Hv Hb. rewrite (member_value g sel) by done. rewrite take_app, omap_app, (omap_take_none _ a) by done.
  destruct (Nat.ltb_spec (length a) t) as [Hlt | Hge].
  - destruct (t - length a)%nat as [| k] eqn:Hk; [lia |]. cbn [take app omap list_omap].
    by rewrite Hv, omap_take_none.
  - by replace (t - length a)%nat with 0%nat by lia.
Qed.

Lemma no_observations {X} (sel : status_store → option X) l :
  (∀ k, omap sel (observed (statuses k)) = []) → omap sel (l ≫= λ k, observed (statuses k)) = [].
Proof.
  intros Hf. induction l as [| k l IH]; [done |]. cbn [mbind list_bind]. by rewrite omap_app, Hf, IH.
Qed.

Lemma config_flag s t : rs_config_loaded s = false →
  rs_config_loaded (status_at s stores t) = (1 <=? t)%nat.
Proof.
  intros Hs. unfold status_at. change stores with ([] ++ StoreConfigLoaded true :: drop 1 stores).
  rewrite (stored_once rs_config_loaded stored_config true).
  - rewrite Hs. by destruct t.
  - by intros [] [].
  - done.
  - done.
  - change (drop 1 stores) with ([StoreCacheReady true] ++ observed (statuses 0%nat)
      ++ [StoreWorkerCount n; StoreWorkersStarted true] ++ (seq 1 w ≫= λ k, observed (statuses k))
      ++ [StoreWorkerCount n; StoreWorkersStarted false]).
    by rewrite !omap_app, (no_observations stored_config) by done.
Qed.

Lemma cache_flag s t : rs_cache_ready s = false →
  rs_cache_ready (status_at s stores t) = (2 <=? t)%nat.
Proof.
  intros Hs. unfold status_at.
  change stores with ([StoreConfigLoaded true] ++ StoreCacheReady true :: drop 2 stores).
  rewrite (stored_once rs_cache_ready stored_cache true).
  - rewrite Hs. cbn [length]. destruct t as [| [| t]]; done.
  - by intros [] [].
  - done.
  - done.
  - change (drop 2 stores) with (observed (statuses 0%nat)
      ++ [StoreWorkerCount n; StoreWorkersStarted true] ++ (seq 1 w ≫= λ k, observed (statuses k))
      ++ [StoreWorkerCount n; StoreWorkersStarted false]).
    by rewrite !omap_app, (no_observations stored_cache) by done.
Qed.

Lemma workers_flag s t : rs_serial_workers_started s = false →
  rs_serial_workers_started (status_at s stores t) = up t.
Proof.
  intros Hs. unfold status_at, up. rewrite length_run.
  set (b := (seq 1 w ≫= λ k, observed (statuses k)) ++ [StoreWorkerCount n]).
  assert (stores = (take 7 stores ++ StoreWorkersStarted true :: b) ++ [StoreWorkersStarted false]) as He
    by (unfold b, run_stores; rewrite observed_stores; cbn [app take]; by rewrite <-app_assoc).
  assert (omap stored_workers b = []) as Hb
    by (unfold b; rewrite omap_app, (no_observations stored_workers) by done; done).
  assert (length (take 7 stores) = 7%nat) as H7 by (rewrite length_take, length_run; lia).
  assert (length (take 7 stores ++ StoreWorkersStarted true :: b) = (9 + 4 * w)%nat) as Hlen.
  { pose proof length_run as Hl. rewrite He, length_app in Hl. cbn [length] in Hl. lia. }
  assert (∀ a s, rs_serial_workers_started (apply_store a s)
                 = default (rs_serial_workers_started s) (stored_workers a)) as Hg by by intros [] [].
  rewrite He, take_app, Hlen. destruct (Nat.ltb_spec t (10 + 4 * w)) as [Hlt | Hge].
  - replace (t - (9 + 4 * w))%nat with 0%nat by lia. rewrite take_0, app_nil_r, andb_true_r.
    rewrite (stored_once rs_serial_workers_started stored_workers true), H7, Hs; [| done.. | done].
    by destruct t as [| [| [| [| [| [| [| [|]]]]]]]].
  - rewrite andb_false_r, (take_ge [_]), (member_value _ stored_workers), omap_app by (done || (cbn [length]; lia)).
    cbn [omap list_omap stored_workers]. by rewrite last_snoc.
Qed.

Definition stored_count (a : status_store) := match a with StoreWorkerCount x => Some (u64 x) | _ => None end.

Lemma worker_count s t : rs_serial_worker_count s = 0 →
  rs_serial_worker_count (status_at s stores t) = if (7 <=? t)%nat then u64 n else 0.
Proof.
  intros Hs. unfold status_at. rewrite (member_value _ stored_count) by by intros [] [].
  assert (omap stored_count stores = [u64 n; u64 n]) as Hv.
  { unfold run_stores. by rewrite !omap_app, (no_observations stored_count) by done. }
  rewrite omap_take, Hv. destruct (Nat.leb_spec 7 t) as [Hge | Hlt].
  - assert (1 <= made stored_count (take t stores))%nat as Hm.
    { etransitivity; [| apply (made_take stored_count stores 7 t Hge)]. done. }
    unfold made in Hm. destruct (length _) as [| [| k]]; [lia | done | by destruct k].
  - rewrite Hs. assert (made stored_count (take t stores) <= made stored_count (take 6 stores))%nat as Hm
      by (apply made_take; lia).
    change (made stored_count (take 6 stores)) with 0%nat in Hm. unfold made in Hm.
    destruct (length _); [done | lia].
Qed.

(** ** A reader *)

Context (kVersion : string) (cfg : GatewayConfig).
Context (m : nat → nat) (Hrise : ∀ i j, (i <= j)%nat → (m i <= m j)%nat) (Hstart : (2 <= m 0)%nat).

Abbreviation first := (first_status kVersion cfg).

Definition seen (i : nat) : RuntimeStatus := status_at first stores (m i).

Lemma seen_config i : rs_config_loaded (seen i) = true.
Proof.
  unfold seen. rewrite config_flag by done. pose proof (Hrise 0 i ltac:(lia)).
  apply Nat.leb_le. lia.
Qed.

Lemma seen_cache i : rs_cache_ready (seen i) = true.
Proof.
  unfold seen. rewrite cache_flag by done. pose proof (Hrise 0 i ltac:(lia)).
  apply Nat.leb_le. lia.
Qed.

(** Both members are set, so the answer is that of the third load. *)
Lemma seen_ready k : ready (from k seen) = (up (m (k + 2)%nat), 3%nat).
Proof.
  unfold ready, from. rewrite seen_config, seen_cache. cbn [negb]. f_equal.
  unfold seen. by apply workers_flag.
Qed.

Lemma seen_ready_answer status_first :
  fst (ready_answer status_first seen) = up (m (if status_first then 2 else 10)%nat) ∧
  snd (snd (ready_answer status_first seen)) = up (m (if status_first then 8 else 5)%nat).
Proof.
  unfold ready_answer. destruct status_first.
  - change (ready seen) with (ready (from 0 seen)). rewrite seen_ready. cbn [fst snd]. split; [done |].
    rewrite readiness_reports. change (from 3 (from 3 seen)) with (from 6 seen). by rewrite seen_ready.
  - cbn [fst snd]. rewrite readiness_reports. unfold readiness_loads. by rewrite !seen_ready.
Qed.

(** The numbers of the health answer: how many observations each is from. *)
Lemma seen_health : ∃ a b c d : nat,
  (a <= b <= c)%nat ∧ (b <= d)%nat ∧ (c <= S d)%nat ∧ (c <= S w)%nat ∧ (d <= S w)%nat ∧
  ((6 <= m 0)%nat → (1 <= a)%nat) ∧
  rs_device_statuses (seen 0) = after_observation [] (λ k, device_health <$> statuses k) a ∧
  rs_input_device_count (seen 2) = after_observation 0 (λ k, u64 (Z.of_nat (length (statuses k)))) b ∧
  rs_device_online_count (seen 3) = after_observation 0 (λ k, u64 (Z.of_nat (count_online (statuses k)))) c ∧
  rs_device_offline_count (seen 4)
  = after_observation 0 (λ k, u64 (Z.of_nat (length (statuses k)) - Z.of_nat (count_online (statuses k)))) d.
Proof.
  set (at_ i := take (m i) stores).
  assert (∀ i, orderly (at_ i)) as Ho by (intros i; apply (wh_prefix _ (whole_run n statuses w)), prefix_take).
  pose proof (made_take stored_inputs stores _ _ (Hrise 0 2 ltac:(lia))) as H02.
  pose proof (made_take stored_online stores _ _ (Hrise 2 3 ltac:(lia))) as H23.
  pose proof (made_take stored_offline stores _ _ (Hrise 2 4 ltac:(lia))) as H24.
  pose proof (made_take stored_offline stores _ _ (Hrise 3 4 ltac:(lia))) as H34.
  destruct (Ho 0%nat) as [A1 _ _ _], (Ho 2%nat) as [_ B2 B3 _], (Ho 3%nat) as [C1 C2 _ C4].
  exists (made stored_statuses (at_ 0%nat)), (made stored_inputs (at_ 2%nat)),
    (made stored_online (at_ 3%nat)), (made stored_offline (at_ 4%nat)). unfold at_ in *.
  destruct (observed_member rs_device_statuses stored_statuses (λ k, device_health <$> statuses k)
              first (m 0)) as [_ V1]; [by intros [] [] | by apply stored_values |].
  destruct (observed_member rs_input_device_count stored_inputs
              (λ k, u64 (Z.of_nat (length (statuses k)))) first (m 2)) as [_ V2]; [by intros [] [] | |].
  { apply stored_values; try done. intros k. rewrite observed_stores. cbn [omap list_omap stored_inputs].
    do 2 f_equal. lia. }
  destruct (observed_member rs_device_online_count stored_online
              (λ k, u64 (Z.of_nat (count_online (statuses k)))) first (m 3)) as [L3 V3];
    [by intros [] [] | by apply stored_values |].
  destruct (observed_member rs_device_offline_count stored_offline
              (λ k, u64 (Z.of_nat (length (statuses k)) - Z.of_nat (count_online (statuses k)))) first (m 4))
    as [L4 V4]; [by intros [] [] | by apply stored_values |].
  unfold seen. rewrite V1, V2, V3, V4. split_and!; try done; try lia.
  intros H6. change 1%nat with (made stored_statuses (take 6 stores)). by apply made_take.
Qed.

Lemma seen_plain : plain_text kVersion → plain_text (kc_type (gc_cache cfg)) → plain_status (seen 0).
Proof.
  intros Hv Hb. destruct seen_health as (a & b & c & d & _ & _ & _ & _ & _ & _ & Hs & _).
  assert (∀ stores, rs_version (apply_stores stores first) = kVersion ∧
                    rs_cache_backend (apply_stores stores first) = kc_type (gc_cache cfg)) as Hc.
  { intros l. unfold apply_stores. induction l as [| x l IH] using rev_ind; [done |].
    rewrite foldl_app. cbn [foldl]. destruct (foldl _ _ l), x; exact IH. }
  destruct (Hc (take (m 0) stores)) as [Hc1 Hc2].
  split; [by rewrite <-Hc1 in Hv | by rewrite <-Hc2 in Hb |].
  rewrite Hs. destruct a as [| k]; [apply Forall_nil_2 |]. cbn [after_observation].
  apply Forall_fmap, Forall_true. intros x. cbn. by destruct (ds_protocol x).
Qed.
End run.

(** ** Properties *)

(** C9: The endpoints over the life of the gateway. In a run of [main] that succeeds, the
    main thread makes ten stores to the status and four more for each observation after
    the first; the gateway is ready from the eighth of them to the one before the last.
    For an HTTP request whose loads are made at any moments that do not go back, once
    the cache is ready: the status code of a readiness answer, and the readiness its body
    reports, are those of the moment of one load each, so readiness is answered with 503,
    then with 200, then with 503 again, and never otherwise. A health answer is read as
    its document, and, when the device manager reports on every device it was started
    with, its total is that number from the first observation on; its devices, total,
    online and offline counts are each those of one observation, none older than the
    one before it but that the offline count may be of the observation before that of the
    online count; and when both counts are of one observation they add up to the total,
    which they need not do otherwise. *)
Theorem endpoints_over_life `{Yaml Node} inet_pton kVersion args env acts :
  main inet_pton kVersion args env = Ret (0, acts) → args ≠ ["--version"] → plain_text kVersion →
  let statuses := ge_statuses (me_gateway env) in
  let stores := status_stores acts in
  let is_up t := (8 <=? t)%nat && (t <? length stores)%nat in
  ∃ first inputs,
    head (omap status_made acts) = Some first ∧ omap manager_start acts = [inputs] ∧
    length stores = (10 + 4 * waited (ge_waits (me_gateway env)))%nat ∧
    (∀ t, is_ready (status_at first stores t) = is_up t) ∧
    ∀ m : nat → nat, (∀ i j, (i <= j)%nat → (m i <= m j)%nat) → (2 <= m 0)%nat →
      let seen i := status_at first stores (m i) in
      (∀ status_first metrics now,
         (resource status_first seen metrics now "/ready").1.1
         = (if is_up (m (if status_first then 2 else 10)%nat) then 200 else 503) ∧
         (ready_answer status_first seen).2.2 = is_up (m (if status_first then 8 else 5)%nat) ∧
         reads_as (resource status_first seen metrics now "/health").2
           (document (health_members seen (uptime_seconds metrics now)))) ∧
      ((∀ k, length (statuses k) = length inputs) → Z.of_nat (length inputs) < 2 ^ 64 →
       ∃ a b c d, (a <= b <= c)%nat ∧ (b <= d)%nat ∧ (c <= S d)%nat ∧ ((6 <= m 0)%nat → (1 <= a)%nat) ∧
         rs_device_statuses (seen 0%nat) = after_observation [] (λ k, device_health <$> statuses k) a ∧
         rs_input_device_count (seen 2%nat) = after_observation 0 (λ _, Z.of_nat (length inputs)) b ∧
         rs_device_online_count (seen 3%nat)
         = after_observation 0 (λ k, Z.of_nat (count_online (statuses k))) c ∧
         rs_device_offline_count (seen 4%nat)
         = after_observation 0 (λ k, Z.of_nat (length inputs) - Z.of_nat (count_online (statuses k))) d ∧
         (c = d → (1 <= b)%nat →
          rs_device_online_count (seen 3%nat) + rs_device_offline_count (seen 4%nat)
          = rs_input_device_count (seen 2%nat))).
Proof.
  intros Hm Hv Hplain statuses stores is_up.
  destruct (main_stores _ _ _ _ _ Hm Hv) as (cfg & Hr & Hfirst & Hinputs & Hstores). fold stores in Hstores.
  set (n := Z.of_nat (length (serial_devices cfg args))) in *. set (w := waited _) in *.
  assert (∀ t, is_up t = up n statuses w t) as Hup by (intros t; unfold is_up; by rewrite Hstores).
  exists (first_status kVersion cfg), (gateway_devices cfg (serial_devices cfg args)).
  split_and!; [done | done | by rewrite Hstores, length_run | |].
  - intros t. rewrite Hup, Hstores. unfold is_ready.
    rewrite config_flag, cache_flag, workers_flag by done. unfold up.
    destruct (Nat.leb_spec 8 t); [| by rewrite andb_false_r].
    by rewrite (proj2 (Nat.leb_le 1 t)), (proj2 (Nat.leb_le 2 t)) by lia.
  - intros m Hrise Hstart seen.
    assert (∀ i, seen i = Endpoints.seen n statuses w kVersion cfg m i) as Hseen
      by (intros i; unfold seen; by rewrite Hstores).
    assert (plain_status (seen 0%nat)) as Hp.
    { rewrite Hseen. apply seen_plain; [done.. |].
      by destruct (loaded _ _ _ _ (proj1 (proj2 Hr))) as [_ [_ _ _ _ _ _ _ _ _ [_ [-> | ->]] _]]. }
    split.
    + intros status_first metrics now. unfold seen. rewrite Hstores, !Hup.
      destruct (seen_ready_answer n statuses w kVersion cfg m Hrise Hstart status_first) as [<- <-].
      split_and!; [done | done |]. destruct Hp as [H1 H2 H3]. unfold seen in *. rewrite Hstores in *. by apply health_reads.
    + intros Hlen Hsmall.
      destruct (seen_health n statuses w kVersion cfg m Hrise Hstart) as
        (a & b & c & d & [Hab Hbc] & Hbd & Hcd & _ & _ & Ha & V1 & V2 & V3 & V4).
      assert (∀ k, u64 (Z.of_nat (length (statuses k))) = Z.of_nat (length (gateway_devices cfg (serial_devices cfg args))))
        as Hn by (intros k; rewrite Hlen; apply u64_small; lia).
      assert (∀ k, (count_online (statuses k) <= length (gateway_devices cfg (serial_devices cfg args)))%nat) as Hon
        by (intros k; rewrite <-(Hlen k); apply count_online_le).
      exists a, b, c, d. rewrite !Hseen, V1, V2, V3, V4. split_and!; try done.
      * destruct b as [| k]; [done | apply Hn].
      * destruct c as [| k]; cbn [after_observation]; [done |]. specialize (Hon k). apply u64_small. lia.
      * destruct d as [| k]; cbn [after_observation]; [done |]. specialize (Hon k). rewrite Hlen. apply u64_small. lia.
      * intros <- Hb. destruct b as [| b], c as [| k]; try lia. cbn [after_observation]. specialize (Hon k).
        rewrite Hn, Hlen, !u64_small by lia. lia.
Qed.

(** A gateway with one serial device, offline at the first observation and online at the
    next, and a request whose third and fourth loads are before the second observation
    and whose others are after its stores: no device is online and none is offline. *)
Definition one_uart (online : bool) : list DeviceStatus := [DeviceData.mk_status 0 Uart online 0 0].

Definition observed_main : main_env :=
  mk_main_env None None true
    (mk_gateway_env true "" 0 true (λ _, []) (sample_wait <$> [false; true])
       (λ k, one_uart (bool_decide (k ≠ 0%nat))) (Ret tt) (λ _, Ret tt)).

Definition straddling (i : nat) : nat := if (i <=? 3)%nat then 8 else 12.

Lemma endpoints_over_life_witness :
  let yaml := document_yaml (λ _, Some (DocMap [])) in
  ∃ acts first, main (H:=yaml) (λ _, false) "1.0" ["gateway.yaml"; "/dev/ttyUSB0"] observed_main = Ret (0, acts) ∧
    head (omap status_made acts) = Some first ∧
    let seen i := status_at first (status_stores acts) (straddling i) in
    (resource true seen (new_metrics 0) 0 "/ready").1.1 = 200 ∧
    rs_input_device_count (seen 2%nat) = 1 ∧
    rs_device_online_count (seen 3%nat) + rs_device_offline_count (seen 4%nat) = 0.
Proof.
  intros yaml.
  assert (∃ acts, main (H:=yaml) (λ _, false) "1.0" ["gateway.yaml"; "/dev/ttyUSB0"] observed_main = Ret (0, acts)
            ∧ length (status_stores acts) = 14%nat ∧
              omap status_made acts = [first_status "1.0" default_gateway] ∧
              let seen i := status_at (first_status "1.0" default_gateway) (status_stores acts) (straddling i) in
              rs_input_device_count (seen 2%nat) = 1 ∧
              rs_device_online_count (seen 3%nat) + rs_device_offline_count (seen 4%nat) = 0)
    as (acts & Hm & Hlen & Hfirst & Hi & Ho).
  { eexists. split; [vm_compute; reflexivity |]. cbv zeta. split_and!; vm_compute; reflexivity. }
  destruct (endpoints_over_life (H:=yaml) (λ _, false) "1.0" ["gateway.yaml"; "/dev/ttyUSB0"] observed_main acts Hm
              ltac:(discriminate) eq_refl) as (first & inputs & Hf & _ & _ & _ & Hall).
  exists acts, first. split; [exact Hm |]. split; [exact Hf |].
  destruct (Hall straddling) as [Hready _].
  - intros i j Hij. unfold straddling. destruct (Nat.leb_spec i 3), (Nat.leb_spec j 3); lia.
  - apply Nat.leb_le. reflexivity.
  - destruct (Hready true (new_metrics 0) 0) as [Hcode _]. rewrite Hlen in Hcode.
    rewrite Hfirst in Hf. injection Hf as <-. split; [exact Hcode |]. split; [exact Hi | exact Ho].
Defined.
