(* ===== verification/Pipeline.v ===== *)
(** * From the bytes of a serial line to the broker

    The parts put end to end: the worker of a UART device ([src/device/device_manager.cpp]
    over [src/device/uart_device.cpp] and [src/protocol/frame_parser.cpp]), the handlers of
    [src/main.cpp] and the publishers, among any other workers. What is published is
    compared with what the sensors put on the line. *)

From stdpp Require Import gmap.
From S2P Require Import Prelude Crc16 RingBuffer FrameParser FrameScan SensorData DeviceData Posix SerialPort DeviceInterface UartDevice DeviceManager MessageCache FileCache ReliablePublisher TcpClient ConfigData Publisher Gateway MainThread System Json.

Local Open Scope Z_scope.

(** ** What a worker takes from its line *)

Section sessions.
Context `{TerminalLibrary}.

Abbreviation turn := (loop_turn port_open_env uart_env).

(** The bytes a run of [run_device] takes from the line: those it still takes in the
    session that is open, and those of each later session. A session begins when the
    device is started and ends with a transport error or the stop of the worker. *)
Fixpoint sessions (turns : list turn) (started : bool) (d : UartDevice) (o : os)
    : list Z * list (list Z) :=
  match turns with
  | [] => ([], [])
  | t :: rest =>
      if negb (lt_running t) then ([], [])
      else
        let '(ready, d1, o1, _) := ensure_started true started d o (lt_start t) in
        if negb ready then sessions rest false d1 o1
        else
          match read_and_report true true d1 o1 (lt_read t) with
          | Ret (open, d2, o2, _) =>
              let '(now, later) := sessions rest open d2 o2 in
              let now := bytes_taken d1 (lt_read t) ++ now in
              if started then (now, later) else ([], now :: later)
          | _ => ([], [])
          end
  end.

Definition line_sessions (turns : list turn) (d : UartDevice) (o : os) : list (list Z) :=
  snd (sessions turns false d o).

(** The readings in the bytes of one session. *)
Definition readings_in (x : list Z) : list SensorData := omap reading_of (accepted (fst (scan x))).

Lemma sessions_closed turns d o : fst (sessions turns false d o) = [].
Proof.
  revert d o. induction turns as [| t turns IH]; intros d o; [done |]. cbn [sessions].
  destruct (negb (lt_running t)); [done |].
  destruct (ensure_started true false d o (lt_start t)) as [[[ready d1] o1] a].
  destruct ready; cbn [negb]; [| apply IH].
  destruct (read_and_report true true d1 o1 (lt_read t)) as [[[[open d2] o2] a2] | |]; try done.
  by destruct (sessions turns open d2 o2).
Qed.

Lemma upcoming_quiet d : uart_wf d → upcoming d [] = uart_pending d.
Proof.
  intros Hwf. unfold upcoming. rewrite app_nil_r, (scan_wait _ (inv_waits _ (uart_parser_ok _ Hwf))).
  apply app_nil_r.
Qed.

(** The start of a device keeps the readings in the queue and forgets the bytes of the
    unfinished frame. *)
Lemma uart_ensure_started d o env ready d' o' acts :
  uart_wf d → ensure_started true false d o env = (ready, d', o', acts) →
  uart_wf d' ∧ uart_pending d' = uart_pending d ∧ omap data_call acts = [] ∧
  (ready = true → pending (uart_parser d') = []).
Proof.
  intros Hwf He. unfold ensure_started in He.
  change (start d o env) with (uart_start d o env) in He. unfold uart_start in He.
  destruct (open_port _ _ _ _) as [[[[ok p] o1] em] t]. destruct Hwf as [Hp ????].
  destruct (parser_reset_wf _ Hp) as [Hinv Hr].
  destruct ok; cbn [negb] in He; injection He as <- <- <- <-; (split; [by split; try apply u64_range |]);
    (split; [done |]); by split.
Qed.

(** One read and its handler calls. *)
Lemma uart_read_and_report d o env open d' o' acts x :
  uart_wf d → read_and_report true true d o env = Ret (open, d', o', acts) →
  (open = false → x = []) →
  uart_wf d' ∧
  upcoming d (bytes_taken d env ++ x) =
    omap data_call acts ++ (if open then upcoming d' x else uart_pending d').
Proof.
  intros Hwf Hr Hx. unfold read_and_report in Hr. change (read d o env) with (uart_read d o env) in Hr.
  destruct (uart_read d o env) as [[[res d1] o1] | |] eqn:Hread; try discriminate Hr.
  cbn [mbind exec_bind] in Hr. pose proof (uart_read_wf _ _ _ _ _ _ Hwf Hread) as Hwf1.
  assert (rr_code res = Data ↔ is_Some (rr_data res)) as Hd.
  { pose proof (uart_read_cases _ _ _ _ Hwf Hread) as Hc. remember (res, d1, o1) as r eqn:Heq.
    destruct Hc as [data rest Hq | error Hq Hs | error Hq Hs | buf p' Hq Hne Hs].
    - injection Heq as <- _ _. by split.
    - injection Heq as <- _ _. by split; [| intros []].
    - injection Heq as <- _ _. by split; [| intros []].
    - pose proof (uart_result_counted (fst (scan (pending (uart_parser d) ++ buf))) (ue_now env) []
                    (uart_status d) (uart_count d Hwf)) as Hc.
      destruct (uart_result _ _ _ _) as [[res1 q] s]. injection Heq as <- _ _. tauto. }
  destruct (handle_result_quiet (ds_protocol (uart_status d1)) res Hd) as (_ & _ & _ & _ & Hdc).
  assert (omap data_call (ReadDone res :: handle_result true true (ds_protocol (uart_status d1)) res)
          = option_list (rr_data res)) as Hcalls by exact Hdc.
  case_bool_decide as Hlost.
  - change (stop d1 o1) with (uart_stop d1 o1) in Hr. rewrite uart_stop_eq in Hr.
    injection Hr as <- <- <- <-. rewrite (Hx eq_refl). split; [by apply uart_wf_status, Hwf1 |].
    rewrite app_comm_cons, omap_app, Hcalls. cbn [omap list_omap data_call uart_pending].
    pose proof (uart_read_cases _ _ _ _ Hwf Hread) as Hc. remember (res, d1, o1) as r eqn:Heq.
    destruct Hc as [data rest Hq | error Hq Hs | error Hq Hs | buf p' Hq Hne Hs];
      try (injection Heq as <- _ _; discriminate Hlost).
    + rewrite uart_stop_eq in Heq. injection Heq as <- <- _. cbn [uart_pending rr_data option_list].
      unfold bytes_taken. rewrite Hq, Hs. cbn [app]. by rewrite upcoming_quiet, Hq.
    + pose proof (uart_result_counted (fst (scan (pending (uart_parser d) ++ buf))) (ue_now env) []
                    (uart_status d) (uart_count d Hwf)) as Hc.
      destruct (uart_result _ _ _ _) as [[res1 q] s]. injection Heq as <- _ _. tauto.
  - injection Hr as <- <- <- <-. split; [done |].
    destruct (uart_read_flow _ _ _ _ _ _ x Hwf Hread Hlost) as [-> _].
    by rewrite Hcalls.
Qed.

(** The run of the worker hands on the readings of its sessions; those left in the queue
    come last. *)
Lemma uart_worker_flow turns started d o trace d' o' trace' :
  uart_wf d → run_device_loop true true turns started d o trace = Ret (d', o', trace') →
  ∃ acts, trace' = trace ++ acts ∧
    let '(now, later) := sessions turns started d o in
    omap data_call acts ++ uart_pending d' =
    (if started then upcoming d now else uart_pending d) ++ (later ≫= readings_in).
Proof.
  revert started d o trace. induction turns as [| t turns IH]; intros started d o trace Hwf Hr;
    [discriminate Hr |].
  cbn [run_device_loop sessions] in *. destruct (negb (lt_running t)).
  { change (stop d o) with (uart_stop d o) in Hr. rewrite uart_stop_eq in Hr.
    injection Hr as <- <- <-. exists [StopCall]. split; [done |].
    cbn [omap list_omap data_call uart_pending app]. rewrite app_nil_r.
    destruct started; [by rewrite upcoming_quiet | done]. }
  destruct (ensure_started true started d o (lt_start t)) as [[[ready d1] o1] a1] eqn:He.
  assert (uart_wf d1 ∧ omap data_call a1 = [] ∧
          (if started then ready = true ∧ d1 = d
           else uart_pending d1 = uart_pending d ∧ (ready = true → pending (uart_parser d1) = [])))
    as (Hwf1 & Ha1 & Hst).
  { destruct started; [by injection He as <- <- <- <- |].
    destruct (uart_ensure_started _ _ _ _ _ _ _ Hwf He) as (? & ? & ? & ?). done. }
  destruct ready; cbn [negb] in *.
  - destruct (read_and_report true true d1 o1 (lt_read t)) as [[[[open d2] o2] a2] | |] eqn:Hrd;
      try discriminate Hr. cbn [mbind exec_bind] in Hr.
    pose proof (sessions_closed turns d2 o2) as Hclosed.
    destruct (uart_read_and_report _ _ _ _ _ _ _ (fst (sessions turns open d2 o2)) Hwf1 Hrd
                ltac:(by intros ->)) as [Hwf2 Hup].
    destruct (IH _ _ _ _ Hwf2 Hr) as (a3 & -> & Hf).
    destruct (sessions turns open d2 o2) as [now later]. cbn [fst] in Hup.
    exists (a1 ++ a2 ++ a3). split; [by rewrite !app_assoc |].
    rewrite !omap_app, Ha1, app_nil_l, <-app_assoc, Hf, app_assoc, <-Hup.
    destruct started; [by destruct Hst as [_ ->] |]. destruct Hst as [Hq Hp].
    cbn [mbind list_bind]. rewrite app_assoc. f_equal. unfold upcoming.
    by rewrite Hq, (Hp eq_refl).
  - destruct started; [by destruct Hst |]. destruct (IH _ _ _ _ Hwf1 Hr) as (a2 & -> & Hf).
    exists (a1 ++ a2). split; [by rewrite app_assoc |].
    destruct (sessions turns false d1 o1) as [now later].
    rewrite omap_app, Ha1, app_nil_l, Hf. by destruct Hst as [-> _].
Qed.
End sessions.

(** ** What the sensors send *)

(** A measurement: the integers of the payload. *)
Record measurement : Type := mk_measurement {
  ms_device : Z;
  ms_cmd : Z;
  ms_temperature_x10 : Z;
  ms_humidity_x10 : Z;
  ms_gas_ppm : Z;
  ms_battery_mv : Z;
  ms_status : Z;
  ms_sequence : Z;
}.

Record measurement_ok (m : measurement) : Prop := mk_measurement_ok {
  mo_device : is_u8 (ms_device m);
  mo_cmd : is_u8 (ms_cmd m);
  mo_temperature : is_i16 (ms_temperature_x10 m);
  mo_humidity : is_u16 (ms_humidity_x10 m);
  mo_gas : is_u16 (ms_gas_ppm m);
  mo_battery : is_u16 (ms_battery_mv m);
  mo_status : is_u8 (ms_status m);
  mo_sequence : is_u16 (ms_sequence m);
}.

(** Its warnings, its reading, and the JSON members of the reading. *)
Definition measurement_warnings (m : measurement) : list string :=
  raw_warnings (ms_temperature_x10 m) (ms_humidity_x10 m) (ms_gas_ppm m) (ms_battery_mv m) (ms_status m).

Definition measured (m : measurement) : SensorData :=
  reading (ms_device m) (ms_cmd m) (ms_temperature_x10 m) (ms_humidity_x10 m) (ms_gas_ppm m)
    (ms_battery_mv m) (ms_status m) (ms_sequence m).

Definition measurement_document (m : measurement) : json :=
  document (reading_members (ms_device m) (ms_cmd m) (ms_temperature_x10 m) (ms_humidity_x10 m)
              (ms_gas_ppm m) (ms_battery_mv m) (ms_status m) (ms_sequence m) true []).

(** The measurements without a warning. *)
Definition normal (m : measurement) : bool := no_warnings (measurement_warnings m).

Definition normal_reading (m : measurement) : option SensorData :=
  if normal m then Some (measured m) else None.

(** The frame a sensor sends. *)
Definition measurement_frame (m : measurement) : Frame :=
  let payload := sensor_payload (ms_temperature_x10 m) (ms_humidity_x10 m) (ms_gas_ppm m)
                   (ms_battery_mv m) (ms_status m) (ms_sequence m) in
  let f := mk_frame (ms_cmd m) (ms_device m) payload 0 in
  mk_frame (ms_cmd m) (ms_device m) payload (crc16_modbus (frame_body f)).

Lemma measurement_frame_wf m : measurement_ok m → wf_frame (measurement_frame m).
Proof.
  intros []. split; try done; [| cbn; lia].
  unfold bytes. cbn [measurement_frame frame_payload sensor_payload].
  repeat (apply Forall_cons_2; [auto with width |]). apply Forall_nil_2.
Qed.

Lemma measurement_reading m : measurement_ok m → reading_of (measurement_frame m) = normal_reading m.
Proof.
  intros []. unfold reading_of, measurement_frame, normal_reading, normal, measurement_warnings.
  rewrite parse_sensor_payload by done. fold (measured m).
  destruct (raw_warnings _ _ _ _ _) as [| w ws]; [| done]. cbn [no_warnings].
  by rewrite append_warnings_nil.
Qed.

(** What a session of a line carries: frames of measurements, each after bytes that do
    not start a header, and a tail that is not complete. *)
Definition carries (x : list Z) (l : list (list Z * measurement)) : Prop :=
  ∃ tail, x = noisy_stream ((λ '(noise, m), (noise, measurement_frame m)) <$> l) ++ tail ∧
    scan_step tail = None ∧
    Forall (λ '(noise, m), Forall (λ b, b ≠ kHeader1) noise ∧ measurement_ok m) l.

Lemma carries_readings x l : carries x l → readings_in x = omap normal_reading l.*2.
Proof.
  intros (tail & -> & Ht & Hl). unfold readings_in.
  destruct (scan_noisy ((λ '(noise, m), (noise, measurement_frame m)) <$> l) tail) as [-> _].
  { apply Forall_fmap. eapply Forall_impl; [exact Hl |]. intros [noise m] [? ?].
    by split; [| apply measurement_frame_wf]. }
  rewrite (scan_wait tail Ht), app_nil_r.
  induction Hl as [| [noise m] l [_ Hm] _ IH]; [done |].
  cbn [fmap list_fmap omap list_omap snd]. rewrite measurement_reading by done.
  destruct (normal_reading m); by rewrite <-IH.
Qed.

(** ** Messages *)

Definition message_of (cfg : GatewayConfig) (data : SensorData) : CachedMessage :=
  mk_message (build_mqtt_topic (qc_topic_prefix (gc_mqtt cfg)) data) (sensor_data_to_json data).

Lemma reading_of_valid f data : reading_of f = Some data → valid data = true.
Proof.
  unfold reading_of, parse_sensor_data. destruct (negb _); [done |]. cbv zeta.
  match goal with |- (if valid ?x then Some ?x else None) = _ → _ => destruct (valid x) eqn:Hv end;
    [by intros [= <-] | done].
Qed.

Lemma readings_in_valid x : Forall (λ data, valid data = true) (readings_in x).
Proof.
  apply Forall_forall. intros data (f & _ & Hf)%list_elem_of_omap. by eapply reading_of_valid.
Qed.

(** A worker publishes one message for each valid reading. *)
Lemma messages_filter cfg acts :
  messages cfg acts = message_of cfg <$> filter (λ data, valid data = true) (omap data_call acts).
Proof.
  unfold messages. induction acts as [| a acts IH]; [done |].
  destruct a as [data p | | | | |]; cbn [omap list_omap data_call reading_message]; try exact IH.
  rewrite filter_cons. destruct (valid data); [| by rewrite decide_False by done].
  rewrite decide_True by done. cbn [fmap list_fmap]. f_equal. exact IH.
Qed.

Lemma messages_valid cfg acts :
  Forall (λ data, valid data = true) (omap data_call acts) →
  messages cfg acts = message_of cfg <$> omap data_call acts.
Proof.
  intros Hv. rewrite messages_filter. f_equal. induction Hv as [| data l Hd _ IH]; [done |].
  by rewrite filter_cons_True, IH.
Qed.

(** The messages of a serial worker are those of the readings in its sessions. *)
Lemma uart_worker_messages `{TerminalLibrary} cfg turns baud o d' o' trace :
  run_device true true turns (new_uart baud) o = Ret (d', o', trace) →
  let all := line_sessions turns (new_uart baud) o ≫= readings_in in
  ∃ handed, all = handed ++ uart_pending d' ∧ messages cfg trace = message_of cfg <$> handed.
Proof.
  intros Hr all. assert (uart_wf (new_uart baud)) as Hwf by (split; try done; apply parser_inv_new).
  destruct (uart_worker_flow _ _ _ _ _ _ _ _ Hwf Hr) as (acts & -> & Hf). cbn [app].
  unfold all, line_sessions.
  destruct (sessions turns false (new_uart baud) o) as [now later]. cbn [app uart_pending new_uart] in Hf.
  exists (omap data_call acts). split; [by rewrite Hf |]. apply messages_valid.
  assert (Forall (λ data, valid data = true) (later ≫= readings_in)) as Hv
    by (apply Forall_bind, Forall_true, readings_in_valid).
  rewrite <-Hf in Hv. by apply Forall_app in Hv as [? _].
Qed.

Lemma normal_reading_measured (ms : list measurement) :
  omap normal_reading ms = measured <$> filter (λ m, normal m = true) ms.
Proof.
  induction ms as [| m ms IH]; [done |]. cbn [omap list_omap]. rewrite filter_cons.
  unfold normal_reading at 1. destruct (normal m); cbn [decide decide_rel]; [| exact IH].
  by case_decide; [cbn [fmap list_fmap]; f_equal |].
Qed.

Lemma carried_readings xs ls :
  Forall2 carries xs ls →
  xs ≫= readings_in = measured <$> filter (λ m, normal m = true) (ls ≫= (λ l, l.*2)).
Proof.
  induction 1 as [| x l xs ls Hx _ IH]; [done |]. cbn [mbind list_bind].
  by rewrite (carries_readings _ _ Hx), IH, normal_reading_measured, filter_app, fmap_app.
Qed.

Lemma carried_ok xs ls m : Forall2 carries xs ls → m ∈ ls ≫= (λ l, l.*2) → measurement_ok m.
Proof.
  intros Hc (l & Hm & Hl)%list_elem_of_bind.
  apply list_elem_of_lookup_1 in Hl as [k Hk]. destruct (Forall2_lookup_r _ _ _ _ _ Hc Hk) as (x & _ & Hx).
  destruct Hx as (tail & _ & _ & Hok). apply list_elem_of_fmap in Hm as ([noise m'] & -> & Hm).
  rewrite Forall_forall in Hok. by apply (Hok _ Hm).
Qed.

(** The text of the message reads back as the measurement. *)
Lemma measurement_reads m :
  measurement_ok m → reads_as (sensor_data_to_json (measured m)) (measurement_document m).
Proof.
  intros []. unfold measured, measurement_document.
  change (reading ?a ?b ?c ?d ?e ?f ?g ?h) with (set_checks (reading a b c d e f g h) true []).
  rewrite reading_text by done. by apply reading_reads.
Qed.

Definition measurement_message (cfg : GatewayConfig) (m : measurement) : CachedMessage :=
  message_of cfg (measured m).

(** What has become of measurements once their worker is done. *)
Definition reached `{MqttPublish M E} `{CacheLaws C AEnv LEnv REnv} (cfg : GatewayConfig)
    (s : gateway_system M E C AEnv LEnv) (evs : list System.event) (i : nat) (ms : list measurement) : Prop :=
  (∀ ch, ch ∈ gateway_channels cfg →
     messages_on ch (by_worker i evs) = measurement_message cfg <$> ms) ∧
  ∀ m, m ∈ ms →
    let x := measurement_message cfg m in
    reads_as (msg_payload x) (measurement_document m) ∧
    ((x, true) ∈ w_attempts (sy_world s) ∨ x ∈ cached (w_cache (sy_world s)) ∨
     (x, Failed) ∈ outcomes_on "mqtt" (by_worker i evs)).

Lemma measurements_reached `{MqttPublish M E} `{CacheLaws C AEnv LEnv REnv}
    cfg calls (w0 : world M C E AEnv LEnv) evs s i trace ms :
  calls !! i = Some trace →
  cache_ok (w_cache w0) → Forall (λ env, append_benign (pe_append env)) (w_mqtt_envs w0) →
  Forall (λ acts, Forall storable (messages cfg acts)) calls →
  gateway_runs cfg (system_of calls w0) evs s →
  sy_workers s !! i = Some (mk_worker [] Between) →
  messages cfg trace = measurement_message cfg <$> ms → Forall measurement_ok ms →
  reached cfg s evs i ms.
Proof.
  intros Hi Hok Hb Hst Hr Hdone Hm Hms.
  destruct (worker_fate cfg calls w0 evs s i trace Hok Hb Hst Hr Hi Hdone) as [Hch Hfate].
  split; [intros ch Hc; by rewrite (Hch ch Hc), Hm |]. intros m Hin x. split.
  - apply measurement_reads. rewrite Forall_forall in Hms. by apply Hms.
  - apply Hfate. rewrite Hm. apply list_elem_of_fmap. by exists m.
Qed.

(** ** Properties *)

(** C1: From the sensors to the broker. A worker reads a serial line, over any number of
    sessions with transport errors and restarts between them, on which sensors send
    frames of measurements in noise, cut in any way into reads; its handler calls are
    interleaved with those of any other workers and with flushes of the cache. When it
    is done, the measurements without a warning are, in the order in which they were
    sent, those it has handed on followed by those still queued at the stop. It has
    published one message for each of the former on every enabled channel, in order;
    the payload is a JSON text that reads back as exactly the integers and the tenths
    that were measured; and the message has been acknowledged by the broker, or is in
    the cache, or was reported as failed because the cache refused it. *)
Theorem sensors_to_broker `{TerminalLibrary} `{MqttPublish M E} `{CacheLaws C AEnv LEnv REnv}
    cfg turns baud o d' o' trace lines calls (w0 : world M C E AEnv LEnv) evs s i :
  run_device true true turns (new_uart baud) o = Ret (d', o', trace) →
  Forall2 carries (line_sessions turns (new_uart baud) o) lines →
  calls !! i = Some trace →
  cache_ok (w_cache w0) → Forall (λ env, append_benign (pe_append env)) (w_mqtt_envs w0) →
  Forall (λ acts, Forall storable (messages cfg acts)) calls →
  gateway_runs cfg (system_of calls w0) evs s →
  sy_workers s !! i = Some (mk_worker [] Between) →
  ∃ handed left,
    filter (λ m, normal m = true) (lines ≫= (λ l, l.*2)) = handed ++ left ∧
    uart_pending d' = measured <$> left ∧ reached cfg s evs i handed.
Proof.
  intros Hrun Hlines Hi Hok Hb Hst Hr Hdone.
  destruct (uart_worker_messages cfg _ _ _ _ _ _ Hrun) as (data & Hall & Hm).
  rewrite (carried_readings _ _ Hlines) in Hall.
  apply fmap_app_inv in Hall as (handed & left & -> & -> & Hall).
  exists handed, left. split; [done |]. split; [done |].
  rewrite <-list_fmap_compose in Hm. eapply measurements_reached; try done.
  apply Forall_forall. intros m Hin. eapply carried_ok; [exact Hlines |].
  assert (m ∈ filter (λ m, normal m = true) (lines ≫= (λ l, l.*2))) as Hf
    by (rewrite Hall; apply elem_of_app; by left).
  by apply list_elem_of_filter in Hf as [_ ?].
Qed.

#[local] Instance no_terminal : TerminalLibrary := mk_terminal_library id (λ _, id) (λ _, id).
#[local] Existing Instance flaky_broker.

Definition measurement_a : measurement := mk_measurement 16 1 253 608 300 3700 0 1.
(** Too hot. *)
Definition measurement_b : measurement := mk_measurement 16 1 999 608 300 3700 0 2.
Definition measurement_c : measurement := mk_measurement 17 1 (-5) 612 310 3690 0 7.

Definition sample_lines : list (list (list Z * measurement)) :=
  [[([0; 7], measurement_a); ([], measurement_b)]; [([85], measurement_c)]].

Definition line_bytes (l : list (list Z * measurement)) : list Z :=
  noisy_stream ((λ '(noise, m), (noise, measurement_frame m)) <$> l).

(** The first session is read in two pieces and ends with a fault of the line. *)
Definition sample_turns : list (loop_turn port_open_env uart_env) :=
  let start := mk_port_open 5 (Some (mk_termios 0 0 0 0 0 0 0 0)) true "" in
  let turn env := mk_loop_turn true start env in
  let first := line_bytes [([0; 7], measurement_a); ([], measurement_b)] in
  let second := line_bytes [([85], measurement_c)] in
  [turn (mk_uart_env [PollReady false] (ReadBytes (take 9 first)) 100);
   turn (mk_uart_env [PollReady false] (ReadBytes (drop 9 first)) 101);
   turn (mk_uart_env [PollError "bad line"] (ReadBytes []) 102);
   turn (mk_uart_env [PollReady false] (ReadBytes second) 103);
   mk_loop_turn false start (mk_uart_env [] (ReadBytes []) 104)].

Definition sample_trace : list action :=
  match run_device true true sample_turns (new_uart 9600) os_init with Ret (_, _, t) => t | _ => [] end.

Lemma sample_lines_carried :
  Forall2 carries (line_sessions sample_turns (new_uart 9600) os_init) sample_lines.
Proof.
  assert (line_sessions sample_turns (new_uart 9600) os_init = line_bytes <$> sample_lines) as ->
    by (vm_compute; reflexivity).
  repeat apply Forall2_cons_2; [.. | apply Forall2_nil_2]; exists [];
    (split; [symmetry; apply app_nil_r |]; split; [reflexivity |]);
    repeat (apply Forall_cons_2;
      [split; [repeat constructor; discriminate
              | split; cbn; unfold is_u8, is_i16, is_u16; lia] |]); apply Forall_nil_2.
Qed.

(** A worker that is alone in the gateway of System. *)
Lemma sample_runs n trace evs s :
  run_schedule only_mqtt (replicate n (inl 0%nat)) (system_of [trace] busy_world) = Some (evs, s) →
  gateway_runs only_mqtt (system_of [trace] busy_world) evs s.
Proof.
  intros Hs. change evs with ([] ++ evs). eapply run_schedule_runs; [| apply runs_nil | exact Hs].
  by apply Forall_replicate.
Qed.

(** The broker acknowledges the reading of the first session and not that of the second,
    which is in the cache at the end; the invalid one is not published. *)
Lemma sensors_to_broker_witness :
  ∃ evs s, run_schedule only_mqtt (replicate 20 (inl 0%nat)) (system_of [sample_trace] busy_world)
             = Some (evs, s) ∧
    messages_on "mqtt" (by_worker 0 evs)
    = [measurement_message only_mqtt measurement_a; measurement_message only_mqtt measurement_c] ∧
    reads_as (sensor_data_to_json (measured measurement_c)) (measurement_document measurement_c).
Proof.
  destruct (run_schedule only_mqtt (replicate 20 (inl 0%nat)) (system_of [sample_trace] busy_world))
    as [[evs s] |] eqn:Hs; [| vm_compute in Hs; discriminate Hs].
  pose proof (sample_runs _ _ _ _ Hs) as Hr.
  assert (option_map (λ r, sy_workers (snd r)) (Some (evs, s)) = Some [mk_worker [] Between]) as Hw
    by (rewrite <-Hs; vm_compute; reflexivity).
  injection Hw as Hw.
  destruct (run_device true true sample_turns (new_uart 9600) os_init) as [[[d' o'] trace] | |] eqn:Hrun;
    [| vm_compute in Hrun; discriminate Hrun | vm_compute in Hrun; discriminate Hrun].
  assert (trace = sample_trace ∧ uart_pending d' = []) as [-> Hq].
  { split; [unfold sample_trace; by rewrite Hrun |].
    assert (option_map (λ r, uart_pending (fst (fst r)))
              (match run_device true true sample_turns (new_uart 9600) os_init with
               | Ret r => Some r | _ => None end) = Some []) as Hp by (vm_compute; reflexivity).
    rewrite Hrun in Hp. by injection Hp. }
  destruct (sensors_to_broker only_mqtt sample_turns 9600 os_init d' o' sample_trace sample_lines
              [sample_trace] busy_world evs s 0 Hrun sample_lines_carried)
    as (handed & left & Hall & Hleft & [Hch Hfate]).
  - reflexivity.
  - exact sample_cache_ok.
  - repeat (apply Forall_cons_2; [reflexivity |]). apply Forall_nil_2.
  - apply Forall_cons_2; [by apply Forall_true | apply Forall_nil_2].
  - exact Hr.
  - by rewrite Hw.
  - rewrite Hq in Hleft. symmetry in Hleft. apply fmap_nil_inv in Hleft as ->.
    rewrite app_nil_r in Hall.
    assert (handed = [measurement_a; measurement_c]) as -> by (rewrite <-Hall; vm_compute; reflexivity).
    exists evs, s. split; [reflexivity |].
    split; [exact (Hch "mqtt" ltac:(left)) |].
    exact (proj1 (Hfate measurement_c ltac:(right; left))).
Defined.
