(* ===== verification/Accounting.v ===== *)
(** * The metrics and the TCP channel across interleavings ([src/main.cpp])

    The workers and the main thread of System add to the same counters
    ([src/app/runtime_metrics.cpp]), each update atomic, and send on one TCP client.
    Whatever the interleaving, what the metrics show is what happened. *)

From stdpp Require Import gmap.
From S2P Require Import Prelude Text SensorData DeviceData DeviceInterface DeviceManager RuntimeMetrics MessageCache FileCache ReliablePublisher TcpClient ConfigData Posix Publisher Logger Gateway MainThread System.

Local Open Scope Z_scope.

(** ** What each event stands for *)

(** What is added to a counter when an outcome is noted. *)
Definition outcome_count (c : counter) (o : PublishOutcome) : Z :=
  if decide (po_channel o = "tcp") then
    match c, po_status o with
    | TcpPublishSuccess, Published | TcpPublishFailed, Deferred | TcpPublishFailed, Failed => 1
    | _, _ => 0
    end
  else 0.

(** A flush counts itself and what became of each attempt. *)
Definition attempt_count (c : counter) (a : attempt) : Z :=
  match c, snd a with MqttPublishSuccess, true | MqttPublishFailed, false => 1 | _, _ => 0 end.

Definition flush_count (c : counter) (attempts : list attempt) : Z :=
  (if decide (c = CacheFlushAttempt) then 1 else 0) + sum_by (attempt_count c) attempts.

Definition event_count (c : counter) (e : System.event) : Z :=
  match e with
  | WorkerPublished _ p =>
      (if decide (pb_channel p = "mqtt") then publication_count c (pb_message p, pb_status p) else 0)
      + outcome_count c (mk_outcome (pb_channel p) (pb_status p))
  | MainFlushed attempts => flush_count c attempts
  end.

Lemma sum_by_cons {A} (f : A → Z) a l : sum_by f (a :: l) = f a + sum_by f l.
Proof. done. Qed.

Lemma sum_by_nil {A} (f : A → Z) : sum_by f [] = 0.
Proof. done. Qed.

(** The only gauge a worker or a flush stores to is the depth of the cache. *)
Definition only_depth (u : update) : Prop :=
  match u with Set_ c _ => c = CacheDepth | Add _ _ => True end.

(** What was sent on TCP, with the result. *)
Definition event_sends (e : System.event) : list (string * bool) :=
  match e with
  | WorkerPublished _ p =>
      if decide (pb_channel p = "tcp")
      then [(msg_payload (pb_message p), bool_decide (pb_status p = Published))] else []
  | MainFlushed _ => []
  end.

Lemma sum_by_insert {A} (f : A → Z) l i x y :
  l !! i = Some x → sum_by f (<[i := y]> l) + f x = sum_by f l + f y.
Proof.
  intros Hi. rewrite (insert_take_drop _ _ _ (lookup_lt_Some _ _ _ Hi)).
  rewrite <-(take_drop_middle _ _ _ Hi) at 3. rewrite !sum_by_app, !sum_by_cons. lia.
Qed.

Section facts.
Context `{MqttPublish M E} `{CacheLaws C AEnv LEnv REnv}.
Context (gateway_config : GatewayConfig).

Abbreviation W := (world M C E AEnv LEnv).
Implicit Types (w : W).

(** What a worker has still to count: the calls to come and the outcomes it has not
    noted yet. *)
Definition owed (c : counter) (wk : worker M E C AEnv LEnv) : Z :=
  sum_by (call_count c) (wk_calls wk) +
  match wk_at wk with
  | Between => 0
  | Publishing _ _ _ outcomes | Noting outcomes => sum_by (outcome_count c) outcomes
  end.

Lemma owed_start c acts : owed c (mk_worker acts Between) = sum_by (call_count c) acts.
Proof. apply Z.add_0_r. Qed.

Lemma note_outcome_counts w o :
  ∃ us, w_updates (note_outcome w o) = w_updates w ++ us ∧ Forall only_depth us ∧
    ∀ c, total_added c us = outcome_count c o.
Proof.
  rewrite note_outcome_updates. eexists. split; [done |].
  split; [case_decide; [by apply Forall_singleton | apply Forall_nil_2] |].
  intros c. unfold outcome_count. case_decide; [| done]. destruct (po_status o); cbn; destruct c; cbn; done.
Qed.

Lemma error_updates_only protocol stats : Forall only_depth (error_updates protocol stats).
Proof.
  unfold error_updates. repeat (apply Forall_app_2; [destruct (0 <? _); [by apply Forall_singleton | apply Forall_nil_2] |]).
  apply Forall_cons_2; [done |]. destruct protocol; (apply Forall_nil_2 || by apply Forall_singleton).
Qed.

Lemma rp_publish_only m c env topic payload :
  Forall only_depth (rp_publish true m c env topic payload).2.
Proof.
  unfold rp_publish. destruct (mqtt_publish m (pe_mqtt env) topic payload) as [[] m1]; [by apply Forall_singleton |].
  destruct (append c (pe_append env) topic payload) as [[] c1]; cbn;
    repeat (apply Forall_cons_2; [done |]); apply Forall_nil_2.
Qed.

Lemma replay_counts messages m env n :
  let '(_, _, attempts, us) := rp_replay true messages m env n in
  Forall only_depth us ∧
  ∀ c, total_added c us = sum_by (attempt_count c) attempts.
Proof.
  revert m n. induction messages as [| x messages IH]; intros m n; cbn [rp_replay].
  { split; [apply Forall_nil_2 | done]. }
  destruct (mqtt_publish m (env n) _ _) as [[] m1]; cbn [negb].
  - specialize (IH m1 (S n)). destruct (rp_replay true messages m1 env (S n)) as [[[k m2] at1] us1].
    destruct IH as [Ho IH]. split; [by apply Forall_cons_2 |].
    intros c. rewrite total_added_app, IH, sum_by_cons. f_equal. by destruct c.
  - split; [by apply Forall_singleton |]. intros c. by destruct c.
Qed.

Lemma flush_counts m c0 env :
  let '(_, _, attempts, us) := rp_flush_cache true m c0 env in
  Forall only_depth us ∧ ∀ c, total_added c us = flush_count c attempts.
Proof.
  unfold rp_flush_cache, flush_count.
  assert (∀ n c, total_added c (note true (Add CacheFlushAttempt 1) ++ note true (Set_ CacheDepth n))
                 = if decide (c = CacheFlushAttempt) then 1 else 0) as Hb by (intros n []; done).
  assert (∀ n, Forall only_depth (note true (Add CacheFlushAttempt 1) ++ note true (Set_ CacheDepth n)))
    as Hbo by (intros n; by repeat apply Forall_cons_2).
  destruct (load_all c0 (fe_load env)) as [| x messages].
  { split; [apply Hbo |]. intros c. rewrite Hb, sum_by_nil. lia. }
  pose proof (replay_counts (x :: messages) m (fe_mqtt env) 0) as Hr.
  destruct (rp_replay true (x :: messages) m (fe_mqtt env) 0) as [[[k m1] at1] us1]. destruct Hr as [Ho Hr].
  destruct (k =? 0)%nat.
  { split; [by apply Forall_app_2 |]. intros c. by rewrite total_added_app, Hb, Hr. }
  destruct (remove_first c0 (fe_remove env) k) as [[] c1]; cbn [negb].
  - split; [apply Forall_app_2; [done |]; apply Forall_app_2; [done |]; by apply Forall_singleton |].
    intros c. rewrite app_assoc, 2!total_added_app, Hb, Hr. cbn. lia.
  - split; [by apply Forall_app_2 |]. intros c. by rewrite total_added_app, Hb, Hr.
Qed.

(** What is owed, spelled out. *)
Ltac settle := unfold owed; cbn [wk_calls wk_at fmap list_fmap total_added foldr]; rewrite ?sum_by_cons, ?sum_by_nil; lia.

(** What a step of a worker sends on TCP. *)
Lemma call_step_sends wk w pubs wk' w' i :
  worker_ok gateway_config wk → call_step gateway_config wk w pubs wk' w' →
  ∃ lines, w_sends w' = w_sends w ++ lines ∧
           Forall2 sent_as ((WorkerPublished i <$> pubs) ≫= event_sends) lines.
Proof.
  intros Hwk Hstep. destruct (call_step_world _ _ _ _ _ _ Hwk Hstep) as [[-> (_ & _ & Hs & _)] | (x & r & Hp)].
  { exists []. split; [by rewrite Hs, app_nil_r | constructor]. }
  destruct Hp as [[-> Hp] | [-> Hp]]; cbn.
  - cbn [pub_publish mqtt_publisher] in Hp. destruct (w_mqtt_envs w) as [| env envs]; [done |].
    destruct (rp_publish true _ _ env _ _) as [[[r1 [m1 c1]] at1] us]. injection Hp as _ <-.
    exists []. split; [cbn; by rewrite app_nil_r | constructor].
  - destruct (tcp_publisher_effect _ _ _ _ _ Hp) as (ok & line & -> & Hs & Hl & _). exists [line].
    split; [exact Hs |]. constructor; [| constructor]. by destruct ok.
Qed.

(** A step of a worker moves what it counts from what it owes, and a publication adds
    what is to be counted for it. *)
Lemma call_step_counts wk w pubs wk' w' i :
  worker_ok gateway_config wk → Forall stats_ok (wk_calls wk) →
  call_step gateway_config wk w pubs wk' w' →
  Forall stats_ok (wk_calls wk') ∧
  ∃ us, w_updates w' = w_updates w ++ us ∧ Forall only_depth us ∧
    ∀ c, total_added c us + owed c wk' = owed c wk + sum_by (event_count c) (WorkerPublished i <$> pubs).
Proof.
  intros Hwk Hs Hstep.
  destruct Hstep as [data p calls w Hv | data p calls w Hv | calls topic payload pub rest outcomes w status w' Hp
    | calls topic payload outcomes w | calls o outcomes w | calls w | p code error stats calls w | a calls w Ha];
    cbn [wk_calls] in *;
    (split; [by try (apply Forall_cons in Hs as [_ Hs]) |]).
  - exists ([Add FramesParsed 1] ++ [Add ProtocolErrors 1]). split; [cbn; by rewrite <-app_assoc |].
    split; [by repeat apply Forall_cons_2 |]. intros c. unfold owed. cbn [wk_calls wk_at fmap list_fmap].
    rewrite sum_by_cons, !sum_by_nil. cbn [call_count]. rewrite Hv.
    destruct c; cbn; repeat (case_decide; try done); lia.
  - exists [Add FramesParsed 1]. split; [done |]. split; [by repeat apply Forall_cons_2 |].
    intros c. unfold owed. cbn [wk_calls wk_at fmap list_fmap].
    rewrite sum_by_cons, !sum_by_nil. cbn [call_count]. rewrite Hv.
    destruct c; cbn; repeat (case_decide; try done); lia.
  - apply group_suffix in Hwk as (_ & _ & Hpub). unfold owed. cbn [wk_calls wk_at].
    assert (∀ c, sum_by (outcome_count c) (outcomes ++ [mk_outcome (pub_channel pub) status])
                 = sum_by (outcome_count c) outcomes + outcome_count c (mk_outcome (pub_channel pub) status))
      as Hsum by (intros c; rewrite sum_by_app; cbn; lia).
    destruct Hpub as [-> | ->].
    + cbn [pub_publish mqtt_publisher] in Hp. destruct (w_mqtt_envs w) as [| env envs]; [done |].
      pose proof (rp_publish_counts (w_mqtt w) (w_cache w) env topic payload (mk_message topic payload)) as Hc.
      pose proof (rp_publish_only (w_mqtt w) (w_cache w) env topic payload) as Ho.
      destruct (rp_publish true _ _ env _ _) as [[[r [m1 c1]] at1] us]. injection Hp as <- <-.
      exists us. split; [done |]. split; [done |]. intros c. rewrite Hsum, Hc. cbn. rewrite decide_True by done. lia.
    + apply tcp_publisher_effect in Hp as (ok & line & -> & _ & _ & _ & _ & Hu & _).
      exists []. split; [by rewrite Hu, app_nil_r |]. split; [apply Forall_nil_2 |].
      intros c. rewrite Hsum. cbn. rewrite decide_False by done. lia.
  - exists []. split; [by rewrite app_nil_r |]. split; [apply Forall_nil_2 |]. intros c. settle.
  - destruct (note_outcome_counts w o) as (us & Hu & Ho & Hc). exists us. split; [exact Hu |].
    split; [exact Ho |]. intros c. rewrite Hc. settle.
  - exists []. split; [by rewrite app_nil_r |]. split; [apply Forall_nil_2 |]. intros c. settle.
  - apply Forall_cons in Hs as [[H1 H2] _]. exists (error_updates p stats). split; [done |].
    split; [apply error_updates_only |]. intros c. rewrite (error_updates_count _ code error) by done. settle.
  - exists []. split; [by rewrite app_nil_r |]. split; [apply Forall_nil_2 |]. intros c.
    destruct a; try done; unfold owed; cbn [wk_calls]; rewrite sum_by_cons; cbn [call_count]; settle.
Qed.

(** ** A run *)

(** The metrics and the channels after the events, with the workers as they are. *)
Record accounts (calls : list (list action)) w0 (evs : list System.event)
    (s : gateway_system M E C AEnv LEnv) : Prop := mk_accounts {
  ac_workers : Forall (λ wk, worker_ok gateway_config wk ∧ Forall stats_ok (wk_calls wk)) (sy_workers s);
  ac_sends : ∃ lines, w_sends (sy_world s) = w_sends w0 ++ lines ∧ Forall2 sent_as (evs ≫= event_sends) lines;
  ac_updates : ∃ us, w_updates (sy_world s) = w_updates w0 ++ us ∧ Forall only_depth us ∧
    ∀ c, total_added c us + sum_by (owed c) (sy_workers s)
         = sum_by (sum_by (call_count c)) calls + sum_by (event_count c) evs;
}.

Lemma accounts_step calls w0 evs s evs' s' :
  accounts calls w0 evs s → gateway_step gateway_config s evs' s' →
  accounts calls w0 (evs ++ evs') s'.
Proof.
  intros [Hw (ls & Hs & Hls) (us & Hu & Ho & Hc)] Hstep.
  destruct Hstep as [ws w i wk pubs wk' w' Hi Hstep | ws w env attempts w' _ Hf]; cbn [sy_workers sy_world] in *.
  - destruct (Forall_lookup_1 _ _ _ _ Hw Hi) as [Hwk Hst].
    destruct (call_step_counts _ _ _ _ _ i Hwk Hst Hstep) as (Hst' & us' & Hu' & Ho' & Hc').
    destruct (call_step_sends _ _ _ _ _ i Hwk Hstep) as (ls' & Hs' & Hls').
    destruct (call_step_messages _ _ _ _ _ _ Hwk Hstep) as [Hwk' _]. split; cbn [sy_workers sy_world].
    + by apply Forall_insert.
    + exists (ls ++ ls'). split; [by rewrite Hs', Hs, app_assoc |]. rewrite bind_app. by apply Forall2_app.
    + exists (us ++ us'). split; [by rewrite Hu', Hu, app_assoc |]. split; [by apply Forall_app_2 |].
      intros c. rewrite total_added_app, sum_by_app. pose proof (sum_by_insert (owed c) _ _ _ wk' Hi).
      specialize (Hc c). specialize (Hc' c). lia.
  - unfold flush_world in Hf. pose proof (flush_counts (w_mqtt w) (w_cache w) env) as Hn.
    destruct (rp_flush_cache true (w_mqtt w) (w_cache w) env) as [[[k [m1 c1]] at1] us'].
    destruct Hn as [Ho' Hn]. injection Hf as <- <-. split; cbn [sy_workers sy_world w_sends w_updates].
    + done.
    + exists ls. split; [done |]. by rewrite bind_app, app_nil_r.
    + exists (us ++ us'). split; [by rewrite Hu, app_assoc |]. split; [by apply Forall_app_2 |].
      intros c. rewrite total_added_app, sum_by_app, Hn, sum_by_cons, sum_by_nil. cbn [event_count].
      specialize (Hc c). lia.
Qed.

Lemma runs_accounts calls w0 evs s :
  Forall (Forall stats_ok) calls → gateway_runs gateway_config (system_of calls w0) evs s →
  accounts calls w0 evs s.
Proof.
  intros Hst Hr. induction Hr as [| evs s1 evs' s2 _ IH Hstep]; [| by eapply accounts_step].
  split; cbn [system_of sy_workers sy_world].
  - apply Forall_fmap. eapply Forall_impl; [exact Hst |]. by intros acts.
  - exists []. split; [by rewrite app_nil_r | constructor].
  - exists []. split; [by rewrite app_nil_r |]. split; [apply Forall_nil_2 |]. intros c.
    rewrite sum_by_nil. cbn [total_added foldr]. induction calls as [| acts calls IH]; [done |].
    apply Forall_cons in Hst as [_ Hst]. specialize (IH Hst). cbn [fmap list_fmap].
    rewrite !sum_by_cons, owed_start. lia.
Qed.

(** The sends of the events, one for each publication on the channel. *)
Lemma event_sends_published evs :
  (evs ≫= event_sends)
  = (λ p, (msg_payload (pb_message p), bool_decide (pb_status p = Published)))
      <$> filter (λ p, pb_channel p = "tcp") (published evs).
Proof.
  induction evs as [| e evs IH]; [done |]. cbn [mbind list_bind]. rewrite IH.
  change (e :: evs) with ([e] ++ evs). rewrite published_app, filter_app, fmap_app. f_equal.
  destruct e as [i p | a]; [| done]. cbn. by case_decide.
Qed.

Lemma json_line_bytes json : json_line json = bytes_of json ++ [10].
Proof. unfold json_line. by rewrite bytes_of_app. Qed.

Lemma sends_published evs lines :
  Forall2 sent_as (evs ≫= event_sends) lines →
  Forall2 (λ (p : publication) (line : list Z * bool),
             let whole := bytes_of (msg_payload (pb_message p)) ++ [10] in
             snd line = bool_decide (pb_status p = Published) ∧
             if bool_decide (pb_status p = Published) then fst line = whole
             else ∃ k, fst line = take k whole ∧ (k < length whole)%nat)
          (filter (λ p, pb_channel p = "tcp") (published evs)) lines.
Proof.
  rewrite event_sends_published, Forall2_fmap_l. intros Hl. eapply Forall2_impl; [exact Hl |]. intros p line.
  unfold sent_as, compose. cbn [fst snd]. by rewrite json_line_bytes.
Qed.

(** Nothing is owed when the workers are done. *)
Lemma owed_done c ws : Forall (λ wk, wk = mk_worker [] Between) ws → sum_by (owed c) ws = 0.
Proof. induction 1 as [| wk ws -> _ IH]; [done |]. by rewrite sum_by_cons, IH. Qed.
End facts.

(** ** Properties *)

(** C27: The metrics add up, whatever the interleaving of the workers and of the flushes of
    the main thread. At any moment, what has been added to each counter, with what the
    workers have still to count, is exactly what the handler calls, the publications and
    the flushes stand for; so when the workers are done, the counter shows its initial
    value plus that sum, modulo 2^64, and no update of another thread is lost. And the
    sends on TCP are, in order, the publications on that channel: for each one that was
    reported as published the bytes put on the connection are its payload and a line
    feed, and for each other one a proper beginning of them. *)
Theorem system_metrics `{MqttPublish M E} `{CacheLaws C AEnv LEnv REnv}
    cfg calls (w0 : world M C E AEnv LEnv) evs s :
  Forall (Forall stats_ok) calls → gateway_runs cfg (system_of calls w0) evs s →
  (∃ lines, w_sends (sy_world s) = w_sends w0 ++ lines ∧
     Forall2 (λ (p : publication) (line : list Z * bool),
                let whole := bytes_of (msg_payload (pb_message p)) ++ [10] in
                snd line = bool_decide (pb_status p = Published) ∧
                if bool_decide (pb_status p = Published) then fst line = whole
                else ∃ k, fst line = take k whole ∧ (k < length whole)%nat)
             (filter (λ p, pb_channel p = "tcp") (published evs)) lines) ∧
  ∃ us, w_updates (sy_world s) = w_updates w0 ++ us ∧
    (∀ c, total_added c us + sum_by (owed c) (sy_workers s)
          = sum_by (sum_by (call_count c)) calls + sum_by (event_count c) evs) ∧
    ∀ metrics c, metrics_wf metrics → c ≠ CacheDepth →
      Forall (λ wk, wk = mk_worker [] Between) (sy_workers s) →
      value (foldl apply_update metrics us) c
      = u64 (value metrics c + sum_by (sum_by (call_count c)) calls + sum_by (event_count c) evs).
Proof.
  intros Hst Hr. destruct (runs_accounts cfg calls w0 evs s Hst Hr) as [_ Hs (us & Hu & Ho & Hc)].
  split; [destruct Hs as (ls & Hs & Hl); exists ls; split; [exact Hs | by apply sends_published] |].
  exists us. split; [exact Hu |]. split; [exact Hc |].
  intros metrics c Hm Hne Hdone. specialize (Hc c). rewrite owed_done, Z.add_0_r in Hc by done.
  rewrite updates_value, Hc, Z.add_assoc; [done | done |].
  eapply Forall_impl; [exact Ho |]. intros [c' n | c' v]; cbn; naive_solver.
Qed.

#[local] Existing Instance flaky_broker.

(** A run of one worker with both channels, its TCP line taken by the kernel in two pieces,
    and the run of two workers and a flush of System, in which three publications are
    acknowledged, one of them by the flush, and two fail, one of them in the flush. *)
Definition both_channels : GatewayConfig := set_gc_tcp (set_tc_enabled true default_tcp) default_gateway.

Definition tcp_world : world unit FileCache bool append_env bool :=
  mk_world tt sample_cache (-1) os_init [] [] [] [] [mk_publish_env true file_ok true]
    [mk_tcp_env (Some [mk_candidate 6 false; mk_candidate 7 true]) [Wrote 3; WriteFailed EINTR; Wrote 1000]].

Lemma system_metrics_witness :
  (∃ evs s line,
     run_schedule both_channels (replicate 7 (inl 0%nat)) (system_of [[DataCall reading_a Uart]] tcp_world)
     = Some (evs, s) ∧
     w_sends (sy_world s) = [line] ∧
     fst line = bytes_of (sensor_data_to_json reading_a) ++ [10]) ∧
  ∃ evs s us, run_schedule only_mqtt sample_schedule (system_of two_workers busy_world) = Some (evs, s) ∧
    w_updates (sy_world s) = us ∧
    ∀ metrics, metrics_wf metrics →
      value (foldl apply_update metrics us) FramesParsed = u64 (value metrics FramesParsed + 2) ∧
      value (foldl apply_update metrics us) MqttPublishFailed = u64 (value metrics MqttPublishFailed + 2) ∧
      value (foldl apply_update metrics us) CacheFlushAttempt = u64 (value metrics CacheFlushAttempt + 1).
Proof.
  split.
  { destruct (run_schedule both_channels (replicate 7 (inl 0%nat)) (system_of [[DataCall reading_a Uart]] tcp_world))
      as [[evs s] |] eqn:Hs; [| vm_compute in Hs; discriminate Hs].
    assert (gateway_runs both_channels (system_of [[DataCall reading_a Uart]] tcp_world) ([] ++ evs) s) as Hr.
    { eapply run_schedule_runs; [| apply runs_nil | exact Hs].
      repeat (apply Forall_cons_2; [exact I |]). apply Forall_nil_2. }
    assert (option_map (λ r, filter (λ p, pb_channel p = "tcp") (published (fst r))) (Some (evs, s))
            = Some [mk_publication "tcp" (mk_message (build_mqtt_topic "sensor" reading_a)
                                            (sensor_data_to_json reading_a)) Published]) as Hp
      by (rewrite <-Hs; vm_compute; reflexivity).
    injection Hp as Hp.
    destruct (system_metrics both_channels [[DataCall reading_a Uart]] tcp_world evs s) as ((lines & Hw & Hl) & _).
    - apply Forall_cons_2; [apply Forall_cons_2; [exact I | apply Forall_nil_2] | apply Forall_nil_2].
    - exact Hr.
    - rewrite Hp in Hl. apply Forall2_cons_inv_l in Hl as (line & rest & [_ Hline] & Hrest & ->).
      apply Forall2_nil_inv_l in Hrest as ->. exists evs, s, line. split; [reflexivity |].
      split; [exact Hw | exact Hline]. }
  destruct (run_schedule only_mqtt sample_schedule (system_of two_workers busy_world))
    as [[evs s] |] eqn:Hs; [| vm_compute in Hs; discriminate Hs].
  assert (gateway_runs only_mqtt (system_of two_workers busy_world) ([] ++ evs) s) as Hr.
  { eapply run_schedule_runs; [| apply runs_nil | exact Hs].
    repeat (apply Forall_cons_2; [exact I || reflexivity |]). apply Forall_nil_2. }
  assert (option_map (λ r, (sy_workers (snd r),
            (λ c, sum_by (event_count c) (fst r)) <$> [FramesParsed; MqttPublishFailed; CacheFlushAttempt]))
            (Some (evs, s))
          = Some ([mk_worker [] Between; mk_worker [] Between], [0; 2; 1])) as Hw
    by (rewrite <-Hs; vm_compute; reflexivity).
  injection Hw as Hw He1 He2 He3.
  destruct (system_metrics only_mqtt two_workers busy_world evs s) as (_ & us & Hu & _ & Hv).
  - repeat (apply Forall_cons_2; [apply Forall_cons_2; [exact I | apply Forall_nil_2] |]). apply Forall_nil_2.
  - exact Hr.
  - exists evs, s, us. split; [reflexivity |]. split; [exact Hu |]. intros metrics Hm.
    assert (Forall (λ wk, wk = mk_worker [] Between) (sy_workers s)) as Hdone
      by (rewrite Hw; repeat (apply Forall_cons_2; [reflexivity |]); apply Forall_nil_2).
    split_and!; (rewrite Hv by done; rewrite ?He1, ?He2, ?He3; f_equal; cbn; lia).
Defined.
