(* ===== verification/DevicePipeline.v ===== *)
(** * From a CAN bus and from a Modbus slave to the broker

    The workers of CAN and Modbus devices ([src/device/device_manager.cpp] over
    [src/device/can_device.cpp] and [src/device/modbus_device.cpp]), the handlers of
    [src/main.cpp] and the publishers, among any other workers: the counterparts of
    Pipeline for the devices without a queue, which hand on each reading in the read
    that takes it. *)

From stdpp Require Import gmap.
From S2P Require Import Prelude Crc16 SensorData DeviceData Modbus Posix SerialPort Can DeviceInterface ModbusDevice CanDevice DeviceManager MessageCache FileCache ReliablePublisher TcpClient ConfigData Publisher Gateway MainThread System Json Pipeline.

Local Open Scope Z_scope.

(** ** What a worker takes *)

Section input.
Context `{DeviceInterface D SEnv REnv} {X : Type}.
(** What one read takes, given the device and the answers to it. *)
Context (taken : D → REnv → list X).

(** What a run of [run_device] takes. *)
Fixpoint worker_input (turns : list (loop_turn SEnv REnv)) (started : bool) (d : D) (o : os) : list X :=
  match turns with
  | [] => []
  | t :: rest =>
      if negb (lt_running t) then []
      else
        let '(ready, d1, o1, _) := ensure_started true started d o (lt_start t) in
        if negb ready then worker_input rest false d1 o1
        else
          match read_and_report true true d1 o1 (lt_read t) with
          | Ret (open, d2, o2, _) => taken d1 (lt_read t) ++ worker_input rest open d2 o2
          | _ => []
          end
  end.

(** Each read of a good device hands on the readings of what it takes, and the device
    stays good. *)
Record hands_on (good : D → Prop) (input_ok : X → Prop) (readings : X → option SensorData) : Prop := mk_hands_on {
  ho_start d o env : good d → good (start d o env).1.1.2;
  ho_stop d o : good d → good (stop d o).1;
  ho_read d o env res d' o' :
    good d → Forall input_ok (taken d env) → read d o env = Ret (res, d', o') →
    good d' ∧ (rr_code res = Data ↔ is_Some (rr_data res)) ∧
    option_list (rr_data res) = omap readings (taken d env);
}.

Lemma worker_hands_on good input_ok readings turns started d o trace d' o' trace' :
  hands_on good input_ok readings → good d →
  Forall input_ok (worker_input turns started d o) →
  run_device_loop true true turns started d o trace = Ret (d', o', trace') →
  ∃ acts, trace' = trace ++ acts ∧
          omap data_call acts = omap readings (worker_input turns started d o).
Proof.
  intros [Hstart Hstop Hread]. revert started d o trace.
  induction turns as [| t turns IH]; intros started d o trace Hg Hin Hr; [discriminate Hr |].
  cbn [run_device_loop worker_input] in *. destruct (negb (lt_running t)).
  { destruct (stop d o) as [d1 o1]. injection Hr as <- <- <-. by exists [StopCall]. }
  destruct (ensure_started true started d o (lt_start t)) as [[[ready d1] o1] a1] eqn:He.
  assert (good d1 ∧ omap data_call a1 = []) as [Hg1 Ha1].
  { unfold ensure_started in He. destruct started; [by injection He as <- <- <- <- |].
    specialize (Hstart d o (lt_start t) Hg).
    destruct (start d o (lt_start t)) as [[[[] ?] ?] em]; by injection He as <- <- <- <-. }
  destruct ready; cbn [negb] in *.
  - destruct (read_and_report true true d1 o1 (lt_read t)) as [[[[open d2] o2] a2] | |] eqn:Hrd;
      try discriminate Hr. cbn [mbind exec_bind] in Hr. apply Forall_app in Hin as [Hin1 Hin].
    assert (good d2 ∧ omap data_call a2 = omap readings (taken d1 (lt_read t))) as [Hg2 Ha2].
    { unfold read_and_report in Hrd. destruct (read d1 o1 (lt_read t)) as [[[res d3] o3] | |] eqn:Hrun;
        try discriminate Hrd. cbn [mbind exec_bind] in Hrd.
      destruct (Hread _ _ _ _ _ _ Hg1 Hin1 Hrun) as (Hg3 & Hd & <-).
      destruct (handle_result_quiet (ds_protocol (get_device_status d3)) res Hd) as (_ & _ & _ & _ & <-).
      specialize (Hstop d3 o3 Hg3).
      case_bool_decide; [destruct (stop d3 o3) |]; injection Hrd as <- <- <- <-; [| done].
      split; [done |]. rewrite app_comm_cons, omap_app. apply app_nil_r. }
    destruct (IH _ _ _ _ Hg2 Hin Hr) as (a3 & -> & Ha3). exists (a1 ++ a2 ++ a3).
    split; [by rewrite !app_assoc |]. by rewrite !omap_app, Ha1, Ha2, Ha3.
  - destruct (IH _ _ _ _ Hg1 Hin Hr) as (a2 & -> & Ha2). exists (a1 ++ a2). split; [by rewrite app_assoc |].
    by rewrite omap_app, Ha1, Ha2.
Qed.
End input.

(** The reading of a measurement as the devices hand it on, with its warnings. *)
Definition checked_reading (m : measurement) : SensorData :=
  append_warnings (measured m) (measurement_warnings m).

Lemma checked_reading_valid m : valid (checked_reading m) = normal m.
Proof.
  unfold checked_reading, append_warnings, normal, measured, reading. cbn. by destruct (measurement_warnings m).
Qed.

Lemma checked_reading_normal m : normal m = true → checked_reading m = measured m.
Proof.
  unfold checked_reading, normal. destruct (measurement_warnings m); [| done]. intros _. apply append_warnings_nil.
Qed.

(** Only those without a warning are valid. *)
Lemma valid_readings {X} (measure : X → option measurement) (l : list X) :
  filter (λ data, valid data = true) (omap (λ x, checked_reading <$> measure x) l)
  = measured <$> filter (λ m, normal m = true) (omap measure l).
Proof.
  induction l as [| x l IH]; [done |]. cbn [omap list_omap].
  destruct (measure x) as [m |]; cbn [fmap option_fmap option_map]; [| exact IH].
  rewrite !filter_cons, checked_reading_valid. case_decide as Hn; [| exact IH].
  cbn [fmap list_fmap]. rewrite checked_reading_normal by done. f_equal. exact IH.
Qed.

(** The measurements of a worker that is done. *)
Lemma worker_reached `{DeviceInterface D SEnv RdEnv} `{MqttPublish M E} `{CacheLaws C AEnv LEnv REnv}
    {X} (taken : D → RdEnv → list X) good input_ok (measure : X → option measurement)
    cfg turns (d : D) o d' o' trace calls (w0 : world M C E AEnv LEnv) evs s i :
  hands_on taken good input_ok (λ x, checked_reading <$> measure x) →
  (∀ x m, input_ok x → measure x = Some m → measurement_ok m) →
  good d → run_device true true turns d o = Ret (d', o', trace) →
  Forall input_ok (worker_input taken turns false d o) →
  calls !! i = Some trace →
  cache_ok (w_cache w0) → Forall (λ env, append_benign (pe_append env)) (w_mqtt_envs w0) →
  Forall (λ acts, Forall storable (messages cfg acts)) calls →
  gateway_runs cfg (system_of calls w0) evs s →
  sy_workers s !! i = Some (mk_worker [] Between) →
  reached cfg s evs i
    (filter (λ m, normal m = true) (omap measure (worker_input taken turns false d o))).
Proof.
  intros Hh Hm Hg Hrun Hin Hi Hok Hb Hst Hr Hdone. unfold run_device in Hrun.
  destruct (worker_hands_on taken good input_ok _ _ _ _ _ _ _ _ _ Hh Hg Hin Hrun) as (acts & -> & Ha).
  cbn [app] in *. eapply measurements_reached; try done.
  - by rewrite messages_filter, Ha, valid_readings, <-list_fmap_compose.
  - apply Forall_forall. intros m [_ (x & Hx & Hmx)%list_elem_of_omap]%list_elem_of_filter.
    rewrite Forall_forall in Hin. exact (Hm x m (Hin x Hx) Hmx).
Qed.

(** ** The frames on the bus *)

(** The frame a read takes. *)
Definition frame_taken (d : CanDevice) (env : can_env) : list raw_can_frame :=
  match poll_loop (ce_polls env), ce_received env with
  | Ret (PollReady false), RecvFrame raw => [raw]
  | _, _ => []
  end.

(** Data, with an 11-bit identifier, eight bytes long. *)
Definition sensor_frame (raw : raw_can_frame) : bool :=
  (Z.land (raw_can_id raw) (Z.lor CAN_RTR_FLAG CAN_ERR_FLAG) =? 0)
  && (Z.land (raw_can_id raw) CAN_EFF_FLAG =? 0) && (raw_can_dlc raw =? 8).

(** The measurement of such a frame, by the words of its bytes. *)
Definition bus_measurement (raw : raw_can_frame) : option measurement :=
  if sensor_frame raw then
    match raw_can_data raw with
    | [a; b; c; d; e; f; bat; st] =>
        Some (mk_measurement (raw_can_id raw mod 256) 1 (i16 (b + 256 * a)) (d + 256 * c) (f + 256 * e)
                (100 * bat) st 0)
    | _ => None
    end
  else None.

(** What the kernel delivers: frames of eight bytes. *)
Definition bus_frame (raw : raw_can_frame) : Prop :=
  bytes (raw_can_data raw) ∧ length (raw_can_data raw) = 8%nat.

Lemma bus_measurement_payload raw t h gas bat st :
  raw_can_data raw = can_payload t h gas bat st →
  is_i16 t → is_u16 h → is_u16 gas →
  bus_measurement raw =
    if sensor_frame raw then Some (mk_measurement (raw_can_id raw mod 256) 1 t h gas (100 * bat) st 0) else None.
Proof.
  intros Hp Ht Hh Hg. unfold bus_measurement. rewrite Hp. cbn [can_payload].
  rewrite !join_lo_hi by auto with width. by rewrite i16_u16.
Qed.

Lemma bus_measurement_ok raw m :
  bus_frame raw → bus_measurement raw = Some m → measurement_ok m.
Proof.
  intros [Hb Hl] Hm. destruct (can_payload_surj _ Hb Hl) as (t & h & gas & bat & st & Hp & Ht & Hh & Hg & Hbat & Hst).
  rewrite (bus_measurement_payload raw t h gas bat st) in Hm by done. destruct (sensor_frame raw); [| done].
  injection Hm as <-. pose proof (Z.mod_pos_bound (raw_can_id raw) 256).
  split; cbn; try done; unfold is_u8, is_u16 in *; lia.
Qed.

Lemma can_hands_on :
  hands_on frame_taken (λ _, True) bus_frame (λ raw, checked_reading <$> bus_measurement raw).
Proof.
  split; [done | done |]. intros d o env res d' o' _ Hin Hr.
  change (can_read d o env = Ret (res, d', o')) in Hr. split; [done |]. split.
  { pose proof (can_read_cases _ _ _ _ Hr) as Hc. remember (res, d', o') as r eqn:Heq.
    destruct Hc; injection Heq as <- _ _; cbn; (split; [done | by intros []]) || by split. }
  destruct env as [polls received now]. unfold frame_taken in *. cbn [ce_polls ce_received] in *.
  destruct (poll_loop polls) as [p | |] eqn:Hp; [| by unfold can_read, read_frame in Hr; cbn in Hr; rewrite Hp in Hr ..].
  destruct p as [| [] | | message], received as [raw | | message'];
    try (unfold can_read, read_frame in Hr; cbn [ce_polls ce_received] in Hr; rewrite Hp in Hr;
         cbn [mbind exec_bind Z.eqb Z.ltb Z.compare] in Hr;
         try destruct (can_stop (can_record_error d) o); by injection Hr as <- _ _).
  apply Forall_cons in Hin as [[Hb Hl] _].
  pose proof (can_read_frame d o polls raw now Hp Hb Hl) as Hf. cbv zeta in Hf. rewrite Hr in Hf.
  cbn [omap list_omap]. case_decide as Hs.
  - destruct Hf as (t & h & gas & bat & st & Hpl & (Ht & Hh & Hg & _) & [= -> _ _]).
    rewrite (bus_measurement_payload raw t h gas bat st) by done.
    destruct Hs as (H1 & H2 & H3). unfold sensor_frame. rewrite H1, H2, H3. reflexivity.
  - destruct Hf as (error & _ & [= -> _ _]). unfold bus_measurement.
    destruct (sensor_frame raw) eqn:Hsf; [| done]. exfalso. apply Hs.
    unfold sensor_frame in Hsf. rewrite !andb_true_iff, !Z.eqb_eq in Hsf. tauto.
Qed.

(** ** The answers of a Modbus slave *)

(** The answer a read collects, if a poll is due and the request is sent. *)
Definition answer_taken (d : ModbusDevice) (env : modbus_env) : list (list Z) :=
  if me_now env <? mb_next_poll d then []
  else
    let '(ok, error) := discard_input (mb_port d) (me_flush env) "" in
    if negb ok then []
    else
      match write_all (build_read_request (mo_request (mb_options d))) error (me_writes env) with
      | Ret (true, error, _) =>
          match response_loop (deadline_of d env) [] 5 error (me_turns env) with
          | Ret (Some answer, _) => [answer]
          | _ => []
          end
      | _ => []
      end.

(** 16-bit words, high byte first. *)
Fixpoint words (l : list Z) : list Z :=
  match l with
  | hi :: lo :: rest => (lo + 256 * hi) :: words rest
  | _ => []
  end.

(** The measurement of an answer: the first six of its registers, if it is the answer of
    the slave with the registers asked for and the right checksum. *)
Definition answer_measurement (req : ReadRequest) (answer : list Z) : option measurement :=
  let count := Z.to_nat (register_count req) in
  let regs := words (take (2 * count) (drop 3 answer)) in
  if decide (length regs = count ∧ answer = with_crc (reply_body req regs)) then
    match regs with
    | t :: h :: gas :: mv :: st :: sq :: _ =>
        Some (mk_measurement (slave_id req) 1 (i16 t) h gas mv (st mod 256) sq)
    | _ => None
    end
  else None.

Lemma words_be regs : Forall is_u16 regs → words (be_words regs) = regs.
Proof.
  induction 1 as [| r regs Hr _ IH]; [done |]. cbn [be_words words].
  by rewrite IH, join_lo_hi.
Qed.

Lemma words_u16 l : bytes l → Forall is_u16 (words l).
Proof.
  intros Hb. remember (length l) as n eqn:Hn. revert l Hn Hb.
  induction (lt_wf n) as [n _ IH]. intros l Hn Hb.
  destruct l as [| hi [| lo l]]; [apply Forall_nil_2 .. |]. cbn [words].
  apply Forall_cons in Hb as [Hhi (Hlo & Hb)%Forall_cons].
  apply Forall_cons_2; [unfold is_u8, is_u16 in *; lia |]. apply (IH (length l)); [cbn in Hn; lia | done | done].
Qed.

Lemma answer_words req regs :
  Forall is_u16 regs →
  words (take (2 * length regs) (drop 3 (with_crc (reply_body req regs)))) = regs.
Proof.
  intros Hr.
  change (drop 3 (with_crc (reply_body req regs))) with (be_words regs ++ crc_trailer (reply_body req regs)).
  rewrite <-length_be_words, take_app_length. by apply words_be.
Qed.

Lemma answer_measurement_reply req regs :
  Forall is_u16 regs → length regs = Z.to_nat (register_count req) →
  answer_measurement req (with_crc (reply_body req regs)) =
    match regs with
    | t :: h :: gas :: mv :: st :: sq :: _ =>
        Some (mk_measurement (slave_id req) 1 (i16 t) h gas mv (st mod 256) sq)
    | _ => None
    end.
Proof.
  intros Hr Hl. unfold answer_measurement. rewrite <-Hl, answer_words by done. by rewrite decide_True.
Qed.

Lemma answer_measurement_some req answer m :
  bytes answer → answer_measurement req answer = Some m →
  ∃ regs, Forall is_u16 regs ∧ length regs = Z.to_nat (register_count req) ∧
          answer = with_crc (reply_body req regs).
Proof.
  intros Hb Hm. unfold answer_measurement in Hm.
  case_decide as Hd; [| done]. destruct Hd as [Hl Ha]. eexists. split; [| by split].
  apply words_u16, Forall_take, Forall_drop, Hb.
Qed.

Lemma answer_measurement_ok req answer m :
  is_u8 (slave_id req) → bytes answer → answer_measurement req answer = Some m → measurement_ok m.
Proof.
  intros Hs Hb Hm. destruct (answer_measurement_some req answer m Hb Hm) as (regs & Hr & Hl & ->).
  rewrite answer_measurement_reply in Hm by done.
  destruct regs as [| t [| h [| gas [| mv [| st [| sq regs]]]]]]; try done. injection Hm as <-.
  rewrite !Forall_cons in Hr. destruct Hr as (? & ? & ? & ? & ? & ? & _).
  pose proof (Z.mod_pos_bound st 256).
  split; cbn; first [done | apply i16_range | unfold is_u8; lia].
Qed.

(** A Modbus device that sends the request. *)
Definition asks (req : ReadRequest) (d : ModbusDevice) : Prop :=
  mb_wf d ∧ mo_request (mb_options d) = req.

Lemma mb_decode_hands_on req d o answer now res d' o' :
  asks req d → bytes answer → mb_decode d o answer now = Ret (res, d', o') →
  asks req d' ∧ (rr_code res = Data ↔ is_Some (rr_data res)) ∧
  option_list (rr_data res) = option_list (checked_reading <$> answer_measurement req answer).
Proof.
  intros [[Hwf Hp Hc] Hq] Hb Hr.
  assert (∀ s, ds_protocol s = ModbusRtu → 0 <= ds_error_count s < 2 ^ 64 → asks req (mb_set_status s d)) as Hset.
  { intros s H1 H2. by split; [split |]. }
  assert (asks req (mb_record_error d)) as Herr by (apply Hset; [exact Hp | apply u64_range]).
  destruct (answer_measurement req answer) as [m |] eqn:Hm.
  - destruct (answer_measurement_some req answer m Hb Hm) as (regs & Hregs & Hl & Ha).
    unfold mb_decode in Hr. destruct answer as [| b answer]; [discriminate Ha |]. rewrite Hq in Hr, Hwf.
    rewrite Ha, answer_measurement_reply in Hm by done.
    rewrite Ha, parse_reply in Hr by done. cbn [mbind exec_bind] in Hr.
    rewrite bool_decide_eq_true_2 in Hr by done. cbn [negb] in Hr.
    destruct regs as [| t [| h [| gas [| mv [| st [| sq regs]]]]]]; try discriminate Hm. injection Hm as <-.
    unfold registers_to_device_data in Hr. rewrite bool_decide_eq_true_2 in Hr by done.
    cbn [negb ok_response registers length Nat.ltb Nat.leb nth] in Hr.
    rewrite (u8_small (slave_id req)) in Hr by apply Hwf. rewrite !Forall_cons in Hregs.
    rewrite to_sensor_data_reading in Hr by (apply i16_range || tauto). injection Hr as <- <- <-.
    split; [by apply Hset |]. split; [by split |]. reflexivity.
  - assert (∀ e : string, mb_decode d o answer now = Ret (res, d', o') →
      rr_data res = None ∧ rr_code res ≠ Data ∧ asks req d') as Hnone.
    { intros _ Hd. unfold mb_decode in Hd. destruct answer as [| b answer].
      { injection Hd as <- <- <-. split_and!; [done | done |]. by apply Hset; [| apply u64_range]. }
      rewrite Hq in Hd, Hwf. pose proof (parse_total req (b :: answer) Hwf Hb) as Ht.
      destruct Ht as [s e Hs1 Hs2 He | code Hcode Ha | regs Hregs Hl Ha]; cbn [mbind exec_bind] in Hd.
      - rewrite bool_decide_eq_false_2 in Hd by done. by injection Hd as <- <- <-.
      - rewrite bool_decide_eq_false_2 in Hd by done. by injection Hd as <- <- <-.
      - rewrite bool_decide_eq_true_2 in Hd by done. cbn [negb] in Hd.
        rewrite Ha, answer_measurement_reply in Hm by done.
        destruct regs as [| t [| h [| gas [| mv [| st [| sq regs]]]]]]; try discriminate Hm;
          by injection Hd as <- <- <-. }
    destruct (Hnone "" Hr) as (-> & Hne & Hg). split; [exact Hg |].
    split; [by split; [| intros []] | done].
Qed.

Lemma mb_fail_hands_on req d o error :
  asks req d →
  asks req (mb_fail d o error).1.2 ∧ rr_code (mb_fail d o error).1.1 = TransportError ∧
  rr_data (mb_fail d o error).1.1 = None.
Proof.
  intros [[Hwf Hp Hc] Hq]. unfold mb_fail, mb_stop. destruct (close_port _ o) as [p o1].
  split; [| done]. by split; [split; [| | apply u64_range] |].
Qed.

Lemma modbus_hands_on `{TerminalLibrary} req :
  hands_on answer_taken (asks req) bytes (λ answer, checked_reading <$> answer_measurement req answer).
Proof.
  split.
  - intros d o env [[Hwf Hp Hc] Hq]. cbn [start modbus_interface]. unfold mb_start.
    destruct (open_port _ _ _ _) as [[[[ok p] o1] em] t].
    destruct ok; cbn [negb]; (split; [split |]); try done. apply u64_range.
  - intros d o [[Hwf Hp Hc] Hq]. cbn [stop modbus_interface]. unfold mb_stop.
    destruct (close_port _ o) as [p o1]. by split; [split |].
  - intros d o env res d' o' Hg Hin Hr. change (mb_read d o env = Ret (res, d', o')) in Hr.
    unfold mb_read, mb_read_line in Hr. unfold answer_taken, deadline_of in *.
    destruct (me_now env <? mb_next_poll d).
    { injection Hr as <- <- <-. split; [done |]. by split; [split; [| intros []] |]. }
    set (d1 := mb_set_next_poll _ d) in Hr. assert (asks req d1) as Hg1 by (by destruct Hg as [[] ?]).
    change (mb_port d1) with (mb_port d) in Hr. change (mb_options d1) with (mb_options d) in Hr.
    assert (∀ e, Ret (mb_fail d1 o e) = Ret (res, d', o') →
      asks req d' ∧ (rr_code res = Data ↔ is_Some (rr_data res)) ∧ rr_data res = None) as Hfail.
    { intros e Hf. pose proof (mb_fail_hands_on req d1 o e Hg1) as (H1 & H2 & H3). destruct (mb_fail d1 o e) as [[r1 d2] o2]. injection Hf as -> -> ->.
      cbn in *. rewrite H2, H3. split; [done |]. by split; [split; [| intros []] |]. }
    destruct (discard_input _ _ _) as [[] e]; cbn [negb mbind exec_bind fst] in *;
      [| destruct (Hfail _ Hr) as (H1 & H2 & H3); by (split; [| split; [| rewrite H3]])].
    destruct (write_all _ _ _) as [[[[] e1] line1] | |]; cbn [mbind exec_bind negb fst] in *; try discriminate Hr;
      [| destruct (Hfail _ Hr) as (H1 & H2 & H3); by (split; [| split; [| rewrite H3]])].
    destruct (response_loop _ _ _ _ _) as [[[answer |] e2] | |]; cbn [mbind exec_bind fst] in *; try discriminate Hr;
      [| destruct (Hfail _ Hr) as (H1 & H2 & H3); by (split; [| split; [| rewrite H3]])].
    destruct (mb_decode d1 o answer (me_unix env)) as [r1 | |] eqn:Hd; try discriminate Hr.
    cbn [mbind exec_bind fst] in Hr. injection Hr as ->. apply Forall_cons in Hin as [Hb _].
    destruct (mb_decode_hands_on req _ _ _ _ _ _ _ Hg1 Hb Hd) as (H1 & H2 & H3). split; [done |].
    split; [done |]. rewrite H3. cbn [omap list_omap]. by destruct (checked_reading <$> _).
Qed.

(** ** Properties *)

(** C12: From the CAN bus to the broker. A worker reads a CAN interface, over any number of
    transport errors and restarts; its handler calls are interleaved with those of any
    other workers and with flushes of the cache. When it is done, the measurements of the
    standard data frames of eight bytes it has taken from the bus, if they have no
    warning, have become one message each, in the order of the frames, on every enabled
    channel, and all other frames none; the payload is a JSON text that reads back as
    the numbers in the frame; and the message has been acknowledged by the broker, or is
    in the cache, or was reported as failed because the cache refused it. *)
Theorem can_bus_to_broker `{MqttPublish M E} `{CacheLaws C AEnv LEnv REnv}
    cfg turns d o d' o' trace calls (w0 : world M C E AEnv LEnv) evs s i :
  run_device true true turns d o = Ret (d', o', trace) →
  Forall bus_frame (worker_input frame_taken turns false d o) →
  calls !! i = Some trace →
  cache_ok (w_cache w0) → Forall (λ env, append_benign (pe_append env)) (w_mqtt_envs w0) →
  Forall (λ acts, Forall storable (messages cfg acts)) calls →
  gateway_runs cfg (system_of calls w0) evs s →
  sy_workers s !! i = Some (mk_worker [] Between) →
  reached cfg s evs i
    (filter (λ m, normal m = true) (omap bus_measurement (worker_input frame_taken turns false d o))).
Proof.
  intros. eapply (worker_reached frame_taken _ _ _ _ _ _ _ _ _ _ _ _ _ _ _ can_hands_on); try done.
  apply bus_measurement_ok.
Qed.

#[local] Existing Instance flaky_broker.

(** A frame of a measurement, a remote frame and one whose battery is too low. *)
Definition sample_bus : list (loop_turn can_open_env can_env) :=
  let start := mk_can_open 7 true true "" in
  let turn raw := mk_loop_turn true start (mk_can_env [PollReady false] (RecvFrame raw) 100) in
  [turn (mk_raw_can 0x123 8 (can_payload 253 608 300 37 0));
   turn (mk_raw_can 0x40000123 8 (can_payload 253 608 300 37 0));
   turn (mk_raw_can 0x124 8 (can_payload (-5) 608 300 29 0));
   mk_loop_turn true start (mk_can_env [PollError "down"] RecvShort 101);
   turn (mk_raw_can 0x125 8 (can_payload 254 610 300 38 0));
   mk_loop_turn false start (mk_can_env [] RecvShort 104)].

Definition sample_bus_trace : list action :=
  match run_device true true sample_bus new_can os_init with Ret (_, _, t) => t | _ => [] end.

Definition bus_measurements : list measurement :=
  [mk_measurement 0x23 1 253 608 300 3700 0 0; mk_measurement 0x25 1 254 610 300 3800 0 0].

Lemma can_bus_to_broker_witness :
  ∃ evs s, run_schedule only_mqtt (replicate 22 (inl 0%nat)) (system_of [sample_bus_trace] busy_world)
             = Some (evs, s) ∧
    reached only_mqtt s evs 0 bus_measurements.
Proof.
  destruct (run_schedule only_mqtt (replicate 22 (inl 0%nat)) (system_of [sample_bus_trace] busy_world))
    as [[evs s] |] eqn:Hs; [| vm_compute in Hs; discriminate Hs].
  pose proof (sample_runs _ _ _ _ Hs) as Hr.
  assert (option_map (λ r, sy_workers (snd r)) (Some (evs, s)) = Some [mk_worker [] Between]) as Hw
    by (rewrite <-Hs; vm_compute; reflexivity).
  injection Hw as Hw. exists evs, s. split; [reflexivity |].
  destruct (run_device true true sample_bus new_can os_init) as [[[d' o'] trace] | |] eqn:Hrun;
    [| vm_compute in Hrun; discriminate Hrun | vm_compute in Hrun; discriminate Hrun].
  assert (trace = sample_bus_trace) as -> by (unfold sample_bus_trace; by rewrite Hrun).
  assert (worker_input frame_taken sample_bus false new_can os_init
          = [mk_raw_can 0x123 8 (can_payload 253 608 300 37 0);
             mk_raw_can 0x40000123 8 (can_payload 253 608 300 37 0);
             mk_raw_can 0x124 8 (can_payload (-5) 608 300 29 0);
             mk_raw_can 0x125 8 (can_payload 254 610 300 38 0)]) as Hin by (vm_compute; reflexivity).
  assert (bus_measurements
          = filter (λ m, normal m = true)
              (omap bus_measurement (worker_input frame_taken sample_bus false new_can os_init))) as ->
    by (vm_compute; reflexivity).
  apply (can_bus_to_broker only_mqtt sample_bus new_can os_init d' o' sample_bus_trace
           [sample_bus_trace] busy_world evs s 0 Hrun).
  - rewrite Hin. repeat (apply Forall_cons_2;
      [split; [vm_compute; repeat constructor; discriminate | reflexivity] |]). apply Forall_nil_2.
  - reflexivity.
  - exact sample_cache_ok.
  - repeat (apply Forall_cons_2; [reflexivity |]). apply Forall_nil_2.
  - apply Forall_cons_2; [by apply Forall_true | apply Forall_nil_2].
  - exact Hr.
  - by rewrite Hw.
Defined.

(** C13: From the registers of a Modbus slave to the broker. A worker polls a slave, over any
    number of silent or wrong answers, transport errors and restarts; its handler calls
    are interleaved with those of any other workers and with flushes of the cache. When
    it is done, the first six registers of every answer it has collected that is the
    answer of that slave to the request, with the registers asked for and the right
    checksum, have become, if they have no warning, one message each, in order, on
    every enabled channel, and every other answer none; the payload is a JSON text that
    reads back as those registers; and the message has been acknowledged by the broker,
    or is in the cache, or was reported as failed because the cache refused it. *)
Theorem modbus_to_broker `{TerminalLibrary} `{MqttPublish M E} `{CacheLaws C AEnv LEnv REnv}
    cfg turns (d : ModbusDevice) o d' o' trace calls (w0 : world M C E AEnv LEnv) evs s i :
  let req := mo_request (mb_options d) in
  mb_wf d → run_device true true turns d o = Ret (d', o', trace) →
  Forall bytes (worker_input answer_taken turns false d o) →
  calls !! i = Some trace →
  cache_ok (w_cache w0) → Forall (λ env, append_benign (pe_append env)) (w_mqtt_envs w0) →
  Forall (λ acts, Forall storable (messages cfg acts)) calls →
  gateway_runs cfg (system_of calls w0) evs s →
  sy_workers s !! i = Some (mk_worker [] Between) →
  reached cfg s evs i
    (filter (λ m, normal m = true)
       (omap (answer_measurement req) (worker_input answer_taken turns false d o))) ∧
  ∀ regs, Forall is_u16 regs → length regs = Z.to_nat (register_count req) →
    answer_measurement req (with_crc (reply_body req regs)) =
      match regs with
      | t :: h :: gas :: mv :: st :: sq :: _ =>
          Some (mk_measurement (slave_id req) 1 (i16 t) h gas mv (st mod 256) sq)
      | _ => None
      end.
Proof.
  intros req Hwf. intros. split; [| apply answer_measurement_reply].
  eapply (worker_reached answer_taken _ _ _ _ _ _ _ _ _ _ _ _ _ _ _ (modbus_hands_on req)); try done.
  intros answer m. apply answer_measurement_ok, Hwf.
Qed.

#[local] Instance no_terminal : TerminalLibrary := mk_terminal_library id (λ _, id) (λ _, id).

(** A poll that is answered, one with a wrong checksum, and an idle read between them. *)
Definition sample_polls : list (loop_turn (port_open_env * Z) modbus_env) :=
  let start := (mk_port_open 5 (Some (mk_termios 0 0 0 0 0 0 0 0)) true "", 0) in
  let poll now answer :=
    mk_loop_turn true start
      (mk_modbus_env now None [Wrote 8] (now + 1000)
         [chunk_turn (now + 2000) answer; chunk_turn (now + 3000) []] 1700000000) in
  [poll 0 sample_reply; poll 1000 sample_reply; poll 2000000000 (rev sample_reply);
   mk_loop_turn false start (mk_modbus_env 0 None [] 0 [] 0)].

Definition sample_polls_trace : list action :=
  match run_device true true sample_polls (new_modbus sample_options) os_init with
  | Ret (_, _, t) => t | _ => [] end.

Lemma modbus_to_broker_witness :
  ∃ evs s, run_schedule only_mqtt (replicate 12 (inl 0%nat)) (system_of [sample_polls_trace] busy_world)
             = Some (evs, s) ∧
    reached only_mqtt s evs 0 [mk_measurement 1 1 253 608 300 3700 0 7].
Proof.
  destruct (run_schedule only_mqtt (replicate 12 (inl 0%nat)) (system_of [sample_polls_trace] busy_world))
    as [[evs s] |] eqn:Hs; [| vm_compute in Hs; discriminate Hs].
  pose proof (sample_runs _ _ _ _ Hs) as Hr.
  assert (option_map (λ r, sy_workers (snd r)) (Some (evs, s)) = Some [mk_worker [] Between]) as Hw
    by (rewrite <-Hs; vm_compute; reflexivity).
  injection Hw as Hw. exists evs, s. split; [reflexivity |].
  destruct (run_device true true sample_polls (new_modbus sample_options) os_init)
    as [[[d' o'] trace] | |] eqn:Hrun;
    [| vm_compute in Hrun; discriminate Hrun | vm_compute in Hrun; discriminate Hrun].
  assert (trace = sample_polls_trace) as -> by (unfold sample_polls_trace; by rewrite Hrun).
  assert (worker_input answer_taken sample_polls false (new_modbus sample_options) os_init
          = [sample_reply; rev sample_reply]) as Hin by (vm_compute; reflexivity).
  assert ([mk_measurement 1 1 253 608 300 3700 0 7]
          = filter (λ m, normal m = true)
              (omap (answer_measurement (mo_request (mb_options (new_modbus sample_options))))
                 (worker_input answer_taken sample_polls false (new_modbus sample_options) os_init))) as ->
    by (rewrite Hin; vm_compute; reflexivity).
  apply (modbus_to_broker only_mqtt sample_polls (new_modbus sample_options) os_init d' o'
           sample_polls_trace [sample_polls_trace] busy_world evs s 0 (proj1 new_modbus_inv) Hrun).
  - rewrite Hin. repeat (apply Forall_cons_2; [vm_compute; repeat constructor; discriminate |]).
    apply Forall_nil_2.
  - reflexivity.
  - exact sample_cache_ok.
  - repeat (apply Forall_cons_2; [reflexivity |]). apply Forall_nil_2.
  - apply Forall_cons_2; [by apply Forall_true | apply Forall_nil_2].
  - exact Hr.
  - by rewrite Hw.
Defined.
