(* ===== verification/Progress.v ===== *)
(** * The answers the workers need ([src/main.cpp], [src/publisher/])

    A worker is not stuck in a handler call as long as the broker and the TCP server
    answer: [supplied] says that they answer as many publications as the workers still
    make. Every step of every thread keeps it, so it can be assumed of the start only. The
    locks of the handler calls are in [Locks]. *)

From stdpp Require Import gmap.
From S2P Require Import Prelude SensorData DeviceData DeviceInterface DeviceManager RuntimeMetrics MessageCache FileCache ReliablePublisher TcpClient ConfigData Posix Publisher Logger Gateway MainThread System.

Local Open Scope Z_scope.

Section facts.
Context `{MqttPublish M E} `{CacheLaws C AEnv LEnv REnv}.
Context (gateway_config : GatewayConfig).

Abbreviation W := (world M C E AEnv LEnv).
Abbreviation Wk := (worker M E C AEnv LEnv).
Implicit Types (w : W) (ws : list Wk).

Fixpoint total (f : Wk → nat) ws : nat :=
  match ws with [] => 0 | wk :: ws => f wk + total f ws end.

Lemma total_insert f ws i wk wk' :
  ws !! i = Some wk → (total f (<[i := wk']> ws) + f wk = total f ws + f wk')%nat.
Proof.
  revert i. induction ws as [| x ws IH]; intros i Hi; [done |].
  destruct i as [| i].
  - injection Hi as ->. change (<[0%nat := wk']> (wk :: ws)) with (wk' :: ws). cbn [total]. lia.
  - change (<[S i := wk']> (x :: ws)) with (x :: <[i := wk']> ws). cbn [total]. specialize (IH i Hi). lia.
Qed.

Lemma total_elem f ws i wk : ws !! i = Some wk → (f wk <= total f ws)%nat.
Proof.
  revert i. induction ws as [| x ws IH]; intros i Hi; [done |].
  destruct i as [| i]; [injection Hi as ->; cbn [total]; lia |].
  specialize (IH i Hi). cbn [total]. lia.
Qed.

(** The publications the workers have still to make on a channel. *)
Definition demand (ch : string) (wk : Wk) : nat := length (to_publish gateway_config ch wk).

(** The broker and the TCP server answer as many more publications, whatever they are. *)
Record supplied ws w : Prop := mk_supplied {
  su_mqtt : (total (demand "mqtt") ws <= length (w_mqtt_envs w))%nat;
  su_tcp : (total (demand "tcp") ws <= length (w_tcp_envs w))%nat;
  su_answers : Forall (λ env, ∀ fd o json, ∃ r, send_json fd o env json = Ret r) (w_tcp_envs w);
  su_workers : Forall (worker_ok gateway_config) ws;
}.

(** A step of a worker uses one answer for each publication it makes. *)
Lemma call_step_answers wk w pubs wk' w' :
  worker_ok gateway_config wk → call_step gateway_config wk w pubs wk' w' →
  w_mqtt_envs w' = drop (length (messages_on "mqtt" pubs)) (w_mqtt_envs w) ∧
  w_tcp_envs w' = drop (length (messages_on "tcp" pubs)) (w_tcp_envs w).
Proof.
  intros Hwk Hstep.
  destruct Hstep as [| | calls topic payload pub rest outcomes w status w' Hp | | calls o outcomes w | | |];
    try (by split).
  - apply group_suffix in Hwk as (_ & _ & [-> | ->]).
    + cbn [pub_publish mqtt_publisher] in Hp. destruct (w_mqtt_envs w) as [| env envs] eqn:He; [done |].
      destruct (rp_publish true _ _ env _ _) as [[[r [m1 c1]] at1] us]. injection Hp as <- <-.
      by cbn.
    + cbn [pub_publish tcp_publisher] in Hp. destruct (w_tcp_envs w) as [| env envs] eqn:He; [done |].
      destruct (tcp_publish _ _ _ _ _) as [[[[r fd] o] line] | |]; try discriminate Hp.
      injection Hp as <- <-. by cbn.
  - cbn. unfold note_outcome.
    by destruct (bool_decide (po_status o = Failed)), (bool_decide (po_channel o = "tcp")),
      (bool_decide (po_status o = Published)).
Qed.

Lemma demand_step ch wk w pubs wk' w' :
  worker_ok gateway_config wk → call_step gateway_config wk w pubs wk' w' →
  demand ch wk = (length (messages_on ch pubs) + demand ch wk')%nat.
Proof.
  intros Hwk Hstep. destruct (call_step_messages _ _ _ _ _ _ Hwk Hstep) as [_ Hm].
  unfold demand. by rewrite Hm, length_app.
Qed.

Lemma supplied_step ws w i wk pubs wk' w' :
  supplied ws w → ws !! i = Some wk → call_step gateway_config wk w pubs wk' w' →
  supplied (<[i := wk']> ws) w'.
Proof.
  intros [Hm Ht Ha Hw] Hi Hstep. pose proof (Forall_lookup_1 _ _ _ _ Hw Hi) as Hwk.
  destruct (call_step_answers _ _ _ _ _ Hwk Hstep) as [Hme Hte].
  destruct (call_step_messages _ _ _ _ _ _ Hwk Hstep) as [Hwk' _].
  pose proof (demand_step "mqtt" _ _ _ _ _ Hwk Hstep). pose proof (demand_step "tcp" _ _ _ _ _ Hwk Hstep).
  pose proof (total_insert (demand "mqtt") ws i wk wk' Hi). pose proof (total_insert (demand "tcp") ws i wk wk' Hi).
  split.
  - rewrite Hme, length_drop. lia.
  - rewrite Hte, length_drop. lia.
  - rewrite Hte. by apply Forall_drop.
  - by apply Forall_insert.
Qed.

Lemma supplied_flush ws w env attempts w' :
  supplied ws w → flush_world env w = (attempts, w') → supplied ws w'.
Proof.
  intros [Hm Ht Ha Hw] Hf. unfold flush_world in Hf.
  destruct (rp_flush_cache true _ _ env) as [[[k [m1 c1]] at1] us]. by injection Hf as <- <-.
Qed.

(** No worker is stuck. *)
Lemma worker_goes_on ws w i wk :
  supplied ws w → ws !! i = Some wk →
  wk = mk_worker [] Between ∨ ∃ pubs wk' w', call_step gateway_config wk w pubs wk' w'.
Proof.
  intros [Hm Ht Ha Hw] Hi. pose proof (Forall_lookup_1 _ _ _ _ Hw Hi) as Hwk.
  pose proof (total_elem (demand "mqtt") ws i wk Hi) as Hdm. pose proof (total_elem (demand "tcp") ws i wk Hi) as Hdt.
  unfold demand at 1, to_publish in Hdm. unfold demand at 1, to_publish in Hdt.
  destruct wk as [calls [| topic payload [| publisher rest] outcomes | [| outcome outcomes]]];
    try (right; eexists _, _, _; by constructor).
  - destruct calls as [| [data protocol | | | | |] calls]; [by left | ..]; right;
      try (eexists _, _, _; by constructor).
    destruct (valid data) eqn:Hv; eexists _, _, _; by constructor.
  - cbn [wk_at wk_calls fmap list_fmap] in Hdm, Hdt.
    apply group_suffix in Hwk as (_ & _ & [-> | ->]); right.
    + rewrite decide_True in Hdm by by left. cbn [app length] in Hdm.
      destruct (w_mqtt_envs w) as [| env envs] eqn:He; [cbn [length] in Hm; lia |].
      destruct (rp_publish true (w_mqtt w) (w_cache w) env topic payload)
        as [[[status [m c]] attempts] us] eqn:Hp.
      eexists _, _, _. apply step_publish. cbn. rewrite He, Hp. done.
    + rewrite decide_True in Hdt by by left. cbn [app length] in Hdt.
      destruct (w_tcp_envs w) as [| env envs] eqn:He; [cbn [length] in Ht; lia |].
      apply Forall_cons in Ha as [Ha _]. destruct (Ha (w_tcp w) (w_os w) payload) as [[[[ok fd] o] line] Hs].
      eexists _, _, _. apply step_publish. cbn. rewrite He. unfold tcp_publish. rewrite Hs. done.
Qed.

Lemma supplied_runs s evs s' :
  supplied (sy_workers s) (sy_world s) → gateway_runs gateway_config s evs s' →
  supplied (sy_workers s') (sy_world s').
Proof.
  intros Hs Hr. induction Hr as [| evs s1 evs' s2 _ IH Hstep]; [done |].
  destruct Hstep as [ws w i wk pubs wk' w' Hi Hc | ws w env attempts w' Hb Hf]; cbn in *.
  - by eapply supplied_step.
  - by eapply supplied_flush.
Qed.

End facts.

Lemma supplied_start `{MqttPublish M E} `{CacheLaws C AEnv LEnv REnv} cfg calls (w0 : world M C E AEnv LEnv) :
  let messages_left := sum_list ((λ acts, length (messages cfg acts)) <$> calls) in
  (messages_left <= length (w_mqtt_envs w0))%nat →
  (tc_enabled (gc_tcp cfg) = true → messages_left <= length (w_tcp_envs w0))%nat →
  Forall (λ env, ∀ fd o json, ∃ r, send_json fd o env json = Ret r) (w_tcp_envs w0) →
  supplied cfg (sy_workers (system_of calls w0)) w0.
Proof.
  intros messages_left Hm Ht Ha.
  assert (∀ ch, total (demand cfg ch) (sy_workers (system_of calls w0))
                = if decide (ch ∈ gateway_channels cfg) then messages_left else 0%nat) as Htotal.
  { intros ch. unfold messages_left. clear. induction calls as [| acts calls IH]; [by case_decide |].
    cbn [system_of sy_workers fmap list_fmap total sum_list] in *. rewrite IH. unfold demand, to_publish.
    cbn [wk_at wk_calls app]. by case_decide. }
  split.
  - rewrite Htotal. by rewrite decide_True by by left.
  - rewrite Htotal. unfold gateway_channels. destruct (tc_enabled (gc_tcp cfg)); [case_decide; [by apply Ht | lia] |].
    rewrite decide_False by (intros ?; set_solver). lia.
  - done.
  - apply Forall_fmap, Forall_true. by intros acts.
Qed.
