(* ===== verification/Locks.v ===== *)
(** * The mutexes of the gateway ([src/mqtt/], [src/publisher/], [src/log/], [src/device/])

    [System] makes a publication and a flush one step each. Here the threads take and
    release the mutexes of the code one by one: [ReliablePublisher] holds its mutex through
    a publication or a flush and the client takes [acknowledgment_mutex_] inside it,
    giving it up while it waits for the acknowledgment; the TCP publisher, the logger, the
    device statuses and the status of each device have a mutex each, under which no other
    is taken. What a call does to the shared objects is the step [Act], made inside the
    critical section. The threads: the workers in their handler calls, and any number of
    others (the main thread with its flushes, the callback thread of the MQTT library, the
    HTTP thread). *)

From stdpp Require Import gmap relations.
From S2P Require Import Prelude Text SensorData DeviceData DeviceInterface DeviceManager RuntimeMetrics MessageCache FileCache ReliablePublisher TcpClient ConfigData Posix Publisher Logger Gateway MainThread System Progress.

Local Open Scope Z_scope.

(** ** The code *)

Inductive mutex : Type :=
  | PublisherMutex                     (** [ReliablePublisher::mutex_] *)
  | AckMutex                           (** [MqttClient::acknowledgment_mutex_] *)
  | TcpMutex                           (** [TcpPublisher::mutex_] *)
  | LogMutex                           (** [Logger::mutex_] *)
  | StatusesMutex                      (** [RuntimeStatus::device_statuses_mutex_] *)
  | DeviceMutex (device : nat).        (** [status_mutex_] of a device *)

#[export] Instance mutex_eq_dec : EqDecision mutex.
Proof. solve_decision. Defined.

Definition mutex_code (m : mutex) : nat :=
  match m with
  | PublisherMutex => 0 | AckMutex => 1 | TcpMutex => 2 | LogMutex => 3 | StatusesMutex => 4
  | DeviceMutex i => 5 + i
  end.

Definition mutex_of (n : nat) : mutex :=
  match n with
  | 0 => PublisherMutex | 1 => AckMutex | 2 => TcpMutex | 3 => LogMutex | 4 => StatusesMutex
  | S (S (S (S (S i)))) => DeviceMutex i
  end%nat.

#[export] Instance mutex_countable : Countable mutex.
Proof. apply (inj_countable' mutex_code mutex_of). by intros []. Defined.

(** What a thread does next: [Wait] is [wait_for] on a condition variable, which releases
    the mutex and takes it again when it is notified or the time is over; [Act] is the effect
    of the call on the shared objects. *)
Inductive op : Type := Lock (m : mutex) | Unlock (m : mutex) | Wait (m : mutex) | Act.

(** [MqttClient::publish]: it returns before it takes the mutex, or takes it and, unless the
    library refuses the message or the predicate holds, waits, woken any number of times. *)
Inductive client_path : list op → Prop :=
  | client_unavailable : client_path []
  | client_publishes n : client_path (Lock AckMutex :: replicate n (Wait AckMutex) ++ [Unlock AckMutex]).

(** [ReliablePublisher::publish]. *)
Inductive publish_path : list op → Prop :=
  | publish_locks ops : client_path ops → publish_path (Lock PublisherMutex :: ops ++ [Act; Unlock PublisherMutex]).

(** [ReliablePublisher::flush_cache]: any number of cached messages. *)
Inductive flush_path : list op → Prop :=
  | flush_locks opss :
      Forall client_path opss →
      flush_path (Lock PublisherMutex :: concat opss ++ [Act; Unlock PublisherMutex]).

(** [TcpPublisher::publish]. *)
Definition tcp_path (ops : list op) : Prop := ops = [Lock TcpMutex; Act; Unlock TcpMutex].

(** [Logger::write]: nothing below the minimum level. *)
Definition logger_path (ops : list op) : Prop := ops = [Act] ∨ ops = [Lock LogMutex; Act; Unlock LogMutex].

(** The calls on a device: each takes its mutex any number of times, one after the other. *)
Definition device_path (device : nat) (ops : list op) : Prop :=
  ∃ n, ops = concat (replicate n [Lock (DeviceMutex device); Unlock (DeviceMutex device)]) ++ [Act].

(** A thread that is not a worker flushes the cache or works under a single mutex. *)
Inductive task (F : Type) : Type :=
  | Flush (env : F)
  | Under (m : mutex).

Arguments Flush {F}.
Arguments Under {F}.

Section code.
Context `{MqttPublish M E} `{CacheLaws C AEnv LEnv REnv}.
Context (gateway_config : GatewayConfig).

Abbreviation W := (world M C E AEnv LEnv).
Abbreviation Wk := (worker M E C AEnv LEnv).
Abbreviation Task := (task (flush_env E LEnv REnv)).

Inductive job : Type :=
  | Handler (wk : Wk)
  | Tasks (ts : list Task).

(** A thread: what it is still to do, and the rest of the call it is in. *)
Record thread : Type := mk_thread { th_job : job; th_ops : list op }.

(** What worker [i] does for its next step in [System]. *)
Definition worker_path (i : nat) (wk : Wk) (ops : list op) : Prop :=
  match wk_at wk, wk_calls wk with
  | Between, [] => False
  | Between, (DataCall _ _ | ErrorCall _ _ _ _) :: _ => logger_path ops
  | Between, _ :: _ => device_path i ops
  | Publishing _ _ (publisher :: _) _, _ =>
      if decide (pub_channel publisher = "mqtt") then publish_path ops else tcp_path ops
  | Publishing _ _ [] _, _ => ops = [Act]
  | Noting (_ :: _), _ => logger_path ops
  | Noting [], _ => ops = [Act]
  end.

Definition job_path (i : nat) (j : job) (ops : list op) : Prop :=
  match j with
  | Handler wk => worker_path i wk ops
  | Tasks [] => False
  | Tasks (Flush _ :: _) => flush_path ops
  | Tasks (Under m :: _) => ops = [Lock m; Act; Unlock m]
  end.

(** The effect of a call. *)
Inductive job_act : job → W → job → W → Prop :=
  | worker_acts wk w pubs wk' w' :
      call_step gateway_config wk w pubs wk' w' → job_act (Handler wk) w (Handler wk') w'
  | flush_acts env ts w attempts w' :
      flush_world env w = (attempts, w') → job_act (Tasks (Flush env :: ts)) w (Tasks ts) w'
  | under_acts m ts w : job_act (Tasks (Under m :: ts)) w (Tasks ts) w.

(** The threads, the owners of the mutexes that are taken, and the shared objects. *)
Record locked : Type := mk_locked {
  lk_threads : list thread;
  lk_owner : gmap mutex nat;
  lk_world : W;
}.

(** One thread makes a step. *)
Inductive lock_step : locked → locked → Prop :=
  | thread_begins ths own w i j ops :
      ths !! i = Some (mk_thread j []) → job_path i j ops →
      lock_step (mk_locked ths own w) (mk_locked (<[i := mk_thread j ops]> ths) own w)
  | thread_locks ths own w i j m ops :
      ths !! i = Some (mk_thread j (Lock m :: ops)) → own !! m = None →
      lock_step (mk_locked ths own w) (mk_locked (<[i := mk_thread j ops]> ths) (<[m := i]> own) w)
  | thread_unlocks ths own w i j m ops :
      ths !! i = Some (mk_thread j (Unlock m :: ops)) → own !! m = Some i →
      lock_step (mk_locked ths own w) (mk_locked (<[i := mk_thread j ops]> ths) (delete m own) w)
  | thread_waits ths own w i j m ops :
      ths !! i = Some (mk_thread j (Wait m :: ops)) → own !! m = Some i →
      lock_step (mk_locked ths own w) (mk_locked (<[i := mk_thread j (Lock m :: ops)]> ths) (delete m own) w)
  | thread_acts ths own w i j j' w' ops :
      ths !! i = Some (mk_thread j (Act :: ops)) → job_act j w j' w' →
      lock_step (mk_locked ths own w) (mk_locked (<[i := mk_thread j' ops]> ths) own w').

(** The workers with their handler calls, and the other threads with their tasks. *)
Definition lock_start (calls : list (list action)) (tasks : list (list Task)) (w : W) : locked :=
  mk_locked (((λ acts, mk_thread (Handler (mk_worker acts Between)) []) <$> calls) ++
             ((λ ts, mk_thread (Tasks ts) []) <$> tasks)) ∅ w.

Definition thread_done (th : thread) : Prop :=
  th_ops th = [] ∧ (th_job th = Handler (mk_worker [] Between) ∨ th_job th = Tasks []).

(** The mutex that guards what a call does to the shared objects. *)
Definition guard (j : job) : option mutex :=
  match j with
  | Handler (mk_worker _ (Publishing _ _ (publisher :: _) _)) =>
      Some (if decide (pub_channel publisher = "mqtt") then PublisherMutex else TcpMutex)
  | Tasks (Flush _ :: _) => Some PublisherMutex
  | Tasks (Under m :: _) => Some m
  | _ => None
  end.

End code.

Arguments job : clear implicits.
Arguments thread : clear implicits.
Arguments locked : clear implicits.

(** ** The order of the mutexes *)

(** [acknowledgment_mutex_] is taken under the publisher's; under the others none is. *)
Definition rank (m : mutex) : nat := match m with PublisherMutex => 0 | _ => 1 end.

Definition above (m : mutex) (held : list mutex) : Prop := Forall (λ h, (rank h < rank m)%nat) held.

(** The mutexes a thread holds are those it still releases without taking them first. *)
Fixpoint holds (ops : list op) : list mutex :=
  match ops with
  | [] => []
  | Lock _ :: ops => tail (holds ops)
  | Unlock m :: ops => m :: holds ops
  | (Wait _ | Act) :: ops => holds ops
  end.

(** A mutex is taken above the ones held, and the last one taken is the first released. *)
Fixpoint disciplined (ops : list op) : Prop :=
  match ops with
  | [] => True
  | (Lock m | Wait m) :: ops => (∃ rest, holds ops = m :: rest ∧ above m rest) ∧ disciplined ops
  | Unlock m :: ops => above m (holds ops) ∧ disciplined ops
  | Act :: ops => disciplined ops
  end.

(** Where [Act] stands, what is held there, and that it stands once. *)
Fixpoint acts (ops : list op) : nat :=
  match ops with [] => 0 | Act :: ops => S (acts ops) | _ :: ops => acts ops end.

Fixpoint held_at_act (ops : list op) : list mutex :=
  match ops with [] => [] | Act :: ops => holds ops | _ :: ops => held_at_act ops end.

(** A path as it is chosen: it takes what it releases, in order, and acts once under the
    mutex that guards the effect. *)
Record good_path (g : option mutex) (ops : list op) : Prop := mk_good_path {
  gp_disciplined : disciplined ops;
  gp_holds : holds ops = [];
  gp_acts : acts ops = 1%nat;
  gp_guard : ∀ m, g = Some m → m ∈ held_at_act ops;
}.

(** The client's part of a publication, in front of [rest]. *)
Lemma client_before ops rest :
  client_path ops → disciplined rest → holds rest = [PublisherMutex] →
  disciplined (ops ++ rest) ∧ holds (ops ++ rest) = [PublisherMutex] ∧
  acts (ops ++ rest) = acts rest ∧ held_at_act (ops ++ rest) = held_at_act rest.
Proof.
  intros Hc Hd Hh. destruct Hc as [| n]; [done |].
  assert (disciplined (replicate n (Wait AckMutex) ++ Unlock AckMutex :: rest) ∧
          holds (replicate n (Wait AckMutex) ++ Unlock AckMutex :: rest) = AckMutex :: [PublisherMutex] ∧
          acts (replicate n (Wait AckMutex) ++ Unlock AckMutex :: rest) = acts rest ∧
          held_at_act (replicate n (Wait AckMutex) ++ Unlock AckMutex :: rest) = held_at_act rest) as (H1 & H2 & H3 & H4).
  { assert (above AckMutex [PublisherMutex]) as Hab by (apply Forall_cons_2; [cbn; lia | apply Forall_nil_2]).
    induction n as [| n IH]; cbn [replicate app].
    - cbn. by rewrite Hh.
    - destruct IH as (I1 & I2 & I3 & I4). cbn. split_and!; try done. by exists [PublisherMutex]. }
  cbn [app disciplined holds acts held_at_act]. rewrite <-app_assoc. cbn [app]. rewrite H2. split_and!; try done.
  exists [PublisherMutex]. split; [done |]. apply Forall_cons_2; [cbn; lia | apply Forall_nil_2].
Qed.

Lemma publish_good ops : publish_path ops → good_path (Some PublisherMutex) ops.
Proof.
  intros [ops' Hc]. destruct (client_before ops' [Act; Unlock PublisherMutex] Hc) as (H1 & H2 & H3 & H4).
  1, 2: cbn; repeat split; apply Forall_nil_2.
  split; cbn; rewrite ?H2, ?H3, ?H4; try done.
  - split; [exists []; split; [done | apply Forall_nil_2] | done].
  - intros m [= <-]. by left.
Qed.

Lemma flush_good ops : flush_path ops → good_path (Some PublisherMutex) ops.
Proof.
  intros [opss Hc].
  assert (let l := concat opss ++ [Act; Unlock PublisherMutex] in
          disciplined l ∧ holds l = [PublisherMutex] ∧ acts l = 1%nat ∧ held_at_act l = [PublisherMutex])
    as (H1 & H2 & H3 & H4).
  { induction Hc as [| ops' opss Hop _ (H1 & H2 & H3 & H4)]; cbn [concat app].
    - cbn. split_and!; try done. apply Forall_nil_2.
    - rewrite <-app_assoc. destruct (client_before _ _ Hop H1 H2) as (? & ? & E3 & E4).
      rewrite E3, E4. by split_and!. }
  split; cbn; rewrite ?H2, ?H3, ?H4; try done.
  - split; [exists []; split; [done | apply Forall_nil_2] | done].
  - intros m [= <-]. by left.
Qed.

Lemma under_good m : good_path (Some m) [Lock m; Act; Unlock m].
Proof.
  split; cbn; try done.
  - split; [exists []; split; [done | apply Forall_nil_2] |]. split; [apply Forall_nil_2 | done].
  - intros ? [= <-]. by left.
Qed.

Lemma act_good : good_path None [Act].
Proof. by split. Qed.

Lemma weaken_guard m ops : good_path (Some m) ops → good_path None ops.
Proof. intros [? ? ? _]. by split. Qed.

Lemma log_good ops : logger_path ops → good_path None ops.
Proof. intros [-> | ->]; [apply act_good | apply (weaken_guard LogMutex), under_good]. Qed.

Lemma device_good i ops : device_path i ops → good_path None ops.
Proof.
  intros [n ->]. induction n as [| n [H1 H2 H3 _]]; [apply act_good |].
  split; cbn in *; rewrite ?H2; try done.
  split; [exists []; split; [done | apply Forall_nil_2] |]. split; [apply Forall_nil_2 | done].
Qed.

Section facts.
Context `{MqttPublish M E} `{CacheLaws C AEnv LEnv REnv}.
Context (gateway_config : GatewayConfig).

Abbreviation W := (world M C E AEnv LEnv).
Abbreviation Wk := (worker M E C AEnv LEnv).
Abbreviation Task := (task (flush_env E LEnv REnv)).
Abbreviation Th := (thread M E C AEnv LEnv REnv).
Implicit Types (w : W) (j : job M E C AEnv LEnv REnv).

Lemma job_good i j ops : job_path i j ops → good_path (guard j) ops.
Proof.
  destruct j as [[calls pos] | [| [env | m] ts]]; cbn [job_path guard].
  - unfold worker_path. cbn [wk_at wk_calls].
    destruct pos as [| topic payload [| publisher rest] outcomes | [| outcome outcomes]].
    + destruct calls as [| [] calls]; [done | ..]; apply log_good || apply device_good.
    + intros ->. apply act_good.
    + case_decide; [apply publish_good | intros ->; apply under_good].
    + intros ->. apply act_good.
    + apply log_good.
  - done.
  - apply flush_good.
  - intros ->. apply under_good.
Qed.

(** A thread that is not done has a path for its next step. *)
Lemma job_has_path i j : j = Handler (mk_worker [] Between) ∨ j = Tasks [] ∨ ∃ ops, job_path i j ops.
Proof.
  destruct j as [[calls pos] | [| [env | m] ts]].
  - destruct pos as [| topic payload [| publisher rest] outcomes | [| outcome outcomes]].
    + destruct calls as [| [] calls]; [by left | ..]; right; right;
        first [by exists [Act]; left | by exists [Act], 0%nat].
    + right; right. by exists [Act].
    + right; right. cbn. case_decide; eexists; [apply publish_locks, client_unavailable | done].
    + right; right. by exists [Act].
    + right; right. exists [Act]. by left.
  - right; by left.
  - right; right. cbn. eexists. by apply (flush_locks []), Forall_nil_2.
  - right; right. by eexists.
Qed.

(** Where each thread stands in its path. *)
Definition thread_ok (th : Th) : Prop :=
  disciplined (th_ops th) ∧ (acts (th_ops th) <= 1)%nat ∧
  (acts (th_ops th) = 1%nat → (∀ m, guard (th_job th) = Some m → m ∈ held_at_act (th_ops th)) ∧
     th_job th ≠ Handler (mk_worker [] Between) ∧ th_job th ≠ Tasks []).

(** The owner of a mutex is the thread that still releases it. *)
Record lock_inv (s : locked M E C AEnv LEnv REnv) : Prop := mk_lock_inv {
  li_threads : ∀ i th, lk_threads s !! i = Some th → thread_ok th;
  li_owner : ∀ m i, lk_owner s !! m = Some i ↔ ∃ th, lk_threads s !! i = Some th ∧ m ∈ holds (th_ops th);
}.

Lemma above_not_in m held : above m held → m ∉ held.
Proof. intros Ha Hin. unfold above in Ha. rewrite Forall_forall in Ha. specialize (Ha _ Hin). lia. Qed.

(** A step of thread [i] that changes what it holds, and its owner's entries with it. *)
Lemma lock_inv_step ths own w w' i th th' own' :
  lock_inv (mk_locked ths own w) → ths !! i = Some th → thread_ok th' →
  (∀ m k, k ≠ i → own' !! m = Some k ↔ own !! m = Some k) →
  (∀ m, own' !! m = Some i ↔ m ∈ holds (th_ops th')) →
  lock_inv (mk_locked (<[i := th']> ths) own' w').
Proof.
  intros [Ht Ho] Hi Hok Hother Hmine. pose proof (lookup_lt_Some _ _ _ Hi) as Hlt. split; cbn in *.
  - intros k th'' [(-> & -> & _) | [_ Hk]]%list_lookup_insert_Some; [done | by eapply Ht].
  - intros m k. destruct (decide (k = i)) as [-> | Hne].
    + rewrite list_lookup_insert_eq by done. rewrite Hmine. split; [intros ?; by eexists | by intros (? & [= <-] & ?)].
    + rewrite list_lookup_insert_ne by done. by rewrite Hother, Ho.
Qed.

Lemma lock_step_inv s s' : lock_step gateway_config s s' → lock_inv s → lock_inv s'.
Proof.
  intros Hst Hinv. destruct Hst as [ths own w i j ops Hi Hp | ths own w i j m ops Hi Hm | ths own w i j m ops Hi Hm
    | ths own w i j m ops Hi Hm | ths own w i j j' w' ops Hi Ha];
    pose proof (li_threads _ Hinv _ _ Hi) as (Hd & Hn & Hg); cbn in Hd, Hn, Hg;
    assert (∀ m, own !! m = Some i ↔ m ∈ holds (th_ops _)) as Hown
      by (intros m'; rewrite (li_owner _ Hinv m' i); cbn; rewrite Hi; split; [by intros (? & [= <-] & ?) | by eexists]);
    cbn in Hown; (eapply lock_inv_step; [exact Hinv | exact Hi | | |]); cbn.
  - destruct (job_good _ _ _ Hp) as [G1 G2 G3 G4]. split_and!; [done | cbn; lia | cbn].
    intros _. split_and!; [done | |]; intros ->; cbn in Hp; done.
  - done.
  - destruct (job_good _ _ _ Hp) as [_ G2 _ _]. by rewrite G2.
  - by destruct Hd as [_ Hd].
  - intros m' k Hk. rewrite lookup_insert_Some. naive_solver congruence.
  - destruct Hd as [(rest & Hr & _) _]. rewrite Hr in Hown |- *. cbn in Hown. intros m'.
    rewrite lookup_insert_Some, elem_of_cons, <-Hown. naive_solver congruence.
  - by destruct Hd as [_ Hd].
  - intros m' k Hk. rewrite lookup_delete_Some. naive_solver congruence.
  - destruct Hd as [Hab%above_not_in _]. intros m'. rewrite lookup_delete_Some, Hown, elem_of_cons. naive_solver.
  - done.
  - intros m' k Hk. rewrite lookup_delete_Some. naive_solver congruence.
  - destruct Hd as [(rest & Hr & Hab%above_not_in) _]. rewrite Hr in Hown |- *. cbn. intros m'.
    rewrite lookup_delete_Some, Hown, elem_of_cons. naive_solver.
  - split_and!; [done | cbn; lia | cbn; lia].
  - done.
  - done.
Qed.

Lemma lock_start_inv calls tasks w0 : lock_inv (lock_start calls tasks w0).
Proof.
  assert (∀ i th, lk_threads (lock_start calls tasks w0) !! i = Some th → th_ops th = []) as Hs.
  { intros i th Hi%list_elem_of_lookup_2. cbn in Hi. rewrite elem_of_app, !list_elem_of_fmap in Hi.
    by destruct Hi as [(? & -> & _) | (? & -> & _)]. }
  split.
  - intros i th Hi. pose proof (Hs _ _ Hi) as He. unfold thread_ok. rewrite He. cbn. split_and!; [done | lia | done].
  - intros m i. cbn. rewrite lookup_empty. split; [done |]. intros (th & Hi & Hin). rewrite (Hs _ _ Hi) in Hin.
    by apply not_elem_of_nil in Hin.
Qed.

Lemma lock_steps_inv s s' : rtc (lock_step gateway_config) s s' → lock_inv s → lock_inv s'.
Proof. induction 1; eauto using lock_step_inv. Qed.

(** ** No deadlock *)

(** The calls return: a thread at [Act] can make it. *)
Definition can_act (s : locked M E C AEnv LEnv REnv) : Prop :=
  ∀ i j ops, lk_threads s !! i = Some (mk_thread j (Act :: ops)) →
    ∃ j' w', job_act gateway_config j (lk_world s) j' w'.

(** The owner of a mutex makes a step, or waits for one of a higher rank. *)
Lemma owner_goes_on s n m i :
  lock_inv s → can_act s → (2 <= rank m + n)%nat → lk_owner s !! m = Some i → ∃ s', lock_step gateway_config s s'.
Proof.
  intros Hinv Hr. revert m i. induction n as [| n IH]; intros m i Hn Hm; [destruct m; cbn in Hn; lia |].
  apply (li_owner _ Hinv) in Hm as ([j ops] & Hi & Hin). pose proof (li_threads _ Hinv _ _ Hi) as (Hd & _).
  destruct s as [ths own w]. cbn [lk_threads lk_owner th_ops] in *.
  destruct ops as [| [m' | m' | m' |] ops]; cbn in Hin, Hd; [by apply not_elem_of_nil in Hin | ..].
  - destruct (own !! m') as [k |] eqn:Hm'; [| eexists; by eapply thread_locks].
    destruct Hd as [(rest & Hrest & Hab) _]. rewrite Hrest in Hin. cbn in Hin.
    unfold above in Hab. rewrite Forall_forall in Hab. specialize (Hab _ Hin). apply (IH m' k); [lia | done].
  - eexists. eapply thread_unlocks; [done |]. apply (li_owner _ Hinv). eexists. split; [done |]. by left.
  - eexists. eapply thread_waits; [done |]. apply (li_owner _ Hinv). eexists. split; [done |].
    destruct Hd as [(rest & Hrest & _) _]. cbn. rewrite Hrest. by left.
  - destruct (Hr _ _ _ Hi) as (j' & w' & Ha). eexists. by eapply thread_acts.
Qed.

(** So does a thread that is not done, or another one. *)
Lemma thread_goes_on s i th :
  lock_inv s → can_act s → lk_threads s !! i = Some th → thread_done th ∨ ∃ s', lock_step gateway_config s s'.
Proof.
  intros Hinv Hr Hi. destruct s as [ths own w], th as [j ops]. destruct ops as [| o ops].
  - destruct (job_has_path i j) as [-> | [-> | [ops Hp]]]; [left; split; [done | by left] | left; split; [done | by right] |].
    right. eexists. by eapply thread_begins.
  - right. destruct (holds (o :: ops)) as [| m l] eqn:Hh.
    + pose proof (li_threads _ Hinv _ _ Hi) as (Hd & _).
      destruct o as [m | m | m |]; cbn in Hh, Hd; [| discriminate Hh | |].
      * destruct (own !! m) as [k |] eqn:Hm; [| eexists; by eapply thread_locks].
        apply (owner_goes_on _ 2 m k Hinv Hr); [lia | done].
      * destruct Hd as [(rest & Hrest & _) _]. by rewrite Hh in Hrest.
      * destruct (Hr _ _ _ Hi) as (j' & w' & Ha). eexists. by eapply thread_acts.
    + apply (owner_goes_on _ 2 m i Hinv Hr); [lia |]. apply (li_owner _ Hinv). eexists. split; [done |].
      cbn [th_ops]. rewrite Hh. by left.
Qed.

(** ** Every run ends *)

(** The actions a thread has left, and the operations of the call it is in. *)
Definition job_left (j : job M E C AEnv LEnv REnv) : nat :=
  match j with Handler wk => steps_left gateway_config wk | Tasks ts => length ts end.

Definition actions_left (th : Th) : nat := 2 * job_left (th_job th) + 1 - acts (th_ops th).

Definition op_cost (o : op) : nat := match o with Wait _ => 2 | _ => 1 end.
Definition ops_left (th : Th) : nat := sum_list_with op_cost (th_ops th).

Lemma actions_left_eq j ops : actions_left (mk_thread j ops) = (2 * job_left j + 1 - acts ops)%nat.
Proof. done. Qed.

Lemma ops_left_eq j ops : ops_left (mk_thread j ops) = sum_list_with op_cost ops.
Proof. done. Qed.

Definition all_left (f : Th → nat) (ths : list Th) : nat := sum_list_with f ths.

Lemma all_left_insert f ths i th th' :
  ths !! i = Some th → (all_left f (<[i := th']> ths) + f th = all_left f ths + f th')%nat.
Proof.
  intros Hi. rewrite <-(take_drop_middle ths i th Hi) at 2. pose proof (lookup_lt_Some _ _ _ Hi).
  rewrite insert_take_drop by done. unfold all_left. rewrite !sum_list_with_app. cbn. lia.
Qed.

Lemma job_act_left j w j' w' : job_act gateway_config j w j' w' → (job_left j' < job_left j)%nat.
Proof. destruct 1; cbn; [by eapply call_step_decreases | lia | lia]. Qed.

Lemma job_path_left i j ops : job_path i j ops → (0 < job_left j)%nat.
Proof.
  destruct j as [[calls pos] | [| t ts]]; cbn; [| done | lia]. unfold worker_path, steps_left.
  cbn [wk_at wk_calls]. destruct pos as [| ? ? rest ? | ?]; [| lia | lia].
  destruct calls as [| a calls]; [done |]. cbn [length]. unfold call_cost. lia.
Qed.

(** Each step uses up an action, or an operation of the call. *)
Lemma lock_step_left s s' :
  lock_inv s → lock_step gateway_config s s' →
  (all_left actions_left (lk_threads s') < all_left actions_left (lk_threads s))%nat ∨
  all_left actions_left (lk_threads s') = all_left actions_left (lk_threads s) ∧
  (all_left ops_left (lk_threads s') < all_left ops_left (lk_threads s))%nat.
Proof.
  intros Hinv Hst. destruct Hst as [ths own w i j ops Hi Hp | ths own w i j m ops Hi Hm | ths own w i j m ops Hi Hm
    | ths own w i j m ops Hi Hm | ths own w i j j' w' ops Hi Ha]; cbn [lk_threads];
    pose proof (li_threads _ Hinv _ _ Hi) as (_ & Hn & _); cbn [th_ops acts] in Hn;
    match goal with |- context [<[i := ?th']> ths] =>
      pose proof (all_left_insert actions_left _ _ _ th' Hi) as H1;
      pose proof (all_left_insert ops_left _ _ _ th' Hi) as H2 end;
    rewrite !actions_left_eq in H1; rewrite !ops_left_eq in H2; cbn [acts sum_list_with op_cost] in *.
  - left. destruct (job_good _ _ _ Hp) as [_ _ Ha _]. rewrite Ha in H1. lia.
  - right. lia.
  - right. lia.
  - right. lia.
  - left. pose proof (job_act_left _ _ _ _ Ha). lia.
Qed.

Lemma lock_step_sn s : lock_inv s → sn (lock_step gateway_config) s.
Proof.
  remember (all_left actions_left (lk_threads s)) as a eqn:Ea. revert s Ea.
  induction (lt_wf a) as [a _ IHa]. intros s Ea.
  remember (all_left ops_left (lk_threads s)) as b eqn:Eb. revert s Ea Eb.
  induction (lt_wf b) as [b _ IHb]. intros s Ea Eb Hinv. constructor. intros s' Hst. cbn in Hst.
  pose proof (lock_step_inv _ _ Hst Hinv) as Hinv'.
  destruct (lock_step_left _ _ Hinv Hst) as [Hlt | [He Hlt]].
  - eapply IHa; [| reflexivity | exact Hinv']. lia.
  - eapply IHb; [| | reflexivity | exact Hinv']; lia.
Qed.

(** ** The runs are those of [System] *)

Definition worker_of (th : Th) : option Wk := match th_job th with Handler wk => Some wk | Tasks _ => None end.

Definition benign_thread (th : Th) : Prop :=
  match th_job th with
  | Handler _ => True
  | Tasks ts => Forall (λ t, match t with Flush env => remove_benign (fe_remove env) | Under _ => True end) ts
  end.

(** The workers of [System] are those of the threads. *)
Record simulates (s0 : gateway_system M E C AEnv LEnv) (s : locked M E C AEnv LEnv REnv)
    (evs : list event) (ws : list Wk) : Prop := mk_simulates {
  sm_runs : gateway_runs gateway_config s0 evs (mk_gateway_system ws (lk_world s));
  sm_workers : ∀ i, ws !! i = lk_threads s !! i ≫= worker_of;
  sm_benign : Forall benign_thread (lk_threads s);
}.

(** A step that leaves the job of its thread as it is, and the shared objects. *)
Lemma simulates_same s0 ths own w evs ws i j ops ops' own' :
  simulates s0 (mk_locked ths own w) evs ws → ths !! i = Some (mk_thread j ops) →
  simulates s0 (mk_locked (<[i := mk_thread j ops']> ths) own' w) evs ws.
Proof.
  intros [Hr Hw Hb] Hi. pose proof (lookup_lt_Some _ _ _ Hi). split; cbn in *; [done | |].
  - intros k. rewrite Hw. destruct (decide (k = i)) as [-> | Hne].
    + by rewrite Hi, list_lookup_insert_eq.
    + by rewrite list_lookup_insert_ne.
  - apply Forall_insert; [done |]. by apply (Forall_lookup_1 _ _ _ _ Hb Hi).
Qed.

Lemma simulates_act s0 ths own w evs ws i j j' w' ops :
  simulates s0 (mk_locked ths own w) evs ws → ths !! i = Some (mk_thread j (Act :: ops)) →
  job_act gateway_config j w j' w' →
  ∃ evs' ws', simulates s0 (mk_locked (<[i := mk_thread j' ops]> ths) own w') evs' ws'.
Proof.
  intros [Hr Hw Hb] Hi Ha. pose proof (lookup_lt_Some _ _ _ Hi) as Hlt. cbn in *.
  pose proof (Forall_lookup_1 _ _ _ _ Hb Hi) as Hbi.
  assert (∀ ws' : list Wk, (∀ k : nat, k ≠ i → ws' !! k = ws !! k) → ws' !! i = worker_of (mk_thread j' ops) →
    ∀ k : nat, ws' !! k = <[i := mk_thread j' ops]> ths !! k ≫= worker_of) as Hws.
  { intros ws' Hne Heq k. destruct (decide (k = i)) as [-> | Hk]; [by rewrite list_lookup_insert_eq |].
    by rewrite Hne, list_lookup_insert_ne, Hw. }
  assert (benign_thread (mk_thread j' ops) → Forall benign_thread (<[i := mk_thread j' ops]> ths)) as Hbs
    by (intros; by apply Forall_insert).
  pose proof (Hw i) as Hwi. rewrite Hi in Hwi. cbn in Hwi.
  destruct Ha as [wk w pubs wk' w' Hc | env ts w attempts w' Hf | m ts w].
  - exists (evs ++ (WorkerPublished i <$> pubs)), (<[i := wk']> ws). split; cbn.
    + eapply runs_snoc; [exact Hr |]. eapply worker_steps; [exact Hwi | exact Hc].
    + apply Hws; [by intros k Hk; rewrite list_lookup_insert_ne |].
      apply list_lookup_insert_eq. exact (lookup_lt_Some _ _ _ Hwi).
    + by apply Hbs.
  - apply Forall_cons in Hbi as [He Hts]. exists (evs ++ [MainFlushed attempts]), ws. split; cbn.
    + eapply runs_snoc; [exact Hr |]. by eapply main_flushes.
    + by apply Hws.
    + by apply Hbs.
  - apply Forall_cons in Hbi as [_ Hts]. exists evs, ws. split; [done | by apply Hws | by apply Hbs].
Qed.

Lemma simulates_steps s0 s s' evs ws :
  simulates s0 s evs ws → rtc (lock_step gateway_config) s s' → ∃ evs' ws', simulates s0 s' evs' ws'.
Proof.
  intros Hs Hr. revert evs ws Hs. induction Hr as [| s1 s2 s3 Hst _ IH]; intros evs ws Hs; [by eexists _, _ |].
  destruct Hst; try (eapply IH, simulates_same; done).
  edestruct simulates_act as (evs' & ws' & Hs'); [done | done | done |]. by eapply IH.
Qed.

Lemma simulates_start calls tasks w0 :
  Forall (Forall (λ t : Task, match t with Flush env => remove_benign (fe_remove env) | Under _ => True end)) tasks →
  simulates (system_of calls w0) (lock_start calls tasks w0) [] (sy_workers (system_of calls w0)).
Proof.
  intros Hb. split; cbn.
  - apply runs_nil.
  - intros i. rewrite lookup_app, !list_lookup_fmap. destruct (calls !! i) as [acts |]; cbn; [done |].
    by destruct (tasks !! _).
  - apply Forall_app_2; apply Forall_fmap; [by apply Forall_true | done].
Qed.

(** A thread at [Act] can make it as long as there are answers. *)
Lemma simulates_can_act s0 s evs ws :
  lock_inv s → simulates s0 s evs ws → supplied gateway_config ws (lk_world s) → can_act s.
Proof.
  intros Hinv [_ Hw _] Hs i j ops Hi. pose proof (li_threads _ Hinv _ _ Hi) as (_ & Hn & Hg).
  cbn in Hn, Hg. destruct (Hg ltac:(lia)) as (_ & Hj1 & Hj2). specialize (Hw i). rewrite Hi in Hw. cbn in Hw.
  destruct j as [wk | [| [env | m] ts]]; [| done | |].
  - destruct (worker_goes_on gateway_config ws (lk_world s) i wk Hs Hw) as [-> | (pubs & wk' & w' & Hc)]; [done |].
    eexists _, _. by eapply worker_acts.
  - destruct (flush_world env (lk_world s)) as [attempts w'] eqn:Hf. eexists _, _. by eapply flush_acts.
  - eexists _, _. apply under_acts.
Qed.
End facts.

(** ** Properties *)

Lemma Forall_or_else {A} (P : A → Prop) (Q : Prop) l : (∀ i x, l !! i = Some x → P x ∨ Q) → Forall P l ∨ Q.
Proof.
  induction l as [| x l IH]; intros Hl; [left; apply Forall_nil_2 |].
  destruct (Hl 0%nat x eq_refl) as [Hx | HQ]; [| by right].
  destruct IH as [IH | HQ]; [intros i y Hi; by apply (Hl (S i)) | left; by apply Forall_cons_2 | by right].
Qed.

(** C28: The threads of the gateway finish, under every schedule of their accesses to the
    mutexes. If the broker and, when TCP is enabled, the TCP server answer as many
    publications as the handler calls make, whatever the answers are, then from every state
    a run reaches: some thread can make a step unless the workers have made all their
    calls and the others all their tasks, so no set of threads waits for each other; no
    run goes on for ever; the effect of a publication, of a flush or of another guarded
    section is made by the owner of its mutex, so two are never made at the same time; and
    the effects made so far are a run of [System]. *)
Theorem workers_finish `{MqttPublish M E} `{CacheLaws C AEnv LEnv REnv}
    cfg calls tasks (w0 : world M C E AEnv LEnv) s :
  let messages_left := sum_list ((λ acts, length (messages cfg acts)) <$> calls) in
  (messages_left <= length (w_mqtt_envs w0))%nat →
  (tc_enabled (gc_tcp cfg) = true → messages_left <= length (w_tcp_envs w0))%nat →
  Forall (λ env, ∀ fd o json, ∃ r, send_json fd o env json = Ret r) (w_tcp_envs w0) →
  Forall (Forall (λ t, match t with Flush env => remove_benign (fe_remove env) | Under _ => True end)) tasks →
  rtc (lock_step cfg) (lock_start calls tasks w0) s →
  (Forall thread_done (lk_threads s) ∨ ∃ s', lock_step cfg s s') ∧
  sn (lock_step cfg) s ∧
  (∀ i j ops m, lk_threads s !! i = Some (mk_thread j (Act :: ops)) → guard j = Some m →
     lk_owner s !! m = Some i) ∧
  (∃ evs ws, gateway_runs cfg (system_of calls w0) evs (mk_gateway_system ws (lk_world s)) ∧
     ∀ i, ws !! i = lk_threads s !! i ≫= worker_of).
Proof.
  intros messages_left Hm Ht Ha Hb Hr.
  pose proof (lock_steps_inv cfg _ _ Hr (lock_start_inv calls tasks w0)) as Hinv.
  destruct (simulates_steps cfg _ _ _ _ _ (simulates_start cfg calls tasks w0 Hb) Hr) as (evs & ws & Hs).
  pose proof (supplied_runs cfg _ _ _ (supplied_start cfg calls w0 Hm Ht Ha) (sm_runs _ _ _ _ _ Hs)) as Hsup.
  pose proof (simulates_can_act cfg _ _ _ _ Hinv Hs Hsup) as Hready.
  split_and!.
  - apply Forall_or_else. intros i th Hi. by eapply thread_goes_on.
  - by apply lock_step_sn.
  - intros i j ops m Hi Hg. destruct (li_threads _ Hinv _ _ Hi) as (_ & Hn & Hact). cbn in Hn, Hact.
    destruct (Hact ltac:(lia)) as (Hheld & _). apply (li_owner _ Hinv). eexists. split; [done |]. by apply Hheld.
  - exists evs, ws. split; apply Hs.
Qed.

#[local] Existing Instance flaky_broker.

Definition with_tcp : GatewayConfig := set_gc_tcp (set_tc_enabled true default_tcp) default_gateway.

(** A server that refuses the first address, takes up to 1000 bytes and then fails. *)
Definition short_connection : tcp_env :=
  mk_tcp_env (Some [mk_candidate 6 false; mk_candidate 7 true]) [Wrote 1000; WriteFailed (Eother "broken pipe")].

Lemma short_connection_answers fd o json : ∃ r, send_json fd o short_connection json = Ret r.
Proof.
  unfold send_json. destruct (if is_connected fd then _ else _) as [[connected fd1] o1].
  destruct connected; cbn [negb]; [| by eexists].
  assert (∃ r, send_all (bytes_of (json +:+ nl)) (te_sends short_connection) = Ret r) as [[ok line] ->].
  { unfold send_all, short_connection. cbn [te_sends send_from]. destruct (_ <=? _)%nat; [by eexists |].
    cbn [send_from]. destruct (_ <=? _)%nat; by eexists. }
  cbn [mbind exec_bind]. destruct ok; cbn [negb]; [by eexists | destruct (disconnect fd1 o1); by eexists].
Qed.

Definition answered_world : world unit FileCache bool append_env bool :=
  mk_world tt sample_cache (-1) os_init [] [] [] []
    [mk_publish_env true file_ok true; mk_publish_env false file_ok true] [short_connection; short_connection].

(** The tasks of the main thread, and the callbacks of the MQTT library. *)
Definition other_tasks : list (list (task (flush_env bool bool (bool * replace_env)))) :=
  [[Flush (mk_flush_env true up_then_down replace_ok); Under StatusesMutex]; [Under AckMutex; Under AckMutex]].

(** A worker waits for its acknowledgment, the callback has its mutex, and the main thread
    has come to flush. *)
Lemma waiting_for_ack :
  ∃ s, rtc (lock_step with_tcp) (lock_start two_workers other_tasks answered_world) s ∧
    lk_owner s !! PublisherMutex = Some 0%nat ∧ lk_owner s !! AckMutex = Some 3%nat ∧
    th_ops <$> lk_threads s !! 0%nat = Some [Lock AckMutex; Unlock AckMutex; Act; Unlock PublisherMutex] ∧
    th_ops <$> lk_threads s !! 2%nat = Some [Lock PublisherMutex; Act; Unlock PublisherMutex].
Proof.
  eexists. split.
  { unfold lock_start, two_workers, other_tasks. cbn [fmap list_fmap app].
    eapply rtc_l; [eapply (thread_begins _ _ _ _ 0%nat); [reflexivity | by left] |]. cbn [insert list_insert].
    eapply rtc_l; [eapply (thread_acts _ _ _ _ 0%nat); [reflexivity | eapply worker_acts, step_valid; reflexivity] |]. cbn [insert list_insert].
    eapply rtc_l; [eapply (thread_begins _ _ _ _ 0%nat); [reflexivity | apply publish_locks, (client_publishes 1)] |].
    cbn [insert list_insert replicate app].
    eapply rtc_l; [eapply (thread_locks _ _ _ _ 0%nat); reflexivity |]. cbn [insert list_insert].
    eapply rtc_l; [eapply (thread_locks _ _ _ _ 0%nat); reflexivity |]. cbn [insert list_insert].
    eapply rtc_l; [eapply (thread_waits _ _ _ _ 0%nat); reflexivity |]. cbn [insert list_insert].
    eapply rtc_l; [eapply (thread_begins _ _ _ _ 3%nat); [reflexivity | reflexivity] |]. cbn [insert list_insert].
    eapply rtc_l; [eapply (thread_locks _ _ _ _ 3%nat); reflexivity |]. cbn [insert list_insert].
    eapply rtc_l; [eapply (thread_begins _ _ _ _ 2%nat); [reflexivity | apply (flush_locks []), Forall_nil_2] |].
    cbn [insert list_insert concat app]. apply rtc_refl. }
  split_and!; reflexivity.
Qed.

Lemma workers_finish_witness :
  ∃ s, rtc (lock_step with_tcp) (lock_start two_workers other_tasks answered_world) s ∧
    lk_owner s !! PublisherMutex = Some 0%nat ∧ lk_owner s !! AckMutex = Some 3%nat ∧
    (∃ s', lock_step with_tcp s s') ∧ sn (lock_step with_tcp) s.
Proof.
  destruct waiting_for_ack as (s & Hr & Hp & Ha & H0 & H2). exists s. split; [exact Hr |].
  split; [exact Hp |]. split; [exact Ha |].
  destruct (workers_finish with_tcp two_workers other_tasks answered_world s) as (Hgo & Hend & _).
  - apply Nat.leb_le. vm_compute. reflexivity.
  - intros _. apply Nat.leb_le. vm_compute. reflexivity.
  - do 2 (apply Forall_cons_2; [exact short_connection_answers |]). apply Forall_nil_2.
  - apply Forall_cons_2; [| apply Forall_cons_2; [| apply Forall_nil_2]];
      repeat (apply Forall_cons_2; [exact I || reflexivity |]); apply Forall_nil_2.
  - exact Hr.
  - split; [| exact Hend]. destruct Hgo as [Hd | Hgo]; [| exact Hgo]. exfalso.
    destruct (lk_threads s !! 0%nat) as [th |] eqn:Hth; [| discriminate H0]. injection H0 as H0.
    destruct (Forall_lookup_1 _ _ _ _ Hd Hth) as [He _]. rewrite He in H0. discriminate H0.
Defined.
